(* ===== verification/_CoqProject ===== *)
-Q . S2P
Prelude.v
GoStrings.v
GoTime.v
BillingTypes.v
Money.v
Ota.v
Invoice.v
Evidence.v
PaymentTypes.v
Payment.v
Database.v
Tables.v
Keeps.v
Fixtures.v
Accounts.v
Ledger.v
AutoTopUp.v
Intents.v
Credits.v
Jobs.v
Attempts.v
Evolution.v
Webhooks.v
Inbox.v
Customer.v
Reversals.v
Setups.v
Handoff.v
Protocols.v
Settlement.v
HandoffCommit.v
Closure.v
Preflight.v
Collector.v
Creation.v
Operations.v
Responsibility.v
HandoffSteps.v
HandoffSafety.v
HandoffFixtures.v
Handover.v
ClosureSteps.v
Timeline.v
ClosureFixtures.v
ClosureSafety.v
ClosedClouds.v
Wallet.v
Store.v
Runs.v
Worker.v
BillingSchema.v
Pricing.v
Usage.v
Profiles.v
BillingInvoices.v
Activity.v
Document.v
BillingService.v
PriceTimeline.v
BillingOps.v
BillingFixtures.v
BillingSteps.v
BillingSafety.v
Debits.v
BillingHistory.v
BillingFrames.v
Closing.v
ClosePeriods.v
