(* ===== verification/Prelude.v ===== *)
(** * RTK Billing: a verification library

    The Go service [rtk_billing] rates usage, closes billing periods into invoices, keeps
    a prepaid balance per customer, tops the balance up through payment providers, and
    hands accounts over to new owners or closes them.  Its state is a PostgreSQL
    database; every operation is one transaction (or a short sequence of them).  This
    library translates the packages below into executable functions over an explicit
    database state and proves what they promise.

    ** Parts of the program and files

    - The language: errors, results, records, machine integers (this file), strings as
      byte lists ([GoStrings]), instants in nanoseconds and the civil calendar ([GoTime]).
    - [internal/billing], [internal/currency] (pure): data ([BillingTypes]), exact pricing
      and rounding ([Money]), OTA evidence and rate cards ([Ota]), drafting, taxing,
      issuing and settling invoices ([Invoice]), financial gates ([Evidence]).
    - [internal/payment] (pure): data ([PaymentTypes]), balance arithmetic, policy
      evaluation, the state machine of payment intents ([Payment]).
    - The database: state, transactions and digests ([Database]); tables with unique
      indexes and CHECK constraints, statements and barriers ([Tables]); the rows and
      triggers of the handoff and closure protocols ([Protocols]) and of billing
      ([BillingSchema]).  [Keeps] is the logic: [keeps R m] says that whatever [m] does
      relates the states by [R].
    - [internal/billingidentity], [internal/paymentstore]: accounts and tenant authority
      ([Accounts]), the ledger ([Ledger]), automatic top-ups ([AutoTopUp]), intents and
      their credits ([Intents], [Credits]), jobs and provider attempts ([Jobs],
      [Attempts]), webhooks and mails ([Webhooks], [Inbox]), customer operations
      ([Customer], [Setups]), reversals ([Reversals]), ownership handoffs ([Handoff],
      [Settlement], [HandoffCommit]), cloud closures ([Closure], [Preflight],
      [Collector]), cloud creation ([Creation]).
    - [internal/paymentservice]: the worker as a tree of effects ([Worker]).
    - [internal/billingstore]: prices ([Pricing]), usage, seals and grants ([Usage]),
      profiles ([Profiles]), invoices ([BillingInvoices]), the activity feed ([Activity]).
    - [internal/billingservice], [internal/billingdocument]: closing a period as a tree of
      transactions ([BillingService]), the invoice PDF ([Document]).

    ** How code is translated

    A Go function [f] is the definition [f]; [(T, error)] is [Result T].  A method of a
    store is a computation [M T := Db -> Result (T * Db)]; [withTx] commits or rolls
    back, and a failed operation leaves the database as it was ([run]).  A transaction
    that commits although it returns an error (a diagnosis that is kept) has type
    [M (Result T)] or [Outcome].  SQL statements are selections, insertions and updates of
    tables, which check unique indexes and constraints; triggers that guard a table are
    part of the statement.  Row locks and advisory locks make transactions of one account
    serial, so a transaction is one atomic step; programs that run several transactions
    are trees of them, and any other operation may run between two steps.  A caller's
    tenant scope is [Ctx]; [None] is an internal caller.  [int64] values are [Z] with
    the overflow checks and the wrap-around of the code written out.

    Code that is not in the repository is a parameter: [Postgres] (fresh identifiers,
    time resolution), [Digest] (SHA-256, JSON encodings), [BillingExternal] (the remote
    verifiers and the UUID parser), and the payment providers' answers in [Worker].

    ** What the theorems show

    - Pricing and tax ([Money], [Invoice], [Ota]): prices equal exact rational
      arithmetic, results stay within int64, the tax of an invoice is distributed by
      largest remainders, aggregation does not depend on the order of facts, the
      keys of aggregation are decodable.
    - Ledger and payments ([Ledger], [AutoTopUp], [Intents], [Credits], [Jobs], [Inbox],
      [Reversals]): functional specifications of each operation, idempotent replays, one
      credit per paid intent, leases, webhooks.
    - The payment store as a whole: an invariant over runs of all operations, the
      refinement of an abstract wallet ([Wallet], [Store], [Runs]); and for any
      interleaving of workers, crashes and webhooks, at most one charge per payment
      ([Worker]).
    - Protocols: handoffs ([HandoffSteps], [HandoffSafety], [Handover]) open the new
      owner's period with the confirmed balance; responsibility periods form a time line
      ([Responsibility], [Timeline]); closures ([ClosureSteps], [ClosureSafety],
      [ClosedClouds]) are ready only without open business, and closed clouds stay so.
    - Billing: prices form a time line without gaps or overlaps ([PriceTimeline]); every
      operation is a step on the tables behind an invoice ([BillingOps], [BillingSteps]);
      every stored invoice bills exactly the usage of its closed period ([BillingSafety])
      and is final ([BillingHistory]); [Debits] and [BillingFrames] say which operations
      leave ledger debits and settlement links alone.

    [Fixtures], [HandoffFixtures], [ClosureFixtures] and [BillingFixtures] hold concrete
    stores at which the theorems are applied.

    ** Fuel and bounds

    Only [Document.group_digits] and the back-off of [Webhooks.retry_delay] recurse on a
    counter: the number of digits, and a bound proved sufficient in [Inbox].  Every
    other recursion is structural.  Runs are lists of operations or reflexive transitive
    closures of steps, of any length.

    ** Not modelled

    Rows of the audit log; foreign keys; triggers that make tables append-only (no
    operation updates them) and the trigger that binds ledger entries to responsibility
    periods; the archive of replaced policies; the paged listings of payments and ledger
    entries; the listing of pending closure revocations and of handoff targets; the
    drawing of the top-up statement (a PDF library); the OTA cutover audit, a read-only
    report; HTTP handlers, provider adapters, HTTP clients, mail, configuration, the
    payment simulator, raw retention, the polling loop and the commands. *)

From stdpp Require Export base tactics numbers strings list list_numbers gmap sorting pretty.
From Stdlib Require Export ZArith Lia.

(** The whole library computes on [Z]; [nat] is only used for list indices. *)
#[global] Open Scope Z_scope.
#[global] Set Default Goal Selector "!".

(** ** Errors

    One constructor per sentinel error value of the Go packages.  A wrapped
    error ([fmt.Errorf "%w: ..."]) is its sentinel: callers only observe it with
    [errors.Is].  [ErrNoRows] and [ErrPg] are the raw errors of the driver:
    an empty result row, and a PostgreSQL error with its SQLSTATE code and the
    name of the violated constraint. *)
Inductive GoError :=
  (* internal/billing *)
  | ErrInvalidAmount | ErrInvalidScale | ErrInvalidRounding | ErrOverflow
  | ErrInvoiceMismatch | ErrInvalidInvoice | ErrInvoiceIssued | ErrRateNotFound
  | ErrProfileConfigurationRequired | ErrOTACardReview
  (* internal/payment *)
  | ErrInvalidCurrency | ErrPaymentInvalidAmount | ErrBalanceOverflow
  | ErrInvalidDirection | ErrInvalidReason | ErrInvalidState
  | ErrInvalidTransition | ErrInvalidPolicy | ErrPaymentMethodInactive
  | ErrCapabilityUnsupported
  (* internal/paymentstore *)
  | ErrNotFound | ErrConflict | ErrIdempotencyConflict | ErrAccountClosed
  | ErrLeaseConflict | ErrJobNotActionable | ErrProviderReversalRequired
  | ErrOwnershipEvidenceMissing | ErrOwnershipVersionConflict
  | ErrHandoffFenced | ErrSetupInvalidated
  | ErrSettlementEvidenceStale | ErrHandoffParticipant | ErrHandoffNotConfirmable
  | ErrCloudClosureNotReady | ErrCloudClosureCommandRetired
  (* internal/billingstore *)
  | ErrBillingNotFound | ErrBillingConflict | ErrIncomplete | ErrInvoiceImmutable
  | ErrPricingUnavailable
  (* internal/billingidentity *)
  | ErrIdentityInvalid | ErrIdentityUnavailable | ErrIdentityDenied | ErrIdentityVersion
  | ErrIdentityTransition
  (* database driver *)
  | ErrNoRows
  | ErrPg (code constraint : string).

#[export] Instance GoError_eq_dec : EqDecision GoError.
Proof. solve_decision. Defined.

(** ** Results

    The Go convention [(value, err)]: every call site that gets a non-nil error
    discards the value, so a fallible function is a sum. *)
Inductive Result (A : Type) :=
  | Ok (a : A)
  | Err (e : GoError).
Arguments Ok {_} _.
Arguments Err {_} _.

#[export] Instance Result_eq_dec {A} `{EqDecision A} : EqDecision (Result A).
Proof. solve_decision. Defined.

#[export] Instance Result_ret : MRet Result := fun A a => Ok a.
#[export] Instance Result_bind : MBind Result := fun A B f m =>
  match m with Ok a => f a | Err e => Err e end.

Definition is_ok {A} (r : Result A) : bool :=
  match r with Ok _ => true | Err _ => false end.

(** [if cond { return err }] *)
Definition guard_err (b : bool) (e : GoError) : Result unit :=
  if b then Ok tt else Err e.

Lemma result_bind_ok {A B} (m : Result A) (f : A → Result B) (b : B) :
  m ≫= f = Ok b ↔ ∃ a, m = Ok a ∧ f a = Ok b.
Proof.
  split.
  - destruct m; [eauto | discriminate].
  - by intros (a & -> & ?).
Qed.

Lemma guard_err_ok (b : bool) (e : GoError) (u : unit) :
  guard_err b e = Ok u ↔ b = true.
Proof. by destruct b, u. Qed.

(** A loop with early return: [for _, x := range xs { acc, err = f(acc, x) }]. *)
Fixpoint fold_result {A S} (f : S → A → Result S) (xs : list A) (s : S) : Result S :=
  match xs with
  | [] => Ok s
  | x :: xs => s' ← f s x; fold_result f xs s'
  end.

Lemma fold_result_app {A S} (f : S → A → Result S) xs ys s :
  fold_result f (xs ++ ys) s = (fold_result f xs s ≫= fold_result f ys).
Proof.
  revert s; induction xs as [|x xs IH]; intros s; [done|]; simpl.
  destruct (f s x); simpl; [apply IH | done].
Qed.

(** Invariant rule for such loops: [P] holds of the elements consumed so far. *)
Lemma fold_result_inv {A S} (P : list A → S → Prop) (f : S → A → Result S) xs s s' :
  P [] s →
  (∀ done x s1 s2, P done s1 → f s1 x = Ok s2 → P (done ++ [x]) s2) →
  fold_result f xs s = Ok s' → P xs s'.
Proof.
  intros H0 Hstep.
  assert (∀ ys done s1, P done s1 → fold_result f ys s1 = Ok s' → P (done ++ ys) s')
    as Hgen; [|intros Hf; by apply (Hgen xs [] s)].
  induction ys as [|y ys IH]; intros done s1 Hd Hf; simpl in Hf.
  - rewrite app_nil_r. by injection Hf as ->.
  - apply result_bind_ok in Hf as (s2 & Hs2 & Hf).
    rewrite cons_middle, app_assoc. eauto.
Qed.

Lemma fold_result_ext {A S} (f g : S → A → Result S) xs s :
  (∀ s x, f s x = g s x) → fold_result f xs s = fold_result g xs s.
Proof.
  intros Hfg. revert s. induction xs as [|x xs IH]; intros s; simpl; [done|].
  rewrite Hfg. destruct (g s x); simpl; auto.
Qed.

(** ** Go conditions

    Conditions stay boolean, as in the source; [==] and [!=] are decidable
    equality at any type, so that [vm_compute] evaluates every guard. *)
Declare Scope go_scope.
Delimit Scope go_scope with go.
Notation "x == y" := (bool_decide (x = y)) (at level 70, no associativity) : go_scope.
Notation "x != y" := (negb (bool_decide (x = y))) (at level 70, no associativity) : go_scope.
Notation "x >=? y" := (Z.geb x y) (at level 70, no associativity) : go_scope.
Notation "x >? y" := (Z.gtb x y) (at level 70, no associativity) : go_scope.
#[global] Open Scope go_scope.

Create Rewrite HintDb go_cond.
#[export] Hint Rewrite andb_true_iff orb_true_iff negb_true_iff andb_false_iff
  orb_false_iff negb_false_iff bool_decide_eq_true bool_decide_eq_false
  Z.ltb_lt Z.ltb_ge Z.leb_le Z.leb_gt Z.gtb_ltb Z.geb_leb Z.eqb_eq Z.eqb_neq
  Nat.eqb_eq Nat.eqb_neq
  : go_cond.

(** [reflect_go] turns the boolean guards among the hypotheses into propositions. *)
Ltac reflect_go :=
  repeat match goal with
    | H : guard_err _ _ = Ok _ |- _ => apply guard_err_ok in H
    | H : _ = true |- _ => progress autorewrite with go_cond in H
    | H : _ = false |- _ => progress autorewrite with go_cond in H
    | H : _ ∧ _ |- _ => destruct H
    | H : true = false |- _ => discriminate H
    | H : false = true |- _ => discriminate H
    end.

(** [split_guards H] follows the early returns of a function whose successful
    result is recorded by [H]. *)
Ltac split_guards H :=
  repeat match type of H with
    | (let _ := _ in _) = _ => progress cbv zeta in H
    | (match ?c with true => _ | false => _ end) = _ =>
        let E := fresh "Hc" in destruct c eqn:E; try discriminate H
    | (match ?m with Ok _ => _ | Err _ => _ end) = _ =>
        let E := fresh "Hm" in destruct m eqn:E; try discriminate H
    | mbind _ ?m = Ok _ =>
        let a := fresh "r" in let E := fresh "Hm" in
        apply result_bind_ok in H as (a & E & H)
    | guard_err _ _ = Ok _ => apply guard_err_ok in H
    end.

(** ** Field update

    [r <| f := v |>] is Go's [r.f = v] on a value receiver.  A record opts in by
    an [Eta] instance that rebuilds it from its projections; the updater of a
    projection is found by abstracting that projection in the rebuilt record. *)
Class Eta (R : Type) := eta : R → R.
Class Updater {R E : Type} (proj : R → E) := upd : (E → E) → R → R.
#[global] Arguments upd {R E} proj {_} _ _ : simpl never.

Ltac find_updater :=
  lazymatch goal with
  | |- @Updater ?R ?E ?proj =>
      let f := fresh "f" in
      let r := fresh "r" in
      let inst := constr:(_ : Eta R) in
      intros f r;
      let whole := eval hnf in (inst r) in
      lazymatch eval pattern (proj r) in whole with
      | ?body _ => let t := eval cbv beta in (body (f (proj r))) in exact t
      end
  end.
#[export] Hint Extern 1 (Updater _) => find_updater : typeclass_instances.

Notation "r <| p := v |>" := (upd p (fun _ => v) r)
  (at level 12, left associativity, p at level 11, format "r <| p  :=  v |>") : go_scope.
Notation "r <| p ::= f |>" := (upd p f r)
  (at level 12, left associativity, p at level 11, format "r <| p  ::=  f |>") : go_scope.

(** [get_upd] computes every projection of an updated record in the goal and the
    hypotheses, without unfolding the record. *)
Ltac get_upd :=
  repeat match goal with
    | |- context [ ?p (@upd ?R ?E ?q ?i ?f ?r) ] =>
        first [ constr_eq p q; change (p (@upd R E q i f r)) with (f (p r))
              | change (p (@upd R E q i f r)) with (p r) ]
    | H : context [ ?p (@upd ?R ?E ?q ?i ?f ?r) ] |- _ =>
        first [ constr_eq p q; change (p (@upd R E q i f r)) with (f (p r)) in H
              | change (p (@upd R E q i f r)) with (p r) in H ]
    end; cbv beta in *.

(** ** Machine integers

    Go's [int64] (and [int], 64 bits on the supported platforms): arithmetic that
    the source leaves unchecked wraps around. *)
Definition maxInt64 : Z := 2 ^ 63 - 1.
Definition minInt64 : Z := - 2 ^ 63.
Definition IsInt64 (z : Z) : bool := (minInt64 <=? z) && (z <=? maxInt64).
Definition wrap64 (z : Z) : Z := (z + 2 ^ 63) mod 2 ^ 64 - 2 ^ 63.

Definition int64 (z : Z) : Prop := minInt64 ≤ z ≤ maxInt64.

Lemma IsInt64_true z : IsInt64 z = true ↔ int64 z.
Proof. unfold IsInt64, int64. by rewrite andb_true_iff, !Z.leb_le. Qed.

Lemma IsInt64_false z : IsInt64 z = false ↔ z < minInt64 ∨ maxInt64 < z.
Proof. unfold IsInt64. rewrite andb_false_iff, !Z.leb_gt. lia. Qed.

Lemma wrap64_id z : int64 z → wrap64 z = z.
Proof.
  unfold int64, minInt64, maxInt64, wrap64. intros ?.
  rewrite Z.mod_small; lia.
Qed.

Lemma wrap64_int64 z : int64 (wrap64 z).
Proof.
  unfold int64, minInt64, maxInt64, wrap64.
  pose proof (Z.mod_pos_bound (z + 2 ^ 63) (2 ^ 64)). lia.
Qed.

#[export] Hint Rewrite IsInt64_true IsInt64_false : go_cond.

(** ** Sums over lists *)
Definition sum_by {A} (f : A → Z) (l : list A) : Z := foldr (fun x s => f x + s) 0 l.

Lemma sum_by_app {A} (f : A → Z) l k : sum_by f (l ++ k) = sum_by f l + sum_by f k.
Proof. induction l as [|x l IH]; simpl; lia. Qed.

Lemma sum_by_nonneg {A} (f : A → Z) l : (∀ x, x ∈ l → 0 ≤ f x) → 0 ≤ sum_by f l.
Proof.
  induction l as [|x l IH]; intros Hf; simpl; [lia|].
  pose proof (Hf x (list_elem_of_here x l)).
  assert (0 ≤ sum_by f l) by (apply IH; intros y ?; apply Hf; by right). lia.
Qed.

Lemma sum_by_ext {A} (f g : A → Z) l : (∀ x, x ∈ l → f x = g x) → sum_by f l = sum_by g l.
Proof.
  induction l as [|x l IH]; intros Hf; simpl; [done|].
  rewrite Hf by left. rewrite IH; [done|]. intros y ?. apply Hf. by right.
Qed.

Lemma sum_by_add {A} (f g : A → Z) l :
  sum_by (fun x => f x + g x) l = sum_by f l + sum_by g l.
Proof. induction l as [|x l IH]; simpl; lia. Qed.

Lemma sum_by_fmap {A B} (h : A → B) (f : B → Z) l : sum_by f (h <$> l) = sum_by (f ∘ h) l.
Proof. induction l as [|x l IH]; [done|exact (f_equal (Z.add (f (h x))) IH)]. Qed.

Lemma sum_by_elem_le {A} (f : A → Z) l x :
  (∀ y, y ∈ l → 0 ≤ f y) → x ∈ l → f x ≤ sum_by f l.
Proof.
  intros Hf Hx. induction Hx as [x l|x y l Hx IH]; simpl.
  - assert (0 ≤ sum_by f l) by (apply sum_by_nonneg; intros; apply Hf; by right). lia.
  - pose proof (Hf y (list_elem_of_here y l)).
    assert (f x ≤ sum_by f l) by (apply IH; intros; apply Hf; by right). lia.
Qed.

#[export] Instance sum_by_Proper {A} (f : A → Z) : Proper (Permutation ==> eq) (sum_by f).
Proof. intros l k Hp. induction Hp; simpl; lia. Qed.

Lemma sum_by_snoc {A} (f : A → Z) l x : sum_by f (l ++ [x]) = sum_by f l + f x.
Proof. rewrite sum_by_app. simpl. lia. Qed.

(** ** Searching *)

Lemma existsb_true {A} (p : A → bool) l : existsb p l = true ↔ ∃ x, x ∈ l ∧ p x = true.
Proof. rewrite existsb_exists. by setoid_rewrite list_elem_of_In. Qed.

Lemma existsb_false {A} (p : A → bool) l : existsb p l = false ↔ ∀ x, x ∈ l → p x = false.
Proof.
  rewrite <- not_true_iff_false, existsb_true. split.
  - intros Hn x Hx. destruct (p x) eqn:E; naive_solver.
  - intros Hall (x & Hx & Hp). by rewrite Hall in Hp.
Qed.

Lemma forallb_true {A} (p : A → bool) l : forallb p l = true ↔ ∀ x, x ∈ l → p x = true.
Proof. rewrite forallb_forall. by setoid_rewrite list_elem_of_In. Qed.

Lemma find_some_iff {A} (p : A → bool) l x : find p l = Some x → x ∈ l ∧ p x = true.
Proof. intros [? ?]%find_some. by rewrite list_elem_of_In. Qed.

Lemma find_none_iff {A} (p : A → bool) l : find p l = None ↔ ∀ x, x ∈ l → p x = false.
Proof.
  split; [intros Hn x Hx; eapply find_none; [done|by apply list_elem_of_In]|].
  induction l as [|y l IH]; intros Hall; [done|]. simpl.
  rewrite (Hall y) by left. apply IH. intros x Hx. apply Hall. by right.
Qed.

Lemma find_fmap_same {A} (p : A → bool) (g : A → A) l :
  (∀ x, p (g x) = p x) → find p (g <$> l) = g <$> find p l.
Proof.
  intros Hp. induction l as [|x l IH]; [done|]. rewrite fmap_cons. simpl. rewrite Hp, IH.
  by destruct (p x).
Qed.

Lemma find_app {A} (p : A → bool) l k :
  find p (l ++ k) = match find p l with Some x => Some x | None => find p k end.
Proof. induction l as [|x l IH]; [done|]. simpl. rewrite IH. by destruct (p x). Qed.

(** ** Counting *)

(** Distinct values inside a list of the same length are all of its values. *)
Lemma NoDup_incl_length_full {A} (l k : list A) x :
  NoDup l → (∀ y, y ∈ l → y ∈ k) → (length k ≤ length l)%nat → x ∈ k → x ∈ l.
Proof.
  intros Hnd Hincl Hlen Hx.
  assert (l ≡ₚ k) as ->; [|done].
  apply submseteq_length_Permutation; [by apply NoDup_submseteq|done].
Qed.

Lemma length_filter_split {A} (p : A → bool) l :
  (length (filter (fun x => p x = true) l) + length (filter (fun x => p x = false) l)
   = length l)%nat.
Proof.
  induction l as [|x l IH]; [done|]. rewrite !filter_cons.
  destruct (p x) eqn:E; repeat case_decide; simpl; lia || congruence.
Qed.

(** Elements of a list with distinct keys are determined by their key. *)
Lemma NoDup_fmap_inj_elem {A K} (key : A → K) (l : list A) x y :
  NoDup (key <$> l) → x ∈ l → y ∈ l → key x = key y → x = y.
Proof.
  induction l as [|z l IH]; [by intros _ ?%elem_of_nil|]. rewrite fmap_cons, NoDup_cons.
  intros [Hz Hnd] [-> |Hx]%elem_of_cons [-> |Hy]%elem_of_cons Hk; [done| | |by apply IH].
  - destruct Hz. rewrite Hk. apply list_elem_of_fmap. eauto.
  - destruct Hz. rewrite <- Hk. apply list_elem_of_fmap. eauto.
Qed.

Lemma find_unique {A K} `{!EqDecision K} (key : A → K) (l : list A) x :
  NoDup (key <$> l) → x ∈ l → find (fun y => key y == key x) l = Some x.
Proof.
  intros Hnd Hx. destruct (find _ l) as [y|] eqn:Hy.
  - apply find_some_iff in Hy as [Hin Hk%bool_decide_eq_true]. f_equal.
    by eapply (NoDup_fmap_inj_elem key).
  - rewrite find_none_iff in Hy. specialize (Hy x Hx). by rewrite bool_decide_eq_true_2 in Hy.
Qed.

Lemma find_view {A B} (f : A → B) (p : B → bool) (l : list A) :
  find p (f <$> l) = f <$> find (fun x => p (f x)) l.
Proof. induction l as [|x l IH]; [done|]. simpl. destruct (p (f x)); [done|apply IH]. Qed.

Lemma NoDup_fmap_filter {A B} (f : A → B) (P : A → Prop) `{∀ x, Decision (P x)} l :
  NoDup (f <$> l) → NoDup (f <$> filter P l).
Proof.
  induction l as [|x l IH]; [done|]. rewrite fmap_cons, NoDup_cons, filter_cons.
  intros [Hx Hl]. case_decide; [|auto]. rewrite fmap_cons, NoDup_cons. split; [|auto].
  intros (y & Hy & [_ Hin]%list_elem_of_filter)%list_elem_of_fmap.
  apply Hx. apply list_elem_of_fmap. eauto.
Qed.

Lemma filter_ext_in {A} (P Q : A → Prop) `{∀ x, Decision (P x), ∀ x, Decision (Q x)} (l : list A) :
  (∀ x, x ∈ l → P x ↔ Q x) → filter P l = filter Q l.
Proof.
  induction l as [|x l IH]; intros Hpq; [done|]. rewrite !filter_cons.
  pose proof (Hpq x (list_elem_of_here x l)). rewrite IH by (intros y ?; apply Hpq; by right).
  repeat case_decide; naive_solver.
Qed.

(** Splitting a list by the value of a key and regrouping it. *)
Lemma concat_groups {A K} `{EqDecision K} (key : A → K) (ks : list K) (l : list A) :
  NoDup ks → (∀ x, x ∈ l → key x ∈ ks) →
  concat ((fun k => filter (fun x => key x = k) l) <$> ks) ≡ₚ l.
Proof.
  intros Hnd. revert l. induction Hnd as [|k ks Hk Hnd IH]; intros l Hall.
  - destruct l as [|x l]; [done|]. exfalso. specialize (Hall x (list_elem_of_here x l)). set_solver.
  - rewrite fmap_cons. simpl.
    assert (concat ((fun k' => filter (fun x => key x = k') l) <$> ks)
            = concat ((fun k' => filter (fun x => key x = k') (filter (fun x => key x ≠ k) l)) <$> ks))
      as ->.
    { f_equal. apply list_fmap_ext. intros i k' Hk'%list_elem_of_lookup_2.
      rewrite list_filter_filter. apply filter_ext_in. intros x _. set_solver. }
    rewrite IH by (intros x [Hx Hin]%list_elem_of_filter; specialize (Hall x Hin); set_solver).
    clear. induction l as [|x l IH]; [done|]. rewrite !filter_cons.
    repeat case_decide; try done; simpl.
    + by rewrite IH.
    + by rewrite <- Permutation_middle, IH.
Qed.

(** Adding one element to what a sum over a list selects. *)
Lemma sum_filter_flip {A K} (key : A → K) (f : A → Z) (p q : A → bool) l x :
  NoDup (key <$> l) → x ∈ l → p x = false → q x = true →
  (∀ y, y ∈ l → key y ≠ key x → q y = p y) →
  sum_by f (filter (fun y => q y = true) l) = sum_by f (filter (fun y => p y = true) l) + f x.
Proof.
  induction l as [|y l IH]; intros Hnd Hx Hp Hq Hsame; [by apply elem_of_nil in Hx|].
  rewrite fmap_cons, NoDup_cons in Hnd. destruct Hnd as [Hy Hnd]. rewrite !filter_cons.
  apply elem_of_cons in Hx as [->|Hx].
  - rewrite Hp, Hq, decide_True, decide_False by done. simpl.
    rewrite (filter_ext_in (fun y => q y = true) (fun y => p y = true)); [lia|].
    intros z Hz. rewrite (Hsame z); [done|by right|]. intros Heq. apply Hy. rewrite <- Heq.
    apply list_elem_of_fmap. eauto.
  - assert (key y ≠ key x) as Hne.
    { intros Heq. apply Hy. rewrite Heq. apply list_elem_of_fmap. eauto. }
    rewrite (Hsame y) by (done || left).
    assert (∀ w, w ∈ l → key w ≠ key x → q w = p w) as Hsame' by (intros w Hw; apply Hsame; by right).
    specialize (IH Hnd Hx Hp Hq Hsame'). case_decide; simpl; lia.
Qed.
