(* ===== verification/GoStrings.v ===== *)
(** * Go strings

    A Go string is a sequence of bytes: [string] here.  This file holds what the
    program uses of package [strings] and of the conversions around it:
    [TrimSpace] (with the Unicode white space in its UTF-8 encoding), [ToLower]
    on ASCII letters, [Split]/[Join] on the NUL separator of the invoice keys,
    and [sort.Strings].

    [ToLower] leaves the bytes of non-ASCII letters unchanged: provider names and
    hexadecimal digests, the only values the program lowers, are ASCII. *)
From S2P Require Import Prelude.
From Stdlib Require Import Ascii.

Definition bytes_of (s : string) : list N := N_of_ascii <$> String.list_ascii_of_string s.
Definition of_bytes (l : list N) : string := String.string_of_list_ascii (ascii_of_N <$> l).

(** [len(s)] is the number of bytes. *)
Definition len (s : string) : Z := Z.of_nat (String.length s).

(** ** [unicode.IsSpace], by the length of its UTF-8 encoding *)
Definition space1 (a : N) : bool :=
  existsb (N.eqb a) [9; 10; 11; 12; 13; 32]%N.
Definition space2 (a b : N) : bool :=
  N.eqb a 194 && (N.eqb b 133 || N.eqb b 160).                (* U+0085, U+00A0 *)
Definition space3 (a b c : N) : bool :=
  (N.eqb a 225 && N.eqb b 154 && N.eqb c 128)                   (* U+1680 *)
  || (N.eqb a 226 && N.eqb b 128 &&
      ((N.leb 128 c && N.leb c 138)                             (* U+2000..U+200A *)
       || N.eqb c 168 || N.eqb c 169 || N.eqb c 175))           (* U+2028/29, U+202F *)
  || (N.eqb a 226 && N.eqb b 129 && N.eqb c 159)                (* U+205F *)
  || (N.eqb a 227 && N.eqb b 128 && N.eqb c 128).               (* U+3000 *)

Fixpoint trim_left (l : list N) : list N :=
  match l with
  | [] => []
  | a :: l1 =>
      if space1 a then trim_left l1 else
      match l1 with
      | b :: l2 =>
          if space2 a b then trim_left l2 else
          match l2 with
          | c :: l3 => if space3 a b c then trim_left l3 else l
          | [] => l
          end
      | [] => l
      end
  end.

(** The same from the end of the string: the encodings are read backwards. *)
Fixpoint trim_left_rev (l : list N) : list N :=
  match l with
  | [] => []
  | a :: l1 =>
      if space1 a then trim_left_rev l1 else
      match l1 with
      | b :: l2 =>
          if space2 b a then trim_left_rev l2 else
          match l2 with
          | c :: l3 => if space3 c b a then trim_left_rev l3 else l
          | [] => l
          end
      | [] => l
      end
  end.

Definition TrimSpace (s : string) : string :=
  of_bytes (rev (trim_left_rev (rev (trim_left (bytes_of s))))).

Definition lower_byte (a : N) : N := if N.leb 65 a && N.leb a 90 then (a + 32)%N else a.
Definition ToLower (s : string) : string := of_bytes (lower_byte <$> bytes_of s).

(** [code[:n]] for [n <= len(code)]. *)
Definition str_take (n : nat) (s : string) : string := String.substring 0 n s.

(** ** The NUL-separated keys of the invoice builder *)
Definition NUL : ascii := Ascii.ascii_of_nat 0.
Definition nul : string := String NUL "".

(** [strings.Split(s, "\x00")] *)
Fixpoint SplitNul (s : string) : list string :=
  match s with
  | EmptyString => [EmptyString]
  | String c s' =>
      if Ascii.eqb c NUL then EmptyString :: SplitNul s'
      else match SplitNul s' with
           | [] => [String c EmptyString]
           | w :: ws => String c w :: ws
           end
  end.

(** [strings.Join(parts, "\x00")] *)
Fixpoint JoinNul (parts : list string) : string :=
  match parts with
  | [] => ""
  | [w] => w
  | w :: ws => w +:+ nul +:+ JoinNul ws
  end.

Fixpoint has_nul (s : string) : bool :=
  match s with
  | EmptyString => false
  | String c s' => Ascii.eqb c NUL || has_nul s'
  end.

Lemma str_app_assoc (a b c : string) : (a +:+ b) +:+ c = a +:+ (b +:+ c).
Proof. induction a as [|x a IH]; [done|exact (f_equal (String x) IH)]. Qed.

Lemma str_app_nil_r (a : string) : a +:+ "" = a.
Proof. induction a as [|x a IH]; [done|exact (f_equal (String x) IH)]. Qed.

Lemma SplitNul_word w : has_nul w = false → SplitNul w = [w].
Proof.
  induction w as [|c w IH]; simpl; [done|].
  intros [-> Hw]%orb_false_iff. by rewrite IH.
Qed.

Lemma SplitNul_app w s :
  has_nul w = false → SplitNul (w +:+ nul +:+ s) = w :: SplitNul s.
Proof.
  induction w as [|c w IH]; [done|].
  change (String c w +:+ nul +:+ s) with (String c (w +:+ nul +:+ s)). simpl.
  intros [-> Hw]%orb_false_iff. by rewrite IH.
Qed.

(** Splitting a joined key gives the words back when none of them holds a NUL. *)
Lemma SplitNul_JoinNul ws :
  ws ≠ [] → Forall (fun w => has_nul w = false) ws → SplitNul (JoinNul ws) = ws.
Proof.
  induction ws as [|w ws IH]; intros Hne Hall; [done|].
  inversion_clear Hall as [|? ? Hw Hws].
  destruct ws as [|w' ws]; [by apply SplitNul_word|].
  change (JoinNul (w :: w' :: ws)) with (w +:+ nul +:+ JoinNul (w' :: ws)).
  rewrite SplitNul_app by done. by rewrite IH.
Qed.

Lemma JoinNul_inj ws ws' :
  ws ≠ [] → ws' ≠ [] →
  Forall (fun w => has_nul w = false) ws → Forall (fun w => has_nul w = false) ws' →
  JoinNul ws = JoinNul ws' → ws = ws'.
Proof.
  intros ? ? Hw Hw' Heq.
  rewrite <- (SplitNul_JoinNul ws), <- (SplitNul_JoinNul ws') by done. by rewrite Heq.
Qed.

(** ** [sort.Strings]: bytewise lexicographic order *)
Definition sort_Strings (l : list string) : list string := merge_sort String.le l.

Lemma sort_Strings_Permutation l : sort_Strings l ≡ₚ l.
Proof. apply merge_sort_Permutation. Qed.

Lemma sort_Strings_sorted l : StronglySorted String.le (sort_Strings l).
Proof. apply (StronglySorted_merge_sort _). Qed.

(** The result only depends on the multiset of the strings. *)
Lemma sort_Strings_proper l l' : l ≡ₚ l' → sort_Strings l = sort_Strings l'.
Proof.
  intros Hp. apply (StronglySorted_unique String.le).
  - apply sort_Strings_sorted.
  - apply sort_Strings_sorted.
  - by rewrite !sort_Strings_Permutation.
Qed.

#[export] Instance sort_Strings_Proper : Proper (Permutation ==> eq) sort_Strings.
Proof. intros l l'. apply sort_Strings_proper. Qed.

(** ** Stable sorting: [sort.SliceStable(s, less)]

    Insertion keeps an element before the ones it ties with, so equal elements
    keep their order; a stable sort has one result, whatever the algorithm. *)
Section stable.
Context {A : Type} (less : A → A → bool).

Fixpoint insert_stable (x : A) (l : list A) : list A :=
  match l with
  | [] => [x]
  | y :: l' => if less y x then y :: insert_stable x l' else x :: y :: l'
  end.

Definition sort_stable (l : list A) : list A := foldr insert_stable [] l.

Lemma insert_stable_Permutation x l : insert_stable x l ≡ₚ x :: l.
Proof.
  induction l as [|y l IH]; simpl; [done|].
  destruct (less y x); [|done]. rewrite IH. apply Permutation_swap.
Qed.

Lemma sort_stable_Permutation l : sort_stable l ≡ₚ l.
Proof.
  induction l as [|x l IH]; simpl; [done|].
  by rewrite insert_stable_Permutation, IH.
Qed.

(** No element is followed directly by one that is less than it. *)
Lemma insert_stable_sorted x l :
  Sorted (fun a b => less b a = false) l →
  (∀ a b, less a b = true → less b a = false) →
  Sorted (fun a b => less b a = false) (insert_stable x l).
Proof.
  intros Hs Hasym. induction Hs as [|y l Hs IH Hhd]; simpl; [by repeat constructor|].
  destruct (less y x) eqn:E.
  - constructor; [done|]. destruct l as [|z l]; simpl; [by constructor; apply Hasym|].
    destruct (less z x); constructor; [by inversion Hhd | by apply Hasym].
  - repeat constructor; done.
Qed.

Lemma sort_stable_sorted l :
  (∀ a b, less a b = true → less b a = false) →
  Sorted (fun a b => less b a = false) (sort_stable l).
Proof.
  intros Hasym. induction l as [|x l IH]; simpl; [constructor|].
  by apply insert_stable_sorted.
Qed.
End stable.

(** ** [required]: a value that is not blank *)
Definition required (value : string) : bool := TrimSpace value != "".
