(* ===== verification/GoTime.v ===== *)
(** * Go time

    [time.Time] is an instant: nanoseconds since the zero [Time] (January 1, year
    1, 00:00:00 UTC), so [IsZero] is [0] and [Truncate], which works on the
    absolute duration since the zero time, is a remainder.  Locations only change
    the calendar reading, given here by the offset of the location.  The calendar
    is the proleptic Gregorian one of package [time]. *)
From S2P Require Import Prelude.

Definition Time := Z.
Definition Duration := Z.

Definition Nanosecond : Duration := 1.
Definition Microsecond : Duration := 1000.
Definition Second : Duration := 1000000000.
Definition Minute : Duration := 60 * Second.
Definition Hour : Duration := 60 * Minute.
Definition Day : Duration := 24 * Hour.

Definition IsZero (t : Time) : bool := t =? 0.
Definition After (t u : Time) : bool := u <? t.
Definition Before (t u : Time) : bool := t <? u.
Definition Equal (t u : Time) : bool := t =? u.
Definition Add (t : Time) (d : Duration) : Time := t + d.
Definition Truncate (t : Time) (d : Duration) : Time := if d <=? 0 then t else t - t mod d.
(** [t.UTC()] is the same instant. *)
Definition UTC (t : Time) : Time := t.



(** ** Calendar: days since January 1, year 1 *)
Definition is_leap (y : Z) : bool :=
  (y mod 4 =? 0) && (negb (y mod 100 =? 0) || (y mod 400 =? 0)).

Definition days_before_year (y : Z) : Z :=
  365 * (y - 1) + (y - 1) / 4 - (y - 1) / 100 + (y - 1) / 400.

Definition days_in_month (leap : bool) (m : Z) : Z :=
  if m =? 2 then (if leap then 29 else 28)
  else if (m =? 4) || (m =? 6) || (m =? 9) || (m =? 11) then 30 else 31.

Definition days_before_month (leap : bool) (m : Z) : Z :=
  if m <=? 1 then 0 else if m =? 2 then 31 else
  (if leap then 1 else 0) + (if m =? 3 then 59 else if m =? 4 then 90 else if m =? 5 then 120
          else if m =? 6 then 151 else if m =? 7 then 181 else if m =? 8 then 212
          else if m =? 9 then 243 else if m =? 10 then 273 else if m =? 11 then 304
          else 334).

(** The year, by 400-, 100-, 4- and 1-year cycles. *)
Definition year_of_days (n : Z) : Z :=
  let n400 := n / 146097 in let r := n mod 146097 in
  let n100 := Z.min 3 (r / 36524) in let r := r - 36524 * n100 in
  let n4 := r / 1461 in let r := r mod 1461 in
  let n1 := Z.min 3 (r / 365) in
  400 * n400 + 100 * n100 + 4 * n4 + n1 + 1.

Definition month_of_yday (leap : bool) (d : Z) : Z :=
  let before m := d <? days_before_month leap m in
  if before 2 then 1 else if before 3 then 2 else if before 4 then 3
  else if before 5 then 4 else if before 6 then 5 else if before 7 then 6
  else if before 8 then 7 else if before 9 then 8 else if before 10 then 9
  else if before 11 then 10 else if before 12 then 11 else 12.

Definition month_of_days (n : Z) : Z :=
  let y := year_of_days n in month_of_yday (is_leap y) (n - days_before_year y).

Definition day_of_days (n : Z) : Z :=
  let y := year_of_days n in
  n - days_before_year y - days_before_month (is_leap y) (month_of_days n) + 1.

(** Readings of an instant in a location [offset] nanoseconds east of UTC. *)
Definition day_number (t : Time) (offset : Duration) : Z := (t + offset) / Day.
Definition Year (t : Time) (offset : Duration) : Z := year_of_days (day_number t offset).
Definition Month (t : Time) (offset : Duration) : Z := month_of_days (day_number t offset).
Definition MonthDay (t : Time) (offset : Duration) : Z := day_of_days (day_number t offset).

(** [time.Date(y, m, d, 0, 0, 0, 0, loc)]: months out of range are normalized, and
    days are added, so that they may be out of range too. *)
Definition Date (y m d : Z) (offset : Duration) : Time :=
  let y' := y + (m - 1) / 12 in
  let m' := (m - 1) mod 12 + 1 in
  (days_before_year y' + days_before_month (is_leap y') m' + (d - 1)) * Day - offset.

(** [t.AddDate(0, months, days)]: the clock reading is kept. *)
Definition AddDate (t : Time) (months days : Z) (offset : Duration) : Time :=
  Date (Year t offset) (Month t offset + months) (MonthDay t offset + days) offset
  + (t + offset) mod Day.

(** ** The calendar is a bijection

    The year found brackets the day: it starts at or before it and the next year
    starts after it. *)
Ltac div_lia := Z.to_euclidean_division_equations; lia.

Lemma days_before_year_quotients y q4 q100 q400 :
  4 * q4 ≤ y - 1 < 4 * q4 + 4 →
  100 * q100 ≤ y - 1 < 100 * q100 + 100 →
  400 * q400 ≤ y - 1 < 400 * q400 + 400 →
  days_before_year y = 365 * (y - 1) + q4 - q100 + q400.
Proof.
  intros. unfold days_before_year.
  rewrite (Z.div_unique (y - 1) 4 q4 (y - 1 - 4 * q4)) by lia.
  rewrite (Z.div_unique (y - 1) 100 q100 (y - 1 - 100 * q100)) by lia.
  rewrite (Z.div_unique (y - 1) 400 q400 (y - 1 - 400 * q400)) by lia.
  done.
Qed.

(** The first day of the year after a whole 4-year cycle, however the 100- and
    400-year cycles end. *)
Lemma next_cycle_start a b c n r r1 r2 :
  0 ≤ b ≤ 3 → 0 ≤ c ≤ 24 → 0 ≤ r2 < 1461 → r1 = 1461 * c + r2 →
  n = 146097 * a + 36524 * b + 1461 * c + r2 →
  r = 36524 * b + r1 → r < 146097 → (b < 3 → r1 < 36524) →
  n < days_before_year (400 * a + 100 * b + 4 * c + 3 + 1 + 1).
Proof.
  intros. destruct (Z.eq_dec c 24) as [->|]; [destruct (Z.eq_dec b 3) as [->|]|].
  - rewrite (days_before_year_quotients _ (100 * a + 100) (4 * a + 4) (a + 1)); lia.
  - rewrite (days_before_year_quotients _ (100 * a + 25 * b + 25) (4 * a + b + 1) a); lia.
  - rewrite (days_before_year_quotients _ (100 * a + 25 * b + c + 1) (4 * a + b) a); lia.
Qed.

Lemma year_of_days_spec n :
  days_before_year (year_of_days n) ≤ n < days_before_year (year_of_days n + 1).
Proof.
  unfold year_of_days.
  set (a := n / 146097). set (r := n mod 146097).
  set (b := Z.min 3 (r / 36524)). set (r1 := r - 36524 * b).
  set (c := r1 / 1461). set (r2 := r1 mod 1461).
  set (d := Z.min 3 (r2 / 365)).
  assert (Hn : n = 146097 * a + 36524 * b + 1461 * c + r2) by (subst a r b r1 c r2; div_lia).
  assert (0 ≤ r < 146097) by (subst r; div_lia).
  assert (Hr : r = 36524 * b + r1) by (subst r1; div_lia).
  assert (0 ≤ b ≤ 3 ∧ 36524 * b ≤ r ∧ (b < 3 → r < 36524 * (b + 1))) by (subst b; div_lia).
  assert (0 ≤ r1 ∧ (b < 3 → r1 < 36524) ∧ r1 < 36525) by (subst r1; div_lia).
  assert (0 ≤ c ≤ 24 ∧ 0 ≤ r2 < 1461 ∧ r1 = 1461 * c + r2) by (subst c r2; div_lia).
  assert (0 ≤ d ≤ 3 ∧ 365 * d ≤ r2 ∧ (d < 3 → r2 < 365 * (d + 1))) by (subst d; div_lia).
  clearbody a b c d r r1 r2.
  assert (Hy : ∀ k, 0 ≤ k ≤ 3 →
    days_before_year (400 * a + 100 * b + 4 * c + k + 1)
    = 146097 * a + 36524 * b + 1461 * c + 365 * k).
  { intros k ?.
    rewrite (days_before_year_quotients _ (100 * a + 25 * b + c) (4 * a + b) a); lia. }
  rewrite Hy by lia. split; [lia|].
  destruct (Z.eq_dec d 3) as [->|].
  - apply (next_cycle_start a b c n r r1 r2); lia.
  - replace (400 * a + 100 * b + 4 * c + d + 1 + 1)
      with (400 * a + 100 * b + 4 * c + (d + 1) + 1) by lia.
    rewrite Hy; lia.
Qed.

Lemma is_leap_days y :
  days_before_year (y + 1) - days_before_year y = if is_leap y then 366 else 365.
Proof.
  unfold days_before_year, is_leap.
  destruct (Z.eqb_spec (y mod 4) 0), (Z.eqb_spec (y mod 100) 0), (Z.eqb_spec (y mod 400) 0);
    simpl; div_lia.
Qed.

(** The month table, checked on every day of both kinds of year. *)
Definition month_ok (leap : bool) (d : Z) : bool :=
  let m := month_of_yday leap d in
  (1 <=? m) && (m <=? 12) && (days_before_month leap m <=? d)
  && (d <? days_before_month leap m + days_in_month leap m).

Lemma month_ok_all (leap : bool) :
  forallb (month_ok leap) (seqZ 0 (if leap then 366 else 365) : list Z) = true.
Proof. by destruct leap; vm_compute. Qed.

Lemma month_of_yday_spec (leap : bool) d :
  0 ≤ d < 365 + (if leap then 1 else 0) →
  let m := month_of_yday leap d in
  1 ≤ m ≤ 12 ∧
  days_before_month leap m ≤ d < days_before_month leap m + days_in_month leap m.
Proof.
  intros Hd m. pose proof (month_ok_all leap) as Hall.
  rewrite forallb_forall in Hall.
  assert (In d (seqZ 0 (if leap then 366 else 365) : list Z)) as Hin
    by (apply list_elem_of_In, elem_of_seqZ; destruct leap; lia).
  specialize (Hall d Hin). unfold month_ok in Hall. fold m in Hall.
  rewrite !andb_true_iff, !Z.leb_le, Z.ltb_lt in Hall. lia.
Qed.

(** The reading of a day number is a valid date. *)
Lemma civil_valid n :
  1 ≤ month_of_days n ≤ 12 ∧
  1 ≤ day_of_days n ≤ days_in_month (is_leap (year_of_days n)) (month_of_days n).
Proof.
  pose proof (year_of_days_spec n). pose proof (is_leap_days (year_of_days n)).
  unfold day_of_days, month_of_days.
  set (y := year_of_days n) in *.
  pose proof (month_of_yday_spec (is_leap y) (n - days_before_year y)) as Hm.
  cbv zeta in Hm. destruct (is_leap y); lia.
Qed.

(** Reading a day number as a date and back is the identity. *)
Lemma civil_roundtrip n :
  let y := year_of_days n in
  days_before_year y + days_before_month (is_leap y) (month_of_days n)
  + (day_of_days n - 1) = n.
Proof. unfold day_of_days. lia. Qed.

(** [time.Date] of a day number's date is the midnight of that day. *)
Lemma Date_of_days n offset :
  Date (year_of_days n) (month_of_days n) (day_of_days n) offset = n * Day - offset.
Proof.
  pose proof (civil_valid n) as [? _]. pose proof (civil_roundtrip n) as Hr.
  unfold Date.
  replace ((month_of_days n - 1) / 12) with 0 by (rewrite Z.div_small; lia).
  replace ((month_of_days n - 1) mod 12) with (month_of_days n - 1)
    by (rewrite Z.mod_small; lia).
  rewrite Z.add_0_r, Z.sub_add. f_equal. f_equal. exact Hr.
Qed.

Lemma Date_midnight t offset :
  Date (Year t offset) (Month t offset) (MonthDay t offset) offset
  = (t + offset) / Day * Day - offset.
Proof. apply Date_of_days. Qed.

(** [AddDate(0, 0, days)] moves by whole days. *)
Lemma AddDate_days t days offset : AddDate t 0 days offset = t + days * Day.
Proof.
  unfold AddDate. rewrite Z.add_0_r.
  assert (Hd : ∀ y m d k, Date y m (d + k) offset = Date y m d offset + k * Day)
    by (intros; unfold Date; lia).
  rewrite Hd, Date_midnight.
  pose proof (Z.div_mod (t + offset) Day) as Hm.
  assert (Day ≠ 0) as Hne by done. specialize (Hm Hne). lia.
Qed.
