(* ===== verification/BillingTypes.v ===== *)
(** * Data of the rating and invoicing core

    [internal/currency/currency.go] and the records of [internal/billing/types.go].
    A Go string type with named constants stays a string, because the source also
    handles values outside the named ones (the empty string is "unset", and every
    [switch] has a default); pointer fields are options.  A field [F] of a record
    is named [<record>_F]. *)
From S2P Require Import Prelude GoStrings GoTime.

(** ** internal/currency *)
Definition Code := string.
Definition TWD : Code := "TWD".
Definition USD : Code := "USD".
Definition CNY : Code := "CNY".
Definition Settlement : Code := TWD.

Definition MinorDigits (code : Code) : Z * bool :=
  if code == TWD then (0, true)
  else if (code == USD) || (code == CNY) then (2, true)
  else (0, false).

Definition CanSettle (code : Code) : bool := code == Settlement.

(** ** Enumerations of internal/billing *)
Definition RoundingMode := string.
Definition RoundingHalfUp : RoundingMode := "half_up".
Definition RoundingDown : RoundingMode := "down".
Definition RoundingUp : RoundingMode := "up".

Definition TaxCalculationMode := string.
Definition TaxModeLine : TaxCalculationMode := "line".
Definition TaxModeInvoiceTotal : TaxCalculationMode := "invoice_total".

Definition InvoiceState := string.
Definition InvoiceStateDraft : InvoiceState := "draft".
Definition InvoiceStateIssued : InvoiceState := "issued".
Definition InvoiceStateSettled : InvoiceState := "settled".
Definition InvoiceStatePartiallySettled : InvoiceState := "partially_settled".
Definition InvoiceStateOverdue : InvoiceState := "overdue".
Definition InvoiceStateVoid : InvoiceState := "void".

(** ** Records of internal/billing *)
Record BillingProfile := mkBillingProfile {
  profile_OwnershipVersion : option Z;
  profile_RequiresConfiguration : bool;
  profile_OrganizationID : string;
  profile_LegalName : string;
  profile_TaxIdentifier : string;
  profile_BillingAddress : string;
  profile_ContactEmail : string;
  profile_Locale : string;
  profile_Timezone : string;
  profile_DeliveryPreference : string;
  profile_Version : Z;
  profile_CreatedAt : Time;
  profile_UpdatedAt : Time
}.

Record PricingRate := mkPricingRate {
  rate_ID : string;
  rate_PricingVersionID : string;
  rate_ServiceCode : string;
  rate_MetricCode : string;
  rate_Description : string;
  rate_Unit : string;
  rate_UnitPriceMinor : Z;
  rate_UnitPriceScale : Z;
  rate_QuantityScale : option Z;
  rate_RoundingMode : RoundingMode;
  rate_TaxCategory : option string;
  rate_TaxRateBasisPoints : Z
}.

(** The zero value of the struct, as a missing map entry reads. *)
Definition zeroPricingRate : PricingRate :=
  mkPricingRate "" "" "" "" "" "" 0 0 None "" None 0.

#[export] Instance PricingRate_eq_dec : EqDecision PricingRate.
Proof. solve_decision. Defined.

Record OTAStorageObjectEvidence := mkOTAStorageObjectEvidence {
  object_ObjectSHA256 : string;
  object_ByteMicroseconds : string
}.

Record OTAGrantEvidence := mkOTAGrantEvidence {
  grant_ProductServiceRevision : Z;
  grant_ServiceGrantSHA256 : string;
  grant_AuthorizedAt : Time
}.

Record UsageFact := mkUsageFact {
  fact_ID : string;
  fact_UsageID : string;
  fact_OrganizationID : string;
  fact_ProductID : string;
  fact_ServiceCode : string;
  fact_MetricCode : string;
  fact_Quantity : Z;
  fact_QuantityScale : Z;
  fact_Unit : string;
  fact_WindowStart : Time;
  fact_WindowEnd : Time;
  fact_Source : string;
  fact_SourceSHA256 : string;
  fact_OTAGrant : option OTAGrantEvidence;
  fact_OTAStorageObject : option OTAStorageObjectEvidence
}.

Record InvoiceLine := mkInvoiceLine {
  line_ID : string;
  line_PricingRateID : string;
  line_ProductID : string;
  line_ServiceCode : string;
  line_MetricCode : string;
  line_Description : string;
  line_Quantity : Z;
  line_QuantityScale : Z;
  line_Unit : string;
  line_UnitPriceMinor : Z;
  line_UnitPriceScale : Z;
  line_SubtotalMinor : Z;
  line_TaxMinor : Z;
  line_TotalMinor : Z;
  line_RoundingMode : RoundingMode;
  line_UsageFactRefs : list string
}.

#[export] Instance InvoiceLine_eta : Eta InvoiceLine := fun l => {|
  line_ID := line_ID l; line_PricingRateID := line_PricingRateID l;
  line_ProductID := line_ProductID l; line_ServiceCode := line_ServiceCode l;
  line_MetricCode := line_MetricCode l; line_Description := line_Description l;
  line_Quantity := line_Quantity l; line_QuantityScale := line_QuantityScale l;
  line_Unit := line_Unit l; line_UnitPriceMinor := line_UnitPriceMinor l;
  line_UnitPriceScale := line_UnitPriceScale l; line_SubtotalMinor := line_SubtotalMinor l;
  line_TaxMinor := line_TaxMinor l; line_TotalMinor := line_TotalMinor l;
  line_RoundingMode := line_RoundingMode l; line_UsageFactRefs := line_UsageFactRefs l |}.

Record InvoiceDocument := mkInvoiceDocument {
  document_ContentType : string;
  document_ByteLength : Z;
  document_SHA256 : string;
  document_RendererVersion : string;
  document_InvoiceVersion : Z;
  document_GeneratedAt : Time
}.

Record Invoice := mkInvoice {
  inv_ID : string;
  inv_InvoiceNumber : string;
  inv_OrganizationID : string;
  inv_AccountID : string;
  inv_PeriodID : string;
  inv_PricingVersionID : string;
  inv_TaxMode : TaxCalculationMode;
  inv_InvoiceTaxRateBasisPoints : option Z;
  inv_InvoiceTaxRoundingMode : RoundingMode;
  inv_InvoiceTaxCategory : string;
  inv_Currency : Code;
  inv_State : InvoiceState;
  inv_PeriodStart : Time;
  inv_PeriodEnd : Time;
  inv_SubtotalMinor : Z;
  inv_TaxMinor : Z;
  inv_TotalMinor : Z;
  inv_AmountSettledMinor : Z;
  inv_AmountDueMinor : Z;
  inv_Recipient : BillingProfile;
  inv_Lines : list InvoiceLine;
  inv_Document : option InvoiceDocument;
  inv_SettlementLedgerID : string;
  inv_SettlementActivityID : string;
  inv_IssuedAt : option Time;
  inv_DueAt : option Time;
  inv_SettledAt : option Time;
  inv_Version : Z;
  inv_CreatedAt : Time;
  inv_UpdatedAt : Time
}.

#[export] Instance Invoice_eta : Eta Invoice := fun i => {|
  inv_ID := inv_ID i; inv_InvoiceNumber := inv_InvoiceNumber i;
  inv_OrganizationID := inv_OrganizationID i; inv_AccountID := inv_AccountID i;
  inv_PeriodID := inv_PeriodID i; inv_PricingVersionID := inv_PricingVersionID i;
  inv_TaxMode := inv_TaxMode i;
  inv_InvoiceTaxRateBasisPoints := inv_InvoiceTaxRateBasisPoints i;
  inv_InvoiceTaxRoundingMode := inv_InvoiceTaxRoundingMode i;
  inv_InvoiceTaxCategory := inv_InvoiceTaxCategory i; inv_Currency := inv_Currency i;
  inv_State := inv_State i; inv_PeriodStart := inv_PeriodStart i;
  inv_PeriodEnd := inv_PeriodEnd i; inv_SubtotalMinor := inv_SubtotalMinor i;
  inv_TaxMinor := inv_TaxMinor i; inv_TotalMinor := inv_TotalMinor i;
  inv_AmountSettledMinor := inv_AmountSettledMinor i;
  inv_AmountDueMinor := inv_AmountDueMinor i; inv_Recipient := inv_Recipient i;
  inv_Lines := inv_Lines i; inv_Document := inv_Document i;
  inv_SettlementLedgerID := inv_SettlementLedgerID i;
  inv_SettlementActivityID := inv_SettlementActivityID i; inv_IssuedAt := inv_IssuedAt i;
  inv_DueAt := inv_DueAt i; inv_SettledAt := inv_SettledAt i; inv_Version := inv_Version i;
  inv_CreatedAt := inv_CreatedAt i; inv_UpdatedAt := inv_UpdatedAt i |}.

Definition emptyProfile : BillingProfile :=
  mkBillingProfile None false "" "" "" "" "" "" "" "" 0 0 0.
