(* ===== verification/Money.v ===== *)
(** * Exact rating arithmetic: [internal/billing/money.go]

    Prices are integers with a decimal scale; rating multiplies in unbounded
    integers ([math/big], [Z] here), rounds once, and only then checks that the
    result fits [int64].  The file proves each rounding mode against its rational
    specification, the bounds of a priced usage, and the arithmetic of the invoice
    reconciliation check. *)
From S2P Require Import Prelude GoStrings GoTime BillingTypes.

(** ** Definitions *)

Definition validRoundingMode (mode : RoundingMode) : bool :=
  (mode == RoundingHalfUp) || (mode == RoundingDown) || (mode == RoundingUp).

(** The sum of the increment a rounding mode applies to a truncated quotient with a
    non-zero remainder; [None] is the [default] branch of the switch. *)
Definition round_increment (mode : RoundingMode) (remainder denominator : Z) : option Z :=
  if mode == RoundingDown then Some 0
  else if mode == RoundingUp then Some 1
  else if mode == RoundingHalfUp then
    Some (if denominator <=? 2 * remainder then 1 else 0)
  else None.

Definition roundedInt64 (numerator denominator : Z) (mode : RoundingMode) : Result Z :=
  if (numerator <? 0) || (denominator <=? 0) then Err ErrInvalidAmount else
  let quotient := Z.quot numerator denominator in
  let remainder := Z.rem numerator denominator in
  quotient ←
    (if remainder != 0 then
       match round_increment mode remainder denominator with
       | Some d => Ok (quotient + d)
       | None => Err ErrInvalidRounding
       end
     else if (mode != RoundingDown) && (mode != RoundingUp) && (mode != RoundingHalfUp)
     then Err ErrInvalidRounding
     else Ok quotient);
  if negb (IsInt64 quotient) then Err ErrOverflow else Ok quotient.

Definition pow10 (scale : Z) : Z := 10 ^ scale.

Definition PriceSubtotal (rate : PricingRate) (quantity quantityScale : Z) : Result Z :=
  if (quantity <? 0) || (rate_UnitPriceMinor rate <? 0) then Err ErrInvalidAmount else
  if (quantityScale <? 0) || (quantityScale >? 9)
     || (rate_UnitPriceScale rate <? 0) || (rate_UnitPriceScale rate >? 9)
     || match rate_QuantityScale rate with
        | Some s => s != quantityScale
        | None => false
        end
  then Err ErrInvalidScale else
  let denominator := pow10 (quantityScale + rate_UnitPriceScale rate) in
  let product := quantity * rate_UnitPriceMinor rate in
  roundedInt64 product denominator (rate_RoundingMode rate).

(** The triple (subtotal, tax, total). *)
Definition PriceUsage (rate : PricingRate) (quantity quantityScale : Z) : Result (Z * Z * Z) :=
  if (rate_TaxRateBasisPoints rate <? 0) || (rate_TaxRateBasisPoints rate >? 10000)
  then Err ErrInvalidAmount else
  subtotal ← PriceSubtotal rate quantity quantityScale;
  let taxNumerator := subtotal * rate_TaxRateBasisPoints rate in
  tax ← roundedInt64 taxNumerator 10000 (rate_RoundingMode rate);
  let total := subtotal + tax in
  if negb (IsInt64 total) then Err ErrOverflow else
  Ok (subtotal, tax, total).

Definition line_total_ok (line : InvoiceLine) : bool :=
  let lineTotal := line_SubtotalMinor line + line_TaxMinor line in
  negb ((line_SubtotalMinor line <? 0) || (line_TaxMinor line <? 0)
        || (line_TotalMinor line <? 0) || negb (IsInt64 lineTotal)
        || (lineTotal != line_TotalMinor line)).

(** The loop over the lines: the running sums of the subtotals and of the taxes. *)
Definition sum_lines (lines : list InvoiceLine) : Result (Z * Z) :=
  fold_result (fun '(subtotal, tax) line =>
      if line_total_ok line
      then Ok (subtotal + line_SubtotalMinor line, tax + line_TaxMinor line)
      else Err ErrInvoiceMismatch)
    lines (0, 0).

(** The last check of [ValidateInvoiceTotals]: the tax policy. *)
Definition check_tax_policy (invoice : Invoice) : Result unit :=
  if inv_TaxMode invoice == TaxModeInvoiceTotal then
    match inv_InvoiceTaxRateBasisPoints invoice with
    | None => Err ErrInvoiceMismatch
    | Some bp =>
        if (bp <? 0) || (bp >? 10000) || (inv_InvoiceTaxCategory invoice == "")
           || negb (validRoundingMode (inv_InvoiceTaxRoundingMode invoice))
        then Err ErrInvoiceMismatch else
        match roundedInt64 (inv_SubtotalMinor invoice * bp) 10000
                (inv_InvoiceTaxRoundingMode invoice) with
        | Err _ => Err ErrInvoiceMismatch
        | Ok expectedTax =>
            if expectedTax != inv_TaxMinor invoice then Err ErrInvoiceMismatch else Ok tt
        end
    end
  else
    if ((inv_TaxMode invoice != "") && (inv_TaxMode invoice != TaxModeLine))
       || bool_decide (is_Some (inv_InvoiceTaxRateBasisPoints invoice))
       || (inv_InvoiceTaxRoundingMode invoice != "") || (inv_InvoiceTaxCategory invoice != "")
    then Err ErrInvoiceMismatch else Ok tt.

Definition ValidateInvoiceTotals (invoice : Invoice) : Result unit :=
  '(subtotal, tax) ← sum_lines (inv_Lines invoice);
  if negb (IsInt64 subtotal) || negb (IsInt64 tax) then Err ErrOverflow else
  let invoiceTotal := inv_SubtotalMinor invoice + inv_TaxMinor invoice in
  let settlementTotal := inv_AmountSettledMinor invoice + inv_AmountDueMinor invoice in
  if (subtotal != inv_SubtotalMinor invoice) || (tax != inv_TaxMinor invoice)
     || negb (IsInt64 invoiceTotal) || (invoiceTotal != inv_TotalMinor invoice)
     || (inv_AmountSettledMinor invoice <? 0) || (inv_AmountDueMinor invoice <? 0)
     || negb (IsInt64 settlementTotal) || (settlementTotal != inv_TotalMinor invoice)
  then Err ErrInvoiceMismatch else
  check_tax_policy invoice.

(** ** Rounding against its rational specification *)

(** The exact quotient rounded to an integer: floor, ceiling, nearest (ties up). *)
Definition round_spec (mode : RoundingMode) (n d : Z) : option Z :=
  if mode == RoundingDown then Some (n / d)
  else if mode == RoundingUp then Some ((n + (d - 1)) / d)
  else if mode == RoundingHalfUp then Some ((2 * n + d) / (2 * d))
  else None.

Definition checked64 (z : Z) : Result Z := if IsInt64 z then Ok z else Err ErrOverflow.

Lemma div_up_exact n d : 0 < d → n mod d = 0 → (n + (d - 1)) / d = n / d.
Proof. intros ? Hm. pose proof (Z.div_mod n d). symmetry. apply Z.div_unique with (d - 1); lia. Qed.

Lemma div_up_inexact n d : 0 < d → n mod d ≠ 0 → (n + (d - 1)) / d = n / d + 1.
Proof.
  intros ? Hm. pose proof (Z.div_mod n d). pose proof (Z.mod_pos_bound n d).
  symmetry. apply Z.div_unique with (n mod d - 1); lia.
Qed.

Lemma div_half n d :
  0 < d → (2 * n + d) / (2 * d) = n / d + (if d <=? 2 * (n mod d) then 1 else 0).
Proof.
  intros ?. pose proof (Z.div_mod n d). pose proof (Z.mod_pos_bound n d).
  symmetry. destruct (Z.leb_spec d (2 * (n mod d))).
  - apply Z.div_unique with (2 * (n mod d) - d); lia.
  - apply Z.div_unique with (2 * (n mod d) + d); lia.
Qed.

Lemma round_spec_increment mode n d :
  0 ≤ n → 0 < d →
  round_spec mode n d =
    if n mod d =? 0 then (if validRoundingMode mode then Some (n / d) else None)
    else Z.add (n / d) <$> round_increment mode (n mod d) d.
Proof.
  intros Hn Hd. unfold round_spec, round_increment, validRoundingMode.
  rewrite div_half by lia. destruct (Z.eqb_spec (n mod d) 0) as [E|E].
  - rewrite div_up_exact, E by lia. replace (d <=? 2 * 0) with false by lia.
    rewrite Z.add_0_r. by repeat case_bool_decide.
  - rewrite div_up_inexact by lia. repeat case_bool_decide; simpl; try done.
    by rewrite Z.add_0_r.
Qed.

(** The truncated division and conditional increments compute [round_spec]. *)
Lemma roundedInt64_spec n d mode :
  0 ≤ n → 0 < d →
  roundedInt64 n d mode =
    match round_spec mode n d with
    | Some q => checked64 q
    | None => Err ErrInvalidRounding
    end.
Proof.
  intros Hn Hd. rewrite round_spec_increment by done. unfold roundedInt64, checked64.
  replace (n <? 0) with false by lia. replace (d <=? 0) with false by lia. simpl.
  rewrite Z.quot_div_nonneg, Z.rem_mod_nonneg by lia.
  destruct (Z.eqb_spec (n mod d) 0) as [E|E].
  - rewrite bool_decide_eq_true_2 by done. simpl. unfold validRoundingMode.
    repeat case_bool_decide; simpl; (done || by destruct (IsInt64 (n / d))).
  - rewrite bool_decide_eq_false_2 by done. simpl.
    destruct (round_increment _ _ _); simpl; [|done].
    by destruct (IsInt64 (n / d + _)).
Qed.

(** Total behaviour outside the domain. *)
Lemma roundedInt64_invalid n d mode :
  n < 0 ∨ d ≤ 0 → roundedInt64 n d mode = Err ErrInvalidAmount.
Proof. intros H. unfold roundedInt64. by replace ((n <? 0) || (d <=? 0)) with true by lia. Qed.

Lemma round_spec_bounds mode n d q :
  0 < d → round_spec mode n d = Some q →
  - d < q * d - n < d ∧
  (mode = RoundingDown → q * d ≤ n) ∧
  (mode = RoundingUp → n ≤ q * d) ∧
  (mode = RoundingHalfUp → - d < 2 * (q * d - n) ≤ d).
Proof.
  intros Hd. unfold round_spec.
  repeat case_bool_decide; intros Hq; simplify_eq; try discriminate.
  - pose proof (Z.div_mod n d). pose proof (Z.mod_pos_bound n d).
    split_and!; try done; nia.
  - pose proof (Z.div_mod (n + (d - 1)) d). pose proof (Z.mod_pos_bound (n + (d - 1)) d).
    split_and!; try done; nia.
  - pose proof (Z.div_mod (2 * n + d) (2 * d)). pose proof (Z.mod_pos_bound (2 * n + d) (2 * d)).
    split_and!; try done; nia.
Qed.

Lemma round_spec_mono mode n1 n2 d q1 q2 :
  0 < d → n1 ≤ n2 →
  round_spec mode n1 d = Some q1 → round_spec mode n2 d = Some q2 → q1 ≤ q2.
Proof.
  intros Hd Hle. unfold round_spec.
  repeat case_bool_decide; intros; simplify_eq; apply Z.div_le_mono; lia.
Qed.

(** A multiple of the denominator is exact in every mode. *)
Lemma round_spec_exact mode k d q : 0 < d → round_spec mode (k * d) d = Some q → q = k.
Proof.
  intros Hd. unfold round_spec.
  repeat case_bool_decide; intros Hq; simplify_eq; try discriminate;
    symmetry; [apply Z.div_unique with 0 | apply Z.div_unique with (d - 1)
              | apply Z.div_unique with d]; lia.
Qed.

Lemma round_spec_valid mode n d : is_Some (round_spec mode n d) ↔ validRoundingMode mode = true.
Proof.
  unfold round_spec, validRoundingMode.
  repeat case_bool_decide; simpl; split; intros Hs; (done || by eexists || by destruct Hs).
Qed.

Lemma roundedInt64_inv n d mode q :
  roundedInt64 n d mode = Ok q →
  0 ≤ n ∧ 0 < d ∧ round_spec mode n d = Some q ∧ int64 q.
Proof.
  intros H. destruct (decide (0 ≤ n ∧ 0 < d)) as [[? ?]|Hn].
  - rewrite roundedInt64_spec in H by lia. destruct (round_spec mode n d) as [q'|]; [|done].
    unfold checked64 in H. destruct (IsInt64 q') eqn:E; [|done]. simplify_eq. by reflect_go.
  - rewrite roundedInt64_invalid in H by lia. done.
Qed.

Lemma round_spec_nonneg mode n d q : 0 ≤ n → 0 < d → round_spec mode n d = Some q → 0 ≤ q.
Proof. intros ? ? H. pose proof (round_spec_bounds _ _ _ _ ltac:(done) H). nia. Qed.

(** ** Pricing *)

Lemma pow10_pos s : 0 ≤ s → 0 < pow10 s.
Proof. intros. unfold pow10. by apply Z.pow_pos_nonneg. Qed.

Lemma PriceSubtotal_inv rate quantity scale s :
  PriceSubtotal rate quantity scale = Ok s →
  0 ≤ quantity ∧ 0 ≤ rate_UnitPriceMinor rate ∧ 0 ≤ scale ≤ 9 ∧
  0 ≤ rate_UnitPriceScale rate ≤ 9 ∧
  (∀ qs, rate_QuantityScale rate = Some qs → qs = scale) ∧
  roundedInt64 (quantity * rate_UnitPriceMinor rate)
    (pow10 (scale + rate_UnitPriceScale rate)) (rate_RoundingMode rate) = Ok s.
Proof.
  unfold PriceSubtotal. intros H. split_guards H. reflect_go.
  split_and!; try lia; try done. intros qs Hqs. rewrite Hqs in *. by reflect_go.
Qed.

Lemma PriceUsage_inv rate quantity scale s t tot :
  PriceUsage rate quantity scale = Ok (s, t, tot) →
  0 ≤ rate_TaxRateBasisPoints rate ≤ 10000 ∧
  PriceSubtotal rate quantity scale = Ok s ∧
  roundedInt64 (s * rate_TaxRateBasisPoints rate) 10000 (rate_RoundingMode rate) = Ok t ∧
  tot = s + t ∧ int64 tot.
Proof.
  unfold PriceUsage. intros H. split_guards H. reflect_go. simplify_eq.
  split_and!; try done; lia.
Qed.

Lemma PriceSubtotal_bounds rate quantity scale s :
  PriceSubtotal rate quantity scale = Ok s → 0 ≤ s ∧ int64 s.
Proof.
  intros (? & ? & ? & ? & _ & (? & ? & Hq & ?)%roundedInt64_inv)%PriceSubtotal_inv.
  split; [|done]. by apply round_spec_nonneg in Hq.
Qed.

(** The tax of a rate in [0, 10000] basis points never exceeds the taxed amount. *)
Lemma rounded_tax_le mode s bp t :
  0 ≤ bp ≤ 10000 → roundedInt64 (s * bp) 10000 mode = Ok t → 0 ≤ s → 0 ≤ t ≤ s.
Proof.
  intros Hbp (Hn & _ & Hq & _)%roundedInt64_inv Hs. split; [by apply round_spec_nonneg in Hq|].
  assert (is_Some (round_spec mode (s * 10000) 10000)) as [k Hk]
    by (apply round_spec_valid, (round_spec_valid mode (s * bp) 10000); eauto).
  assert (k = s) as -> by (eapply round_spec_exact; [|exact Hk]; done).
  eapply round_spec_mono; [| |exact Hq|exact Hk]; lia || nia.
Qed.

(** The rates that rating accepts. *)
Definition valid_rate (rate : PricingRate) : Prop :=
  0 ≤ rate_UnitPriceMinor rate ∧ 0 ≤ rate_UnitPriceScale rate ≤ 9 ∧
  0 ≤ rate_TaxRateBasisPoints rate ≤ 10000 ∧
  validRoundingMode (rate_RoundingMode rate) = true.

(** The quantities and precisions a rate accepts. *)
Definition valid_usage (rate : PricingRate) (quantity scale : Z) : Prop :=
  0 ≤ quantity ∧ 0 ≤ scale ≤ 9 ∧ (∀ s, rate_QuantityScale rate = Some s → s = scale).

(** C32: on every accepted rate and usage, rating is the exact rational price
    rounded once, plus the tax on the rounded amount rounded once; it fails only
    when that total does not fit [int64]. *)
Theorem PriceUsage_exact rate quantity scale :
  valid_rate rate → valid_usage rate quantity scale →
  ∃ s t,
    round_spec (rate_RoundingMode rate) (quantity * rate_UnitPriceMinor rate)
      (pow10 (scale + rate_UnitPriceScale rate)) = Some s ∧
    round_spec (rate_RoundingMode rate) (s * rate_TaxRateBasisPoints rate) 10000 = Some t ∧
    PriceUsage rate quantity scale =
      if IsInt64 (s + t) then Ok (s, t, s + t) else Err ErrOverflow.
Proof.
  intros (Hp & Hps & Hbp & Hm) (Hq & Hs & Hqs).
  set (d := pow10 _). assert (0 < d) as Hd by (apply pow10_pos; lia).
  destruct (proj2 (round_spec_valid (rate_RoundingMode rate) (quantity * rate_UnitPriceMinor rate) d) Hm)
    as [s Hss].
  destruct (proj2 (round_spec_valid (rate_RoundingMode rate) (s * rate_TaxRateBasisPoints rate) 10000) Hm)
    as [t Htt].
  assert (0 ≤ s) as Hs0 by (eapply round_spec_nonneg; [|done|done]; nia).
  assert (0 ≤ t) as Ht0 by (eapply round_spec_nonneg; [| |done]; nia || done).
  exists s, t. split_and!; [done..|]. unfold PriceUsage, PriceSubtotal.
  fold d. rewrite !Z.gtb_ltb.
  replace ((rate_TaxRateBasisPoints rate <? 0) || (10000 <? rate_TaxRateBasisPoints rate))
    with false by lia.
  replace ((quantity <? 0) || (rate_UnitPriceMinor rate <? 0)) with false by lia.
  replace (match rate_QuantityScale rate with Some _ => _ | None => _ end) with false
    by (destruct (rate_QuantityScale rate); [rewrite (Hqs _ eq_refl), bool_decide_eq_true_2|]; done).
  replace (_ || false) with false by lia.
  rewrite roundedInt64_spec, Hss by nia. unfold checked64.
  destruct (IsInt64 s) eqn:Es; simpl.
  - rewrite roundedInt64_spec, Htt by nia. unfold checked64.
    destruct (IsInt64 t) eqn:Et; simpl; [by destruct (IsInt64 (s + t))|].
    destruct (IsInt64 (s + t)) eqn:E; [|done]. reflect_go. unfold int64, minInt64, maxInt64 in *. lia.
  - destruct (IsInt64 (s + t)) eqn:E; [|done]. reflect_go. unfold int64, minInt64, maxInt64 in *. lia.
Qed.

Lemma PriceUsage_bounds_of rate quantity scale s t tot :
  PriceUsage rate quantity scale = Ok (s, t, tot) →
  tot = s + t ∧ 0 ≤ t ≤ s ∧ int64 t ∧ int64 tot.
Proof.
  intros (Hbp & Hs & Ht & -> & ?)%PriceUsage_inv.
  pose proof (PriceSubtotal_bounds _ _ _ _ Hs) as [Hs0 ?].
  pose proof (rounded_tax_le _ _ _ _ Hbp Ht Hs0).
  by apply roundedInt64_inv in Ht as (_ & _ & _ & ?).
Qed.

(** C33: a priced usage is within one minor unit of the exact price on the side
    its rounding mode promises, its tax is between zero and the taxed amount, and
    the three amounts are non-negative [int64] values that add up. *)
Theorem PriceUsage_bounds rate quantity scale s t tot :
  PriceUsage rate quantity scale = Ok (s, t, tot) →
  let d := pow10 (scale + rate_UnitPriceScale rate) in
  let exact := quantity * rate_UnitPriceMinor rate in
  tot = s + t ∧ 0 ≤ t ≤ s ∧ int64 s ∧ int64 t ∧ int64 tot ∧
  - d < s * d - exact < d ∧
  (rate_RoundingMode rate = RoundingDown → s * d ≤ exact) ∧
  (rate_RoundingMode rate = RoundingUp → exact ≤ s * d) ∧
  (rate_RoundingMode rate = RoundingHalfUp → - d < 2 * (s * d - exact) ≤ d).
Proof.
  intros H d exact. destruct (PriceUsage_bounds_of _ _ _ _ _ _ H) as (-> & ? & ? & ?).
  apply PriceUsage_inv in H as (_ & Hs & _ & _ & _).
  pose proof (PriceSubtotal_bounds _ _ _ _ Hs) as [_ ?].
  apply PriceSubtotal_inv in Hs as (_ & _ & ? & ? & _ & Hr).
  apply roundedInt64_inv in Hr as (_ & ? & Hr & _).
  pose proof (round_spec_bounds _ _ _ _ ltac:(done) Hr). tauto.
Qed.

(** Rating is monotone in the quantity: more usage never costs less. *)
Lemma PriceSubtotal_mono rate q1 q2 scale s1 s2 :
  q1 ≤ q2 → PriceSubtotal rate q1 scale = Ok s1 → PriceSubtotal rate q2 scale = Ok s2 → s1 ≤ s2.
Proof.
  intros Hle (? & ? & ? & ? & _ & (_ & Hd & Hr1 & _)%roundedInt64_inv)%PriceSubtotal_inv
    (_ & _ & _ & _ & _ & (_ & _ & Hr2 & _)%roundedInt64_inv)%PriceSubtotal_inv.
  eapply round_spec_mono; [exact Hd| |exact Hr1|exact Hr2]. nia.
Qed.

Lemma PriceUsage_bounds_witness :
  let rate := mkPricingRate "r" "v" "video" "minutes" "Video" "min" 96 3 None RoundingHalfUp None 500 in
  PriceUsage rate 1234567 2 = Ok (1185, 59, 1244) ∧ 0 ≤ 59 ≤ 1185.
Proof.
  intros rate. split; [by vm_compute|].
  pose proof (PriceUsage_bounds rate 1234567 2 1185 59 1244) as H.
  by destruct H as (_ & ? & _); [vm_compute|].
Defined.

Lemma PriceUsage_exact_witness :
  let rate := mkPricingRate "r" "v" "video" "minutes" "Video" "min" 96 3 None RoundingUp None 500 in
  ∃ s t, PriceUsage rate 1234567 2 = if IsInt64 (s + t) then Ok (s, t, s + t) else Err ErrOverflow.
Proof.
  intros rate.
  destruct (PriceUsage_exact rate 1234567 2) as (s & t & _ & _ & H).
  - by vm_compute.
  - by vm_compute.
  - by exists s, t.
Defined.

(** ** Reconciliation *)

(** A line's three amounts are non-negative [int64] values that add up. *)
Definition line_reconciled (line : InvoiceLine) : Prop :=
  0 ≤ line_SubtotalMinor line ∧ 0 ≤ line_TaxMinor line ∧
  line_TotalMinor line = line_SubtotalMinor line + line_TaxMinor line ∧
  int64 (line_TotalMinor line).

(** The tax policy of an invoice: per line, or one rate on the subtotal. *)
Definition tax_policy_ok (invoice : Invoice) : Prop :=
  if inv_TaxMode invoice == TaxModeInvoiceTotal then
    ∃ bp, inv_InvoiceTaxRateBasisPoints invoice = Some bp ∧ 0 ≤ bp ≤ 10000 ∧
      inv_InvoiceTaxCategory invoice ≠ "" ∧
      roundedInt64 (inv_SubtotalMinor invoice * bp) 10000 (inv_InvoiceTaxRoundingMode invoice)
        = Ok (inv_TaxMinor invoice)
  else
    (inv_TaxMode invoice = "" ∨ inv_TaxMode invoice = TaxModeLine) ∧
    inv_InvoiceTaxRateBasisPoints invoice = None ∧
    inv_InvoiceTaxRoundingMode invoice = "" ∧ inv_InvoiceTaxCategory invoice = "".

(** What a reconciled invoice is, independently of the order of the checks. *)
Record Reconciled (invoice : Invoice) : Prop := {
  rec_lines : Forall line_reconciled (inv_Lines invoice);
  rec_subtotal : inv_SubtotalMinor invoice = sum_by line_SubtotalMinor (inv_Lines invoice);
  rec_tax : inv_TaxMinor invoice = sum_by line_TaxMinor (inv_Lines invoice);
  rec_total : inv_TotalMinor invoice = inv_SubtotalMinor invoice + inv_TaxMinor invoice;
  rec_total64 : int64 (inv_TotalMinor invoice);
  rec_settled : 0 ≤ inv_AmountSettledMinor invoice;
  rec_due : 0 ≤ inv_AmountDueMinor invoice;
  rec_settlement : inv_AmountSettledMinor invoice + inv_AmountDueMinor invoice
                   = inv_TotalMinor invoice;
  rec_policy : tax_policy_ok invoice
}.

Lemma line_total_ok_spec line : line_total_ok line = true ↔ line_reconciled line.
Proof.
  unfold line_total_ok, line_reconciled.
  rewrite negb_true_iff, !orb_false_iff, !negb_false_iff, !Z.ltb_ge, IsInt64_true,
    bool_decide_eq_true.
  split; intros; destruct_and?; split_and!; try lia; congruence.
Qed.

Lemma sum_lines_from lines s t s' t' :
  fold_result (fun '(subtotal, tax) line =>
      if line_total_ok line
      then Ok (subtotal + line_SubtotalMinor line, tax + line_TaxMinor line)
      else Err ErrInvoiceMismatch) lines (s, t) = Ok (s', t') ↔
  Forall line_reconciled lines ∧
  s' = s + sum_by line_SubtotalMinor lines ∧ t' = t + sum_by line_TaxMinor lines.
Proof.
  revert s t. induction lines as [|l lines IH]; intros s t; simpl.
  - rewrite !Z.add_0_r. split; [intros; simplify_eq; eauto|by intros (_ & -> & ->)].
  - rewrite Forall_cons, <- line_total_ok_spec.
    destruct (line_total_ok l); simpl; [|naive_solver].
    rewrite IH. split; intros; destruct_and?; split_and!; try done; lia.
Qed.

Lemma sum_lines_ok lines s t :
  sum_lines lines = Ok (s, t) ↔
  Forall line_reconciled lines ∧
  s = sum_by line_SubtotalMinor lines ∧ t = sum_by line_TaxMinor lines.
Proof. unfold sum_lines. by rewrite sum_lines_from, !Z.add_0_l. Qed.

Lemma sum_lines_err lines e : sum_lines lines = Err e → e = ErrInvoiceMismatch.
Proof.
  unfold sum_lines. generalize (0, 0). induction lines as [|l lines IH]; intros [s t]; simpl; [done|].
  destruct (line_total_ok l); simpl; [apply IH|by intros [= <-]].
Qed.

Lemma sum_lines_nonneg lines :
  Forall line_reconciled lines →
  0 ≤ sum_by line_SubtotalMinor lines ∧ 0 ≤ sum_by line_TaxMinor lines.
Proof.
  intros Hall. rewrite Forall_forall in Hall.
  split; apply sum_by_nonneg; intros l Hl; destruct (Hall l Hl) as (? & ? & _); done.
Qed.

Lemma check_tax_policy_spec invoice :
  check_tax_policy invoice = Ok tt ↔ tax_policy_ok invoice.
Proof.
  unfold check_tax_policy, tax_policy_ok. case_bool_decide as Hmode.
  - destruct (inv_InvoiceTaxRateBasisPoints invoice) as [bp|]; [|naive_solver].
    destruct (roundedInt64 _ _ _) as [tax|] eqn:Hr.
    + assert (validRoundingMode (inv_InvoiceTaxRoundingMode invoice) = true) as Hv
        by (apply roundedInt64_inv in Hr as (_ & _ & Hr & _); eapply round_spec_valid; eauto).
      rewrite Hv. split.
      * intros H. split_guards H. reflect_go. exists bp. split_and!; try done; try lia; congruence.
      * intros (bp' & [= <-] & ? & ? & Ht). rewrite Hr in Ht. simplify_eq.
        rewrite !bool_decide_eq_false_2, !bool_decide_eq_true_2 by done.
        by replace ((bp <? 0) || (bp >? 10000) || false || negb true) with false by lia.
    + split; [by case_match|]. intros (bp' & [= <-] & _ & _ & ?). congruence.
  - split.
    + intros H. split_guards H. reflect_go. rewrite <- eq_None_not_Some in *.
      split_and!; first [done | tauto].
    + intros (Hm & -> & -> & ->). by destruct Hm as [->| ->].
Qed.

Lemma ValidateInvoiceTotals_ok invoice :
  ValidateInvoiceTotals invoice = Ok tt ↔ Reconciled invoice.
Proof.
  unfold ValidateInvoiceTotals. split.
  - intros H. split_guards H. destruct r as [s t].
    apply sum_lines_ok in Hm as (Hl & -> & ->). split_guards H. reflect_go.
    constructor; try done; try congruence; by apply check_tax_policy_spec.
  - intros [Hl Hs Ht Htot Htot64 Hset Hdue Hsplit Hpol%check_tax_policy_spec].
    pose proof (sum_lines_nonneg _ Hl) as [? ?].
    rewrite (proj2 (sum_lines_ok _ _ _) (conj Hl (conj eq_refl eq_refl))). simpl.
    rewrite <- Hs, <- Ht, Hsplit, <- Htot in *. rewrite !bool_decide_eq_true_2 by done.
    assert (∀ z, 0 ≤ z ≤ inv_TotalMinor invoice → IsInt64 z = true) as H64
      by (intros z ?; apply IsInt64_true; unfold int64, minInt64, maxInt64 in *; lia).
    rewrite !H64 by lia. simpl.
    replace (inv_AmountSettledMinor invoice <? 0) with false by lia.
    by replace (inv_AmountDueMinor invoice <? 0) with false by lia.
Qed.

(** the reconciliation check accepts exactly the invoices whose lines, totals,
    settlement split and tax policy agree in exact arithmetic; a refusal is a
    mismatch, or a sum of the line amounts beyond [int64]. *)
Theorem ValidateInvoiceTotals_spec invoice :
  (ValidateInvoiceTotals invoice = Ok tt ↔ Reconciled invoice) ∧
  (∀ e, ValidateInvoiceTotals invoice = Err e →
    e = ErrInvoiceMismatch ∨
    e = ErrOverflow ∧ Forall line_reconciled (inv_Lines invoice) ∧
      (maxInt64 < sum_by line_SubtotalMinor (inv_Lines invoice) ∨
       maxInt64 < sum_by line_TaxMinor (inv_Lines invoice))).
Proof.
  split; [apply ValidateInvoiceTotals_ok|]. intros e.
  unfold ValidateInvoiceTotals. destruct (sum_lines (inv_Lines invoice)) as [[s t]|e'] eqn:Hsum; simpl.
  - apply sum_lines_ok in Hsum as (Hl & -> & ->).
    destruct (sum_lines_nonneg _ Hl) as [? ?].
    destruct (negb _ || negb _) eqn:Hov.
    + intros [= <-]. right. split_and!; [done..|]. reflect_go. unfold minInt64 in *. lia.
    + case_match; [intros [= <-]; by left|]. unfold check_tax_policy.
      repeat case_match; intros [= <-]; by left.
  - intros [= <-]. left. eapply sum_lines_err, Hsum.
Qed.
