(* ===== verification/Ota.v ===== *)
(** * Firmware OTA metering: [internal/billing/ota.go], [ota_card_review.go]

    The contract of an OTA usage fact (product, unit, precision, UTC window), the
    completeness of an OTA price book, the selection of the billable facts, and the
    review of a candidate price card against its base card. *)
From S2P Require Import Prelude GoStrings GoTime BillingTypes.

(** ** OTA usage facts *)
Definition ServiceOTA := "ota".
Definition MetricOTADeviceTask := "device_task".
Definition MetricOTASuccessfulDownloadGiB := "successful_download_gib".
Definition MetricOTAArtifactStorageGiBMonth := "artifact_storage_gib_month".
Definition MetricOTAArtifactWrite := "artifact_write".
Definition UnitOTADeviceTask := "tasks".
Definition UnitOTAGiB := "GiB".
Definition UnitOTAGiBMonth := "GiB-month".
Definition UnitOTAArtifactWrite := "requests".
Definition otaFractionalQuantityScale : Z := 9.

Definition otaUTCMinuteWindow (fact : UsageFact) : bool :=
  let start := UTC (fact_WindowStart fact) in
  negb (IsZero start) && Equal start (Truncate start Minute)
  && Equal (UTC (fact_WindowEnd fact)) (Add start Minute).

Definition ValidOTAUsageFact (fact : UsageFact) : bool :=
  if fact_ServiceCode fact != ServiceOTA then true else
  if (fact_ProductID fact == "") || (fact_Quantity fact <? 0) then false else
  if fact_MetricCode fact == MetricOTADeviceTask then
    (fact_Unit fact == UnitOTADeviceTask) && (fact_QuantityScale fact == 0)
    && (fact_Quantity fact == 1) && otaUTCMinuteWindow fact
  else if fact_MetricCode fact == MetricOTASuccessfulDownloadGiB then
    (fact_Unit fact == UnitOTAGiB) && (fact_QuantityScale fact == otaFractionalQuantityScale)
    && (fact_Quantity fact >? 0) && otaUTCMinuteWindow fact
  else if fact_MetricCode fact == MetricOTAArtifactStorageGiBMonth then
    let start := UTC (fact_WindowStart fact) in
    let end_ := UTC (fact_WindowEnd fact) in
    let monthStart := Date (Year start 0) (Month start 0) 1 0 in
    (fact_Unit fact == UnitOTAGiBMonth) && (fact_QuantityScale fact == otaFractionalQuantityScale)
    && Equal start monthStart && Equal end_ (AddDate monthStart 1 0 0)
  else if fact_MetricCode fact == MetricOTAArtifactWrite then
    (fact_Unit fact == UnitOTAArtifactWrite) && (fact_QuantityScale fact == 0)
    && (fact_Quantity fact == 1) && otaUTCMinuteWindow fact
  else false.

(** ** The proposed OTA price book *)
Definition proposed_rate (metric description unit_ : string) (price scale quantityScale : Z) :
    PricingRate :=
  mkPricingRate "" "" ServiceOTA metric description unit_ price scale
    (Some quantityScale) RoundingHalfUp None 0.

Definition ProposedOTARates : list PricingRate := [
  proposed_rate MetricOTADeviceTask "Firmware OTA device tasks" UnitOTADeviceTask 96 3 0;
  proposed_rate MetricOTASuccessfulDownloadGiB "Verified firmware downloads" UnitOTAGiB 96 2
    otaFractionalQuantityScale;
  proposed_rate MetricOTAArtifactStorageGiBMonth "Firmware artifact storage" UnitOTAGiBMonth 96 2
    otaFractionalQuantityScale;
  proposed_rate MetricOTAArtifactWrite "Firmware artifact writes" UnitOTAArtifactWrite 144 6 0 ].

(** [ProposedOTARates()[0]] *)
Definition ProposedOTATaskRate : PricingRate :=
  match ProposedOTARates with r :: _ => r | [] => zeroPricingRate end.

(** [expected]: the proposed rates by metric code. *)
Definition expected_rates : gmap string PricingRate :=
  list_to_map ((fun rate => (rate_MetricCode rate, rate)) <$> ProposedOTARates).

(** [*a != *b] of two optional scales, where [nil] on the left is a difference and
    the approved one is never [nil]. *)
Definition scale_differs (scale approved : option Z) : bool :=
  match scale, approved with
  | Some s, Some a => s != a
  | _, _ => true
  end.

Definition blank_category (c : option string) : bool :=
  match c with None => true | Some s => TrimSpace s == "" end.

(** The condition under which a rate departs from the approved one. *)
Definition departs (rate approved : PricingRate) : bool :=
  (rate_Unit rate != rate_Unit approved)
  || (rate_UnitPriceMinor rate != rate_UnitPriceMinor approved)
  || (rate_UnitPriceScale rate != rate_UnitPriceScale approved)
  || (rate_RoundingMode rate != rate_RoundingMode approved)
  || scale_differs (rate_QuantityScale rate) (rate_QuantityScale approved)
  || blank_category (rate_TaxCategory rate).

(** The loop of [OTAPricingState], with its early [return true, false]. *)
Fixpoint scan_ota_rates (rates : list PricingRate) (enabled : bool) (seen : gset string) :
    bool * bool :=
  match rates with
  | [] => (enabled, negb enabled || (Z.of_nat (size seen) == Z.of_nat (size expected_rates)))
  | rate :: rates =>
      if rate_ServiceCode rate != ServiceOTA then scan_ota_rates rates enabled seen else
      match expected_rates !! rate_MetricCode rate with
      | None => (true, false)
      | Some approved =>
          if bool_decide (rate_MetricCode rate ∈ seen) || departs rate approved
          then (true, false)
          else scan_ota_rates rates true ({[rate_MetricCode rate]} ∪ seen)
      end
  end.

(** The pair (enabled, complete). *)
Definition OTAPricingState (rates : list PricingRate) : bool * bool :=
  scan_ota_rates rates false ∅.

Definition BillableUsageFacts (facts : list UsageFact) (rates : list PricingRate) :
    Result (list UsageFact) :=
  let '(enabled, complete) := OTAPricingState rates in
  if negb complete then Err ErrInvalidInvoice else
  fold_result (fun out fact =>
      if fact_ServiceCode fact == ServiceOTA then
        if negb (ValidOTAUsageFact fact) then Err ErrInvalidInvoice
        else if negb enabled then Ok out
        else Ok (out ++ [fact])
      else Ok (out ++ [fact]))
    facts [].

(** ** What the price-book check decides *)

Definition is_ota_rate (rate : PricingRate) : bool := rate_ServiceCode rate == ServiceOTA.
Definition ota_rates (rates : list PricingRate) : list PricingRate :=
  filter (fun r => is_ota_rate r = true) rates.

(** A rate that agrees with the approved rate of its metric. *)
Definition approved_rate (rate : PricingRate) : Prop :=
  ∃ approved, approved ∈ ProposedOTARates ∧ rate_MetricCode approved = rate_MetricCode rate ∧
    departs rate approved = false.

Definition ota_metrics : list string := rate_MetricCode <$> ProposedOTARates.

(** The abstract decision: no OTA rate at all, or each of the four meters exactly
    once at its approved terms. *)
Definition ota_book_complete (rates : list PricingRate) : Prop :=
  ota_rates rates = [] ∨
  (Forall approved_rate (ota_rates rates) ∧
   rate_MetricCode <$> ota_rates rates ≡ₚ ota_metrics).

Lemma ota_metrics_NoDup : NoDup ota_metrics.
Proof. apply (bool_decide_unpack _). by vm_compute. Qed.

Lemma expected_rates_spec metric approved :
  expected_rates !! metric = Some approved ↔
  approved ∈ ProposedOTARates ∧ rate_MetricCode approved = metric.
Proof.
  unfold expected_rates. rewrite <- elem_of_list_to_map.
  - rewrite list_elem_of_fmap. split; [intros (r & [= -> ->] & ?) | intros [? <-]]; eauto.
  - rewrite <- list_fmap_compose. apply ota_metrics_NoDup.
Qed.

Lemma expected_rates_size : size expected_rates = 4%nat.
Proof. by vm_compute. Qed.

Lemma ota_rates_cons rate rates :
  ota_rates (rate :: rates) =
    if is_ota_rate rate then rate :: ota_rates rates else ota_rates rates.
Proof. unfold ota_rates. rewrite filter_cons. by destruct (is_ota_rate rate). Qed.

Lemma scan_ota_rates_enabled rates enabled seen :
  (scan_ota_rates rates enabled seen).1 = true ↔ enabled = true ∨ ota_rates rates ≠ [].
Proof.
  revert enabled seen. induction rates as [|r rates IH]; intros enabled seen; simpl; [naive_solver|].
  rewrite ota_rates_cons. unfold is_ota_rate. case_bool_decide as Hs; simpl; [|apply IH].
  destruct (expected_rates !! _); simpl; [|naive_solver].
  case_match; simpl; [naive_solver|]. rewrite IH. naive_solver.
Qed.

Lemma approved_rate_iff rate approved :
  expected_rates !! rate_MetricCode rate = Some approved →
  (approved_rate rate ↔ departs rate approved = false).
Proof.
  intros He. split.
  - intros (a & Hin & Hm & Hd).
    rewrite (proj2 (expected_rates_spec _ _) (conj Hin Hm)) in He. by simplify_eq.
  - intros Hd. apply expected_rates_spec in He as [? ?]. by exists approved.
Qed.

(** The scan accepts exactly when the OTA rates ahead are new approved meters and
    complete the four of them. *)
Definition scan_accepts (os : list PricingRate) (enabled : bool) (seen : gset string) : Prop :=
  Forall approved_rate os ∧ NoDup (rate_MetricCode <$> os) ∧
  Forall (fun m => m ∉ seen) (rate_MetricCode <$> os) ∧
  ((enabled = false ∧ os = []) ∨ (size seen + length os = 4)%nat).

Lemma scan_accepts_cons r os enabled seen :
  scan_accepts (r :: os) enabled seen ↔
  approved_rate r ∧ rate_MetricCode r ∉ seen ∧
  scan_accepts os true ({[rate_MetricCode r]} ∪ seen).
Proof.
  unfold scan_accepts. rewrite fmap_cons, NoDup_cons, !Forall_cons. cbn [length].
  destruct (decide (rate_MetricCode r ∈ seen)) as [|Hn]; [naive_solver|].
  rewrite size_union, size_singleton by set_solver.
  assert (Hf : Forall (fun m => m ∉ {[rate_MetricCode r]} ∪ seen) (rate_MetricCode <$> os) ↔
    rate_MetricCode r ∉ (rate_MetricCode <$> os) ∧ Forall (fun m => m ∉ seen) (rate_MetricCode <$> os))
    by (rewrite !Forall_forall; set_solver).
  rewrite Hf. split.
  - intros ((? & ?) & (? & ?) & (? & ?) & [[? ?]|?]); [done|]. split_and!; try done. right. lia.
  - intros (? & ? & ? & ? & (? & ?) & [[? ?]|?]); [done|]. split_and!; try done. right. lia.
Qed.

Lemma scan_ota_rates_complete rates enabled seen :
  (scan_ota_rates rates enabled seen).2 = true ↔ scan_accepts (ota_rates rates) enabled seen.
Proof.
  revert enabled seen. induction rates as [|r rates IH]; intros enabled seen.
  - unfold scan_accepts. cbn [scan_ota_rates snd].
    rewrite expected_rates_size, orb_true_iff, negb_true_iff, bool_decide_eq_true.
    change (ota_rates []) with (@nil PricingRate). cbn [length]. split.
    + intros H. split_and!; try by constructor. destruct H; [by left|right; lia].
    + intros (_ & _ & _ & [[? _]|?]); [by left|right; lia].
  - rewrite ota_rates_cons. unfold is_ota_rate. cbn [scan_ota_rates].
    case_bool_decide as Hs; cbn [negb]; [|apply IH].
    rewrite scan_accepts_cons.
    destruct (expected_rates !! rate_MetricCode r) as [approved|] eqn:He.
    + rewrite (approved_rate_iff _ _ He), <- IH.
      case_bool_decide; simpl; [naive_solver|]. destruct (departs r approved); naive_solver.
    + split; [done|]. intros ((approved & Hin & Hm & _) & _).
      by rewrite (proj2 (expected_rates_spec _ _) (conj Hin Hm)) in He.
Qed.

Lemma approved_rate_metric rate : approved_rate rate → rate_MetricCode rate ∈ ota_metrics.
Proof. intros (a & ? & <- & _). by apply list_elem_of_fmap_2. Qed.

(** A price book is complete exactly when it holds no OTA rate, or each of the
    four approved OTA meters once at its approved terms with a tax category; it is
    enabled exactly when it holds an OTA rate. *)
Lemma OTAPricingState_ok rates :
  ((OTAPricingState rates).1 = true ↔ ota_rates rates ≠ []) ∧
  ((OTAPricingState rates).2 = true ↔ ota_book_complete rates).
Proof.
  unfold OTAPricingState. split; [rewrite scan_ota_rates_enabled; naive_solver|].
  rewrite scan_ota_rates_complete. unfold scan_accepts, ota_book_complete.
  set (os := ota_rates rates). rewrite size_empty. split.
  - intros (Hall & Hnd & _ & [[_ ?]|Hlen]); [by left|right]. split; [done|].
    apply submseteq_length_Permutation.
    2: { rewrite length_fmap. vm_compute (length ota_metrics). lia. }
    apply NoDup_submseteq; [done|].
    intros m Hm. apply list_elem_of_fmap in Hm as (r & -> & Hr).
    apply approved_rate_metric. by eapply Forall_forall.
  - assert (Forall (fun m : string => m ∉ (∅ : gset string)) (rate_MetricCode <$> os))
      by (apply Forall_forall; set_solver).
    intros [->|[Hall Hp]].
    + split_and!; by constructor.
    + split_and!; try done; [by rewrite Hp; apply ota_metrics_NoDup|right].
      by rewrite <- (length_fmap rate_MetricCode), Hp.
Qed.

(** ** Selection of the billable facts *)

Definition is_ota_fact (fact : UsageFact) : bool := fact_ServiceCode fact == ServiceOTA.

(** The facts kept: all of them when OTA is priced, else the non-OTA ones. *)
Definition billable_selection (enabled : bool) (facts : list UsageFact) : list UsageFact :=
  filter (fun f => (enabled || negb (is_ota_fact f)) = true) facts.

Lemma ValidOTAUsageFact_other fact : is_ota_fact fact = false → ValidOTAUsageFact fact = true.
Proof. unfold is_ota_fact, ValidOTAUsageFact. by intros ->. Qed.

Lemma billable_loop (enabled : bool) facts acc out :
  fold_result (fun out fact =>
      if fact_ServiceCode fact == ServiceOTA then
        if negb (ValidOTAUsageFact fact) then Err ErrInvalidInvoice
        else if negb enabled then Ok out
        else Ok (out ++ [fact])
      else Ok (out ++ [fact])) facts acc = Ok out ↔
  Forall (fun f => ValidOTAUsageFact f = true) facts ∧
  out = acc ++ billable_selection enabled facts.
Proof.
  revert acc. induction facts as [|f facts IH]; intros acc; simpl.
  - rewrite app_nil_r. split; [intros; simplify_eq; eauto|by intros [_ ->]].
  - unfold billable_selection. rewrite Forall_cons, filter_cons. fold (billable_selection enabled facts).
    pose proof (ValidOTAUsageFact_other f) as Hother. unfold is_ota_fact in *.
    destruct (bool_decide (fact_ServiceCode f = ServiceOTA)) eqn:Hs.
    + destruct (ValidOTAUsageFact f); simpl; [|naive_solver].
      destruct enabled; simpl; rewrite IH, <- ?app_assoc; naive_solver.
    + rewrite Hother, orb_true_r by done. simpl. rewrite IH, <- app_assoc. naive_solver.
Qed.

(** Selection succeeds exactly on a complete price book and well-formed OTA
    facts, and then drops the OTA facts if and only if the book prices no OTA
    meter; every other fact is kept, in order. *)
Lemma BillableUsageFacts_ok facts rates out :
  BillableUsageFacts facts rates = Ok out ↔
  ota_book_complete rates ∧
  Forall (fun f => ValidOTAUsageFact f = true) facts ∧
  out = billable_selection (negb (bool_decide (ota_rates rates = []))) facts.
Proof.
  unfold BillableUsageFacts. destruct (OTAPricingState_ok rates) as [He Hc].
  destruct (OTAPricingState rates) as [enabled complete]; simpl in *.
  assert (enabled = negb (bool_decide (ota_rates rates = []))) as ->
    by (case_bool_decide; simpl; destruct enabled; naive_solver).
  destruct complete; simpl; [|naive_solver].
  rewrite billable_loop. naive_solver.
Qed.

(** ** Review of a candidate price card: [ota_card_review.go] *)

Record canonicalRate := mkCanonicalRate {
  canon_ServiceCode : string;
  canon_MetricCode : string;
  canon_Unit : string;
  canon_Description : string;
  canon_UnitPriceMinor : Z;
  canon_UnitPriceScale : Z;
  canon_QuantityScale : Z;
  canon_RoundingMode : RoundingMode;
  canon_TaxCategory : string;
  canon_TaxRateBasisPoints : Z
}.

Record OTACardReview := mkOTACardReview {
  review_BaseVersionID : string;
  review_RateSetSHA256 : string;
  review_AddedOTARates : list PricingRate
}.

(** [strings.TrimSpace(s) != s || s == ""] *)
Definition unclean (s : string) : bool := (TrimSpace s != s) || (s == "").

(** The canonical form, [None] when the source returns [false]. *)
Definition canonicalPricingRate (rate : PricingRate) : option canonicalRate :=
  match rate_QuantityScale rate, rate_TaxCategory rate with
  | Some quantityScale, Some taxCategory =>
      if unclean (rate_ServiceCode rate) || unclean (rate_MetricCode rate)
         || unclean (rate_Unit rate) || unclean (rate_Description rate)
         || (quantityScale <? 0) || (quantityScale >? 9)
         || (rate_UnitPriceMinor rate <? 0)
         || (rate_UnitPriceScale rate <? 0) || (rate_UnitPriceScale rate >? 9)
         || ((rate_RoundingMode rate != RoundingHalfUp) && (rate_RoundingMode rate != RoundingDown)
             && (rate_RoundingMode rate != RoundingUp))
         || unclean taxCategory
         || (rate_TaxRateBasisPoints rate <? 0) || (rate_TaxRateBasisPoints rate >? 10000)
      then None
      else Some (mkCanonicalRate (rate_ServiceCode rate) (rate_MetricCode rate) (rate_Unit rate)
             (rate_Description rate) (rate_UnitPriceMinor rate) (rate_UnitPriceScale rate)
             quantityScale (rate_RoundingMode rate) taxCategory (rate_TaxRateBasisPoints rate))
  | _, _ => None
  end.

(** The three codes joined by NUL: the key of a rate. *)
Definition rate_key (serviceCode metricCode unit_ : string) : string :=
  serviceCode +:+ nul +:+ metricCode +:+ nul +:+ unit_.

Definition rateIdentity (rate : canonicalRate) : string :=
  rate_key (canon_ServiceCode rate) (canon_MetricCode rate) (canon_Unit rate).

Definition matchesBaseRate (base : PricingRate) (candidate : canonicalRate) : bool :=
  (rate_ServiceCode base == canon_ServiceCode candidate)
  && (rate_MetricCode base == canon_MetricCode candidate)
  && (rate_Unit base == canon_Unit candidate)
  && (rate_Description base == canon_Description candidate)
  && (rate_UnitPriceMinor base == canon_UnitPriceMinor candidate)
  && (rate_UnitPriceScale base == canon_UnitPriceScale candidate)
  && (rate_RoundingMode base == canon_RoundingMode candidate)
  && (rate_TaxRateBasisPoints base == canon_TaxRateBasisPoints candidate)
  && match rate_QuantityScale base with
     | None => true
     | Some s => s == canon_QuantityScale candidate
     end
  && match rate_TaxCategory base with
     | None => true
     | Some c => c == canon_TaxCategory candidate
     end.

(** First loop: the base card by identity, free of OTA rates and duplicates. *)
Definition index_base (base : list PricingRate) : Result (gmap string PricingRate) :=
  fold_result (fun m rate =>
      if rate_ServiceCode rate == ServiceOTA then Err ErrOTACardReview else
      if unclean (rate_ServiceCode rate) || unclean (rate_MetricCode rate)
         || unclean (rate_Unit rate) then Err ErrOTACardReview else
      let key := rate_key (rate_ServiceCode rate) (rate_MetricCode rate) (rate_Unit rate) in
      match m !! key with
      | Some _ => Err ErrOTACardReview
      | None => Ok (<[key := rate]> m)
      end)
    base ∅.

(** The accumulators of the second loop. *)
Record review_state := mkReviewState {
  rs_ordered : list canonicalRate;
  rs_added : list PricingRate;
  rs_seen : gset string
}.

Definition review_candidate (baseByIdentity : gmap string PricingRate)
    (st : review_state) (rate : PricingRate) : Result review_state :=
  match canonicalPricingRate rate with
  | None => Err ErrOTACardReview
  | Some canonical =>
      let key := rateIdentity canonical in
      if bool_decide (key ∈ rs_seen st) then Err ErrOTACardReview else
      let seen := {[key]} ∪ rs_seen st in
      if rate_ServiceCode rate == ServiceOTA then
        Ok (mkReviewState (rs_ordered st ++ [canonical]) (rs_added st ++ [rate]) seen)
      else
        match baseByIdentity !! key with
        | Some prior =>
            if negb (matchesBaseRate prior canonical) then Err ErrOTACardReview
            else Ok (mkReviewState (rs_ordered st ++ [canonical]) (rs_added st) seen)
        | None => Err ErrOTACardReview
        end
  end.

Section review.
(** [hex(sha256(json(ordered)))] of the ordered canonical rates. *)
Variable rate_set_sha256 : list canonicalRate → string.

Definition ReviewOTACandidateRates (baseVersionID : string) (base candidate : list PricingRate) :
    Result OTACardReview :=
  if (TrimSpace baseVersionID == "") || bool_decide (base = [])
     || negb (length candidate =? length base + length ProposedOTARates)%nat
  then Err ErrOTACardReview else
  baseByIdentity ← index_base base;
  let '(enabled, complete) := OTAPricingState candidate in
  if negb enabled || negb complete then Err ErrOTACardReview else
  st ← fold_result (review_candidate baseByIdentity) candidate (mkReviewState [] [] ∅);
  if negb (length (rs_added st) =? length ProposedOTARates)%nat
     || negb (size (rs_seen st) =? size baseByIdentity + length (rs_added st))%nat
  then Err ErrOTACardReview else
  let ordered := sort_stable (fun a b => String.ltb (rateIdentity a) (rateIdentity b))
                   (rs_ordered st) in
  let added := sort_stable (fun a b => String.ltb (rate_MetricCode a) (rate_MetricCode b))
                 (rs_added st) in
  Ok (mkOTACardReview baseVersionID (rate_set_sha256 ordered) added).
End review.

Definition base_key (rate : PricingRate) : string :=
  rate_key (rate_ServiceCode rate) (rate_MetricCode rate) (rate_Unit rate).

(** The index holds each base rate under its own key, once. *)
Lemma index_base_ok base m :
  index_base base = Ok m →
  ota_rates base = [] ∧ size m = length base ∧
  ∀ key rate, m !! key = Some rate ↔ rate ∈ base ∧ base_key rate = key.
Proof.
  intros H.
  refine (fold_result_inv (fun done m => ota_rates done = [] ∧ size m = length done ∧
    ∀ key rate, m !! key = Some rate ↔ rate ∈ done ∧ base_key rate = key) _ _ _ _ _ _ H).
  { split_and!; [done|apply map_size_empty|]. intros key rate.
    rewrite lookup_empty, elem_of_nil. naive_solver. }
  clear H. intros done rate m1 m2 (Hota & Hsize & Hm) Hstep.
  case_bool_decide as Hsvc; [done|]. split_guards Hstep.
  destruct (m1 !! _) eqn:Hnone; [done|]. simplify_eq. split_and!.
  - unfold ota_rates in *. rewrite filter_app, Hota, filter_cons_False; [done|].
    unfold is_ota_rate. by rewrite bool_decide_eq_true.
  - rewrite map_size_insert_None, length_app, Hsize by done. simpl. lia.
  - intros key rate'. rewrite lookup_insert, elem_of_app, list_elem_of_singleton.
    case_decide as Hk.
    + split; [intros; simplify_eq; eauto|]. intros [[Hin| ->] Hkey]; [|done].
      assert (m1 !! key = Some rate') by (by apply Hm). unfold base_key in *. congruence.
    + rewrite Hm. naive_solver.
Qed.

Lemma canonicalPricingRate_codes rate canonical :
  canonicalPricingRate rate = Some canonical → rateIdentity canonical = base_key rate.
Proof.
  unfold canonicalPricingRate. repeat case_match; intros; simplify_eq. done.
Qed.

(** What the second loop has established on the rates it has consumed. *)
Record review_inv (m : gmap string PricingRate) (done : list PricingRate) (st : review_state) :
    Prop := {
  ri_added : rs_added st = ota_rates done;
  ri_ordered : Forall2 (fun rate c => canonicalPricingRate rate = Some c) done (rs_ordered st);
  ri_nodup : NoDup (base_key <$> done);
  ri_seen : ∀ key, key ∈ rs_seen st ↔ key ∈ base_key <$> done;
  ri_match : Forall (fun rate => is_ota_rate rate = true ∨
    ∃ prior c, m !! base_key rate = Some prior ∧ canonicalPricingRate rate = Some c ∧
      matchesBaseRate prior c = true) done
}.

Lemma review_candidate_inv m done rate st st' :
  review_inv m done st → review_candidate m st rate = Ok st' → review_inv m (done ++ [rate]) st'.
Proof.
  intros [Hadd Hord Hnd Hseen Hmatch] Hstep. unfold review_candidate in Hstep.
  destruct (canonicalPricingRate rate) as [c|] eqn:Hc; [|done].
  pose proof (canonicalPricingRate_codes _ _ Hc) as Hkey. rewrite Hkey in Hstep.
  case_bool_decide as Hnew; [done|].
  assert (∃ added, st' = mkReviewState (rs_ordered st ++ [c]) added ({[base_key rate]} ∪ rs_seen st) ∧
    added = ota_rates (done ++ [rate]) ∧ (is_ota_rate rate = true ∨
      ∃ prior c, m !! base_key rate = Some prior ∧ canonicalPricingRate rate = Some c ∧
        matchesBaseRate prior c = true)) as (added & -> & -> & Hok).
  { unfold ota_rates in *. rewrite filter_app, <- Hadd, filter_cons. unfold is_ota_rate in *.
    case_bool_decide as Hs; simplify_eq.
    - rewrite decide_True by done. eauto.
    - rewrite decide_False, app_nil_r by done.
      destruct (m !! base_key rate) as [prior|] eqn:Hp; [|done].
      split_guards Hstep. reflect_go. simplify_eq. eauto 10. }
  constructor; simpl; [done|..].
  - by apply Forall2_app; [|constructor].
  - rewrite fmap_app, NoDup_app. split_and!; [done| |apply NoDup_singleton].
    intros k Hk ->%list_elem_of_singleton. by rewrite <- Hseen in Hk.
  - intros key. rewrite fmap_app, elem_of_app, elem_of_union, Hseen, elem_of_singleton.
    simpl. rewrite list_elem_of_singleton. tauto.
  - apply Forall_app; auto.
Qed.

(** C34: an accepted candidate card is the base card, each base rate kept exactly
    once with at most its missing quantity scale and tax category filled in, plus
    the four approved OTA meters; no rate identity repeats. *)
Theorem ReviewOTACandidateRates_preserves rate_set_sha256 version base candidate review :
  ReviewOTACandidateRates rate_set_sha256 version base candidate = Ok review →
  NoDup (base_key <$> candidate) ∧
  (∀ prior, prior ∈ base → ∃ rate c, rate ∈ candidate ∧ is_ota_rate rate = false ∧
     canonicalPricingRate rate = Some c ∧ matchesBaseRate prior c = true) ∧
  (∀ rate, rate ∈ candidate → is_ota_rate rate = false → ∃ prior c, prior ∈ base ∧
     canonicalPricingRate rate = Some c ∧ matchesBaseRate prior c = true) ∧
  review_AddedOTARates review ≡ₚ ota_rates candidate ∧
  Forall approved_rate (ota_rates candidate) ∧
  rate_MetricCode <$> ota_rates candidate ≡ₚ ota_metrics.
Proof.
  unfold ReviewOTACandidateRates. intros H. split_guards H.
  destruct (OTAPricingState_ok candidate) as [Hen Hco].
  destruct (OTAPricingState candidate) as [enabled complete]; simpl in *.
  split_guards H. simplify_eq.
  destruct (index_base_ok _ _ Hm) as (Hbase & Hsize & Hidx).
  assert (review_inv r candidate r0) as [Hadd _ Hnd Hseen Hmatch].
  { refine (fold_result_inv (review_inv r) _ _ _ _ _ _ Hm0).
    - constructor; simpl; try constructor; set_solver.
    - intros *. apply review_candidate_inv. }
  reflect_go. destruct Hco as [Hco _], Hen as [Hen _].
  destruct (Hco ltac:(done)) as [?|[Happ Hmet]]; [naive_solver|].
  rewrite Forall_forall in Hmatch.
  assert (Hback : ∀ rate, rate ∈ candidate → is_ota_rate rate = false → ∃ prior c, prior ∈ base ∧
     base_key prior = base_key rate ∧
     canonicalPricingRate rate = Some c ∧ matchesBaseRate prior c = true).
  { intros rate Hin Hno. destruct (Hmatch rate Hin) as [?|(p & c & Hp & ? & ?)]; [congruence|].
    apply Hidx in Hp as [? ?]. eauto 10. }
  split_and!; [done| |naive_solver|rewrite <- Hadd; apply sort_stable_Permutation|done|done].
  intros prior Hprior.
  set (rest := filter (fun rate => is_ota_rate rate = false) candidate).
  assert (base_key prior ∈ base_key <$> rest) as Hin.
  { apply (NoDup_incl_length_full _ (elements (dom r))).
    - by apply NoDup_fmap_filter.
    - intros y (rate & -> & [? ?]%list_elem_of_filter)%list_elem_of_fmap.
      destruct (Hback rate) as (p & c & ? & Hk & _); [done..|].
      apply elem_of_elements, elem_of_dom. exists p. apply Hidx. eauto.
    - pose proof (length_filter_split is_ota_rate candidate).
      assert (length (filter (fun x => is_ota_rate x = true) candidate) = 4%nat)
        by (change 4%nat with (length ota_metrics); rewrite <- Hmet, length_fmap; done).
      rewrite length_fmap. rewrite <- size_dom in Hsize.
      change (length (elements (dom r))) with (size (dom r)).
      unfold rest. change (length ProposedOTARates) with 4%nat in *. lia.
    - apply elem_of_elements, elem_of_dom. exists prior. apply Hidx. eauto. }
  apply list_elem_of_fmap in Hin as (rate & Hk & [Hno Hrate]%list_elem_of_filter).
  destruct (Hback rate) as (p & c & Hp & Hkp & Hc & Hmat); [done..|].
  assert (p = prior) as ->.
  { assert (r !! base_key prior = Some p) by (apply Hidx; split; congruence).
    assert (r !! base_key prior = Some prior) by (by apply Hidx). congruence. }
  by exists rate, c.
Qed.

(** A base card of one legacy rate, and its completed candidate. *)
Definition example_base : list PricingRate :=
  [mkPricingRate "r1" "v1" "video" "minutes" "Video minutes" "min" 5 2 None RoundingUp None 500].
Definition example_candidate : list PricingRate :=
  mkPricingRate "" "" "video" "minutes" "Video minutes" "min" 5 2 (Some 3) RoundingUp (Some "vat") 500
  :: ((fun r => mkPricingRate "" "" (rate_ServiceCode r) (rate_MetricCode r) (rate_Description r)
        (rate_Unit r) (rate_UnitPriceMinor r) (rate_UnitPriceScale r) (rate_QuantityScale r)
        (rate_RoundingMode r) (Some "vat") 500) <$> ProposedOTARates).

Lemma ReviewOTACandidateRates_preserves_witness :
  is_ok (ReviewOTACandidateRates (fun _ => "digest") "v1" example_base example_candidate) = true ∧
  NoDup (base_key <$> example_candidate).
Proof.
  split; [by vm_compute|].
  destruct (ReviewOTACandidateRates (fun _ => "digest") "v1" example_base example_candidate)
    as [review|e] eqn:H.
  - by destruct (ReviewOTACandidateRates_preserves _ _ _ _ _ H).
  - exfalso. revert H. vm_compute. discriminate.
Defined.

(** Dropping a base rate, or changing its price, is refused. *)
Example review_refuses_change :
  ReviewOTACandidateRates (fun _ => "digest") "v1"
    [mkPricingRate "r1" "v1" "video" "minutes" "Video minutes" "min" 6 2 None RoundingUp None 500]
    example_candidate = Err ErrOTACardReview.
Proof. by vm_compute. Qed.
