(* ===== verification/Invoice.v ===== *)
(** * Invoices: [internal/billing/invoice.go]

    The draft builder (tenant and period checks, aggregation of the usage facts by
    rate and product, rating, allocation of an invoice-level tax to the lines by
    largest remainder), issuing and settling. *)
From S2P Require Import Prelude GoStrings GoTime BillingTypes Money Ota.

(** ** Building a draft *)

Definition in_basis_points (bp : option Z) : bool :=
  match bp with None => false | Some v => negb ((v <? 0) || (v >? 10000)) end.

(** The guards at the top of [BuildDraftInvoice]; an unset tax mode becomes [line]. *)
Definition check_header (invoice : Invoice) : Result Invoice :=
  if (TrimSpace (inv_OrganizationID invoice) == "")
     || (TrimSpace (inv_PricingVersionID invoice) == "")
     || negb (CanSettle (inv_Currency invoice))
     || negb (After (inv_PeriodEnd invoice) (inv_PeriodStart invoice))
  then Err ErrInvalidInvoice else
  if (inv_State invoice != "") && (inv_State invoice != InvoiceStateDraft)
  then Err ErrInvoiceIssued else
  let invoice := if inv_TaxMode invoice == "" then invoice <| inv_TaxMode := TaxModeLine |>
                 else invoice in
  if (inv_TaxMode invoice != TaxModeLine) && (inv_TaxMode invoice != TaxModeInvoiceTotal)
  then Err ErrInvalidInvoice else
  if (inv_TaxMode invoice == TaxModeLine)
     && (bool_decide (is_Some (inv_InvoiceTaxRateBasisPoints invoice))
         || (inv_InvoiceTaxRoundingMode invoice != "") || (inv_InvoiceTaxCategory invoice != ""))
  then Err ErrInvalidInvoice else
  if (inv_TaxMode invoice == TaxModeInvoiceTotal)
     && (negb (in_basis_points (inv_InvoiceTaxRateBasisPoints invoice))
         || (TrimSpace (inv_InvoiceTaxCategory invoice) == "")
         || negb (validRoundingMode (inv_InvoiceTaxRoundingMode invoice)))
  then Err ErrInvalidInvoice else
  Ok invoice.

(** [rateByMetric]: the rates of the invoice's pricing version, one per key. *)
Definition index_rates (invoice : Invoice) (rates : list PricingRate) :
    Result (gmap string PricingRate) :=
  fold_result (fun m rate =>
      if (rate_PricingVersionID rate != "")
         && (rate_PricingVersionID rate != inv_PricingVersionID invoice)
      then Err ErrInvalidInvoice else
      let key := base_key rate in
      match m !! key with
      | Some _ => Err ErrInvalidInvoice
      | None => Ok (<[key := rate]> m)
      end)
    rates ∅.

(** A fact belongs to the invoice's organization and period. *)
Definition fact_in_period (invoice : Invoice) (fact : UsageFact) : bool :=
  negb ((fact_OrganizationID fact != inv_OrganizationID invoice)
        || Before (fact_WindowStart fact) (inv_PeriodStart invoice)
        || After (fact_WindowEnd fact) (inv_PeriodEnd invoice)
        || negb (After (fact_WindowEnd fact) (fact_WindowStart fact))).

Definition check_facts (invoice : Invoice) (facts : list UsageFact) : Result unit :=
  fold_result (fun _ fact => guard_err (fact_in_period invoice fact) ErrInvalidInvoice) facts tt.

Record aggregate := mkAggregate {
  agg_quantity : Z;
  agg_scale : Z;
  agg_refs : list string
}.
Definition zeroAggregate : aggregate := mkAggregate 0 0 [].

Definition fact_rate_key (fact : UsageFact) : string :=
  rate_key (fact_ServiceCode fact) (fact_MetricCode fact) (fact_Unit fact).
Definition fact_key (fact : UsageFact) : string :=
  fact_rate_key fact +:+ nul +:+ fact_ProductID fact.

(** The body of the aggregation loop; a missing map entry reads as the zero value. *)
Definition add_fact (rateByMetric : gmap string PricingRate)
    (aggregates : gmap string aggregate) (fact : UsageFact) : Result (gmap string aggregate) :=
  if negb (bool_decide (is_Some (rateByMetric !! fact_rate_key fact))) then Err ErrRateNotFound else
  let key := fact_key fact in
  let agg := default zeroAggregate (aggregates !! key) in
  if negb (length (agg_refs agg) =? 0)%nat && (agg_scale agg != fact_QuantityScale fact)
  then Err ErrInvalidScale else
  if (fact_Quantity fact <? 0)
     || ((fact_Quantity fact >? 0) && (agg_quantity agg >? maxInt64 - fact_Quantity fact))
  then Err ErrOverflow else
  Ok (<[key := mkAggregate (agg_quantity agg + fact_Quantity fact) (fact_QuantityScale fact)
                 (agg_refs agg ++ [fact_UsageID fact])]> aggregates).

(** The parts of an aggregate key: the key of its rate, and its product. *)
Definition key_rate (key : string) : string := JoinNul (take 3 (SplitNul key)).
Definition key_product (key : string) : string := default "" (SplitNul key !! 3%nat).

(** The line of one aggregate. *)
Definition price_line (taxMode : TaxCalculationMode) (rateByMetric : gmap string PricingRate)
    (key : string) (agg : aggregate) : Result InvoiceLine :=
  let rate := default zeroPricingRate (rateByMetric !! key_rate key) in
  '(subtotal, tax, total) ←
    (if taxMode == TaxModeInvoiceTotal then
       subtotal ← PriceSubtotal rate (agg_quantity agg) (agg_scale agg);
       Ok (subtotal, 0, subtotal)
     else PriceUsage rate (agg_quantity agg) (agg_scale agg));
  Ok {| line_ID := ""; line_PricingRateID := rate_ID rate; line_ProductID := key_product key;
        line_ServiceCode := rate_ServiceCode rate; line_MetricCode := rate_MetricCode rate;
        line_Description := rate_Description rate; line_Quantity := agg_quantity agg;
        line_QuantityScale := agg_scale agg; line_Unit := rate_Unit rate;
        line_UnitPriceMinor := rate_UnitPriceMinor rate;
        line_UnitPriceScale := rate_UnitPriceScale rate; line_SubtotalMinor := subtotal;
        line_TaxMinor := tax; line_TotalMinor := total;
        line_RoundingMode := rate_RoundingMode rate;
        line_UsageFactRefs := sort_Strings (agg_refs agg) |}.

(** The body of the loop over the sorted keys: append the line, add its amounts. *)
Definition append_line (rateByMetric : gmap string PricingRate)
    (aggregates : gmap string aggregate) (invoice : Invoice) (key : string) : Result Invoice :=
  line ← price_line (inv_TaxMode invoice) rateByMetric key
           (default zeroAggregate (aggregates !! key));
  let invoice := invoice <| inv_Lines ::= fun lines => lines ++ [line] |> in
  if (line_SubtotalMinor line >? maxInt64 - inv_SubtotalMinor invoice)
     || (line_TaxMinor line >? maxInt64 - inv_TaxMinor invoice)
     || (line_TotalMinor line >? maxInt64 - inv_TotalMinor invoice)
  then Err ErrOverflow else
  Ok (invoice <| inv_SubtotalMinor ::= Z.add (line_SubtotalMinor line) |>
              <| inv_TaxMinor ::= Z.add (line_TaxMinor line) |>
              <| inv_TotalMinor ::= Z.add (line_TotalMinor line) |>).

(** ** Allocation of the invoice tax: [allocateInvoiceTax] *)

(** First loop: each line gets the whole part of its share; the state is the lines
    so far, the amount allocated, and the shares (index, remainder). *)
Definition floor_share (bp tax : Z) (st : list InvoiceLine * Z * list (nat * Z))
    (line : InvoiceLine) : Result (list InvoiceLine * Z * list (nat * Z)) :=
  let '(lines, allocated, shares) := st in
  let part := line_SubtotalMinor line * bp in
  let quotient := Z.quot part 10000 in
  let remainder := Z.rem part 10000 in
  if negb (IsInt64 quotient) || (quotient >? tax - allocated) then Err ErrOverflow else
  Ok (lines ++ [line <| line_TaxMinor := quotient |>], allocated + quotient,
      shares ++ [(length lines, remainder)]).

(** Second loop: one unit more on the line of a share. *)
Definition bump_share (lines : list InvoiceLine) (share : nat * Z) : list InvoiceLine :=
  alter (fun line => line <| line_TaxMinor ::= Z.succ |>) share.1 lines.

(** Third loop: the total of each line. *)
Definition total_line (lines : list InvoiceLine) (line : InvoiceLine) : Result (list InvoiceLine) :=
  let lineTotal := line_SubtotalMinor line + line_TaxMinor line in
  if negb (IsInt64 lineTotal) then Err ErrOverflow else
  Ok (lines ++ [line <| line_TotalMinor := lineTotal |>]).

Definition allocateInvoiceTax (invoice : Invoice) : Result Invoice :=
  (* dereferences a pointer its caller checked *)
  let rate := default 0 (inv_InvoiceTaxRateBasisPoints invoice) in
  tax ← roundedInt64 (inv_SubtotalMinor invoice * rate) 10000 (inv_InvoiceTaxRoundingMode invoice);
  let total := inv_SubtotalMinor invoice + tax in
  if negb (IsInt64 total) then Err ErrOverflow else
  '(lines, allocated, shares) ← fold_result (floor_share rate tax) (inv_Lines invoice) ([], 0, []);
  let shares := sort_stable (fun i j => i.2 >? j.2) shares in
  let remaining := tax - allocated in
  if (remaining <? 0) || (remaining >? Z.of_nat (length shares)) then Err ErrInvoiceMismatch else
  let lines := foldl bump_share lines (take (Z.to_nat remaining) shares) in
  lines ← fold_result total_line lines [];
  Ok (invoice <| inv_Lines := lines |> <| inv_TaxMinor := tax |> <| inv_TotalMinor := total |>).

(** The amounts reset before the lines are appended, and the closing assignments. *)
Definition reset_draft (invoice : Invoice) : Invoice :=
  invoice <| inv_State := InvoiceStateDraft |> <| inv_Lines := [] |>
          <| inv_SubtotalMinor := 0 |> <| inv_TaxMinor := 0 |> <| inv_TotalMinor := 0 |>.

Definition finish_draft (invoice : Invoice) : Invoice :=
  let invoice := invoice <| inv_AmountSettledMinor := 0 |>
                         <| inv_AmountDueMinor := inv_TotalMinor invoice |> in
  if inv_Version invoice == 0 then invoice <| inv_Version := 1 |> else invoice.

(** The draft before the final reconciliation check. *)
Definition assemble_draft (invoice : Invoice) (facts : list UsageFact) (rates : list PricingRate) :
    Result Invoice :=
  invoice ← check_header invoice;
  rateByMetric ← index_rates invoice rates;
  _ ← check_facts invoice facts;
  facts ← BillableUsageFacts facts rates;
  aggregates ← fold_result (add_fact rateByMetric) facts ∅;
  let keys := sort_Strings (map_to_list aggregates).*1 in
  invoice ← fold_result (append_line rateByMetric aggregates) keys (reset_draft invoice);
  invoice ← (if inv_TaxMode invoice == TaxModeInvoiceTotal then allocateInvoiceTax invoice
             else Ok invoice);
  Ok (finish_draft invoice).

Definition BuildDraftInvoice (invoice : Invoice) (facts : list UsageFact)
    (rates : list PricingRate) : Result Invoice :=
  invoice ← assemble_draft invoice facts rates;
  _ ← ValidateInvoiceTotals invoice;
  Ok invoice.

(** ** Issuing and settling *)

Definition IssueInvoice (invoice : Invoice) (number : string) (now dueAt : Time) : Result Invoice :=
  if profile_RequiresConfiguration (inv_Recipient invoice)
  then Err ErrProfileConfigurationRequired else
  if (inv_State invoice != InvoiceStateDraft) || bool_decide (is_Some (inv_IssuedAt invoice))
     || (TrimSpace number == "") || Before dueAt now
  then Err ErrInvalidInvoice else
  _ ← ValidateInvoiceTotals invoice;
  Ok (invoice <| inv_State := InvoiceStateIssued |>
              <| inv_InvoiceNumber := TrimSpace number |>
              <| inv_IssuedAt := Some (UTC now) |>
              <| inv_DueAt := Some (UTC dueAt) |>
              <| inv_Version ::= fun v => wrap64 (v + 1) |>
              <| inv_UpdatedAt := UTC now |>).

(** Returns the invoice together with the verdict of the reconciliation check: the
    pair is what the source returns after its guard. *)
Definition SettleInvoice (invoice : Invoice) (settledMinor : Z) (now : Time) :
    Result (Invoice * Result unit) :=
  if (inv_State invoice == InvoiceStateDraft) || (inv_State invoice == InvoiceStateVoid)
     || (settledMinor <? 0) || (settledMinor >? inv_TotalMinor invoice)
  then Err ErrInvalidInvoice else
  let invoice := invoice <| inv_AmountSettledMinor := settledMinor |>
                         <| inv_AmountDueMinor := inv_TotalMinor invoice - settledMinor |>
                         <| inv_SettledAt := None |> in
  let invoice :=
    if settledMinor == inv_TotalMinor invoice then
      invoice <| inv_State := InvoiceStateSettled |> <| inv_SettledAt := Some (UTC now) |>
    else if settledMinor >? 0 then invoice <| inv_State := InvoiceStatePartiallySettled |>
    else invoice <| inv_State := InvoiceStateIssued |> in
  let invoice := invoice <| inv_Version ::= fun v => wrap64 (v + 1) |>
                         <| inv_UpdatedAt := UTC now |> in
  Ok (invoice, ValidateInvoiceTotals invoice).


(** ** Allocation by largest remainder *)

(** The whole part and the remainder of a line's exact share of the tax. *)
Definition share_floor (bp : Z) (line : InvoiceLine) : Z := line_SubtotalMinor line * bp / 10000.
Definition share_rem (bp : Z) (line : InvoiceLine) : Z := (line_SubtotalMinor line * bp) mod 10000.

Lemma share_split bp line : line_SubtotalMinor line * bp = 10000 * share_floor bp line + share_rem bp line.
Proof. apply Z.div_mod. lia. Qed.

Lemma share_rem_bounds bp line : 0 ≤ share_rem bp line < 10000.
Proof. apply Z.mod_pos_bound. lia. Qed.

Lemma sum_by_share bp lines :
  sum_by line_SubtotalMinor lines * bp =
  10000 * sum_by (share_floor bp) lines + sum_by (share_rem bp) lines.
Proof. induction lines as [|l lines IH]; simpl; [lia|]. pose proof (share_split bp l). nia. Qed.

Definition with_floor (bp : Z) (line : InvoiceLine) : InvoiceLine :=
  line <| line_TaxMinor := share_floor bp line |>.

(** The first loop never overflows while the whole parts fit in the tax. *)
Lemma floor_share_ok bp tax lines pre alloc shares :
  0 ≤ bp → Forall (fun l => 0 ≤ line_SubtotalMinor l) lines → tax ≤ maxInt64 → 0 ≤ alloc →
  alloc + sum_by (share_floor bp) lines ≤ tax →
  fold_result (floor_share bp tax) lines (pre, alloc, shares) =
  Ok (pre ++ (with_floor bp <$> lines), alloc + sum_by (share_floor bp) lines,
      shares ++ imap (fun i l => ((length pre + i)%nat, share_rem bp l)) lines).
Proof.
  intros Hbp Hpos Htax. revert pre alloc shares.
  induction Hpos as [|l lines Hl Hpos IH]; intros pre alloc shares Ha Hle; simpl.
  { by rewrite !app_nil_r, Z.add_0_r. }
  simpl in Hle. unfold floor_share at 1.
  rewrite Z.quot_div_nonneg, Z.rem_mod_nonneg by nia.
  fold (share_floor bp l) (share_rem bp l).
  assert (0 ≤ share_floor bp l) by (apply Z.div_pos; nia).
  assert (0 ≤ sum_by (share_floor bp) lines)
    by (apply sum_by_nonneg; intros x Hx; rewrite Forall_forall in Hpos;
        pose proof (Hpos x Hx); apply Z.div_pos; nia).
  replace (IsInt64 (share_floor bp l)) with true
    by (symmetry; apply IsInt64_true; unfold int64, minInt64, maxInt64 in *; lia).
  replace (share_floor bp l >? tax - alloc) with false by lia. simpl.
  rewrite IH by lia. rewrite <- !(app_assoc _ [_]). simpl. f_equal. f_equal; [f_equal; lia|].
  do 2 f_equal; [f_equal; lia|]. apply imap_ext. intros i x _. simpl.
  rewrite length_app. simpl. f_equal. lia.
Qed.

Lemma bump_share_length lines share : length (bump_share lines share) = length lines.
Proof. apply length_alter. Qed.

(** The second loop adds one unit per share: to the lines it names. *)
Lemma foldl_bump_lookup shares lines i :
  NoDup shares.*1 →
  foldl bump_share lines shares !! i =
  (fun l => l <| line_TaxMinor ::= Z.add (if bool_decide (i ∈ shares.*1) then 1 else 0) |>)
    <$> lines !! i.
Proof.
  revert lines. induction shares as [|[j r] shares IH]; intros lines Hnd; simpl.
  - destruct (lines !! i) as [l|]; [|done]. simpl. f_equal. by destruct l.
  - rewrite fmap_cons in Hnd. apply NoDup_cons in Hnd as [Hj Hnd]. rewrite IH by done.
    unfold bump_share. simpl. destruct (decide (i = j)) as [->|Hij].
    + rewrite list_lookup_alter_eq, bool_decide_eq_false_2 by done.
      rewrite bool_decide_eq_true_2 by left.
      destruct (lines !! j) as [l|]; simpl; [|done]. f_equal.
      destruct l. unfold upd. simpl. f_equal. lia.
    + rewrite list_lookup_alter_ne by done.
      destruct (lines !! i) as [l|]; simpl; [|done]. f_equal.
      simpl.
      rewrite (bool_decide_ext (i ∈ shares.*1) (i ∈ j :: shares.*1)); [done|].
      rewrite elem_of_cons. naive_solver.
Qed.

Lemma foldl_bump_length shares lines : length (foldl bump_share lines shares) = length lines.
Proof.
  revert lines; induction shares as [|s shares IH]; intros lines; simpl; [done|].
  by rewrite IH, bump_share_length.
Qed.

Lemma sum_by_bump f lines s :
  (s.1 < length lines)%nat → (∀ l, f (l <| line_TaxMinor ::= Z.succ |>) = f l + 1) →
  sum_by f (bump_share lines s) = sum_by f lines + 1.
Proof.
  destruct s as [j r]. unfold bump_share. simpl. intros Hj Hf. revert j Hj.
  induction lines as [|l lines IH]; intros j Hj; simpl in *; [lia|].
  destruct j as [|j]; simpl; [rewrite Hf; lia|].
  change (list_alter ?g j lines) with (alter g j lines). rewrite IH by lia. lia.
Qed.

Lemma sum_by_foldl_bump lines shares :
  Forall (fun s => (s.1 < length lines)%nat) shares →
  sum_by line_TaxMinor (foldl bump_share lines shares)
  = sum_by line_TaxMinor lines + Z.of_nat (length shares).
Proof.
  revert lines; induction shares as [|s shares IH]; intros lines Hall; simpl; [lia|].
  inversion_clear Hall as [|? ? Hs Hss].
  rewrite IH by (rewrite bump_share_length; done).
  rewrite sum_by_bump by (done || intros l; by get_upd). lia.
Qed.

Definition with_total (line : InvoiceLine) : InvoiceLine :=
  line <| line_TotalMinor := line_SubtotalMinor line + line_TaxMinor line |>.

Lemma total_line_ok lines pre :
  Forall (fun l => int64 (line_SubtotalMinor l + line_TaxMinor l)) lines →
  fold_result total_line lines pre = Ok (pre ++ (with_total <$> lines)).
Proof.
  intros Hall. revert pre. induction Hall as [|l lines Hl Hall IH]; intros pre; simpl.
  - by rewrite app_nil_r.
  - assert (total_line pre l = Ok (pre ++ [with_total l])) as ->
      by (unfold total_line; apply IsInt64_true in Hl; cbv zeta; by rewrite Hl).
    simpl. by rewrite IH, <- app_assoc.
Qed.

(** The line of an allocation: its tax is the whole part of its exact share, plus
    [extra]. *)
Definition allocated (bp extra : Z) (line : InvoiceLine) : InvoiceLine :=
  with_total (line <| line_TaxMinor := share_floor bp line + extra |>).

(** The shares sorted by decreasing remainder: those served dominate the others. *)
Lemma sorted_shares_split (shares : list (nat * Z)) k x y :
  let sorted := sort_stable (fun i j => i.2 >? j.2) shares in
  x ∈ take k sorted → y ∈ drop k sorted → y.2 ≤ x.2.
Proof.
  intros sorted Hx Hy.
  assert (StronglySorted (fun a b : nat * Z => (b.2 >? a.2) = false) sorted) as Hs.
  { apply Sorted_StronglySorted; [intros a b c ? ?; reflect_go; lia|].
    apply (sort_stable_sorted (fun i j : nat * Z => i.2 >? j.2)). intros a b ?. reflect_go. lia. }
  rewrite <- (take_drop k sorted) in Hs. rewrite StronglySorted_app in Hs.
  destruct Hs as (Hs & _ & _). specialize (Hs x y Hx Hy). simpl in Hs. reflect_go. lia.
Qed.

(** What rounding the whole tax leaves to distribute: no more than one unit per
    line with a non-zero remainder. *)
Lemma remaining_bounds bp lines tax mode :
  0 ≤ bp → Forall (fun l => 0 ≤ line_SubtotalMinor l) lines →
  roundedInt64 (sum_by line_SubtotalMinor lines * bp) 10000 mode = Ok tax →
  0 ≤ tax - sum_by (share_floor bp) lines ∧
  10000 * (tax - sum_by (share_floor bp) lines) < sum_by (share_rem bp) lines + 10000.
Proof.
  intros Hbp Hpos (Hn & _ & Hr & _)%roundedInt64_inv.
  apply round_spec_bounds in Hr as (Hlo & _); [|done]. rewrite sum_by_share in Hlo.
  assert (0 ≤ sum_by (share_rem bp) lines)
    by (apply sum_by_nonneg; intros; apply share_rem_bounds).
  lia.
Qed.

(** Serving a share with remainder zero would exhaust every positive remainder
    first, which is more than what is left. *)
Lemma served_share_positive (shares : list (nat * Z)) k x :
  let sorted := sort_stable (fun i j => i.2 >? j.2) shares in
  Forall (fun s => 0 ≤ s.2 < 10000) shares →
  10000 * Z.of_nat (length (take k sorted)) < sum_by snd shares + 10000 →
  x ∈ take k sorted → 0 < x.2.
Proof.
  intros sorted Hrem Hlt Hx.
  assert (Hp : sorted ≡ₚ shares) by apply sort_stable_Permutation.
  rewrite <- Hp in Hrem.
  assert (sum_by snd shares = sum_by snd (take k sorted) + sum_by snd (drop k sorted)) as Hsplit
    by (rewrite <- sum_by_app, take_drop, Hp; done).
  rewrite Hsplit in Hlt. rewrite <- (take_drop k sorted), Forall_app, !Forall_forall in Hrem.
  destruct Hrem as [Htake Hdrop]. pose proof (Htake x Hx).
  destruct (decide (x.2 = 0)) as [Hz|]; [exfalso|lia].
  assert (sum_by snd (drop k sorted) ≤ 0).
  { rewrite (sum_by_ext snd (fun _ => 0)).
    - clear. induction (drop k sorted); simpl; lia.
    - intros y Hy. pose proof (Hdrop y Hy).
      pose proof (sorted_shares_split shares k x y Hx Hy). lia. }
  assert (∀ l, sum_by (fun s : nat * Z => 10000 - s.2) l
             = 10000 * Z.of_nat (length l) - sum_by snd l) as Hsum
    by (clear; induction l; simpl; lia).
  pose proof (sum_by_elem_le (fun s : nat * Z => 10000 - s.2) (take k sorted) x) as Hle.
  rewrite Hsum in Hle. simpl in Hle.
  enough (10000 - x.2 ≤ 10000 * Z.of_nat (length (take k sorted)) - sum_by snd (take k sorted))
    by lia.
  apply Hle; [|done]. intros y Hy. pose proof (Htake y Hy). lia.
Qed.

Definition line_shares (bp : Z) (lines : list InvoiceLine) : list (nat * Z) :=
  imap (fun i l => (i, share_rem bp l)) lines.

Lemma line_shares_lookup bp lines i r :
  (i, r) ∈ line_shares bp lines ↔ ∃ l, lines !! i = Some l ∧ r = share_rem bp l.
Proof.
  unfold line_shares. rewrite elem_of_lookup_imap. split.
  - intros (j & l & [= -> ->] & ?). eauto.
  - intros (l & ? & ->). eauto.
Qed.

Lemma line_shares_fst bp lines : (line_shares bp lines).*1 = seq 0 (length lines).
Proof.
  unfold line_shares. rewrite fmap_imap. apply list_eq. intros i.
  rewrite list_lookup_imap. destruct (lines !! i) eqn:E; simpl.
  - apply lookup_lt_Some in E. symmetry. by apply lookup_seq.
  - apply lookup_ge_None in E. symmetry. by apply lookup_seq_ge.
Qed.

Lemma sum_line_shares bp lines : sum_by snd (line_shares bp lines) = sum_by (share_rem bp) lines.
Proof.
  unfold line_shares. change (sum_by snd ?l) with (sum_by (id ∘ snd) l).
  rewrite <- (sum_by_fmap snd id).
  assert ((imap (λ i l, (i, share_rem bp l)) lines).*2 = share_rem bp <$> lines) as ->.
  { rewrite fmap_imap. apply list_eq. intros i. rewrite list_lookup_imap, list_lookup_fmap.
    by destruct (lines !! i). }
  apply sum_by_fmap.
Qed.

(** The shares served: those at the front of the sorted list. *)
Definition served (bp tax : Z) (lines : list InvoiceLine) : list (nat * Z) :=
  take (Z.to_nat (tax - sum_by (share_floor bp) lines))
    (sort_stable (fun i j => i.2 >? j.2) (line_shares bp lines)).
Definition extra_unit (bp tax : Z) (lines : list InvoiceLine) (i : nat) : Z :=
  if bool_decide (i ∈ (served bp tax lines).*1) then 1 else 0.

Lemma extra_unit_one bp tax lines i :
  extra_unit bp tax lines i = 1 → i ∈ (served bp tax lines).*1.
Proof. unfold extra_unit. by case_bool_decide. Qed.

Lemma extra_unit_zero bp tax lines i :
  extra_unit bp tax lines i = 0 → i ∉ (served bp tax lines).*1.
Proof. unfold extra_unit. by case_bool_decide. Qed.

Lemma served_fst_NoDup bp tax lines : NoDup (served bp tax lines).*1.
Proof.
  unfold served. set (k := Z.to_nat _). set (sorted := sort_stable _ _).
  assert (NoDup (take k sorted ++ drop k sorted).*1) as H.
  { rewrite take_drop. unfold sorted. rewrite sort_stable_Permutation, line_shares_fst.
    apply NoDup_seq. }
  rewrite fmap_app, NoDup_app in H. by destruct H.
Qed.

Lemma line_shares_length bp lines : length (line_shares bp lines) = length lines.
Proof. apply length_imap. Qed.

Lemma served_length bp tax lines mode :
  0 ≤ bp → Forall (fun l => 0 ≤ line_SubtotalMinor l) lines →
  roundedInt64 (sum_by line_SubtotalMinor lines * bp) 10000 mode = Ok tax →
  Z.of_nat (length (served bp tax lines)) = tax - sum_by (share_floor bp) lines ∧
  tax - sum_by (share_floor bp) lines ≤ Z.of_nat (length lines).
Proof.
  intros Hbp Hpos Hr. destruct (remaining_bounds _ _ _ _ Hbp Hpos Hr) as [Hlo Hhi].
  assert (∀ ls, sum_by (share_rem bp) ls ≤ 9999 * Z.of_nat (length ls)) as Hsum.
  { induction ls as [|l ls IH]; simpl; [lia|]. pose proof (share_rem_bounds bp l). lia. }
  specialize (Hsum lines). split; [|lia]. unfold served.
  rewrite length_take, sort_stable_Permutation, line_shares_length. lia.
Qed.

Lemma served_index bp tax lines i :
  i ∈ (served bp tax lines).*1 → ∃ l, lines !! i = Some l ∧ (i, share_rem bp l) ∈ served bp tax lines.
Proof.
  intros ([j r] & -> & Hin)%list_elem_of_fmap. simpl.
  assert ((j, r) ∈ line_shares bp lines) as Hj.
  { rewrite <- (sort_stable_Permutation (fun i j : nat * Z => i.2 >? j.2)).
    eapply elem_of_submseteq; [exact Hin|apply submseteq_take]. }
  apply line_shares_lookup in Hj as (l & ? & ->). eauto.
Qed.

Lemma bumped_lines bp tax lines :
  NoDup (served bp tax lines).*1 →
  foldl bump_share (with_floor bp <$> lines) (served bp tax lines) =
  imap (fun i l => l <| line_TaxMinor := share_floor bp l + extra_unit bp tax lines i |>) lines.
Proof.
  intros Hnd. apply list_eq. intros i.
  rewrite foldl_bump_lookup, list_lookup_imap, list_lookup_fmap by done.
  destruct (lines !! i) as [l|]; simpl; [|done]. f_equal. unfold extra_unit.
  destruct l. unfold upd, with_floor. simpl. f_equal. lia.
Qed.

Definition allocated_lines (bp tax : Z) (lines : list InvoiceLine) : list InvoiceLine :=
  imap (fun i => allocated bp (extra_unit bp tax lines i)) lines.

Lemma sum_bumped bp tax lines mode :
  0 ≤ bp → Forall (fun l => 0 ≤ line_SubtotalMinor l) lines →
  roundedInt64 (sum_by line_SubtotalMinor lines * bp) 10000 mode = Ok tax →
  sum_by line_TaxMinor (foldl bump_share (with_floor bp <$> lines) (served bp tax lines)) = tax.
Proof.
  intros Hbp Hpos Hr. rewrite sum_by_foldl_bump.
  - rewrite (proj1 (served_length _ _ _ _ Hbp Hpos Hr)), sum_by_fmap.
    rewrite (sum_by_ext _ (share_floor bp)) by done. lia.
  - apply Forall_forall. intros s Hs. rewrite length_fmap.
    destruct (served_index bp tax lines s.1) as (l & Hl%lookup_lt_Some & _); [|done].
    apply list_elem_of_fmap. eauto.
Qed.

(** The allocated lines fit: each line's amounts are bounded by the invoice's. *)
Lemma bumped_lines_int64 bp tax lines mode :
  0 ≤ bp → Forall (fun l => 0 ≤ line_SubtotalMinor l) lines →
  roundedInt64 (sum_by line_SubtotalMinor lines * bp) 10000 mode = Ok tax →
  int64 (sum_by line_SubtotalMinor lines + tax) →
  Forall (fun l => int64 (line_SubtotalMinor l + line_TaxMinor l))
    (foldl bump_share (with_floor bp <$> lines) (served bp tax lines)).
Proof.
  intros Hbp Hpos Hr H64. pose proof (sum_bumped _ _ _ _ Hbp Hpos Hr) as Hsum.
  rewrite bumped_lines in * by apply served_fst_NoDup.
  set (lines' := imap _ lines) in *. rewrite Forall_forall in Hpos.
  assert (∀ l', l' ∈ lines' → 0 ≤ line_TaxMinor l' ∧
            ∃ l, l ∈ lines ∧ line_SubtotalMinor l' = line_SubtotalMinor l) as Hl'.
  { intros l' (i & l & -> & Hl)%elem_of_lookup_imap. get_upd.
    apply list_elem_of_lookup_2 in Hl. pose proof (Hpos l Hl).
    assert (0 ≤ share_floor bp l) by (apply Z.div_pos; nia).
    assert (0 ≤ extra_unit bp tax lines i) by (unfold extra_unit; case_bool_decide; lia).
    split; [lia|]. eauto. }
  apply Forall_forall. intros l' Hin. destruct (Hl' l' Hin) as (? & l & Hl & Heq).
  pose proof (sum_by_elem_le line_TaxMinor lines' l' (fun y Hy => proj1 (Hl' y Hy)) Hin).
  pose proof (sum_by_elem_le line_SubtotalMinor lines l Hpos Hl). pose proof (Hpos l Hl).
  unfold int64, minInt64, maxInt64 in *. lia.
Qed.

(** The allocation in closed form, and its sum. *)
Lemma allocateInvoiceTax_ok invoice bp tax :
  let lines := inv_Lines invoice in
  inv_InvoiceTaxRateBasisPoints invoice = Some bp → 0 ≤ bp →
  Forall (fun l => 0 ≤ line_SubtotalMinor l) lines →
  inv_SubtotalMinor invoice = sum_by line_SubtotalMinor lines →
  roundedInt64 (inv_SubtotalMinor invoice * bp) 10000 (inv_InvoiceTaxRoundingMode invoice) = Ok tax →
  int64 (inv_SubtotalMinor invoice + tax) →
  allocateInvoiceTax invoice =
    Ok (invoice <| inv_Lines := allocated_lines bp tax lines |> <| inv_TaxMinor := tax |>
                <| inv_TotalMinor := inv_SubtotalMinor invoice + tax |>) ∧
  sum_by line_TaxMinor (allocated_lines bp tax lines) = tax.
Proof.
  intros lines Hrate Hbp Hpos Hsub Hr H64. rewrite Hsub in Hr, H64.
  destruct (remaining_bounds _ _ _ _ Hbp Hpos Hr) as [Hlo Hhi].
  destruct (served_length _ _ _ _ Hbp Hpos Hr) as [Hlen Hmax].
  pose proof (bumped_lines_int64 _ _ _ _ Hbp Hpos Hr H64) as Hfit.
  pose proof (sum_bumped _ _ _ _ Hbp Hpos Hr) as Hsum.
  rewrite bumped_lines in Hsum, Hfit by apply served_fst_NoDup.
  assert (with_total <$> imap (λ i l, l <| line_TaxMinor := share_floor bp l + extra_unit bp tax lines i |>) lines
          = allocated_lines bp tax lines) as Htotal by apply fmap_imap.
  split; [|by rewrite <- Htotal, sum_by_fmap; exact Hsum].
  unfold allocateInvoiceTax. fold lines. rewrite Hrate, Hsub. simpl. rewrite Hr. simpl.
  rewrite (proj2 (IsInt64_true _) H64). simpl.
  rewrite (floor_share_ok bp tax lines [] 0 []); try done; try lia.
  2: { apply roundedInt64_inv in Hr as (_ & _ & _ & ?). unfold int64 in *. lia. }
  simpl. change (imap (λ i l, (i, share_rem bp l)) lines) with (line_shares bp lines).
  rewrite sort_stable_Permutation, line_shares_length, Z.add_0_l.
  replace ((_ <? 0) || _) with false by lia.
  fold (served bp tax lines). rewrite bumped_lines by apply served_fst_NoDup.
  rewrite total_line_ok by done. simpl. by rewrite Htotal.
Qed.

(** The line a served share names, and the line of any share. *)
Lemma extra_unit_positive bp tax mode lines i l :
  0 ≤ bp → Forall (fun l => 0 ≤ line_SubtotalMinor l) lines →
  roundedInt64 (sum_by line_SubtotalMinor lines * bp) 10000 mode = Ok tax →
  lines !! i = Some l → extra_unit bp tax lines i = 1 → 0 < share_rem bp l.
Proof.
  intros Hbp Hpos Hr Hl Hi%extra_unit_one.
  destruct (remaining_bounds _ _ _ _ Hbp Hpos Hr) as [_ Hhi].
  destruct (served_length _ _ _ _ Hbp Hpos Hr) as [Hlen _].
  destruct (served_index _ _ _ _ Hi) as (l' & Hl' & Hin). simplify_eq.
  refine (served_share_positive _ _ _ _ _ Hin).
  - apply Forall_forall. intros [j r] (l' & _ & ->)%line_shares_lookup. apply share_rem_bounds.
  - fold (served bp tax lines). rewrite sum_line_shares. lia.
Qed.

Lemma extra_unit_largest bp tax lines i j li lj :
  lines !! i = Some li → lines !! j = Some lj →
  extra_unit bp tax lines i = 1 → extra_unit bp tax lines j = 0 →
  share_rem bp lj ≤ share_rem bp li.
Proof.
  intros Hi Hj Hsi%extra_unit_one Hsj%extra_unit_zero.
  destruct (served_index _ _ _ _ Hsi) as (l' & Hl' & Hin). simplify_eq.
  assert ((j, share_rem bp lj) ∈ line_shares bp lines) as Hjs by (apply line_shares_lookup; eauto).
  rewrite <- (sort_stable_Permutation (fun i j : nat * Z => i.2 >? j.2)) in Hjs.
  rewrite <- (take_drop (Z.to_nat (tax - sum_by (share_floor bp) lines))), elem_of_app in Hjs.
  destruct Hjs as [Hjs|Hjs]; [destruct Hsj; exact (list_elem_of_fmap_2 fst _ _ Hjs)|].
  exact (sorted_shares_split _ _ _ _ Hin Hjs).
Qed.

(** C29: the invoice tax is distributed by largest remainder: the allocation always
    succeeds when the invoice total fits, the line taxes add up to the rounded
    invoice tax, each is the whole part of the line's exact share plus at most one
    unit, never for an exact share, and the extra units go to the largest
    remainders. *)
Theorem allocateInvoiceTax_spec invoice bp tax :
  let lines := inv_Lines invoice in
  inv_InvoiceTaxRateBasisPoints invoice = Some bp → 0 ≤ bp →
  Forall (fun l => 0 ≤ line_SubtotalMinor l) lines →
  inv_SubtotalMinor invoice = sum_by line_SubtotalMinor lines →
  roundedInt64 (inv_SubtotalMinor invoice * bp) 10000 (inv_InvoiceTaxRoundingMode invoice) = Ok tax →
  int64 (inv_SubtotalMinor invoice + tax) →
  allocateInvoiceTax invoice =
    Ok (invoice <| inv_Lines := allocated_lines bp tax lines |> <| inv_TaxMinor := tax |>
                <| inv_TotalMinor := inv_SubtotalMinor invoice + tax |>) ∧
  sum_by line_TaxMinor (allocated_lines bp tax lines) = tax ∧
  (∀ i l, lines !! i = Some l → extra_unit bp tax lines i = 0 ∨
     extra_unit bp tax lines i = 1 ∧ 0 < share_rem bp l) ∧
  (∀ i j li lj, lines !! i = Some li → lines !! j = Some lj →
     extra_unit bp tax lines i = 1 → extra_unit bp tax lines j = 0 →
     share_rem bp lj ≤ share_rem bp li).
Proof.
  intros lines Hrate Hbp Hpos Hsub Hr H64.
  destruct (allocateInvoiceTax_ok _ _ _ Hrate Hbp Hpos Hsub Hr H64) as [Hout Hsum].
  split_and!; [done..| |apply extra_unit_largest].
  intros i l Hl. rewrite Hsub in Hr.
  pose proof (extra_unit_positive _ _ _ _ _ _ Hbp Hpos Hr Hl) as H1.
  destruct (decide (extra_unit bp tax lines i = 1)) as [|Hne]; [right; by auto|left].
  revert Hne. unfold extra_unit. by case_bool_decide.
Qed.

(** Three lines of 34, 33 and 33 units, one percent of tax rounded up to 1. *)
Definition example_line (subtotal : Z) : InvoiceLine :=
  mkInvoiceLine "" "r1" "p" "video" "minutes" "Video" subtotal 0 "min" 1 0 subtotal 0 subtotal
    RoundingUp [].
Definition example_tax_invoice : Invoice :=
  mkInvoice "" "" "org" "" "" "v1" TaxModeInvoiceTotal (Some 100) RoundingUp "vat" TWD "" 0 1
    100 0 100 0 0 emptyProfile (example_line <$> [34; 33; 33]) None "" "" None None None 1 0 0.

Lemma allocateInvoiceTax_spec_witness :
  line_TaxMinor <$> allocated_lines 100 1 (inv_Lines example_tax_invoice) = [1; 0; 0] ∧
  is_ok (allocateInvoiceTax example_tax_invoice) = true.
Proof.
  split; [by vm_compute|].
  destruct (allocateInvoiceTax_spec example_tax_invoice 100 1) as (-> & _); try done.
  - repeat constructor; done.
Defined.

(** ** Aggregation of the usage facts *)

(** The facts of one key, and the aggregate they make. *)
Definition facts_of (key : string) (facts : list UsageFact) : list UsageFact :=
  filter (fun f => fact_key f = key) facts.

Definition aggregate_of (facts : list UsageFact) : option aggregate :=
  match facts with
  | [] => None
  | f :: _ => Some (mkAggregate (sum_by fact_Quantity facts) (fact_QuantityScale f)
                      (fact_UsageID <$> facts))
  end.

(** What the aggregation loop requires of the facts, in no particular order. *)
Record facts_ok (rates : gmap string PricingRate) (facts : list UsageFact) : Prop := {
  fo_rated : ∀ f, f ∈ facts → is_Some (rates !! fact_rate_key f) ∧ 0 ≤ fact_Quantity f;
  fo_scale : ∀ f g, f ∈ facts → g ∈ facts → fact_key f = fact_key g →
    fact_QuantityScale f = fact_QuantityScale g;
  fo_sum : ∀ key, sum_by fact_Quantity (facts_of key facts) ≤ maxInt64
}.

Lemma facts_of_snoc key facts f :
  facts_of key (facts ++ [f]) =
  facts_of key facts ++ (if bool_decide (fact_key f = key) then [f] else []).
Proof.
  unfold facts_of. rewrite filter_app. f_equal. case_bool_decide.
  - by rewrite filter_cons_True.
  - by rewrite filter_cons_False.
Qed.

Lemma facts_of_elem key facts f : f ∈ facts_of key facts ↔ fact_key f = key ∧ f ∈ facts.
Proof. unfold facts_of. by rewrite list_elem_of_filter. Qed.

Lemma sum_facts_nonneg rates key facts :
  facts_ok rates facts → 0 ≤ sum_by fact_Quantity (facts_of key facts).
Proof.
  intros [Hr _ _]. apply sum_by_nonneg. intros f [_ Hf]%facts_of_elem. by apply Hr.
Qed.

Lemma facts_ok_snoc rates facts f :
  facts_ok rates (facts ++ [f]) ↔
  facts_ok rates facts ∧ is_Some (rates !! fact_rate_key f) ∧ 0 ≤ fact_Quantity f ∧
  (∀ g, g ∈ facts_of (fact_key f) facts → fact_QuantityScale g = fact_QuantityScale f) ∧
  sum_by fact_Quantity (facts_of (fact_key f) facts) + fact_Quantity f ≤ maxInt64.
Proof.
  split.
  - intros [Hr Hs Hsum]. assert (facts_ok rates facts) as Hok.
    { constructor.
      - intros g Hg. apply Hr, elem_of_app. by left.
      - intros g h Hg Hh. apply Hs; apply elem_of_app; by left.
      - intros key. specialize (Hsum key). rewrite facts_of_snoc, sum_by_app in Hsum.
        case_bool_decide; simpl in Hsum; [|lia].
        assert (0 ≤ fact_Quantity f) by (apply Hr, elem_of_app; right; by left). lia. }
    destruct (Hr f) as [? ?]; [apply elem_of_app; right; by left|].
    split_and!; [done..| |].
    + intros g [? ?]%facts_of_elem. apply Hs; [| |done]; apply elem_of_app; [by left|right; by left].
    + specialize (Hsum (fact_key f)).
      rewrite facts_of_snoc, bool_decide_eq_true_2, sum_by_snoc in Hsum by done. lia.
  - intros (Hok & Hrate & Hq & Hscale & Hle). destruct Hok as [Hr Hs Hsum]. constructor.
    + intros g [Hg| ->%list_elem_of_singleton]%elem_of_app; [by apply Hr|done].
    + intros g h [Hg| ->%list_elem_of_singleton]%elem_of_app
        [Hh| ->%list_elem_of_singleton]%elem_of_app Hk; [by apply Hs| | |done].
      * apply Hscale, facts_of_elem. done.
      * symmetry. apply Hscale, facts_of_elem. done.
    + intros key. rewrite facts_of_snoc. case_bool_decide as Hk; [|by rewrite app_nil_r].
      subst key. rewrite sum_by_snoc. lia.
Qed.

Lemma aggregate_of_default grp :
  agg_quantity (default zeroAggregate (aggregate_of grp)) = sum_by fact_Quantity grp ∧
  agg_refs (default zeroAggregate (aggregate_of grp)) = fact_UsageID <$> grp.
Proof. by destruct grp. Qed.

(** The body of the loop succeeds exactly when the enlarged list is accepted. *)
Lemma add_fact_ok rates facts f aggs aggs' :
  facts_ok rates facts → (∀ key, aggs !! key = aggregate_of (facts_of key facts)) →
  add_fact rates aggs f = Ok aggs' ↔
  facts_ok rates (facts ++ [f]) ∧
  aggs' = <[fact_key f := mkAggregate (sum_by fact_Quantity (facts_of (fact_key f) facts) + fact_Quantity f)
             (fact_QuantityScale f) ((fact_UsageID <$> facts_of (fact_key f) facts) ++ [fact_UsageID f])]> aggs.
Proof.
  intros Hok Haggs. rewrite facts_ok_snoc. unfold add_fact. rewrite Haggs.
  set (grp := facts_of (fact_key f) facts). destruct (aggregate_of_default grp) as [-> ->].
  pose proof (sum_facts_nonneg _ (fact_key f) _ Hok) as Hsum. fold grp in Hsum.
  assert (sum_by fact_Quantity grp ≤ maxInt64) by apply Hok.
  assert (negb (length (fact_UsageID <$> grp) =? 0)%nat
      && (agg_scale (default zeroAggregate (aggregate_of grp)) != fact_QuantityScale f) = false
      ↔ ∀ g, g ∈ grp → fact_QuantityScale g = fact_QuantityScale f) as Hscale.
  { rewrite length_fmap. destruct grp as [|g0 grp'] eqn:E; simpl; [set_solver|].
    assert (∀ g, g ∈ grp → fact_QuantityScale g = fact_QuantityScale g0) as Huni.
    { intros g Hg. assert (g0 ∈ grp) as Hg0 by (rewrite E; left).
      apply facts_of_elem in Hg as [??], Hg0 as [??]. apply Hok; congruence. }
    rewrite E in Huni. rewrite negb_false_iff, bool_decide_eq_true. split.
    - intros <-. done.
    - intros Hall. apply Hall. left. }
  destruct (_ && _).
  { split; [by case_match|]. intros [(_ & _ & _ & Hs & _) _]. by apply Hscale in Hs. }
  assert (∀ g, g ∈ grp → fact_QuantityScale g = fact_QuantityScale f) by by apply Hscale.
  repeat case_match; reflect_go.
  all: (split; [try discriminate|]); naive_solver lia.
Qed.

Lemma aggregate_of_snoc rates facts f key :
  facts_ok rates (facts ++ [f]) →
  aggregate_of (facts_of key (facts ++ [f])) =
  if bool_decide (fact_key f = key) then
    Some (mkAggregate (sum_by fact_Quantity (facts_of key facts) + fact_Quantity f)
            (fact_QuantityScale f) ((fact_UsageID <$> facts_of key facts) ++ [fact_UsageID f]))
  else aggregate_of (facts_of key facts).
Proof.
  intros (_ & _ & _ & Hscale & _)%facts_ok_snoc. rewrite facts_of_snoc.
  case_bool_decide as Hk; [subst key|by rewrite app_nil_r].
  assert (∀ g, head (facts_of (fact_key f) facts ++ [f]) = Some g →
            fact_QuantityScale g = fact_QuantityScale f) as Hhead.
  { destruct (facts_of (fact_key f) facts) as [|g0 l]; simpl; intros g [= ->]; [done|].
    apply Hscale. left. }
  rewrite <- sum_by_snoc. change [fact_UsageID f] with (fact_UsageID <$> [f]). rewrite <- fmap_app.
  destruct (facts_of (fact_key f) facts ++ [f]) as [|g l] eqn:E; [by apply app_nil in E as [_ ?]|].
  simpl. by rewrite Hhead.
Qed.

(** The loop computes, for each key, the aggregate of its facts. *)
Lemma aggregates_inv rates facts aggs :
  fold_result (add_fact rates) facts ∅ = Ok aggs →
  facts_ok rates facts ∧ ∀ key, aggs !! key = aggregate_of (facts_of key facts).
Proof.
  intros H. refine (fold_result_inv (fun facts aggs => facts_ok rates facts ∧
    ∀ key, aggs !! key = aggregate_of (facts_of key facts)) _ _ _ _ _ _ H); clear H.
  - split; [|intros key; apply lookup_empty]. constructor; [set_solver..|]. by intros key.
  - intros done f aggs1 aggs2 [Hok Hk] [Hok' ->]%(add_fact_ok _ _ _ _ _ Hok Hk). split; [done|].
    intros key. rewrite (aggregate_of_snoc rates) by done.
    case_bool_decide; [subst; by rewrite lookup_insert_eq|by rewrite lookup_insert_ne, Hk].
Qed.

Lemma aggregates_total rates facts :
  facts_ok rates facts → ∃ aggs, fold_result (add_fact rates) facts ∅ = Ok aggs.
Proof.
  induction facts as [|f facts IH] using rev_ind; simpl; [eauto|].
  intros Hok'. pose proof Hok' as [Hok _]%facts_ok_snoc.
  destruct (IH Hok) as [aggs Haggs]. pose proof (aggregates_inv _ _ _ Haggs) as [_ Hk].
  eexists. rewrite fold_result_app, Haggs. simpl.
  by rewrite (proj2 (add_fact_ok _ _ _ _ _ Hok Hk) (conj Hok' eq_refl)).
Qed.

(** ** The lines of the draft *)

(** An invoice with [lines] appended and their amounts added. *)
Definition priced (invoice : Invoice) (lines : list InvoiceLine) : Invoice :=
  invoice <| inv_Lines ::= fun ls => ls ++ lines |>
          <| inv_SubtotalMinor ::= Z.add (sum_by line_SubtotalMinor lines) |>
          <| inv_TaxMinor ::= Z.add (sum_by line_TaxMinor lines) |>
          <| inv_TotalMinor ::= Z.add (sum_by line_TotalMinor lines) |>.

Definition price_key (mode : TaxCalculationMode) (rates : gmap string PricingRate)
    (aggs : gmap string aggregate) (key : string) : Result InvoiceLine :=
  price_line mode rates key (default zeroAggregate (aggs !! key)).

Lemma priced_nil invoice : priced invoice [] = invoice.
Proof. destruct invoice. cbv -[app]. by rewrite app_nil_r. Qed.

Lemma priced_snoc invoice lines line :
  priced (priced invoice lines) [line] = priced invoice (lines ++ [line]).
Proof.
  destruct invoice. cbv -[app sum_by Z.add]. rewrite !sum_by_snoc, <- app_assoc. f_equal; simpl; lia.
Qed.

Lemma append_lines_inv rates aggs keys invoice out :
  inv_TotalMinor invoice ≤ maxInt64 →
  fold_result (append_line rates aggs) keys invoice = Ok out →
  ∃ lines, Forall2 (fun key line => price_key (inv_TaxMode invoice) rates aggs key = Ok line) keys lines ∧
    out = priced invoice lines ∧ inv_TotalMinor out ≤ maxInt64.
Proof.
  intros Hmax H. refine (fold_result_inv (fun keys out => ∃ lines,
    Forall2 (fun key line => price_key (inv_TaxMode invoice) rates aggs key = Ok line) keys lines ∧
    out = priced invoice lines ∧ inv_TotalMinor out ≤ maxInt64) _ _ _ _ _ _ H); clear H.
  - exists []. by rewrite priced_nil.
  - intros done key i1 i2 (lines & Hall & -> & _) Hstep. unfold append_line in Hstep.
    apply result_bind_ok in Hstep as (line & Hline & Hstep). cbv zeta in Hstep.
    split_guards Hstep. exists (lines ++ [line]). split_and!.
    + apply Forall2_app; [done|]. by constructor.
    + rewrite <- priced_snoc. injection Hstep as <-. destruct (priced invoice lines). cbv -[app Z.add]. f_equal; lia.
    + injection Hstep as <-. reflect_go.
      change (line_TotalMinor line + inv_TotalMinor (priced invoice lines) ≤ maxInt64).
      change (line_TotalMinor line ≤ maxInt64 - inv_TotalMinor (priced invoice lines)) in H0.
      lia.
Qed.

(** Each line adds up; in [invoice_total] mode it carries no tax yet. *)
Lemma price_line_amounts mode rates key agg line :
  price_line mode rates key agg = Ok line →
  line_reconciled line ∧ (mode = TaxModeInvoiceTotal → line_TaxMinor line = 0).
Proof.
  unfold price_line. intros ([[s t] tot] & Hp & [= <-])%result_bind_ok.
  unfold line_reconciled. simpl. case_bool_decide as Hm.
  - apply result_bind_ok in Hp as (s' & Hs & [= <- <- <-]).
    apply PriceSubtotal_bounds in Hs as [? ?]. split; [|done]. split_and!; try done; lia.
  - destruct (PriceUsage_bounds_of _ _ _ _ _ _ Hp) as (-> & ? & ? & ?).
    split; [|done]. split_and!; try done; lia.
Qed.

(** The header after its defaults. *)
Definition with_tax_mode (invoice : Invoice) : Invoice :=
  if inv_TaxMode invoice == "" then invoice <| inv_TaxMode := TaxModeLine |> else invoice.

(** What an accepted header is. *)
Lemma check_header_inv invoice out :
  check_header invoice = Ok out →
  out = with_tax_mode invoice ∧ TrimSpace (inv_OrganizationID invoice) ≠ "" ∧
  TrimSpace (inv_PricingVersionID invoice) ≠ "" ∧ inv_Currency invoice = TWD ∧
  inv_PeriodStart invoice < inv_PeriodEnd invoice ∧
  (inv_State invoice = "" ∨ inv_State invoice = InvoiceStateDraft) ∧
  (inv_TaxMode out = TaxModeLine ∧ inv_InvoiceTaxRateBasisPoints out = None ∧
     inv_InvoiceTaxRoundingMode out = "" ∧ inv_InvoiceTaxCategory out = "" ∨
   inv_TaxMode out = TaxModeInvoiceTotal ∧ inv_InvoiceTaxCategory out ≠ "" ∧
     ∃ bp, inv_InvoiceTaxRateBasisPoints out = Some bp ∧ 0 ≤ bp ≤ 10000).
Proof.
  unfold check_header. fold (with_tax_mode invoice). intros H. split_guards H. simplify_eq.
  set (out := with_tax_mode invoice) in *. split; [done|].
  unfold CanSettle, After in *. reflect_go. unfold Settlement in *.
  split_and!; try done.
  destruct Hc1 as [Hl|Hl]; [left|right].
  - destruct Hc2 as [?|Hc2]; [done|]. reflect_go. rewrite <- eq_None_not_Some in *. tauto.
  - destruct Hc3 as [?|[[Hbp Hcat] _]]; [done|]. split_and!; [done| |].
    + intros E. by rewrite E in Hcat.
    + unfold in_basis_points in Hbp. destruct (inv_InvoiceTaxRateBasisPoints out) as [bp|]; [|done].
      reflect_go. exists bp. split; [done|lia].
Qed.

Lemma check_facts_ok invoice facts u :
  check_facts invoice facts = Ok u ↔ Forall (fun f => fact_in_period invoice f = true) facts.
Proof.
  unfold check_facts. destruct u. induction facts as [|f facts IH]; simpl.
  - split; [constructor|done].
  - rewrite Forall_cons. destruct (fact_in_period invoice f); simpl; [|naive_solver].
    rewrite IH. tauto.
Qed.

(** The tax step of the draft. *)
Definition tax_step (invoice : Invoice) : Result Invoice :=
  if inv_TaxMode invoice == TaxModeInvoiceTotal then allocateInvoiceTax invoice else Ok invoice.

(** Everything a successful draft went through. *)
Record draft_run (invoice : Invoice) (facts : list UsageFact) (rates : list PricingRate)
    (hdr : Invoice) (m : gmap string PricingRate) (billed : list UsageFact)
    (aggs : gmap string aggregate) (lines : list InvoiceLine) (out : Invoice) : Prop := {
  dr_header : check_header invoice = Ok hdr;
  dr_rates : index_rates hdr rates = Ok m;
  dr_period : Forall (fun f => fact_in_period hdr f = true) facts;
  dr_billed : BillableUsageFacts facts rates = Ok billed;
  dr_facts : facts_ok m billed;
  dr_aggs : ∀ key, aggs !! key = aggregate_of (facts_of key billed);
  dr_lines : Forall2 (fun key line => price_key (inv_TaxMode hdr) m aggs key = Ok line)
               (sort_Strings (map_to_list aggs).*1) lines;
  dr_total : inv_TotalMinor (priced (reset_draft hdr) lines) ≤ maxInt64;
  dr_out : ∃ taxed, tax_step (priced (reset_draft hdr) lines) = Ok taxed ∧ out = finish_draft taxed
}.

Lemma assemble_draft_inv invoice facts rates out :
  assemble_draft invoice facts rates = Ok out →
  ∃ hdr m billed aggs lines, draft_run invoice facts rates hdr m billed aggs lines out.
Proof.
  unfold assemble_draft. intros H.
  apply result_bind_ok in H as (hdr & Hhdr & H).
  apply result_bind_ok in H as (m & Hm & H).
  apply result_bind_ok in H as (u & Hper%check_facts_ok & H).
  apply result_bind_ok in H as (billed & Hbilled & H).
  apply result_bind_ok in H as (aggs & [Hok Haggs]%aggregates_inv & H). cbv zeta in H.
  apply result_bind_ok in H as (i1 & Hlines & H).
  apply append_lines_inv in Hlines as (lines & Hlines & -> & Hmax); [|done].
  apply result_bind_ok in H as (taxed & Htax & [= <-]).
  exists hdr, m, billed, aggs, lines. constructor; try done. by exists taxed.
Qed.

(** ** A draft reconciles *)

Lemma reconciled_lines_total lines :
  Forall line_reconciled lines →
  sum_by line_TotalMinor lines = sum_by line_SubtotalMinor lines + sum_by line_TaxMinor lines.
Proof.
  intros H. rewrite <- sum_by_add. apply sum_by_ext. rewrite Forall_forall in H.
  intros l Hl. by destruct (H l Hl) as (_ & _ & ? & _).
Qed.

(** The closing assignments make any balanced invoice a reconciled one. *)
Lemma finish_draft_reconciled i :
  Forall line_reconciled (inv_Lines i) →
  inv_SubtotalMinor i = sum_by line_SubtotalMinor (inv_Lines i) →
  inv_TaxMinor i = sum_by line_TaxMinor (inv_Lines i) →
  inv_TotalMinor i = inv_SubtotalMinor i + inv_TaxMinor i →
  inv_TotalMinor i ≤ maxInt64 → tax_policy_ok i → Reconciled (finish_draft i).
Proof.
  intros Hl Hs Ht Htot Hmax Hpol. destruct (sum_lines_nonneg _ Hl) as [? ?].
  unfold finish_draft. cbv zeta.
  case_bool_decide; constructor; get_upd; try done; try lia; unfold int64, minInt64; lia.
Qed.

Lemma price_lines_amounts mode m aggs keys lines :
  Forall2 (fun key line => price_key mode m aggs key = Ok line) keys lines →
  Forall line_reconciled lines ∧ (mode = TaxModeInvoiceTotal → sum_by line_TaxMinor lines = 0).
Proof.
  induction 1 as [|key line keys lines Hl _ [IH1 IH2]]; [done|].
  apply price_line_amounts in Hl as [? Ht]. split; [by constructor|].
  intros Hm. simpl. rewrite Ht, IH2 by done. done.
Qed.

Lemma allocateInvoiceTax_inv invoice out bp :
  inv_InvoiceTaxRateBasisPoints invoice = Some bp → allocateInvoiceTax invoice = Ok out →
  ∃ tax, roundedInt64 (inv_SubtotalMinor invoice * bp) 10000 (inv_InvoiceTaxRoundingMode invoice)
           = Ok tax ∧ int64 (inv_SubtotalMinor invoice + tax).
Proof.
  unfold allocateInvoiceTax. intros ->. simpl. intros H.
  apply result_bind_ok in H as (tax & Ht & H). cbv zeta in H.
  destruct (IsInt64 _) eqn:E; [|done]. exists tax. split; [done|]. by apply IsInt64_true.
Qed.

Lemma allocated_lines_subtotals bp tax lines :
  sum_by line_SubtotalMinor (allocated_lines bp tax lines) = sum_by line_SubtotalMinor lines.
Proof.
  assert (line_SubtotalMinor <$> allocated_lines bp tax lines = line_SubtotalMinor <$> lines) as Heq.
  { unfold allocated_lines. rewrite fmap_imap. apply list_eq. intros i.
    rewrite list_lookup_imap, list_lookup_fmap. by destruct (lines !! i). }
  change (sum_by line_SubtotalMinor ?l) with (sum_by (id ∘ line_SubtotalMinor) l).
  by rewrite <- !sum_by_fmap, Heq.
Qed.

Lemma allocated_lines_reconciled bp tax mode lines :
  0 ≤ bp → Forall (fun l => 0 ≤ line_SubtotalMinor l) lines →
  roundedInt64 (sum_by line_SubtotalMinor lines * bp) 10000 mode = Ok tax →
  int64 (sum_by line_SubtotalMinor lines + tax) →
  Forall line_reconciled (allocated_lines bp tax lines).
Proof.
  intros Hbp Hpos Hr H64. pose proof (bumped_lines_int64 _ _ _ _ Hbp Hpos Hr H64) as Hfit.
  rewrite bumped_lines in Hfit by apply served_fst_NoDup.
  apply Forall_forall. intros l' (i & l & -> & Hl)%elem_of_lookup_imap.
  rewrite Forall_lookup in Hfit, Hpos. pose proof (Hpos i l Hl).
  specialize (Hfit i (l <| line_TaxMinor := share_floor bp l + extra_unit bp tax lines i |>)).
  rewrite list_lookup_imap, Hl in Hfit. specialize (Hfit eq_refl).
  assert (0 ≤ share_floor bp l) by (apply Z.div_pos; nia).
  assert (0 ≤ extra_unit bp tax lines i) by (unfold extra_unit; case_bool_decide; lia).
  unfold line_reconciled, allocated, with_total. get_upd. split_and!; try done; lia.
Qed.

(** The tax step keeps a balanced invoice in [invoice_total] mode balanced. *)
Lemma allocated_reconciled i bp tax taxed :
  inv_TaxMode i = TaxModeInvoiceTotal → inv_InvoiceTaxCategory i ≠ "" →
  inv_InvoiceTaxRateBasisPoints i = Some bp → 0 ≤ bp ≤ 10000 →
  Forall (fun l => 0 ≤ line_SubtotalMinor l) (inv_Lines i) →
  inv_SubtotalMinor i = sum_by line_SubtotalMinor (inv_Lines i) →
  roundedInt64 (inv_SubtotalMinor i * bp) 10000 (inv_InvoiceTaxRoundingMode i) = Ok tax →
  int64 (inv_SubtotalMinor i + tax) →
  allocateInvoiceTax i = Ok taxed →
  Reconciled (finish_draft taxed).
Proof.
  intros Hm Hcat Hbp Hrange Hpos Hs Hr H64 Htax.
  destruct (allocateInvoiceTax_ok i bp tax) as [Hout Hsum]; try done; [lia|].
  rewrite Hout in Htax. injection Htax as <-. clear Hout.
  pose proof Hr as Hr'. pose proof H64 as H64'. rewrite Hs in Hr', H64'.
  apply finish_draft_reconciled; get_upd.
  - eapply allocated_lines_reconciled; try done. lia.
  - by rewrite allocated_lines_subtotals.
  - done.
  - done.
  - unfold int64 in H64. lia.
  - unfold tax_policy_ok. get_upd. rewrite Hm. simpl. by exists bp.
Qed.

(** The fields of the priced draft. *)
Lemma priced_reset_fields hdr lines i :
  i = priced (reset_draft hdr) lines →
  inv_Lines i = lines ∧ inv_SubtotalMinor i = sum_by line_SubtotalMinor lines ∧
  inv_TaxMinor i = sum_by line_TaxMinor lines ∧ inv_TotalMinor i = sum_by line_TotalMinor lines ∧
  inv_TaxMode i = inv_TaxMode hdr ∧
  inv_InvoiceTaxRateBasisPoints i = inv_InvoiceTaxRateBasisPoints hdr ∧
  inv_InvoiceTaxRoundingMode i = inv_InvoiceTaxRoundingMode hdr ∧
  inv_InvoiceTaxCategory i = inv_InvoiceTaxCategory hdr ∧ inv_State i = InvoiceStateDraft.
Proof.
  destruct hdr. cbv -[app sum_by Z.add]. intros ->. rewrite !Z.add_0_r. by split_and!.
Qed.

(** Priced lines and the tax step give a reconciled draft. *)
Lemma tax_step_reconciled i taxed :
  (inv_TaxMode i = TaxModeLine ∧ inv_InvoiceTaxRateBasisPoints i = None ∧
     inv_InvoiceTaxRoundingMode i = "" ∧ inv_InvoiceTaxCategory i = "" ∨
   inv_TaxMode i = TaxModeInvoiceTotal ∧ inv_InvoiceTaxCategory i ≠ "" ∧
     ∃ bp, inv_InvoiceTaxRateBasisPoints i = Some bp ∧ 0 ≤ bp ≤ 10000) →
  Forall line_reconciled (inv_Lines i) →
  inv_SubtotalMinor i = sum_by line_SubtotalMinor (inv_Lines i) →
  inv_TaxMinor i = sum_by line_TaxMinor (inv_Lines i) →
  inv_TotalMinor i = sum_by line_TotalMinor (inv_Lines i) →
  inv_TotalMinor i ≤ maxInt64 →
  tax_step i = Ok taxed → Reconciled (finish_draft taxed).
Proof.
  intros Hmode Hrec Hs Ht Htot Hmax Htax. unfold tax_step in Htax.
  destruct Hmode as [(Hm & Hbp & Hrm & Hcat)|(Hm & Hcat & bp & Hbp & Hrange)];
    rewrite Hm in Htax; simpl in Htax.
  - injection Htax as <-. apply finish_draft_reconciled; try done.
    + rewrite Htot, reconciled_lines_total by done. lia.
    + unfold tax_policy_ok. rewrite Hm. simpl. by split_and!; [right|..].
  - destruct (allocateInvoiceTax_inv i taxed bp Hbp Htax) as (tax & Hr & H64).
    refine (allocated_reconciled i bp tax taxed Hm Hcat Hbp Hrange _ Hs Hr H64 Htax).
    eapply Forall_impl; [exact Hrec|]. by intros l (? & _).
Qed.

Lemma assemble_draft_reconciled invoice facts rates out :
  assemble_draft invoice facts rates = Ok out → Reconciled out.
Proof.
  intros (hdr & m & billed & aggs & lines & [Hhdr _ _ _ _ _ Hlines Hmax (taxed & Htax & ->)])%assemble_draft_inv.
  apply check_header_inv in Hhdr as (_ & _ & _ & _ & _ & _ & Hmode).
  apply price_lines_amounts in Hlines as [Hrec _].
  remember (priced (reset_draft hdr) lines) as i eqn:Hi.
  destruct (priced_reset_fields _ _ _ Hi) as (Hl & ? & ? & ? & Hm & Hbp & Hrm & Hcat & _). clear Hi.
  rewrite <- Hm, <- Hbp, <- Hrm, <- Hcat in Hmode.
  apply (tax_step_reconciled i); congruence.
Qed.

Lemma tax_step_state i taxed : tax_step i = Ok taxed → inv_State taxed = inv_State i.
Proof.
  unfold tax_step, allocateInvoiceTax. case_bool_decide; [|by intros [= <-]].
  intros Ht. split_guards Ht. destruct r0 as [[? ?] ?]. split_guards Ht. by injection Ht as <-.
Qed.

(** What identifies an invoice: no computation on it touches it. *)
Definition invoice_identity (i : Invoice) :=
  ((inv_OrganizationID i, inv_AccountID i, inv_PeriodID i, inv_PricingVersionID i),
   (inv_Currency i, inv_PeriodStart i, inv_PeriodEnd i), inv_SettlementLedgerID i).

Lemma tax_step_identity i taxed : tax_step i = Ok taxed → invoice_identity taxed = invoice_identity i.
Proof.
  unfold tax_step, allocateInvoiceTax. case_bool_decide; [|by intros [= <-]].
  intros Ht. split_guards Ht. destruct r0 as [[? ?] ?]. split_guards Ht. by injection Ht as <-.
Qed.

Lemma finish_draft_fields i :
  inv_State (finish_draft i) = inv_State i ∧
  inv_AmountSettledMinor (finish_draft i) = 0 ∧
  inv_AmountDueMinor (finish_draft i) = inv_TotalMinor i ∧
  inv_TotalMinor (finish_draft i) = inv_TotalMinor i ∧
  inv_Version (finish_draft i) ≠ 0.
Proof. destruct i. cbv -[bool_decide decide]. by case_bool_decide. Qed.

(** The closing check of the draft never fails. *)
Lemma BuildDraftInvoice_assemble invoice facts rates :
  BuildDraftInvoice invoice facts rates = assemble_draft invoice facts rates.
Proof.
  unfold BuildDraftInvoice. destruct (assemble_draft invoice facts rates) as [out|] eqn:E; [|done].
  simpl. apply assemble_draft_reconciled, ValidateInvoiceTotals_ok in E. by rewrite E.
Qed.

(** Whatever is built is reconciled: the lines and totals of a draft agree
    exactly under its own tax policy, nothing is settled and the whole total is due. *)
Theorem BuildDraftInvoice_reconciled invoice facts rates out :
  BuildDraftInvoice invoice facts rates = Ok out →
  Reconciled out ∧ inv_State out = InvoiceStateDraft ∧
  inv_AmountSettledMinor out = 0 ∧ inv_AmountDueMinor out = inv_TotalMinor out ∧
  inv_Version out ≠ 0.
Proof.
  rewrite BuildDraftInvoice_assemble. intros H. split; [by eapply assemble_draft_reconciled|].
  apply assemble_draft_inv in H as (hdr & m & billed & aggs & lines & [_ _ _ _ _ _ _ _ (taxed & Htax & ->)]).
  remember (priced (reset_draft hdr) lines) as i eqn:Hi.
  destruct (priced_reset_fields _ _ _ Hi) as (_ & _ & _ & _ & _ & _ & _ & _ & Hstate). clear Hi.
  apply tax_step_state in Htax. rewrite Hstate in Htax.
  destruct (finish_draft_fields taxed) as (-> & -> & -> & -> & ?). by split_and!.
Qed.

Lemma BuildDraftInvoice_identity invoice facts rates out :
  BuildDraftInvoice invoice facts rates = Ok out → invoice_identity out = invoice_identity invoice.
Proof.
  rewrite BuildDraftInvoice_assemble.
  intros (hdr & m & billed & aggs & lines & [Hhdr _ _ _ _ _ _ _ (taxed & Htax & ->)])%assemble_draft_inv.
  apply check_header_inv in Hhdr as (-> & _). apply tax_step_identity in Htax.
  trans (invoice_identity taxed); [unfold finish_draft; by case_bool_decide|]. rewrite Htax.
  unfold with_tax_mode. by case_bool_decide.
Qed.

(** ** Independence of the order of the facts *)

#[export] Instance facts_of_Proper key : Proper (Permutation ==> Permutation) (facts_of key).
Proof. intros l k Hp. unfold facts_of. by rewrite Hp. Qed.

Lemma facts_ok_perm m facts facts' : facts ≡ₚ facts' → facts_ok m facts → facts_ok m facts'.
Proof.
  intros Hp [Hr Hs Hsum]. constructor.
  - intros f Hf. apply Hr. by rewrite Hp.
  - intros f g Hf Hg. apply Hs; by rewrite Hp.
  - intros key. rewrite <- Hp. apply Hsum.
Qed.

(** Two aggregates that differ in the order of their references. *)
Definition agg_equiv (a b : aggregate) : Prop :=
  agg_quantity a = agg_quantity b ∧ agg_scale a = agg_scale b ∧ agg_refs a ≡ₚ agg_refs b.

Lemma price_line_equiv mode m key a b :
  agg_equiv a b → price_line mode m key a = price_line mode m key b.
Proof.
  intros (Hq & Hs & Hr). apply sort_Strings_proper in Hr. unfold price_line. by rewrite Hq, Hs, Hr.
Qed.

Lemma aggregate_of_equiv m key facts facts' :
  facts ≡ₚ facts' → facts_ok m facts →
  option_Forall2 agg_equiv (aggregate_of (facts_of key facts)) (aggregate_of (facts_of key facts')).
Proof.
  intros Hp Hok.
  assert (Hg : facts_of key facts ≡ₚ facts_of key facts') by by rewrite Hp.
  assert (∀ f g, f ∈ facts_of key facts → g ∈ facts_of key facts →
            fact_QuantityScale f = fact_QuantityScale g) as Huni
    by (intros f g [??]%facts_of_elem [??]%facts_of_elem; apply Hok; congruence).
  unfold aggregate_of.
  destruct (facts_of key facts) as [|f l], (facts_of key facts') as [|f' l'].
  - constructor.
  - by apply Permutation_nil_cons in Hg.
  - symmetry in Hg. by apply Permutation_nil_cons in Hg.
  - constructor. split_and!; simpl; [|apply Huni|].
    + exact (sum_by_Proper fact_Quantity _ _ Hg).
    + left.
    + rewrite Hg. left.
    + exact (fmap_Permutation fact_UsageID _ _ Hg).
Qed.

(** Equivalent aggregates have the same keys and the same lines. *)
Lemma equiv_aggregates_keys (aggs aggs' : gmap string aggregate) :
  (∀ key, option_Forall2 agg_equiv (aggs !! key) (aggs' !! key)) →
  (map_to_list aggs).*1 ≡ₚ (map_to_list aggs').*1.
Proof.
  intros Heq. apply NoDup_Permutation; try apply NoDup_fst_map_to_list.
  assert (∀ (m : gmap string aggregate) k, k ∈ (map_to_list m).*1 ↔ is_Some (m !! k)) as Hk.
  { intros m k. rewrite list_elem_of_fmap. split.
    - intros ([k' a] & -> & Hin%elem_of_map_to_list). by exists a.
    - intros [a Ha%elem_of_map_to_list]. by exists (k, a). }
  intros k. rewrite !Hk. by destruct (Heq k).
Qed.

Lemma equiv_aggregates_lines m (aggs aggs' : gmap string aggregate) keys i :
  (∀ key, option_Forall2 agg_equiv (aggs !! key) (aggs' !! key)) →
  fold_result (append_line m aggs) keys i = fold_result (append_line m aggs') keys i.
Proof.
  intros Heq. apply fold_result_ext. intros i' key. unfold append_line.
  rewrite (price_line_equiv _ _ _ _ (default zeroAggregate (aggs' !! key))); [done|].
  by destruct (Heq key).
Qed.

Lemma assemble_draft_order invoice facts facts' rates out :
  facts ≡ₚ facts' → assemble_draft invoice facts rates = Ok out →
  assemble_draft invoice facts' rates = Ok out.
Proof.
  unfold assemble_draft. intros Hp H.
  apply result_bind_ok in H as (hdr & -> & H). simpl.
  apply result_bind_ok in H as (m & -> & H). simpl.
  apply result_bind_ok in H as ([] & Hper%check_facts_ok & H).
  assert (check_facts hdr facts' = Ok tt) as -> by (apply check_facts_ok; by rewrite <- Hp).
  apply result_bind_ok in H as (billed & Hbilled & H). simpl.
  apply BillableUsageFacts_ok in Hbilled as (Hbook & Hvalid & ->).
  set (on := negb _) in H.
  assert (BillableUsageFacts facts' rates = Ok (billable_selection on facts')) as ->
    by (apply BillableUsageFacts_ok; split_and!; [done|by rewrite <- Hp|done]).
  assert (billable_selection on facts ≡ₚ billable_selection on facts') as Hsel
    by (unfold billable_selection; by rewrite Hp).
  apply result_bind_ok in H as (aggs & [Hok Haggs]%aggregates_inv & H). simpl.
  destruct (aggregates_total m (billable_selection on facts')) as [aggs' E];
    [by eapply facts_ok_perm|].
  rewrite E. simpl. apply aggregates_inv in E as [_ Haggs'].
  assert (∀ key, option_Forall2 agg_equiv (aggs !! key) (aggs' !! key)) as Heq
    by (intros key; rewrite Haggs, Haggs'; by eapply aggregate_of_equiv).
  by rewrite <- (equiv_aggregates_keys _ _ Heq), <- (equiv_aggregates_lines m _ _ _ _ Heq).
Qed.

(** C31: the invoice does not depend on the order in which the usage facts are read:
    a permutation of the facts builds the same invoice, or fails as well. *)
Theorem BuildDraftInvoice_order_independent invoice facts facts' rates out :
  facts ≡ₚ facts' →
  BuildDraftInvoice invoice facts rates = Ok out ↔ BuildDraftInvoice invoice facts' rates = Ok out.
Proof.
  intros Hp. rewrite !BuildDraftInvoice_assemble.
  by split; apply assemble_draft_order.
Qed.

(** ** What a line bills *)

(** The lines of the invoice are the priced lines, up to the tax the invoice-level
    allocation gives them. *)
Definition same_charge (line line' : InvoiceLine) : Prop :=
  ∃ t tot, line' = line <| line_TaxMinor := t |> <| line_TotalMinor := tot |>.

Lemma same_charge_refl line : same_charge line line.
Proof. exists (line_TaxMinor line), (line_TotalMinor line). by destruct line. Qed.

Lemma tax_step_lines i taxed :
  tax_step i = Ok taxed → Forall (fun l => 0 ≤ line_SubtotalMinor l) (inv_Lines i) →
  inv_SubtotalMinor i = sum_by line_SubtotalMinor (inv_Lines i) →
  (inv_TaxMode i = TaxModeInvoiceTotal → ∃ bp, inv_InvoiceTaxRateBasisPoints i = Some bp ∧ 0 ≤ bp) →
  Forall2 same_charge (inv_Lines i) (inv_Lines taxed) ∧
  (inv_TaxMode i ≠ TaxModeInvoiceTotal → inv_Lines taxed = inv_Lines i).
Proof.
  intros Htax Hpos Hs Hbp. unfold tax_step in Htax. case_bool_decide as Hm.
  - destruct (Hbp Hm) as (bp & Hr & H0).
    destruct (allocateInvoiceTax_inv _ _ _ Hr Htax) as (tax & Ht & H64).
    destruct (allocateInvoiceTax_ok i bp tax) as [Hout _]; try done.
    rewrite Hout in Htax. injection Htax as <-. get_upd. split; [|done].
    apply Forall2_same_length_lookup. unfold allocated_lines. split; [by rewrite length_imap|].
    intros j l l' Hl. rewrite list_lookup_imap, Hl. intros [= <-].
    by eexists _, _.
  - injection Htax as <-. split; [|done]. clear. induction (inv_Lines i); constructor; auto using same_charge_refl.
Qed.

Lemma index_rates_ok invoice rates m :
  index_rates invoice rates = Ok m →
  ∀ key rate, m !! key = Some rate ↔ rate ∈ rates ∧ base_key rate = key.
Proof.
  intros H. refine (fold_result_inv (fun done m => ∀ key rate,
    m !! key = Some rate ↔ rate ∈ done ∧ base_key rate = key) _ _ _ _ _ _ H); clear H.
  - intros key rate. rewrite lookup_empty, elem_of_nil. naive_solver.
  - intros done rate m1 m2 Hm Hstep. cbv zeta in Hstep. destruct (_ && _); [done|].
    destruct (m1 !! base_key rate) as [prior|] eqn:Hnone; [done|]. simplify_eq.
    intros key rate'. rewrite lookup_insert, elem_of_app, list_elem_of_singleton.
    destruct (decide (base_key rate = key)) as [Hk|Hk]; [|rewrite Hm; naive_solver]. split; [intros; simplify_eq; eauto|].
    intros [[Hin| ->] Hkey]; [|done].
    assert (m1 !! key = Some rate') by by apply Hm. congruence.
Qed.

Lemma fact_key_words f :
  fact_key f = JoinNul [fact_ServiceCode f; fact_MetricCode f; fact_Unit f; fact_ProductID f].
Proof. unfold fact_key, fact_rate_key, rate_key. simpl. by rewrite !str_app_assoc. Qed.

Lemma fact_key_split f :
  has_nul (fact_ServiceCode f) = false → has_nul (fact_MetricCode f) = false →
  has_nul (fact_Unit f) = false → has_nul (fact_ProductID f) = false →
  key_rate (fact_key f) = fact_rate_key f ∧ key_product (fact_key f) = fact_ProductID f.
Proof.
  intros ? ? ? ?. unfold key_rate, key_product. rewrite fact_key_words, SplitNul_JoinNul; [done|done|].
  by repeat constructor.
Qed.

(** The texts of a fact hold no NUL byte, as any text that went through PostgreSQL. *)
Definition nul_free (f : UsageFact) : Prop :=
  has_nul (fact_ServiceCode f) = false ∧ has_nul (fact_MetricCode f) = false ∧
  has_nul (fact_Unit f) = false ∧ has_nul (fact_ProductID f) = false.

(** C37: The key a usage fact is aggregated under is read back exactly: the rate key and
    the product that pricing takes from it are those of the fact, and two facts share a
    key only when they agree on service, metric, unit and product. *)
Theorem fact_key_roundtrip f :
  nul_free f →
  key_rate (fact_key f) = fact_rate_key f ∧ key_product (fact_key f) = fact_ProductID f ∧
  ∀ g, nul_free g → fact_key g = fact_key f →
    (fact_ServiceCode g, fact_MetricCode g, fact_Unit g, fact_ProductID g) =
    (fact_ServiceCode f, fact_MetricCode f, fact_Unit f, fact_ProductID f).
Proof.
  intros (Hs & Hm & Hu & Hp). destruct (fact_key_split f) as [Hrate Hprod]; try done.
  split; [done|]. split; [done|]. intros g (Hs' & Hm' & Hu' & Hp') Hkey.
  rewrite !fact_key_words in Hkey. apply JoinNul_inj in Hkey; [by injection Hkey as -> -> -> ->|done..| |];
    by repeat constructor.
Qed.

(** The facts a line bills: those of its rate and product. *)
Definition billed_by (rate : PricingRate) (product : string) (facts : list UsageFact) : list UsageFact :=
  filter (fun f => fact_rate_key f = base_key rate ∧ fact_ProductID f = product) facts.

(** A line bills all the facts of one rate and one product, priced by that rate. *)
Definition line_bills (rates : list PricingRate) (facts : list UsageFact) (line : InvoiceLine) : Prop :=
  ∃ rate, rate ∈ rates ∧ line_PricingRateID line = rate_ID rate ∧
    line_ServiceCode line = rate_ServiceCode rate ∧ line_MetricCode line = rate_MetricCode rate ∧
    line_Unit line = rate_Unit rate ∧
    let group := billed_by rate (line_ProductID line) facts in
    group ≠ [] ∧ line_Quantity line = sum_by fact_Quantity group ∧
    (∀ f, f ∈ group → fact_QuantityScale f = line_QuantityScale line) ∧
    line_UsageFactRefs line ≡ₚ fact_UsageID <$> group ∧
    PriceSubtotal rate (line_Quantity line) (line_QuantityScale line) = Ok (line_SubtotalMinor line).

Lemma same_charge_bills rates facts line line' :
  same_charge line line' → line_bills rates facts line → line_bills rates facts line'.
Proof. by intros (t & tot & ->). Qed.

Lemma facts_of_billed_by key rate facts f0 :
  Forall nul_free facts → f0 ∈ facts → fact_key f0 = key → base_key rate = key_rate key →
  facts_of key facts = billed_by rate (key_product key) facts.
Proof.
  intros Hnul H0 <- Hrate. unfold facts_of, billed_by. rewrite Forall_forall in Hnul.
  apply filter_ext_in. intros f Hf. rewrite Hrate.
  destruct (Hnul f0 H0) as (? & ? & ? & ?). destruct (Hnul f Hf) as (? & ? & ? & ?).
  destruct (fact_key_split f0) as [-> ->]; [done..|].
  split; [|by intros [Hr Hp]; unfold fact_key; rewrite Hr, Hp].
  intros Hk. destruct (fact_key_split f) as [<- <-]; [done..|]. rewrite Hk.
  destruct (fact_key_split f0) as [-> ->]; done.
Qed.

Lemma aggregate_key_facts (aggs : gmap string aggregate) billed key :
  (∀ key, aggs !! key = aggregate_of (facts_of key billed)) →
  key ∈ (map_to_list aggs).*1 ↔ ∃ f, f ∈ billed ∧ fact_key f = key.
Proof.
  intros Haggs. rewrite list_elem_of_fmap. split.
  - intros ([k a] & -> & Hin%elem_of_map_to_list). simpl. rewrite Haggs in Hin.
    destruct (facts_of k billed) as [|f l] eqn:E; [done|].
    assert (f ∈ facts_of k billed) as [? ?]%facts_of_elem by (rewrite E; left). eauto.
  - intros (f & Hf & <-).
    assert (f ∈ facts_of (fact_key f) billed) as Hin by (apply facts_of_elem; done).
    destruct (facts_of (fact_key f) billed) as [|g l] eqn:E; [by apply elem_of_nil in Hin|].
    eexists (_, _). split; [|apply elem_of_map_to_list; rewrite Haggs, E]; done.
Qed.

(** The line of a key lists the references of its facts, and bills them. *)
Lemma price_key_refs mode m aggs billed key line :
  (∀ key, aggs !! key = aggregate_of (facts_of key billed)) →
  price_key mode m aggs key = Ok line →
  line_UsageFactRefs line ≡ₚ fact_UsageID <$> facts_of key billed.
Proof.
  intros Haggs. unfold price_key, price_line. intros ([[s t] tot] & _ & [= <-])%result_bind_ok.
  simpl. rewrite sort_Strings_Permutation, Haggs. by destruct (aggregate_of_default (facts_of key billed)) as [_ ->].
Qed.

Lemma price_key_bills mode m aggs billed rates key line :
  Forall nul_free billed → facts_ok m billed →
  (∀ key, aggs !! key = aggregate_of (facts_of key billed)) →
  (∀ key rate, m !! key = Some rate ↔ rate ∈ rates ∧ base_key rate = key) →
  key ∈ (map_to_list aggs).*1 →
  price_key mode m aggs key = Ok line → line_bills rates billed line.
Proof.
  intros Hnul Hok Haggs Hm Hkey Hline.
  pose proof (price_key_refs _ _ _ _ _ _ Haggs Hline) as Hrefs.
  apply (aggregate_key_facts aggs billed key Haggs) in Hkey as (f0 & Hf0 & Hk0).
  destruct (fo_rated _ _ Hok f0 Hf0) as [[rate Hrate] _].
  pose proof Hnul as Hnul'. rewrite Forall_forall in Hnul'.
  destruct (Hnul' f0 Hf0) as (? & ? & ? & ?). destruct (fact_key_split f0) as [Hkr _]; [done..|].
  rewrite Hk0 in Hkr. rewrite <- Hkr in Hrate. pose proof Hrate as [Hin Hbase]%Hm.
  pose proof (facts_of_billed_by key rate billed f0 Hnul Hf0 Hk0 Hbase) as Hgrp.
  unfold price_key, price_line in Hline. rewrite Hrate, Haggs in Hline. simpl in Hline.
  apply result_bind_ok in Hline as ([[s t] tot] & Hp & [= <-]).
  exists rate. simpl in *. rewrite <- Hgrp.
  assert (f0 ∈ facts_of key billed) as Hin0 by (by apply facts_of_elem).
  destruct (aggregate_of_default (facts_of key billed)) as [Hq _].
  split_and!; try done.
  - intros E. by rewrite E in Hin0; apply elem_of_nil in Hin0.
  - intros f [Hkf Hf]%facts_of_elem. unfold aggregate_of.
    destruct (facts_of key billed) as [|g l] eqn:E; [by apply elem_of_nil in Hin0|]. simpl.
    assert (g ∈ facts_of key billed) as [??]%facts_of_elem by (rewrite E; left).
    apply (fo_scale _ _ Hok); congruence.
  - case_bool_decide.
    + by apply result_bind_ok in Hp as (s' & Hs & [= <- <- <-]).
    + by apply PriceUsage_inv in Hp as (_ & ? & _).
Qed.

Lemma same_charge_refs lines lines' :
  Forall2 same_charge lines lines' →
  concat (line_UsageFactRefs <$> lines') = concat (line_UsageFactRefs <$> lines).
Proof.
  induction 1 as [|l l' ls ls' (t & tot & ->) _ IH]; [done|].
  rewrite !fmap_cons. simpl. by rewrite IH.
Qed.

Lemma finish_draft_lines i : inv_Lines (finish_draft i) = inv_Lines i.
Proof. unfold finish_draft. cbv zeta. by case_bool_decide. Qed.

Lemma draft_lines_charge invoice facts rates hdr m billed aggs lines out :
  draft_run invoice facts rates hdr m billed aggs lines out →
  Forall2 same_charge lines (inv_Lines out).
Proof.
  intros [Hhdr _ _ _ _ _ Hlines Hmax (taxed & Htax & ->)].
  apply check_header_inv in Hhdr as (_ & _ & _ & _ & _ & _ & Hmode).
  apply price_lines_amounts in Hlines as [Hrec _].
  remember (priced (reset_draft hdr) lines) as i eqn:Hi.
  destruct (priced_reset_fields _ _ _ Hi) as (Hl & Hs & _ & _ & Hm & Hbp & _). clear Hi.
  rewrite finish_draft_lines. rewrite <- Hl in *.
  apply (tax_step_lines i taxed); try done.
  - eapply Forall_impl; [exact Hrec|]. by intros l (? & _).
  - rewrite Hm, Hbp. intros Htot. destruct Hmode as [[Hline _]|(_ & _ & bp & ? & ? & _)]; [|eauto].
    by rewrite Hline in Htot.
Qed.

Lemma line_refs_groups mode m aggs billed keys lines :
  (∀ key, aggs !! key = aggregate_of (facts_of key billed)) →
  Forall2 (fun key line => price_key mode m aggs key = Ok line) keys lines →
  concat (line_UsageFactRefs <$> lines)
  ≡ₚ fact_UsageID <$> concat ((fun key => facts_of key billed) <$> keys).
Proof.
  intros Haggs. induction 1 as [|key line keys lines Hl _ IH]; [done|].
  rewrite !fmap_cons. simpl. rewrite fmap_app, IH.
  by rewrite (price_key_refs _ _ _ _ _ _ Haggs Hl).
Qed.

Lemma fact_in_period_ok invoice f :
  fact_in_period invoice f = true →
  fact_OrganizationID f = inv_OrganizationID invoice ∧
  inv_PeriodStart invoice ≤ fact_WindowStart f < fact_WindowEnd f ∧
  fact_WindowEnd f ≤ inv_PeriodEnd invoice.
Proof. unfold fact_in_period, Before, After. intros H. reflect_go. split_and!; (done || lia). Qed.

(** A draft bills every billable usage fact exactly once: the references of its
    lines are those facts, and each line carries the whole quantity of one rate
    and product, priced by that rate; no fact of another organization or period
    enters. *)
Theorem BuildDraftInvoice_complete invoice facts rates out :
  Forall nul_free facts →
  BuildDraftInvoice invoice facts rates = Ok out →
  let billed := billable_selection (negb (bool_decide (ota_rates rates = []))) facts in
  concat (line_UsageFactRefs <$> inv_Lines out) ≡ₚ fact_UsageID <$> billed ∧
  Forall (line_bills rates billed) (inv_Lines out) ∧
  (∀ f, f ∈ facts → fact_OrganizationID f = inv_OrganizationID invoice ∧
     inv_PeriodStart invoice ≤ fact_WindowStart f < fact_WindowEnd f ∧
     fact_WindowEnd f ≤ inv_PeriodEnd invoice).
Proof.
  intros Hnul. rewrite BuildDraftInvoice_assemble.
  intros (hdr & m & billed & aggs & lines & Hrun)%assemble_draft_inv.
  pose proof (draft_lines_charge _ _ _ _ _ _ _ _ _ Hrun) as Hcharge.
  destruct Hrun as [Hhdr Hrates Hper Hbilled Hok Haggs Hlines _ _].
  apply BillableUsageFacts_ok in Hbilled as (_ & _ & ->). cbv zeta.
  set (billed := billable_selection _ facts) in *.
  assert (Forall nul_free billed) as Hnulb.
  { rewrite Forall_forall in *. intros f [_ Hf]%list_elem_of_filter. auto. }
  split_and!.
  - rewrite (same_charge_refs _ _ Hcharge), (line_refs_groups _ _ _ _ _ _ Haggs Hlines).
    apply (fmap_Permutation fact_UsageID). apply concat_groups.
    + rewrite sort_Strings_Permutation. apply NoDup_fst_map_to_list.
    + intros f Hf. rewrite sort_Strings_Permutation.
      apply (aggregate_key_facts aggs billed _ Haggs). eauto.
  - apply Forall_forall. intros line' Hl'.
    apply list_elem_of_lookup in Hl' as [i Hi].
    destruct (Forall2_lookup_r _ _ _ _ _ Hcharge Hi) as (line & Hline & Hsame).
    destruct (Forall2_lookup_r _ _ _ _ _ Hlines Hline) as (key & Hkey & Hprice).
    apply (same_charge_bills _ _ line); [done|].
    eapply price_key_bills; try done; [by eapply index_rates_ok|].
    rewrite <- sort_Strings_Permutation. by eapply list_elem_of_lookup_2.
  - intros f Hf. rewrite Forall_forall in Hper. specialize (Hper f Hf).
    apply check_header_inv in Hhdr as (-> & _).
    apply fact_in_period_ok in Hper. unfold with_tax_mode in Hper.
    by case_bool_decide.
Qed.

(** ** The life of an invoice *)

(** What issuing and settling never touch. *)
Definition charges (i : Invoice) :=
  (inv_Lines i, inv_SubtotalMinor i, inv_TaxMinor i, inv_TotalMinor i,
   (inv_OrganizationID i, inv_PricingVersionID i, inv_PeriodStart i, inv_PeriodEnd i,
    inv_TaxMode i, inv_Currency i)).

Lemma Reconciled_ext i j :
  charges i = charges j →
  inv_InvoiceTaxRateBasisPoints i = inv_InvoiceTaxRateBasisPoints j →
  inv_InvoiceTaxRoundingMode i = inv_InvoiceTaxRoundingMode j →
  inv_InvoiceTaxCategory i = inv_InvoiceTaxCategory j →
  0 ≤ inv_AmountSettledMinor j → 0 ≤ inv_AmountDueMinor j →
  inv_AmountSettledMinor j + inv_AmountDueMinor j = inv_TotalMinor j →
  Reconciled i → Reconciled j.
Proof.
  intros Hc Hbp Hrm Hcat ? ? ? [? ? ? ? ? ? ? ? Hpol].
  unfold charges in Hc. injection Hc as Hl Hs Ht Htot _ _ _ _ Hm _.
  assert (tax_policy_ok j)
    by (unfold tax_policy_ok in *; by rewrite <- Hm, <- Hbp, <- Hrm, <- Hcat, <- Hs, <- Ht).
  constructor; congruence.
Qed.

Lemma IssueInvoice_inv i number now due i' :
  IssueInvoice i number now due = Ok i' →
  inv_State i = InvoiceStateDraft ∧ inv_State i' = InvoiceStateIssued ∧
  inv_IssuedAt i' = Some now ∧ charges i' = charges i ∧ Reconciled i' ∧
  inv_AmountSettledMinor i' = inv_AmountSettledMinor i.
Proof.
  unfold IssueInvoice. intros H. split_guards H. destruct r. apply ValidateInvoiceTotals_ok in Hm.
  injection H as <-. reflect_go. pose proof Hm as [_ _ _ _ _ ? ? ? _].
  split_and!; try done. apply (Reconciled_ext i); done.
Qed.

Lemma IssueInvoice_identity i number now due i' :
  IssueInvoice i number now due = Ok i' → invoice_identity i' = invoice_identity i.
Proof. unfold IssueInvoice. intros H. split_guards H. by injection H as <-. Qed.

Lemma SettleInvoice_inv i settled now i' v :
  SettleInvoice i settled now = Ok (i', v) →
  inv_State i ≠ InvoiceStateDraft ∧ inv_State i ≠ InvoiceStateVoid ∧
  0 ≤ settled ≤ inv_TotalMinor i ∧ charges i' = charges i ∧
  inv_AmountSettledMinor i' = settled ∧ inv_AmountDueMinor i' = inv_TotalMinor i - settled ∧
  inv_IssuedAt i' = inv_IssuedAt i ∧
  (settled = inv_TotalMinor i ∧ inv_State i' = InvoiceStateSettled ∧ inv_SettledAt i' = Some now ∨
   0 < settled < inv_TotalMinor i ∧ inv_State i' = InvoiceStatePartiallySettled ∧ inv_SettledAt i' = None ∨
   settled = 0 ∧ settled ≠ inv_TotalMinor i ∧ inv_State i' = InvoiceStateIssued ∧ inv_SettledAt i' = None) ∧
  (Reconciled i → v = Ok tt ∧ Reconciled i').
Proof.
  unfold SettleInvoice. intros H. split_guards H. reflect_go. injection H as <- <-.
  set (i1 := if _ == _ then _ else _).
  assert (charges i1 = charges i ∧ inv_AmountSettledMinor i1 = settled ∧
    inv_AmountDueMinor i1 = inv_TotalMinor i - settled ∧ inv_IssuedAt i1 = inv_IssuedAt i ∧
    inv_InvoiceTaxRateBasisPoints i1 = inv_InvoiceTaxRateBasisPoints i ∧
    inv_InvoiceTaxRoundingMode i1 = inv_InvoiceTaxRoundingMode i ∧
    inv_InvoiceTaxCategory i1 = inv_InvoiceTaxCategory i ∧
    (settled = inv_TotalMinor i ∧ inv_State i1 = InvoiceStateSettled ∧ inv_SettledAt i1 = Some now ∨
     0 < settled < inv_TotalMinor i ∧ inv_State i1 = InvoiceStatePartiallySettled ∧ inv_SettledAt i1 = None ∨
     settled = 0 ∧ settled ≠ inv_TotalMinor i ∧ inv_State i1 = InvoiceStateIssued ∧ inv_SettledAt i1 = None))
    as (Hc & Hs & Hd & Hi & Hbp & Hrm & Hcat & Hst).
  { subst i1. get_upd. destruct (decide (settled = inv_TotalMinor i)) as [Heq|Hne].
    - rewrite bool_decide_eq_true_2 by done. split_and!; try done. left. by split_and!.
    - rewrite bool_decide_eq_false_2 by done. destruct (settled >? 0) eqn:Hpos; reflect_go;
        (split_and!; try done; right); [left|right]; split_and!; (done || lia). }
  clearbody i1. get_upd. split_and!; try done; try lia. intros Hrec.
  enough (Reconciled (i1 <| inv_Version ::= λ v, wrap64 (v + 1) |> <| inv_UpdatedAt := UTC now |>)) as Hr
    by (split; [exact (proj2 (ValidateInvoiceTotals_ok _) Hr)|exact Hr]).
  apply (Reconciled_ext i); try done; get_upd; rewrite ?Hs, ?Hd; try lia.
  unfold charges in Hc. simplify_eq. lia.
Qed.

(** The operations on an existing invoice. *)
Inductive invoice_step (i i' : Invoice) : Prop :=
  | step_issue number now due : IssueInvoice i number now due = Ok i' → invoice_step i i'
  | step_settle settled now : SettleInvoice i settled now = Ok (i', Ok tt) → invoice_step i i'.

(** What its state says of an invoice. *)
Definition state_consistent (i : Invoice) : Prop :=
  (inv_State i = InvoiceStateDraft ∧ inv_AmountSettledMinor i = 0) ∨
  (is_Some (inv_IssuedAt i) ∧
   (inv_State i = InvoiceStateIssued ∧ inv_AmountSettledMinor i = 0 ∨
    inv_State i = InvoiceStatePartiallySettled ∧ 0 < inv_AmountSettledMinor i < inv_TotalMinor i ∨
    inv_State i = InvoiceStateSettled ∧ inv_AmountDueMinor i = 0 ∧ is_Some (inv_SettledAt i))).

Lemma invoice_step_inv i i' :
  Reconciled i → state_consistent i → invoice_step i i' →
  Reconciled i' ∧ state_consistent i' ∧ charges i' = charges i ∧ inv_State i' ≠ InvoiceStateDraft.
Proof.
  intros Hrec Hst [number now due H|settled now H].
  - apply IssueInvoice_inv in H as (Hd & Hs & Hi & Hc & Hr & Ha).
    split_and!; try done; [|by rewrite Hs]. right. split; [by rewrite Hi|]. left. split; [done|].
    rewrite Ha. destruct Hst as [[_ ?]|(_ & [[Hx _]|[[Hx _]|[Hx _]]])]; [done|..]; by rewrite Hd in Hx.
  - apply SettleInvoice_inv in H as (Hnd & _ & Hrange & Hc & Ha & Hdue & Hi & Hst' & Hr).
    destruct (Hr Hrec) as [_ ?].
    assert (inv_TotalMinor i' = inv_TotalMinor i) as Ht by (unfold charges in Hc; congruence).
    split_and!; try done.
    + right. rewrite Hi, Ha, Hdue, Ht. split; [destruct Hst as [[? _]|[? _]]; done|].
      destruct Hst' as [(-> & -> & ->)|[(? & -> & _)|(-> & _ & -> & _)]]; [do 2 right|right;left|by left].
      * split_and!; [done|lia|eauto].
      * done.
    + destruct Hst' as [(_ & -> & _)|[(_ & -> & _)|(_ & _ & -> & _)]]; done.
Qed.

Lemma invoice_run_inv i j :
  rtc invoice_step i j → Reconciled i → state_consistent i →
  Reconciled j ∧ state_consistent j ∧ charges j = charges i ∧
  (inv_State i ≠ InvoiceStateDraft → inv_State j ≠ InvoiceStateDraft).
Proof.
  induction 1 as [i|i k j Hstep _ IH]; intros Hr Hs; [done|].
  destruct (invoice_step_inv _ _ Hr Hs Hstep) as (Hr' & Hs' & Hc & Hnd).
  destruct (IH Hr' Hs') as (? & ? & Hc' & Hnd'). rewrite Hc' , Hc. auto.
Qed.

(** along any sequence of issuings and settlements of a reconciled draft, the
    lines, amounts, period and tenant never change, the invoice stays reconciled,
    an issued invoice never becomes a draft again, and the state tells the truth:
    issued means nothing settled, partially settled strictly between, settled
    exactly when nothing is due. *)
Theorem invoice_lifecycle draft i :
  Reconciled draft → inv_State draft = InvoiceStateDraft → inv_AmountSettledMinor draft = 0 →
  rtc invoice_step draft i →
  Reconciled i ∧ charges i = charges draft ∧ state_consistent i ∧
  (∀ j, invoice_step i j → inv_State j ≠ InvoiceStateDraft).
Proof.
  intros Hr Hd Ha Hrun.
  destruct (invoice_run_inv _ _ Hrun Hr (or_introl (conj Hd Ha))) as (Hr' & Hs' & Hc & _).
  split_and!; [done..|]. intros j Hj. by apply (invoice_step_inv _ _ Hr' Hs' Hj).
Qed.

(** settling any reconciled, issued invoice with an amount in range always
    succeeds and passes the reconciliation check; the state and the settlement time
    follow the amount, and settling again with the same amount changes neither. *)
Theorem SettleInvoice_total i settled now :
  Reconciled i → inv_State i ≠ InvoiceStateDraft → inv_State i ≠ InvoiceStateVoid →
  0 ≤ settled ≤ inv_TotalMinor i →
  ∃ i', SettleInvoice i settled now = Ok (i', Ok tt) ∧
    inv_AmountSettledMinor i' = settled ∧
    inv_AmountDueMinor i' = inv_TotalMinor i - settled ∧
    (inv_State i' = InvoiceStateSettled ↔ settled = inv_TotalMinor i) ∧
    (inv_SettledAt i' = Some now ↔ settled = inv_TotalMinor i) ∧
    charges i' = charges i.
Proof.
  intros Hr Hd Hv Hrange.
  destruct (SettleInvoice i settled now) as [[i' v]|e] eqn:H.
  - apply SettleInvoice_inv in H as (_ & _ & _ & Hc & Ha & Hdue & _ & Hst & Hok).
    destruct (Hok Hr) as [-> _]. exists i'. split_and!; try done;
      destruct Hst as [(? & Hs1 & Hs2)|[(? & Hs1 & Hs2)|(? & ? & Hs1 & Hs2)]];
      rewrite ?Hs1, ?Hs2; (split; (done || lia)).
  - exfalso. unfold SettleInvoice in H.
    rewrite !bool_decide_eq_false_2 in H by done. rewrite Z.gtb_ltb in H.
    replace (false || false || _ || _) with false in H by (simpl; lia). done.
Qed.

(** ** Concrete runs *)

Definition example_invoice : Invoice :=
  mkInvoice "i1" "" "org" "acc" "per" "v1" "" None "" "" TWD "" 0 1000
    0 0 0 0 0 emptyProfile [] None "" "" None None None 0 0 0.
Definition example_fact (uid product : string) (q : Z) : UsageFact :=
  mkUsageFact uid uid "org" product "video" "minutes" q 0 "min" 10 20 "" "" None None.
Definition example_facts : list UsageFact :=
  [example_fact "u2" "p1" 7; example_fact "u1" "p1" 5; example_fact "u3" "p0" 1].
Definition example_rates : list PricingRate :=
  [mkPricingRate "r1" "v1" "video" "minutes" "Video" "min" 150 1 None RoundingHalfUp None 500].
Definition example_draft : Invoice :=
  match BuildDraftInvoice example_invoice example_facts example_rates with
  | Ok i => i | Err _ => example_invoice end.

Lemma example_builds : BuildDraftInvoice example_invoice example_facts example_rates = Ok example_draft.
Proof. by vm_compute. Qed.

Example example_amounts :
  inv_TotalMinor example_draft = 205 ∧
  line_UsageFactRefs <$> inv_Lines example_draft = [["u3"]; ["u1"; "u2"]].
Proof. by vm_compute. Qed.

Lemma BuildDraftInvoice_reconciled_witness : Reconciled example_draft.
Proof. apply (BuildDraftInvoice_reconciled _ _ _ _ example_builds). Defined.

Lemma BuildDraftInvoice_order_witness :
  BuildDraftInvoice example_invoice (rev example_facts) example_rates = Ok example_draft.
Proof.
  exact (proj1 (BuildDraftInvoice_order_independent example_invoice example_facts
    (rev example_facts) example_rates example_draft (Permutation_rev example_facts)) example_builds).
Defined.

Lemma BuildDraftInvoice_complete_witness :
  concat (line_UsageFactRefs <$> inv_Lines example_draft) ≡ₚ ["u2"; "u1"; "u3"].
Proof.
  destruct (BuildDraftInvoice_complete example_invoice example_facts example_rates example_draft)
    as [H _].
  - repeat constructor.
  - apply example_builds.
  - exact H.
Defined.

Definition example_issued : Invoice :=
  match IssueInvoice example_draft "N1" 5 6 with Ok i => i | Err _ => example_draft end.

Lemma invoice_lifecycle_witness : Reconciled example_issued ∧ inv_State example_issued = InvoiceStateIssued.
Proof.
  assert (IssueInvoice example_draft "N1" 5 6 = Ok example_issued) as Hi by by vm_compute.
  destruct (invoice_lifecycle example_draft example_issued) as (? & _ & _ & _).
  - apply (assemble_draft_reconciled example_invoice example_facts example_rates).
    rewrite <- BuildDraftInvoice_assemble. apply example_builds.
  - by vm_compute.
  - by vm_compute.
  - apply rtc_once. by eapply step_issue.
  - split; [done|by vm_compute].
Defined.

Lemma SettleInvoice_total_witness :
  ∃ i', SettleInvoice example_issued 205 9 = Ok (i', Ok tt) ∧ inv_AmountDueMinor i' = 205 - 205.
Proof.
  destruct (SettleInvoice_total example_issued 205 9) as (i' & ? & _ & Hdue & _).
  - apply ValidateInvoiceTotals_ok. by vm_compute.
  - by vm_compute.
  - by vm_compute.
  - vm_compute. split; discriminate.
  - exists i'. split; [done|]. rewrite Hdue. by vm_compute.
Defined.

Lemma fact_key_roundtrip_witness :
  key_product (fact_key (example_fact "u1" "p1" 5)) = "p1" ∧
  key_rate (fact_key (example_fact "u1" "p1" 5)) = fact_rate_key (example_fact "u1" "p1" 5).
Proof.
  destruct (fact_key_roundtrip (example_fact "u1" "p1" 5)) as (H1 & H2 & _); [by vm_compute|].
  exact (conj H2 H1).
Defined.
