(* ===== verification/Evidence.v ===== *)
(** * Financial gates: [internal/billing/handoff.go]

    The lists of reasons that block an ownership transfer or the closure of an
    organization's cloud, and what an empty list means. *)
From S2P Require Import Prelude GoStrings GoTime BillingTypes.

Record FinancialEvidence := mkFinancialEvidence {
  ev_BalanceKnown : bool;
  ev_Currency : Code;
  ev_BalanceMinor : Z;
  ev_UsageSettled : bool;
  ev_InvoicesReconciled : bool;
  ev_ProviderWorkReconciled : bool;
  ev_UnpaidInvoiceCount : Z;
  ev_DebtMinor : Z;
  ev_PendingPaymentCount : Z;
  ev_PendingRefundCount : Z;
  ev_OpenDisputeCount : Z;
  ev_PendingSetupCount : Z;
  ev_UnresolvedProviderEventCount : Z
}.

(** [if cond { blockers = append(blockers, code) }] *)
Definition block_if (cond : bool) (code : string) : list string := if cond then [code] else [].

(** The table of the closing loop, in its order. *)
Definition evidence_counts (e : FinancialEvidence) : list (Z * string) :=
  [(ev_UnpaidInvoiceCount e, "unpaid_invoices");
   (ev_DebtMinor e, "outstanding_debt");
   (ev_PendingPaymentCount e, "payments_pending");
   (ev_PendingRefundCount e, "refunds_pending");
   (ev_OpenDisputeCount e, "disputes_open");
   (ev_PendingSetupCount e, "payment_setups_pending");
   (ev_UnresolvedProviderEventCount e, "provider_events_unresolved")].

Definition OwnershipTransferBlockers (e : FinancialEvidence) : list string :=
  (if negb (ev_BalanceKnown e) then ["balance_evidence_missing"]
   else block_if (negb (CanSettle (ev_Currency e))) "currency_unsupported"
        ++ block_if (ev_BalanceMinor e <? 0) "balance_negative")
  ++ block_if (negb (ev_UsageSettled e)) "usage_unsettled"
  ++ block_if (negb (ev_InvoicesReconciled e)) "invoice_evidence_missing"
  ++ block_if (negb (ev_ProviderWorkReconciled e)) "provider_evidence_missing"
  ++ block_if ((ev_UnpaidInvoiceCount e <? 0) || (ev_DebtMinor e <? 0)
               || (ev_PendingPaymentCount e <? 0) || (ev_PendingRefundCount e <? 0)
               || (ev_OpenDisputeCount e <? 0) || (ev_PendingSetupCount e <? 0)
               || (ev_UnresolvedProviderEventCount e <? 0)) "financial_evidence_invalid"
  ++ concat ((fun '(count, code) => block_if (count >? 0) code) <$> evidence_counts e).

Definition CloudClosureBlockers (e : FinancialEvidence) : list string :=
  OwnershipTransferBlockers e
  ++ block_if (ev_BalanceKnown e && (ev_BalanceMinor e >? 0)) "balance_positive".

(** ** What no blocker means *)

(** Complete evidence, a known balance that is not a debt, and nothing pending. *)
Record transferable (e : FinancialEvidence) : Prop := {
  tr_known : ev_BalanceKnown e = true;
  tr_currency : ev_Currency e = TWD;
  tr_balance : 0 ≤ ev_BalanceMinor e;
  tr_usage : ev_UsageSettled e = true;
  tr_invoices : ev_InvoicesReconciled e = true;
  tr_provider : ev_ProviderWorkReconciled e = true;
  tr_counts : Forall (fun c => c = 0) (evidence_counts e).*1
}.

Lemma block_if_nil cond code : block_if cond code = [] ↔ cond = false.
Proof. by destruct cond. Qed.

Lemma elem_of_block_if cond code x : x ∈ block_if cond code ↔ cond = true ∧ x = code.
Proof. destruct cond; simpl; [rewrite list_elem_of_singleton|rewrite elem_of_nil]; naive_solver. Qed.

Lemma transfer_blockers_nil e : OwnershipTransferBlockers e = [] ↔ transferable e.
Proof.
  unfold OwnershipTransferBlockers, evidence_counts. simpl.
  rewrite app_nil_r, !app_nil, !block_if_nil. unfold CanSettle. split.
  - intros (Hb & ? & ? & ? & Hn & Hc). reflect_go. destruct_and?.
    destruct (ev_BalanceKnown e) eqn:?; simpl in Hb; [|done].
    apply app_nil in Hb as [Hcur%block_if_nil Hbal%block_if_nil]. reflect_go.
    constructor; try done. unfold evidence_counts. simpl. repeat constructor; lia.
  - intros [-> -> ? -> -> -> Hc]. unfold evidence_counts in Hc. simpl in Hc.
    repeat match goal with H : Forall _ (_ :: _) |- _ => inversion_clear H end.
    simpl. replace (ev_BalanceMinor e <? 0) with false by lia. split_and!; (done || lia).
Qed.

Lemma closure_blockers_nil e : CloudClosureBlockers e = [] ↔ transferable e ∧ ev_BalanceMinor e = 0.
Proof.
  unfold CloudClosureBlockers. rewrite app_nil, transfer_blockers_nil, block_if_nil.
  split.
  - intros [Ht Hb]. split; [done|]. destruct Ht as [Hk _ ? _ _ _ _]. rewrite Hk in Hb. simpl in Hb. lia.
  - intros [Ht Hb]. split; [done|]. rewrite Hb. by rewrite andb_false_r.
Qed.

(** the transfer gate opens exactly on complete evidence with a known
    non-negative balance and nothing pending, and the closure gate exactly when in
    addition the balance is zero: positive credit, and malformed (negative)
    evidence, never open a gate they should not. *)
Theorem blockers_empty e :
  (OwnershipTransferBlockers e = [] ↔ transferable e) ∧
  (CloudClosureBlockers e = [] ↔ transferable e ∧ ev_BalanceMinor e = 0).
Proof. split; [apply transfer_blockers_nil|apply closure_blockers_nil]. Qed.

(** A positive balance hides no other blocker. *)
Lemma credit_suppresses_nothing e b code :
  0 ≤ b → ev_BalanceKnown e = true → code ≠ "balance_negative" →
  code ∈ OwnershipTransferBlockers e →
  code ∈ OwnershipTransferBlockers
    (mkFinancialEvidence true (ev_Currency e) b (ev_UsageSettled e) (ev_InvoicesReconciled e)
       (ev_ProviderWorkReconciled e) (ev_UnpaidInvoiceCount e) (ev_DebtMinor e)
       (ev_PendingPaymentCount e) (ev_PendingRefundCount e) (ev_OpenDisputeCount e)
       (ev_PendingSetupCount e) (ev_UnresolvedProviderEventCount e)).
Proof.
  intros Hb Hk Hne. unfold OwnershipTransferBlockers. rewrite Hk. simpl negb. cbv iota.
  cbn [ev_BalanceKnown ev_Currency ev_BalanceMinor ev_UsageSettled ev_InvoicesReconciled
       ev_ProviderWorkReconciled ev_UnpaidInvoiceCount ev_DebtMinor ev_PendingPaymentCount
       ev_PendingRefundCount ev_OpenDisputeCount ev_PendingSetupCount
       ev_UnresolvedProviderEventCount].
  unfold evidence_counts.
  cbn [ev_UnpaidInvoiceCount ev_DebtMinor ev_PendingPaymentCount
       ev_PendingRefundCount ev_OpenDisputeCount ev_PendingSetupCount
       ev_UnresolvedProviderEventCount].
  rewrite !elem_of_app, !elem_of_block_if. naive_solver.
Qed.
