(* ===== verification/PaymentTypes.v ===== *)
(** * Data of the payment domain

    The records and enumerations of [internal/payment/types.go],
    [orchestration.go] and [provider.go].  As in [BillingTypes], a string type with
    named constants is a string, a pointer field an option, and a field [F] of a
    record is named [<record>_F].  The optional text columns read with [COALESCE]
    are empty strings. *)
From S2P Require Import Prelude GoStrings GoTime BillingTypes.

Definition Currency := Code.
Definition CurrencyTWD : Currency := TWD.

Definition AccountState := string.
Definition AccountStateActive : AccountState := "active".
Definition AccountStateAttentionRequired : AccountState := "attention_required".
Definition AccountStateSuspended : AccountState := "suspended".
Definition AccountStateClosed : AccountState := "closed".

Record CommercialAccount := mkCommercialAccount {
  account_ID : string;
  account_OrganizationID : string;
  account_Currency : Currency;
  account_AvailableBalanceMinor : Z;
  account_State : AccountState;
  account_Version : Z;
  account_CreatedAt : Time;
  account_UpdatedAt : Time
}.
#[export] Instance CommercialAccount_eq_dec : EqDecision CommercialAccount.
Proof. solve_decision. Defined.

#[export] Instance CommercialAccount_eta : Eta CommercialAccount := fun a => {|
  account_ID := account_ID a; account_OrganizationID := account_OrganizationID a;
  account_Currency := account_Currency a;
  account_AvailableBalanceMinor := account_AvailableBalanceMinor a;
  account_State := account_State a; account_Version := account_Version a;
  account_CreatedAt := account_CreatedAt a; account_UpdatedAt := account_UpdatedAt a |}.

Definition LedgerDirection := string.
Definition LedgerDirectionCredit : LedgerDirection := "credit".
Definition LedgerDirectionDebit : LedgerDirection := "debit".

Definition LedgerReason := string.
Definition LedgerReasonInvoiceDebit : LedgerReason := "invoice_debit".
Definition LedgerReasonUsageAdjustmentDebit : LedgerReason := "usage_adjustment_debit".
Definition LedgerReasonManualAdjustmentDebit : LedgerReason := "manual_adjustment_debit".
Definition LedgerReasonPaymentTopUpCredit : LedgerReason := "payment_top_up_credit".
Definition LedgerReasonManualAdjustmentCredit : LedgerReason := "manual_adjustment_credit".
Definition LedgerReasonRefundDebit : LedgerReason := "refund_debit".
Definition LedgerReasonChargebackDebit : LedgerReason := "chargeback_debit".

Record LedgerEntry := mkLedgerEntry {
  entry_ID : string;
  entry_AccountID : string;
  entry_Direction : LedgerDirection;
  entry_AmountMinor : Z;
  entry_Currency : Currency;
  entry_Reason : LedgerReason;
  entry_IdempotencyScope : string;
  entry_IdempotencyKey : string;
  entry_ExternalType : string;
  entry_ExternalID : string;
  entry_BalanceAfterMinor : Z;
  entry_ActorType : string;
  entry_ActorID : string;
  entry_RequestID : string;
  entry_CreatedAt : Time
}.
#[export] Instance LedgerEntry_eq_dec : EqDecision LedgerEntry.
Proof. solve_decision. Defined.

Record ProviderCapabilities := mkProviderCapabilities {
  cap_HostedSetup : bool;
  cap_HostedCharge : bool;
  cap_VaultedMethod : bool;
  cap_MerchantInitiatedCharge : bool;
  cap_StatusQuery : bool;
  cap_Webhook : bool;
  cap_Refund : bool;
  cap_RequiresCustomerAction : bool
}.
#[export] Instance ProviderCapabilities_eq_dec : EqDecision ProviderCapabilities.
Proof. solve_decision. Defined.

Record PaymentConsent := mkPaymentConsent {
  consent_ID : string;
  consent_AccountID : string;
  consent_ConsentType : string;
  consent_TextVersion : string;
  consent_TextSHA256 : string;
  consent_AcceptedActorType : string;
  consent_AcceptedActorID : string;
  consent_AcceptedAt : Time;
  consent_Locale : string;
  consent_Source : string;
  consent_RevokedAt : option Time;
  consent_RevocationReason : string;
  consent_CreatedAt : Time;
  consent_UpdatedAt : Time
}.
#[export] Instance PaymentConsent_eq_dec : EqDecision PaymentConsent.
Proof. solve_decision. Defined.

Definition PaymentMethodStatus := string.
Definition PaymentMethodStatusPending : PaymentMethodStatus := "pending".
Definition PaymentMethodStatusActive : PaymentMethodStatus := "active".
Definition PaymentMethodStatusExpired : PaymentMethodStatus := "expired".
Definition PaymentMethodStatusRevoked : PaymentMethodStatus := "revoked".
Definition PaymentMethodStatusFailed : PaymentMethodStatus := "failed".

Record PaymentMethod := mkPaymentMethod {
  method_ID : string;
  method_AccountID : string;
  method_Provider : string;
  method_Status : PaymentMethodStatus;
  method_CardBrand : string;
  method_LastFour : string;
  method_ExpiryMonth : option Z;
  method_ExpiryYear : option Z;
  method_Capabilities : ProviderCapabilities;
  method_ConsentID : string;
  method_CreatedAt : Time;
  method_UpdatedAt : Time
}.
#[export] Instance PaymentMethod_eq_dec : EqDecision PaymentMethod.
Proof. solve_decision. Defined.

Record AutoTopUpPolicy := mkAutoTopUpPolicy {
  policy_ID : string;
  policy_AccountID : string;
  policy_Enabled : bool;
  policy_ThresholdMinor : Z;
  policy_TopUpAmountMinor : Z;
  policy_Currency : Currency;
  policy_PaymentMethodID : string;
  policy_DailyAttemptLimit : Z;
  policy_DailyAmountLimitMinor : Z;
  policy_CooldownSeconds : Z;
  policy_Generation : Z;
  policy_Version : Z;
  policy_Armed : bool;
  policy_ConsecutiveFailureCount : Z;
  policy_LastTriggeredAt : option Time;
  policy_LastSucceededAt : option Time;
  policy_ConsentID : string;
  policy_CreatedAt : Time;
  policy_UpdatedAt : Time
}.
#[export] Instance AutoTopUpPolicy_eq_dec : EqDecision AutoTopUpPolicy.
Proof. solve_decision. Defined.

#[export] Instance AutoTopUpPolicy_eta : Eta AutoTopUpPolicy := fun p => {|
  policy_ID := policy_ID p; policy_AccountID := policy_AccountID p;
  policy_Enabled := policy_Enabled p; policy_ThresholdMinor := policy_ThresholdMinor p;
  policy_TopUpAmountMinor := policy_TopUpAmountMinor p; policy_Currency := policy_Currency p;
  policy_PaymentMethodID := policy_PaymentMethodID p;
  policy_DailyAttemptLimit := policy_DailyAttemptLimit p;
  policy_DailyAmountLimitMinor := policy_DailyAmountLimitMinor p;
  policy_CooldownSeconds := policy_CooldownSeconds p; policy_Generation := policy_Generation p;
  policy_Version := policy_Version p; policy_Armed := policy_Armed p;
  policy_ConsecutiveFailureCount := policy_ConsecutiveFailureCount p;
  policy_LastTriggeredAt := policy_LastTriggeredAt p;
  policy_LastSucceededAt := policy_LastSucceededAt p; policy_ConsentID := policy_ConsentID p;
  policy_CreatedAt := policy_CreatedAt p; policy_UpdatedAt := policy_UpdatedAt p |}.

Definition PaymentIntentReason := string.
Definition PaymentIntentReasonManualTopUp : PaymentIntentReason := "manual_top_up".
Definition PaymentIntentReasonAutoTopUp : PaymentIntentReason := "auto_top_up".

Definition PaymentIntentState := string.
Definition PaymentIntentStateCreated : PaymentIntentState := "created".
Definition PaymentIntentStateProcessing : PaymentIntentState := "processing".
Definition PaymentIntentStateAuthorized : PaymentIntentState := "authorized".
Definition PaymentIntentStateRequiresAction : PaymentIntentState := "requires_action".
Definition PaymentIntentStateUnknown : PaymentIntentState := "unknown".
Definition PaymentIntentStateSucceeded : PaymentIntentState := "succeeded".
Definition PaymentIntentStateFailed : PaymentIntentState := "failed".
Definition PaymentIntentStateCanceled : PaymentIntentState := "canceled".

Record PaymentIntent := mkPaymentIntent {
  intent_ID : string;
  intent_AccountID : string;
  intent_AmountMinor : Z;
  intent_Currency : Currency;
  intent_Reason : PaymentIntentReason;
  intent_PolicyGeneration : option Z;
  intent_TriggerLedgerEntryID : string;
  intent_Provider : string;
  intent_PaymentMethodID : string;
  intent_State : PaymentIntentState;
  intent_IdempotencyKey : string;
  intent_MerchantOrderReference : string;
  intent_ProviderTransactionReference : string;
  intent_CorrelationID : string;
  intent_CreatedAt : Time;
  intent_UpdatedAt : Time;
  intent_CompletedAt : option Time
}.
#[export] Instance PaymentIntent_eq_dec : EqDecision PaymentIntent.
Proof. solve_decision. Defined.

#[export] Instance PaymentIntent_eta : Eta PaymentIntent := fun i => {|
  intent_ID := intent_ID i; intent_AccountID := intent_AccountID i;
  intent_AmountMinor := intent_AmountMinor i; intent_Currency := intent_Currency i;
  intent_Reason := intent_Reason i; intent_PolicyGeneration := intent_PolicyGeneration i;
  intent_TriggerLedgerEntryID := intent_TriggerLedgerEntryID i;
  intent_Provider := intent_Provider i; intent_PaymentMethodID := intent_PaymentMethodID i;
  intent_State := intent_State i; intent_IdempotencyKey := intent_IdempotencyKey i;
  intent_MerchantOrderReference := intent_MerchantOrderReference i;
  intent_ProviderTransactionReference := intent_ProviderTransactionReference i;
  intent_CorrelationID := intent_CorrelationID i; intent_CreatedAt := intent_CreatedAt i;
  intent_UpdatedAt := intent_UpdatedAt i; intent_CompletedAt := intent_CompletedAt i |}.

(** ** Orchestration *)
Definition ProviderOperation := string.
Definition ProviderOperationSetup : ProviderOperation := "setup".
Definition ProviderOperationCharge : ProviderOperation := "charge".
Definition ProviderOperationQuery : ProviderOperation := "query".
Definition ProviderOperationCancel : ProviderOperation := "cancel".
Definition ProviderOperationRefund : ProviderOperation := "refund".

Record PaymentAttempt := mkPaymentAttempt {
  attempt_ID : string;
  attempt_IntentID : string;
  attempt_Operation : ProviderOperation;
  attempt_AttemptNumber : Z;
  attempt_StartedAt : Time;
  attempt_CompletedAt : option Time;
  attempt_NormalizedResult : string;
  attempt_ProviderCode : string;
  attempt_RequestSHA256 : string;
  attempt_ResponseSHA256 : string;
  attempt_NextReconciliationAt : option Time;
  attempt_CreatedAt : Time
}.
#[export] Instance PaymentAttempt_eq_dec : EqDecision PaymentAttempt.
Proof. solve_decision. Defined.

#[export] Instance PaymentAttempt_eta : Eta PaymentAttempt := fun a => {|
  attempt_ID := attempt_ID a; attempt_IntentID := attempt_IntentID a;
  attempt_Operation := attempt_Operation a; attempt_AttemptNumber := attempt_AttemptNumber a;
  attempt_StartedAt := attempt_StartedAt a; attempt_CompletedAt := attempt_CompletedAt a;
  attempt_NormalizedResult := attempt_NormalizedResult a;
  attempt_ProviderCode := attempt_ProviderCode a;
  attempt_RequestSHA256 := attempt_RequestSHA256 a;
  attempt_ResponseSHA256 := attempt_ResponseSHA256 a;
  attempt_NextReconciliationAt := attempt_NextReconciliationAt a;
  attempt_CreatedAt := attempt_CreatedAt a |}.

Definition ReconciliationReason := string.
Definition ReconciliationReasonCharge : ReconciliationReason := "charge".
Definition ReconciliationReasonUnknown : ReconciliationReason := "unknown".
Definition ReconciliationReasonWebhook : ReconciliationReason := "webhook".
Definition ReconciliationReasonCredit : ReconciliationReason := "credit".
Definition ReconciliationReasonRefund : ReconciliationReason := "refund".

Definition ReconciliationStatus := string.
Definition ReconciliationStatusPending : ReconciliationStatus := "pending".
Definition ReconciliationStatusLeased : ReconciliationStatus := "leased".
Definition ReconciliationStatusCompleted : ReconciliationStatus := "completed".
Definition ReconciliationStatusFailed : ReconciliationStatus := "failed".

Record ReconciliationJob := mkReconciliationJob {
  job_ID : string;
  job_IntentID : string;
  job_Reason : ReconciliationReason;
  job_Status : ReconciliationStatus;
  job_DueAt : Time;
  job_AttemptCount : Z;
  job_LeasedAt : option Time;
  job_LeaseOwner : string;
  job_LastError : string;
  job_CreatedAt : Time;
  job_UpdatedAt : Time
}.
#[export] Instance ReconciliationJob_eq_dec : EqDecision ReconciliationJob.
Proof. solve_decision. Defined.

#[export] Instance ReconciliationJob_eta : Eta ReconciliationJob := fun j => {|
  job_ID := job_ID j; job_IntentID := job_IntentID j; job_Reason := job_Reason j;
  job_Status := job_Status j; job_DueAt := job_DueAt j; job_AttemptCount := job_AttemptCount j;
  job_LeasedAt := job_LeasedAt j; job_LeaseOwner := job_LeaseOwner j;
  job_LastError := job_LastError j; job_CreatedAt := job_CreatedAt j;
  job_UpdatedAt := job_UpdatedAt j |}.

(** ** Provider errors and results *)
Definition ProviderErrorKind := string.
Definition ProviderErrorDeclined : ProviderErrorKind := "declined".
Definition ProviderErrorTemporary : ProviderErrorKind := "temporary".
Definition ProviderErrorInvalidRequest : ProviderErrorKind := "invalid_request".
Definition ProviderErrorAuthentication : ProviderErrorKind := "authentication".
Definition ProviderErrorRequiresAction : ProviderErrorKind := "requires_action".
Definition ProviderErrorUnknown : ProviderErrorKind := "unknown".
Definition ProviderErrorUnsupported : ProviderErrorKind := "unsupported".

Record ProviderError := mkProviderError {
  perr_Kind : ProviderErrorKind;
  perr_Code : string;
  perr_MayHaveReachedServer : bool
}.

Record ProviderResult := mkProviderResult {
  result_State : PaymentIntentState;
  result_ProviderTransactionReference : string;
  result_ProviderCode : string;
  result_Evidence : gmap string string
}.
