(* ===== verification/Payment.v ===== *)
(** * The payment domain: [internal/payment]

    Amount and reason validation, the balance arithmetic of the ledger, the
    auto top-up policy and its decision, the state machine of payment intents, the
    daily window of the limits, and the normalisation of what providers return. *)
From S2P Require Import Prelude GoStrings GoTime BillingTypes PaymentTypes.

(** ** [money.go] *)

Definition ValidateCurrency (code : Currency) : Result unit :=
  guard_err (CanSettle code) ErrInvalidCurrency.

Definition ValidateChargeAmount (currency : Currency) (amountMinor : Z) : Result unit :=
  _ ← ValidateCurrency currency;
  if amountMinor <=? 0 then Err ErrPaymentInvalidAmount else Ok tt.

Definition ValidateLedgerReason (direction : LedgerDirection) (reason : LedgerReason) : Result unit :=
  if direction == LedgerDirectionCredit then
    guard_err ((reason == LedgerReasonPaymentTopUpCredit)
               || (reason == LedgerReasonManualAdjustmentCredit)) ErrInvalidReason
  else if direction == LedgerDirectionDebit then
    guard_err ((reason == LedgerReasonInvoiceDebit)
               || (reason == LedgerReasonUsageAdjustmentDebit)
               || (reason == LedgerReasonManualAdjustmentDebit)
               || (reason == LedgerReasonRefundDebit)
               || (reason == LedgerReasonChargebackDebit)) ErrInvalidReason
  else Err ErrInvalidDirection.

Definition ApplyBalance (current : Z) (direction : LedgerDirection) (amountMinor : Z) : Result Z :=
  if amountMinor <=? 0 then Err ErrPaymentInvalidAmount else
  if direction == LedgerDirectionCredit then
    if current >? maxInt64 - amountMinor then Err ErrBalanceOverflow
    else Ok (current + amountMinor)
  else if direction == LedgerDirectionDebit then
    if current <? minInt64 + amountMinor then Err ErrBalanceOverflow
    else Ok (current - amountMinor)
  else Err ErrInvalidDirection.

Definition NormalizeProvider (value : string) : string := ToLower (TrimSpace value).

(** ** [policy.go] *)

Definition MinimumCooldownSeconds : Z := 300.

Record PolicyEvaluation := mkPolicyEvaluation {
  eval_BalanceMinor : Z;
  eval_Now : Time;
  eval_AttemptsToday : Z;
  eval_AutomaticAmountTodayMinor : Z;
  eval_HasOpenIntent : bool;
  eval_PaymentMethodStatus : PaymentMethodStatus;
  eval_MerchantInitiatedCharge : bool
}.

Definition PolicyDecisionCode := string.
Definition PolicyDecisionTrigger : PolicyDecisionCode := "trigger".
Definition PolicyDecisionDisabled : PolicyDecisionCode := "disabled".
Definition PolicyDecisionNotArmed : PolicyDecisionCode := "not_armed".
Definition PolicyDecisionThresholdNotCrossed : PolicyDecisionCode := "threshold_not_crossed".
Definition PolicyDecisionOpenIntent : PolicyDecisionCode := "open_intent".
Definition PolicyDecisionCooldown : PolicyDecisionCode := "cooldown".
Definition PolicyDecisionDailyAttemptLimit : PolicyDecisionCode := "daily_attempt_limit".
Definition PolicyDecisionDailyAmountLimit : PolicyDecisionCode := "daily_amount_limit".
Definition PolicyDecisionPaymentMethodInactive : PolicyDecisionCode := "payment_method_inactive".
Definition PolicyDecisionCapabilityUnsupported : PolicyDecisionCode := "capability_unsupported".

Record PolicyDecision := mkPolicyDecision { decision_Trigger : bool; decision_Code : PolicyDecisionCode }.

Definition ValidatePolicy (policy : AutoTopUpPolicy) : Result unit :=
  if negb (is_ok (ValidateChargeAmount (policy_Currency policy) (policy_ThresholdMinor policy)))
  then Err ErrInvalidPolicy else
  if negb (is_ok (ValidateChargeAmount (policy_Currency policy) (policy_TopUpAmountMinor policy)))
  then Err ErrInvalidPolicy else
  if (policy_PaymentMethodID policy == "") || (policy_ConsentID policy == "")
     || (policy_DailyAttemptLimit policy <=? 0) || (policy_DailyAttemptLimit policy >? 10)
     || (policy_DailyAmountLimitMinor policy <=? 0)
     || (policy_CooldownSeconds policy <? MinimumCooldownSeconds)
     || (policy_Generation policy <=? 0) || (policy_Version policy <=? 0)
     || (policy_ConsecutiveFailureCount policy <? 0)
  then Err ErrInvalidPolicy else
  if policy_TopUpAmountMinor policy >? policy_DailyAmountLimitMinor policy
  then Err ErrInvalidPolicy else Ok tt.

(** [time.Duration(policy.CooldownSeconds)*time.Second]: an [int64] product. *)
Definition cooldown_duration (policy : AutoTopUpPolicy) : Duration :=
  wrap64 (policy_CooldownSeconds policy * Second).

Definition EvaluateAutoTopUp (policy : AutoTopUpPolicy) (evaluation : PolicyEvaluation) :
    PolicyDecision :=
  if negb (policy_Enabled policy) then mkPolicyDecision false PolicyDecisionDisabled else
  if negb (policy_Armed policy) then mkPolicyDecision false PolicyDecisionNotArmed else
  if eval_BalanceMinor evaluation >=? policy_ThresholdMinor policy
  then mkPolicyDecision false PolicyDecisionThresholdNotCrossed else
  if eval_HasOpenIntent evaluation then mkPolicyDecision false PolicyDecisionOpenIntent else
  if eval_PaymentMethodStatus evaluation != PaymentMethodStatusActive
  then mkPolicyDecision false PolicyDecisionPaymentMethodInactive else
  if negb (eval_MerchantInitiatedCharge evaluation)
  then mkPolicyDecision false PolicyDecisionCapabilityUnsupported else
  if match policy_LastTriggeredAt policy with
     | Some last => Before (eval_Now evaluation) (Add last (cooldown_duration policy))
     | None => false
     end
  then mkPolicyDecision false PolicyDecisionCooldown else
  if eval_AttemptsToday evaluation >=? policy_DailyAttemptLimit policy
  then mkPolicyDecision false PolicyDecisionDailyAttemptLimit else
  if eval_AutomaticAmountTodayMinor evaluation
     >? wrap64 (policy_DailyAmountLimitMinor policy - policy_TopUpAmountMinor policy)
  then mkPolicyDecision false PolicyDecisionDailyAmountLimit else
  mkPolicyDecision true PolicyDecisionTrigger.

(** ** [intent.go] *)

Definition ValidIntentState (state : PaymentIntentState) : bool :=
  (state == PaymentIntentStateCreated) || (state == PaymentIntentStateProcessing)
  || (state == PaymentIntentStateAuthorized) || (state == PaymentIntentStateRequiresAction)
  || (state == PaymentIntentStateUnknown) || (state == PaymentIntentStateSucceeded)
  || (state == PaymentIntentStateFailed) || (state == PaymentIntentStateCanceled).

Definition IntentStateTerminal (state : PaymentIntentState) : bool :=
  (state == PaymentIntentStateSucceeded) || (state == PaymentIntentStateFailed)
  || (state == PaymentIntentStateCanceled).

Definition CanTransitionIntent (from to : PaymentIntentState) : bool :=
  if from == to then true else
  if from == PaymentIntentStateCreated then
    (to == PaymentIntentStateProcessing) || (to == PaymentIntentStateCanceled)
  else if from == PaymentIntentStateProcessing then
    (to == PaymentIntentStateAuthorized) || (to == PaymentIntentStateRequiresAction)
    || (to == PaymentIntentStateUnknown) || (to == PaymentIntentStateSucceeded)
    || (to == PaymentIntentStateFailed) || (to == PaymentIntentStateCanceled)
  else if from == PaymentIntentStateAuthorized then
    (to == PaymentIntentStateSucceeded) || (to == PaymentIntentStateUnknown)
    || (to == PaymentIntentStateFailed) || (to == PaymentIntentStateCanceled)
  else if from == PaymentIntentStateRequiresAction then
    (to == PaymentIntentStateProcessing) || (to == PaymentIntentStateAuthorized)
    || (to == PaymentIntentStateSucceeded) || (to == PaymentIntentStateUnknown)
    || (to == PaymentIntentStateFailed) || (to == PaymentIntentStateCanceled)
  else if from == PaymentIntentStateUnknown then
    (to == PaymentIntentStateAuthorized) || (to == PaymentIntentStateSucceeded)
    || (to == PaymentIntentStateFailed) || (to == PaymentIntentStateCanceled)
  else false.

Definition ValidateIntentTransition (from to : PaymentIntentState) : Result unit :=
  if negb (ValidIntentState from) || negb (ValidIntentState to) then Err ErrInvalidState else
  if negb (CanTransitionIntent from to) then Err ErrInvalidTransition else Ok tt.

(** ** [time.go] *)

(** [time.FixedZone("Asia/Taipei", 8*60*60)] *)
Definition dailyLimitLocation : Duration := 8 * Hour.

Definition DailyLimitWindow (now : Time) : Time * Time :=
  let start := Date (Year now dailyLimitLocation) (Month now dailyLimitLocation)
                 (MonthDay now dailyLimitLocation) dailyLimitLocation in
  (UTC start, UTC (AddDate start 0 1 dailyLimitLocation)).

(** ** [provider.go] *)

(** A character of a provider code.  The source ranges over runes; a rune outside
    ASCII is refused, and so is every byte of its encoding. *)
Definition code_char (c : N) : bool :=
  (c =? 45)%N || (c =? 95)%N || (c =? 46)%N || ((48 <=? c)%N && (c <=? 57)%N)
  || ((65 <=? c)%N && (c <=? 90)%N) || ((97 <=? c)%N && (c <=? 122)%N).

Definition NormalizeProviderCode (code : string) : string :=
  let code := TrimSpace code in
  let code := if len code >? 64 then str_take 64 code else code in
  if forallb code_char (bytes_of code) then code else "redacted".

Definition NewProviderError (kind : ProviderErrorKind) (code : string) (mayHaveReachedServer : bool) :
    ProviderError :=
  mkProviderError kind (NormalizeProviderCode code) mayHaveReachedServer.

Definition ValidateProviderResult (result : ProviderResult) : Result unit :=
  guard_err ((result_State result == PaymentIntentStateAuthorized)
             || (result_State result == PaymentIntentStateRequiresAction)
             || (result_State result == PaymentIntentStateUnknown)
             || (result_State result == PaymentIntentStateSucceeded)
             || (result_State result == PaymentIntentStateFailed)
             || (result_State result == PaymentIntentStateCanceled)) ErrInvalidState.

(** The argument is what [errors.As] finds: [None] when the chain holds no
    [*ProviderError]. *)
Definition StateForProviderError (err : option ProviderError) : PaymentIntentState :=
  match err with
  | None => PaymentIntentStateUnknown
  | Some providerErr =>
      let kind := perr_Kind providerErr in
      if (kind == ProviderErrorDeclined) || (kind == ProviderErrorInvalidRequest)
         || (kind == ProviderErrorAuthentication) then
        if negb (perr_MayHaveReachedServer providerErr) then PaymentIntentStateFailed
        else PaymentIntentStateUnknown
      else if kind == ProviderErrorRequiresAction then PaymentIntentStateRequiresAction
      else PaymentIntentStateUnknown
  end.

(** ** Balance arithmetic *)

Definition opposite (direction : LedgerDirection) : LedgerDirection :=
  if direction == LedgerDirectionCredit then LedgerDirectionDebit else LedgerDirectionCredit.

(** The signed amount of a movement. *)
Definition signed (direction : LedgerDirection) (amount : Z) : Z :=
  if direction == LedgerDirectionCredit then amount
  else if direction == LedgerDirectionDebit then - amount else 0.

Definition valid_direction (direction : LedgerDirection) : Prop :=
  direction = LedgerDirectionCredit ∨ direction = LedgerDirectionDebit.

Lemma ApplyBalance_ok current direction amount b :
  int64 current →
  ApplyBalance current direction amount = Ok b ↔
  0 < amount ∧ valid_direction direction ∧ b = current + signed direction amount ∧ int64 b.
Proof.
  intros Hc. unfold ApplyBalance, signed, valid_direction, int64, minInt64, maxInt64 in *. split.
  - intros H. split_guards H; simplify_eq; reflect_go; simplify_eq; simpl;
      (split_and!; [lia|tauto|lia..]).
  - intros (Ha & [-> | ->] & -> & Hb); simpl in *; replace (amount <=? 0) with false by lia.
    + rewrite Z.gtb_ltb. by replace (_ <? current) with false by lia.
    + by replace (current <? _) with false by lia.
Qed.

(** on [int64] balances, applying a movement succeeds exactly when the amount is
    positive, the direction known and the exact new balance fits [int64], which is
    then the result; nothing wraps, and the opposite movement restores the balance. *)
Theorem ApplyBalance_spec current direction amount b :
  int64 current →
  (ApplyBalance current direction amount = Ok b ↔
   0 < amount ∧ valid_direction direction ∧ b = current + signed direction amount ∧ int64 b) ∧
  (ApplyBalance current direction amount = Ok b →
   ApplyBalance b (opposite direction) amount = Ok current).
Proof.
  intros Hc. split; [by apply ApplyBalance_ok|].
  intros (Ha & Hd & -> & Hb)%ApplyBalance_ok; [|done].
  apply ApplyBalance_ok; [done|]. split_and!; try done.
  - destruct Hd as [-> | ->]; [by right|by left].
  - destruct Hd as [-> | ->]; unfold signed; simpl; lia.
Qed.

Lemma ApplyBalance_spec_witness :
  ApplyBalance 700 LedgerDirectionDebit 900 = Ok (-200) ∧
  ApplyBalance (-200) LedgerDirectionCredit 900 = Ok 700.
Proof.
  destruct (ApplyBalance_spec 700 LedgerDirectionDebit 900 (-200)) as [_ H]; [done|].
  split; [by vm_compute|]. apply H. by vm_compute.
Defined.

Lemma ValidateChargeAmount_ok currency amount :
  ValidateChargeAmount currency amount = Ok tt ↔ currency = TWD ∧ 0 < amount.
Proof.
  unfold ValidateChargeAmount, ValidateCurrency, CanSettle, Settlement. split.
  - intros H. split_guards H. reflect_go. split; [done|lia].
  - intros [-> Ha]. simpl. by replace (amount <=? 0) with false by lia.
Qed.

Lemma ValidateLedgerReason_direction direction reason :
  ValidateLedgerReason direction reason = Ok tt → valid_direction direction.
Proof.
  unfold ValidateLedgerReason, valid_direction.
  repeat case_bool_decide; intros ?; (by left) || (by right) || done.
Qed.

(** ** The auto top-up decision *)

Lemma ValidatePolicy_ok policy :
  ValidatePolicy policy = Ok tt →
  policy_Currency policy = TWD ∧ 0 < policy_ThresholdMinor policy ∧
  0 < policy_TopUpAmountMinor policy ≤ policy_DailyAmountLimitMinor policy ∧
  policy_PaymentMethodID policy ≠ "" ∧ policy_ConsentID policy ≠ "" ∧
  0 < policy_DailyAttemptLimit policy ≤ 10 ∧
  MinimumCooldownSeconds ≤ policy_CooldownSeconds policy ∧
  0 < policy_Generation policy ∧ 0 < policy_Version policy.
Proof.
  unfold ValidatePolicy. intros H. split_guards H.
  destruct (ValidateChargeAmount _ (policy_ThresholdMinor policy)) as [[]|] eqn:H1; [|done].
  destruct (ValidateChargeAmount _ (policy_TopUpAmountMinor policy)) as [[]|] eqn:H2; [|done].
  apply ValidateChargeAmount_ok in H1 as [? ?], H2 as [? ?]. reflect_go.
  split_and!; try done; lia.
Qed.

(** Every condition of the decision to charge, in plain arithmetic. *)
Record trigger_conditions (policy : AutoTopUpPolicy) (ev : PolicyEvaluation) : Prop := {
  tc_enabled : policy_Enabled policy = true;
  tc_armed : policy_Armed policy = true;
  tc_below : eval_BalanceMinor ev < policy_ThresholdMinor policy;
  tc_no_open : eval_HasOpenIntent ev = false;
  tc_method : eval_PaymentMethodStatus ev = PaymentMethodStatusActive;
  tc_capability : eval_MerchantInitiatedCharge ev = true;
  tc_cooldown : ∀ last, policy_LastTriggeredAt policy = Some last →
    last + policy_CooldownSeconds policy * Second ≤ eval_Now ev;
  tc_attempts : eval_AttemptsToday ev < policy_DailyAttemptLimit policy;
  tc_amount : eval_AutomaticAmountTodayMinor ev + policy_TopUpAmountMinor policy
              ≤ policy_DailyAmountLimitMinor policy
}.

Lemma EvaluateAutoTopUp_ok policy ev :
  ValidatePolicy policy = Ok tt → int64 (policy_DailyAmountLimitMinor policy) →
  int64 (policy_CooldownSeconds policy * Second) →
  decision_Trigger (EvaluateAutoTopUp policy ev) = true ↔ trigger_conditions policy ev.
Proof.
  intros Hv H64 Hcool. apply ValidatePolicy_ok in Hv as (_ & _ & Ha & _).
  unfold EvaluateAutoTopUp, cooldown_duration. rewrite wrap64_id by done.
  rewrite wrap64_id by (unfold int64, minInt64, maxInt64 in *; lia).
  split.
  - repeat match goal with
      | |- decision_Trigger (if ?c then _ else _) = true → _ => destruct c eqn:?; [done|]
      end.
    intros _. reflect_go. constructor; try done; try lia. intros last Hlast.
    rewrite Hlast in *. unfold Before, Add in *. lia.
  - intros [Hen Har Hb Ho Hm Hc Hl Hat Ham]. rewrite Hen, Har, Ho, Hm, Hc. simpl.
    rewrite Z.geb_leb, Z.gtb_ltb.
    replace (policy_ThresholdMinor policy <=? eval_BalanceMinor ev) with false by lia.
    replace (match policy_LastTriggeredAt policy with Some _ => _ | None => false end) with false.
    2: { destruct (policy_LastTriggeredAt policy) as [last|]; [|done].
         specialize (Hl last eq_refl). unfold Before, Add. lia. }
    rewrite Z.geb_leb.
    replace (policy_DailyAttemptLimit policy <=? eval_AttemptsToday ev) with false by lia.
    by replace (_ <? eval_AutomaticAmountTodayMinor ev) with false by lia.
Qed.

(** for a valid policy whose cooldown fits a [time.Duration], the decision is
    to charge exactly when every condition holds: enabled and armed, balance below
    the threshold, no open charge, a usable method, the cooldown elapsed, and both
    daily limits respected by the charge about to be made. *)
Theorem EvaluateAutoTopUp_trigger policy ev :
  ValidatePolicy policy = Ok tt → int64 (policy_DailyAmountLimitMinor policy) →
  int64 (policy_CooldownSeconds policy * Second) →
  decision_Trigger (EvaluateAutoTopUp policy ev) = true ↔ trigger_conditions policy ev.
Proof. apply EvaluateAutoTopUp_ok. Qed.

Definition example_policy (cooldown : Z) (last : option Time) : AutoTopUpPolicy :=
  mkAutoTopUpPolicy "pol" "acc" true 100 500 TWD "pm" 3 1500 cooldown 1 1 true 0 last None "con" 0 0.
Definition example_eval (now : Time) : PolicyEvaluation :=
  mkPolicyEvaluation 40 now 1 500 false PaymentMethodStatusActive true.

Lemma EvaluateAutoTopUp_trigger_witness :
  decision_Trigger (EvaluateAutoTopUp (example_policy 300 (Some 0)) (example_eval (300 * Second))) = true.
Proof.
  apply EvaluateAutoTopUp_trigger.
  - by vm_compute.
  - by vm_compute.
  - by vm_compute.
  - constructor; (done || intros last [= <-]; done).
Defined.

(** A cooldown beyond the range of [time.Duration] (292 years) passes validation, wraps
    to a negative duration, and no longer holds a charge back at all. *)
Lemma cooldown_wraps :
  let policy := example_policy 9223372037 (Some 1000) in
  ValidatePolicy policy = Ok tt ∧
  decision_Trigger (EvaluateAutoTopUp policy (example_eval 1000)) = true.
Proof. by vm_compute. Qed.

(** ** The state machine of an intent *)

Definition intent_step (from to : PaymentIntentState) : Prop :=
  ValidateIntentTransition from to = Ok tt.

Lemma intent_step_ok from to :
  intent_step from to ↔
  ValidIntentState from = true ∧ ValidIntentState to = true ∧ CanTransitionIntent from to = true.
Proof.
  unfold intent_step, ValidateIntentTransition.
  destruct (ValidIntentState from), (ValidIntentState to), (CanTransitionIntent from to);
    simpl; naive_solver.
Qed.

Lemma CanTransition_terminal from to :
  IntentStateTerminal from = true → CanTransitionIntent from to = true → to = from.
Proof.
  unfold IntentStateTerminal. rewrite !orb_true_iff, !bool_decide_eq_true.
  unfold CanTransitionIntent. intros [[-> | ->] | ->]; case_bool_decide; simpl; done.
Qed.

Lemma CanTransition_into_created from :
  CanTransitionIntent from PaymentIntentStateCreated = true → from = PaymentIntentStateCreated.
Proof. unfold CanTransitionIntent. repeat case_bool_decide; done. Qed.

Definition intent_states : list PaymentIntentState :=
  [PaymentIntentStateCreated; PaymentIntentStateProcessing; PaymentIntentStateAuthorized;
   PaymentIntentStateRequiresAction; PaymentIntentStateUnknown; PaymentIntentStateSucceeded;
   PaymentIntentStateFailed; PaymentIntentStateCanceled].

Lemma ValidIntentState_elem s : ValidIntentState s = true ↔ s ∈ intent_states.
Proof.
  unfold ValidIntentState, intent_states.
  rewrite !orb_true_iff, !bool_decide_eq_true, !elem_of_cons, elem_of_nil. tauto.
Qed.

(** C35: terminal states are final, no run returns to [created] once it has left it,
    validity is preserved, and an intent is never stuck: from every valid state that
    is not terminal it can still succeed, and can be canceled in one step. *)
Theorem intent_state_machine from to :
  rtc intent_step from to →
  (IntentStateTerminal from = true → to = from) ∧
  (to = PaymentIntentStateCreated → from = PaymentIntentStateCreated) ∧
  (ValidIntentState from = true → ValidIntentState to = true ∧
     (IntentStateTerminal to = true ∨
      rtc intent_step to PaymentIntentStateSucceeded ∧ intent_step to PaymentIntentStateCanceled)).
Proof.
  intros Hrun. split_and!.
  - intros Ht. induction Hrun as [|x y z Hs _ IH]; [done|].
    apply intent_step_ok in Hs as (_ & _ & Hs%CanTransition_terminal); [|done].
    subst y. by apply IH.
  - intros Hc. induction Hrun as [|x y z Hs _ IH]; [done|].
    rewrite (IH Hc) in Hs. apply intent_step_ok in Hs as (_ & _ & Hs).
    by apply CanTransition_into_created.
  - intros Hv. assert (ValidIntentState to = true) as Hto.
    { induction Hrun as [|x y z Hs _ IH]; [done|]. apply IH. by apply intent_step_ok in Hs as (_ & ? & _). }
    split; [done|]. apply ValidIntentState_elem in Hto. unfold intent_states in Hto.
    rewrite !elem_of_cons, elem_of_nil in Hto.
    assert (rtc intent_step PaymentIntentStateProcessing PaymentIntentStateSucceeded)
      by (apply rtc_once; by vm_compute).
    destruct_or? Hto; try done; subst to; try (by left); right;
      (split; [|by vm_compute]); first [by apply rtc_once; vm_compute | by econstructor; [|done]].
Qed.

Lemma intent_state_machine_witness :
  rtc intent_step PaymentIntentStateCreated PaymentIntentStateUnknown ∧
  rtc intent_step PaymentIntentStateUnknown PaymentIntentStateSucceeded.
Proof.
  assert (rtc intent_step PaymentIntentStateCreated PaymentIntentStateUnknown) as Hrun.
  { apply (rtc_l _ _ PaymentIntentStateProcessing); [by vm_compute|]. apply rtc_once. by vm_compute. }
  split; [exact Hrun|].
  destruct (intent_state_machine PaymentIntentStateCreated PaymentIntentStateUnknown Hrun)
    as (_ & _ & H).
  destruct (H eq_refl) as [_ [Hterm|[Hs _]]]; [discriminate Hterm|exact Hs].
Defined.

(** ** The daily window *)

Definition in_window (w : Time * Time) (t : Time) : Prop := w.1 ≤ t < w.2.

Lemma DailyLimitWindow_bounds now :
  (DailyLimitWindow now).1 = (now + dailyLimitLocation) / Day * Day - dailyLimitLocation ∧
  (DailyLimitWindow now).2 = (DailyLimitWindow now).1 + Day.
Proof.
  unfold DailyLimitWindow, UTC. simpl. rewrite Date_midnight, AddDate_days. split; [done|lia].
Qed.

(** the window of the daily limits is the 24 hours of the calendar day at UTC+8
    that contains the instant, and two instants share a window exactly when each is in
    the other's: the windows partition time, so no charge escapes the daily sums. *)
Theorem DailyLimitWindow_partition now other :
  in_window (DailyLimitWindow now) now ∧
  (DailyLimitWindow now).2 - (DailyLimitWindow now).1 = 24 * Hour ∧
  ((DailyLimitWindow now).1 + 8 * Hour) mod (24 * Hour) = 0 ∧
  (in_window (DailyLimitWindow now) other ↔ DailyLimitWindow other = DailyLimitWindow now).
Proof.
  destruct (DailyLimitWindow_bounds now) as [H1 H2].
  destruct (DailyLimitWindow_bounds other) as [H3 H4]. unfold in_window.
  assert (0 < Day) as Hday by done. change (24 * Hour) with Day.
  change (8 * Hour) with dailyLimitLocation.
  pose proof (Z.div_mod (now + dailyLimitLocation) Day) as Hdn.
  pose proof (Z.mod_pos_bound (now + dailyLimitLocation) Day) as Hbn.
  pose proof (Z.div_mod (other + dailyLimitLocation) Day) as Hdo.
  pose proof (Z.mod_pos_bound (other + dailyLimitLocation) Day) as Hbo.
  split_and!; try lia.
  - rewrite H1, Z.sub_add. apply Z.mod_mul. lia.
  - split.
    + rewrite H2, H1. intros Hin.
      assert ((other + dailyLimitLocation) / Day = (now + dailyLimitLocation) / Day) as Heq by nia.
      destruct (DailyLimitWindow other), (DailyLimitWindow now); simpl in *. f_equal; lia.
    + intros Heq. rewrite <- Heq. lia.
Qed.

(** ** What the providers return *)

(** The characters a stored provider code may have. *)
Definition safe_code (s : string) : Prop := forallb code_char (bytes_of s) = true ∧ len s ≤ 64.

Lemma code_char_not_space c : code_char c = true → space1 c = false ∧ (c < 194)%N.
Proof.
  unfold code_char, space1. cbn [existsb]. intros H.
  rewrite !orb_true_iff, !andb_true_iff, !N.eqb_eq, !N.leb_le in H.
  rewrite !orb_false_iff, !N.eqb_neq. lia.
Qed.

Lemma high_not_space2 a b : (a < 194)%N → space2 a b = false.
Proof. intros ?. unfold space2. by replace (N.eqb a 194) with false by (symmetry; apply N.eqb_neq; lia). Qed.

Lemma high_not_space3 a b c : (a < 194)%N → space3 a b c = false.
Proof.
  intros ?. unfold space3.
  replace (N.eqb a 225) with false by (symmetry; apply N.eqb_neq; lia).
  replace (N.eqb a 226) with false by (symmetry; apply N.eqb_neq; lia).
  by replace (N.eqb a 227) with false by (symmetry; apply N.eqb_neq; lia).
Qed.

Lemma code_char_ascii c : code_char c = true → (c < 128)%N.
Proof.
  unfold code_char. rewrite !orb_true_iff, !andb_true_iff, !N.eqb_eq, !N.leb_le. lia.
Qed.

Lemma low_not_space2 a b : (b < 128)%N → space2 a b = false.
Proof.
  intros ?. unfold space2.
  replace (N.eqb b 133) with false by (symmetry; apply N.eqb_neq; lia).
  replace (N.eqb b 160) with false by (symmetry; apply N.eqb_neq; lia). by rewrite andb_false_r.
Qed.

Lemma low_not_space3 a b c : (c < 128)%N → space3 a b c = false.
Proof.
  intros ?. unfold space3.
  replace (N.eqb c 128) with false by (symmetry; apply N.eqb_neq; lia).
  replace (N.leb 128 c) with false by (symmetry; apply N.leb_gt; lia).
  replace (N.eqb c 168) with false by (symmetry; apply N.eqb_neq; lia).
  replace (N.eqb c 169) with false by (symmetry; apply N.eqb_neq; lia).
  replace (N.eqb c 175) with false by (symmetry; apply N.eqb_neq; lia).
  replace (N.eqb c 159) with false by (symmetry; apply N.eqb_neq; lia).
  by rewrite !andb_false_r.
Qed.

Lemma trim_left_safe a l : code_char a = true → trim_left (a :: l) = a :: l.
Proof.
  intros [Hs Ha]%code_char_not_space. destruct l as [|b [|c l]]; simpl; rewrite Hs; [done|..];
    rewrite ?high_not_space2, ?high_not_space3 by done; done.
Qed.

Lemma trim_left_rev_safe a l : code_char a = true → trim_left_rev (a :: l) = a :: l.
Proof.
  intros Hc. pose proof (code_char_ascii _ Hc). destruct (code_char_not_space _ Hc) as [Hs _].
  destruct l as [|b [|c l]]; simpl; rewrite Hs; [done|..];
    rewrite ?low_not_space2, ?low_not_space3 by done; done.
Qed.

Lemma of_bytes_of s : of_bytes (bytes_of s) = s.
Proof.
  unfold of_bytes, bytes_of. rewrite <- list_fmap_compose.
  rewrite (list_fmap_ext _ id), list_fmap_id; [apply String.string_of_list_ascii_of_string|].
  intros i c _. apply Ascii.ascii_N_embedding.
Qed.

(** Trimming does nothing to such a code. *)
Lemma TrimSpace_safe s : forallb code_char (bytes_of s) = true → TrimSpace s = s.
Proof.
  intros Hs. unfold TrimSpace. transitivity (of_bytes (bytes_of s)); [|apply of_bytes_of].
  f_equal. generalize dependent (bytes_of s). intros l Hl.
  assert (trim_left l = l) as ->.
  { destruct l as [|a l]; [done|]. simpl in Hl. apply andb_true_iff in Hl as [Ha _].
    by apply trim_left_safe. }
  transitivity (rev (rev l)); [|apply rev_involutive]. f_equal.
  assert (forallb code_char (rev l) = true) as Hr.
  { apply forallb_forall. intros x Hx. rewrite forallb_forall in Hl. apply Hl. by apply in_rev. }
  destruct (rev l) as [|a l'] eqn:E; [done|]. simpl in Hr. apply andb_true_iff in Hr as [Ha _].
  by apply trim_left_rev_safe.
Qed.

Lemma len_str_take n s : len (str_take n s) ≤ Z.of_nat n.
Proof.
  unfold len, str_take. revert s. induction n as [|n IH]; intros [|c s]; simpl; try lia.
  specialize (IH s). lia.
Qed.

Lemma NormalizeProviderCode_safe code : safe_code (NormalizeProviderCode code).
Proof.
  unfold NormalizeProviderCode. cbv zeta. set (s := if len _ >? 64 then _ else _).
  destruct (forallb code_char (bytes_of s)) eqn:E; [|by vm_compute].
  split; [done|]. subst s. case_match; reflect_go; [|lia]. pose proof (len_str_take 64 (TrimSpace code)). lia.
Qed.

(** whatever text a provider returns as an error code, what is stored is at most
    64 characters of the alphabet [A-Za-z0-9._-]: neither control characters nor
    personal data in other alphabets get through, a code already in that form is
    kept unchanged, and normalising twice is normalising once. *)
Theorem NormalizeProviderCode_spec code :
  safe_code (NormalizeProviderCode code) ∧
  (safe_code code → NormalizeProviderCode code = code) ∧
  NormalizeProviderCode (NormalizeProviderCode code) = NormalizeProviderCode code.
Proof.
  assert (∀ s, safe_code s → NormalizeProviderCode s = s) as Hid.
  { intros s [Hs Hl]. unfold NormalizeProviderCode. rewrite TrimSpace_safe by done. cbv zeta.
    replace (len s >? 64) with false by lia. by rewrite Hs. }
  pose proof (NormalizeProviderCode_safe code). auto.
Qed.

(** an error of the provider never completes an intent that may have reached
    the provider, never succeeds one, and always yields a state that a processing
    intent can enter. *)
Theorem StateForProviderError_spec err :
  let state := StateForProviderError err in
  intent_step PaymentIntentStateProcessing state ∧
  (IntentStateTerminal state = true → state = PaymentIntentStateFailed ∧
     ∃ e, err = Some e ∧ perr_MayHaveReachedServer e = false) ∧
  (err = None → state = PaymentIntentStateUnknown).
Proof.
  unfold StateForProviderError. destruct err as [e|]; [|by vm_compute].
  destruct (perr_MayHaveReachedServer e) eqn:E; simpl;
    repeat case_match; (split_and!; [by vm_compute| |done]); vm_compute; (done || eauto).
Qed.
