(* ===== verification/Database.v ===== *)
(** * The settlement database

    The tables of [migrations/] that the payment store reads and writes, as lists of
    rows in insertion order, with what PostgreSQL enforces on each write: unique
    indexes, CHECK constraints, the [set_updated_at] triggers and the barrier
    triggers of ownership handoffs and cloud closures.  A row is the Go struct its
    [scan] function fills; an optional text column is [""] when NULL, as the structs
    have it.

    A statement that fails aborts its transaction, and the store returns at once on
    every error but the ones it tests with [errors.Is], which only reads raise; so a
    computation is a function from the database to a result and a new database, and
    an error carries no database: the deferred [Rollback] drops it.  Each operation
    locks the account row (or the job row) it works on before it reads anything it
    depends on, so operations on the same rows are serialised: one operation is one
    step.  Failures of the connection itself, and malformed UUIDs, are not modelled. *)
From S2P Require Import Prelude GoStrings GoTime BillingTypes Evidence PaymentTypes Payment.

(** ** External values

    [gen_random_uuid()] (the text of the [n]-th value drawn), the encoding of a
    [time.Time] as a [timestamptz] by the driver, and the test of [pgtype.UUID] that a
    text is the canonical form of a UUID. *)
Class Postgres := {
  pg_uuid : nat → string;
  pg_time : Time → Time;
  pg_valid_uuid : string → bool
}.

(** ** Rows without a Go struct of their own *)

Record MethodRow := mkMethodRow {
  mrow_method : PaymentMethod;
  mrow_customer_ref : string;     (* provider_customer_ref_ciphertext *)
  mrow_method_ref : string;       (* provider_method_ref_ciphertext *)
  mrow_ref_sha256 : string
}.
#[export] Instance MethodRow_eq_dec : EqDecision MethodRow.
Proof. solve_decision. Defined.

Record WebhookReceipt := mkWebhookReceipt {
  receipt_ID : string;
  receipt_Provider : string;
  receipt_ProviderEventReference : string;
  receipt_PayloadSHA256 : string;
  receipt_VerificationResult : string;
  receipt_IntentID : string;
  receipt_NormalizedEventType : string;
  receipt_ProcessingState : string;
  receipt_SafeSummary : list (string * string);
  receipt_ReceivedAt : Time;
  receipt_ProcessedAt : option Time;
  receipt_CreatedAt : Time;
  receipt_UpdatedAt : Time
}.

Record TopUpEmailRow := mkTopUpEmailRow {
  email_IntentID : string;
  email_OrganizationID : string;
  email_RecipientEmail : string;
  email_RecipientName : string;
  email_AmountMinor : Z;
  email_Currency : Currency;
  email_Provider : string;
  email_PaymentCreatedAt : Time;
  email_PaymentCompletedAt : Time;
  email_Status : string;
  email_AttemptCount : Z;
  email_AvailableAt : Time;
  email_LeaseUntil : option Time;
  email_SentAt : option Time
}.

Record ResponsibilityPeriod := mkResponsibilityPeriod {
  period_ID : string;
  period_AccountID : string;
  period_OwnerUserID : string;
  period_OwnershipVersion : Z;
  period_EffectiveFrom : Time;
  period_EffectiveUntil : option Time;
  period_Evidence : string;
  period_Opening : option (string * Z)   (* opening_operation_id, opening_balance_minor *)
}.
#[export] Instance ResponsibilityPeriod_eq_dec : EqDecision ResponsibilityPeriod.
Proof. solve_decision. Defined.
#[export] Instance ResponsibilityPeriod_eta : Eta ResponsibilityPeriod := fun p => {|
  period_ID := period_ID p; period_AccountID := period_AccountID p;
  period_OwnerUserID := period_OwnerUserID p; period_OwnershipVersion := period_OwnershipVersion p;
  period_EffectiveFrom := period_EffectiveFrom p; period_EffectiveUntil := period_EffectiveUntil p;
  period_Evidence := period_Evidence p; period_Opening := period_Opening p |}.

(** [billing_payment_responsibility] and [billing_payment_method_responsibility]. *)
Record PeriodBinding := mkPeriodBinding {
  binding_RecordID : string;
  binding_AccountID : string;
  binding_PeriodID : string;
  binding_Evidence : string
}.

(** [payment_method_setup_sessions], with the two columns its struct leaves out. *)
Record PaymentMethodSetupSession := mkPaymentMethodSetupSession {
  setup_ID : string;
  setup_AccountID : string;
  setup_Provider : string;
  setup_IdempotencyKey : string;
  setup_RequestSHA256 : string;
  setup_CorrelationID : string;
  setup_PaymentMethodID : string;
  setup_State : PaymentIntentState;
  setup_ProviderCode : string;
  setup_HostedURLSHA256 : string;
  setup_CreatedAt : Time;
  setup_UpdatedAt : Time;
  setup_InvalidatedByHandoff : string;
  setup_InvalidatedByClosure : string
}.
#[export] Instance PaymentMethodSetupSession_eq_dec : EqDecision PaymentMethodSetupSession.
Proof. solve_decision. Defined.

#[export] Instance PaymentMethodSetupSession_eta : Eta PaymentMethodSetupSession := fun s => {|
  setup_ID := setup_ID s; setup_AccountID := setup_AccountID s; setup_Provider := setup_Provider s;
  setup_IdempotencyKey := setup_IdempotencyKey s; setup_RequestSHA256 := setup_RequestSHA256 s;
  setup_CorrelationID := setup_CorrelationID s; setup_PaymentMethodID := setup_PaymentMethodID s;
  setup_State := setup_State s; setup_ProviderCode := setup_ProviderCode s;
  setup_HostedURLSHA256 := setup_HostedURLSHA256 s; setup_CreatedAt := setup_CreatedAt s;
  setup_UpdatedAt := setup_UpdatedAt s; setup_InvalidatedByHandoff := setup_InvalidatedByHandoff s;
  setup_InvalidatedByClosure := setup_InvalidatedByClosure s |}.

(** [billing_handoff_setup_observations]. *)
Record SetupObservation := mkSetupObservation {
  observation_SessionID : string;
  observation_ResultSHA256 : string;
  observation_ProviderState : string
}.

(** [billing_provider_reversal_events], [.._allocations] and [.._reviews]. *)
Record ReversalEvent := mkReversalEvent {
  event_ID : string;
  event_AccountID : string;
  event_Provider : string;
  event_EventReference : string;
  event_OriginalIntentID : string;
  event_AmountMinor : Z;
  event_Currency : Currency;
  event_Reason : LedgerReason;
  event_RequestSHA256 : string;
  event_ProviderPayloadSHA256 : string;
  event_RequestID : string
}.

Record ReversalAllocation := mkReversalAllocation {
  alloc_EventID : string;
  alloc_AccountID : string;
  alloc_PeriodID : string;
  alloc_Disposition : string;
  alloc_LedgerEntryID : string;
  alloc_Evidence : string
}.

Record ReversalReview := mkReversalReview {
  review_EventID : string;
  review_ReasonCode : string
}.

Record OwnershipHandoff := mkOwnershipHandoff {
  handoff_ID : string;
  handoff_AccountID : string;
  handoff_SourcePeriodID : string;
  handoff_SourceUserID : string;
  handoff_TargetUserID : string;
  handoff_OwnershipVersion : Z;
  handoff_Cutoff : Time;
  handoff_Phase : string;
  handoff_Version : Z;
  handoff_CreatedAt : Time;
  handoff_RequestSHA256 : string
}.
#[export] Instance OwnershipHandoff_eta : Eta OwnershipHandoff := fun h => {|
  handoff_ID := handoff_ID h; handoff_AccountID := handoff_AccountID h;
  handoff_SourcePeriodID := handoff_SourcePeriodID h; handoff_SourceUserID := handoff_SourceUserID h;
  handoff_TargetUserID := handoff_TargetUserID h; handoff_OwnershipVersion := handoff_OwnershipVersion h;
  handoff_Cutoff := handoff_Cutoff h; handoff_Phase := handoff_Phase h;
  handoff_Version := handoff_Version h; handoff_CreatedAt := handoff_CreatedAt h;
  handoff_RequestSHA256 := handoff_RequestSHA256 h |}.

(** The coordinator's grant to commit an ownership, and its recorded decision. *)
Record HandoffCommitAuthorization := mkHandoffCommitAuthorization {
  auth_OperationID : string;
  auth_AuthorizationID : string;
  auth_SnapshotVersion : Z;
  auth_CreatedAt : Time;
  auth_RequestSHA256 : string;
  auth_StateSHA256 : string
}.

Record HandoffDecision := mkHandoffDecision {
  decision_OperationID : string;
  decision_RequestSHA256 : string;
  decision_AMCommitSHA256 : string;
  decision_OwnershipVersion : Z;
  decision_CommittedAt : Time
}.

(** ** Tables of the handoff protocol

    A [FinancialEvidence] is stored as JSON and read back: its fields are integers,
    texts and truth values, which JSON keeps. *)
Record SettlementReceipt := mkSettlementReceipt {
  settle_ID : string;
  settle_OperationID : string;
  settle_OperationVersion : Z;
  settle_RequestSHA256 : string;
  settle_StateSHA256 : string;
  settle_UsageCheckpointSHA256 : string;
  settle_InvoiceCheckpointSHA256 : string;
  settle_ProviderCheckpointSHA256 : string;
  settle_Evidence : FinancialEvidence
}.

Record BalanceSnapshot := mkBalanceSnapshot {
  snap_OperationID : string;
  snap_Version : Z;
  snap_ReceiptID : string;
  snap_BalanceMinor : Z;
  snap_Currency : Currency;
  snap_Cutoff : Time
}.

Record HandoffConfirmation := mkHandoffConfirmation {
  confirm_OperationID : string;
  confirm_SnapshotVersion : Z;
  confirm_UserID : string
}.

Record HandoffFinalization := mkHandoffFinalization {
  final_OperationID : string;
  final_RequestSHA256 : string;
  final_AMCommitSHA256 : string;
  final_OwnershipVersion : Z;
  final_CommittedAt : Time
}.

Record HandoffCancellation := mkHandoffCancellation {
  hcancel_OperationID : string;
  hcancel_CancellationID : string;
  hcancel_RequestSHA256 : string;
  hcancel_AMCancellationSHA256 : string
}.

Record HandoffAbortAck := mkHandoffAbortAck {
  abort_OperationID : string;
  abort_HoldReleaseSHA256 : string
}.

Record RetiredProfile := mkRetiredProfile {
  retired_OperationID : string;
  retired_SourcePeriodID : string;
  retired_Profile : BillingProfile
}.

Record HandoffTables := mkHandoffTables {
  ht_receipts : list SettlementReceipt;
  ht_snapshots : list BalanceSnapshot;
  ht_confirmations : list HandoffConfirmation;
  ht_finalizations : list HandoffFinalization;
  ht_cancellations : list HandoffCancellation;
  ht_abort_acks : list HandoffAbortAck;
  ht_retired_profiles : list RetiredProfile
}.
#[export] Instance HandoffTables_eta : Eta HandoffTables := fun t => {|
  ht_receipts := ht_receipts t; ht_snapshots := ht_snapshots t;
  ht_confirmations := ht_confirmations t; ht_finalizations := ht_finalizations t;
  ht_cancellations := ht_cancellations t; ht_abort_acks := ht_abort_acks t;
  ht_retired_profiles := ht_retired_profiles t |}.

(** ** Tables of the cloud closure protocol *)
Record CloudClosure := mkCloudClosure {
  closure_ID : string;
  closure_AccountID : string;
  closure_OwnerUserID : string;
  closure_OwnershipVersion : Z;
  closure_Cutoff : Time;
  closure_Phase : string;
  closure_Version : Z;
  closure_CreatedAt : Time;
  closure_SourcePeriodID : string;
  closure_RequestSHA256 : string;
  closure_AMRequestSHA256 : string
}.
#[export] Instance CloudClosure_eta : Eta CloudClosure := fun c => {|
  closure_ID := closure_ID c; closure_AccountID := closure_AccountID c;
  closure_OwnerUserID := closure_OwnerUserID c;
  closure_OwnershipVersion := closure_OwnershipVersion c; closure_Cutoff := closure_Cutoff c;
  closure_Phase := closure_Phase c; closure_Version := closure_Version c;
  closure_CreatedAt := closure_CreatedAt c; closure_SourcePeriodID := closure_SourcePeriodID c;
  closure_RequestSHA256 := closure_RequestSHA256 c;
  closure_AMRequestSHA256 := closure_AMRequestSHA256 c |}.

Record ClosureTask := mkClosureTask {
  task_OperationID : string;
  task_SubjectType : string;
  task_SubjectID : string
}.
#[export] Instance ClosureTask_eq_dec : EqDecision ClosureTask.
Proof. solve_decision. Defined.

Record ClosureAck := mkClosureAck { ack_Task : ClosureTask; ack_ReceiptSHA256 : string }.

Record ClosureSettlement := mkClosureSettlement {
  csettle_ID : string;
  csettle_OperationID : string;
  csettle_RequestSHA256 : string;
  csettle_StateSHA256 : string;
  csettle_Evidence : FinancialEvidence;
  csettle_UsageCheckpointSHA256 : string;
  csettle_InvoiceCheckpointSHA256 : string;
  csettle_ProviderCheckpointSHA256 : string;
  csettle_CoveredThrough : Time;
  csettle_ObservedAt : Time;
  csettle_ExpiresAt : Time;
  csettle_CreatedAt : Time
}.

Record ClosureCompletion := mkClosureCompletion {
  completion_OperationID : string;
  completion_SettlementID : string;
  completion_AMReadinessSHA256 : string;
  completion_RequestSHA256 : string;
  completion_ReceiptSHA256 : string;
  completion_ClosedAt : Time
}.

Record ClosureCancellation := mkClosureCancellation {
  ccancel_OperationID : string;
  ccancel_CancellationID : string;
  ccancel_AMCancellationSHA256 : string
}.

Record ClosureRelease := mkClosureRelease {
  release_OperationID : string;
  release_ReceiptSHA256 : string
}.

Record RetiredCommand := mkRetiredCommand {
  rcommand_OperationID : string;
  rcommand_RequestSHA256 : string;
  rcommand_SettlementID : string;
  rcommand_AMReadinessSHA256 : string;
  rcommand_ReceiptSHA256 : string;
  rcommand_RetiredAt : Time
}.

Record AccessState := mkAccessState {
  access_OrganizationID : string;
  access_State : string;
  access_ReasonCode : string;
  access_Version : Z;
  access_UpdatedBy : string
}.

Record CreationReceipt := mkCreationReceipt {
  creation_EventID : string;
  creation_OrganizationID : string;
  creation_AccountID : string;
  creation_OwnerUserID : string;
  creation_OwnershipVersion : Z;
  creation_OccurredAt : Time;
  creation_EvidenceSHA256 : string
}.

Record PreflightReceipt := mkPreflightReceipt {
  preflight_ID : string;
  preflight_AccountID : string;
  preflight_OwnerUserID : string;
  preflight_OwnershipVersion : Z;
  preflight_RequestSHA256 : string;
  preflight_StateSHA256 : string;
  preflight_UsageCheckpointSHA256 : string;
  preflight_InvoiceCheckpointSHA256 : string;
  preflight_ProviderCheckpointSHA256 : string;
  preflight_Evidence : FinancialEvidence;
  preflight_ObservedAt : Time;
  preflight_ExpiresAt : Time;
  preflight_CreatedAt : Time
}.

Record ClosureTables := mkClosureTables {
  ct_acks : list ClosureAck;
  ct_settlements : list ClosureSettlement;
  ct_completions : list ClosureCompletion;
  ct_cancellations : list ClosureCancellation;
  ct_releases : list ClosureRelease;
  ct_retired : list RetiredCommand;
  ct_access : list AccessState;
  ct_creations : list CreationReceipt;
  ct_preflights : list PreflightReceipt
}.
#[export] Instance ClosureTables_eta : Eta ClosureTables := fun t => {|
  ct_acks := ct_acks t; ct_settlements := ct_settlements t; ct_completions := ct_completions t;
  ct_cancellations := ct_cancellations t; ct_releases := ct_releases t; ct_retired := ct_retired t;
  ct_access := ct_access t; ct_creations := ct_creations t; ct_preflights := ct_preflights t |}.

(** ** Tables of the billing store *)
Record BillingPeriod := mkBillingPeriod {
  bperiod_ID : string;
  bperiod_OrganizationID : string;
  bperiod_Currency : Code;
  bperiod_Start : Time;
  bperiod_End : Time;
  bperiod_State : string;
  bperiod_PricingVersionID : string;
  bperiod_UsageLockedAt : option Time;
  bperiod_ClosedAt : option Time;
  bperiod_CloseErrorCode : string;
  bperiod_Version : Z;
  bperiod_CreatedAt : Time;
  bperiod_UpdatedAt : Time
}.
#[export] Instance BillingPeriod_eta : Eta BillingPeriod := fun p => {|
  bperiod_ID := bperiod_ID p; bperiod_OrganizationID := bperiod_OrganizationID p;
  bperiod_Currency := bperiod_Currency p; bperiod_Start := bperiod_Start p;
  bperiod_End := bperiod_End p; bperiod_State := bperiod_State p;
  bperiod_PricingVersionID := bperiod_PricingVersionID p;
  bperiod_UsageLockedAt := bperiod_UsageLockedAt p; bperiod_ClosedAt := bperiod_ClosedAt p;
  bperiod_CloseErrorCode := bperiod_CloseErrorCode p; bperiod_Version := bperiod_Version p;
  bperiod_CreatedAt := bperiod_CreatedAt p; bperiod_UpdatedAt := bperiod_UpdatedAt p |}.

Record UsageRow := mkUsageRow { urow_Fact : UsageFact; urow_CreatedAt : Time }.

Record LineRow := mkLineRow { lrow_InvoiceID : string; lrow_Line : InvoiceLine }.

Record SettlementLink := mkSettlementLink {
  link_InvoiceID : string;
  link_LedgerEntryID : string;
  link_State : string;
  link_AttemptCount : Z;
  link_UpdatedAt : Time
}.

Record DocumentRow := mkDocumentRow {
  drow_InvoiceID : string;
  drow_Document : InvoiceDocument;
  drow_Bytes : string
}.

Record ActivityEvent := mkActivityEvent {
  activity_ID : string;
  activity_OrganizationID : string;
  activity_CustomerReference : string;
  activity_Type : string;
  activity_State : string;
  activity_AmountMinor : Z;
  activity_Currency : Code;
  activity_BalanceEffect : string;
  activity_Action : string;
  activity_MessageKey : string;
  activity_ResourceType : string;
  activity_ResourceID : string;
  activity_RetryScheduled : bool;
  activity_NextRetryAt : option Time;
  activity_OccurredAt : Time;
  activity_UpdatedAt : Time
}.

Record PricingVersion := mkPricingVersion {
  pricing_ID : string;
  pricing_PlanKey : string;
  pricing_Version : Z;
  pricing_Currency : Code;
  pricing_Status : string;
  pricing_EffectiveFrom : Time;
  pricing_EffectiveUntil : option Time;
  pricing_ActivatedAt : option Time;
  pricing_CreatedAt : Time;
  pricing_TaxMode : TaxCalculationMode;
  pricing_InvoiceTaxRateBasisPoints : option Z;
  pricing_InvoiceTaxRoundingMode : RoundingMode;
  pricing_InvoiceTaxCategory : string;
  pricing_Rates : list PricingRate
}.
#[export] Instance PricingVersion_eta : Eta PricingVersion := fun v => {|
  pricing_ID := pricing_ID v; pricing_PlanKey := pricing_PlanKey v;
  pricing_Version := pricing_Version v; pricing_Currency := pricing_Currency v;
  pricing_Status := pricing_Status v; pricing_EffectiveFrom := pricing_EffectiveFrom v;
  pricing_EffectiveUntil := pricing_EffectiveUntil v; pricing_ActivatedAt := pricing_ActivatedAt v;
  pricing_CreatedAt := pricing_CreatedAt v; pricing_TaxMode := pricing_TaxMode v;
  pricing_InvoiceTaxRateBasisPoints := pricing_InvoiceTaxRateBasisPoints v;
  pricing_InvoiceTaxRoundingMode := pricing_InvoiceTaxRoundingMode v;
  pricing_InvoiceTaxCategory := pricing_InvoiceTaxCategory v; pricing_Rates := pricing_Rates v |}.

(** [ota_pricing_drafts] and [ota_pricing_publications]. *)
Record PricingDraft := mkPricingDraft {
  draft_PricingVersionID : string;
  draft_BaseVersionID : string;
  draft_RateSetSHA256 : string;
  draft_ScopeCode : string;
  draft_EffectiveFrom : Time
}.

Record PricingPublication := mkPricingPublication {
  publication_PricingVersionID : string;
  publication_BaseVersionID : string;
  publication_RateSetSHA256 : string;
  publication_FirstReviewer : string;
  publication_SecondReviewer : string;
  publication_ApprovedAt : Time;
  publication_PublishedAt : Time;
  publication_EffectiveFrom : Time
}.

(** ** External encodings and digests

    The values a struct or a map is marshalled from. *)
Inductive json_value :=
  | JString (s : string)
  | JNumber (z : Z)
  | JBool (b : bool)
  | JTime (t : Time)
  | JObject (fields : list (string * json_value))
  | JArray (items : list json_value)
  | JNull.

(** [ota_period_seals]: the source's attestation of one month. *)
Record OTAPeriodSeal := mkOTAPeriodSeal {
  seal_OrganizationID : string;
  seal_PeriodStart : Time;
  seal_PeriodEnd : Time;
  seal_IssuerKind : string;
  seal_SealID : string;
  seal_SourceHighWater : json_value;
  seal_ProductIDs : option (list string);
  seal_MetricCounts : option (list (string * Z));
  seal_FactSetSHA256 : option string;
  seal_SourceSHA256 : string;
  seal_SealedAt : Time
}.
#[export] Instance OTAPeriodSeal_eta : Eta OTAPeriodSeal := fun s => {|
  seal_OrganizationID := seal_OrganizationID s; seal_PeriodStart := seal_PeriodStart s;
  seal_PeriodEnd := seal_PeriodEnd s; seal_IssuerKind := seal_IssuerKind s;
  seal_SealID := seal_SealID s; seal_SourceHighWater := seal_SourceHighWater s;
  seal_ProductIDs := seal_ProductIDs s; seal_MetricCounts := seal_MetricCounts s;
  seal_FactSetSHA256 := seal_FactSetSHA256 s; seal_SourceSHA256 := seal_SourceSHA256 s;
  seal_SealedAt := seal_SealedAt s |}.

Record SealRow := mkSealRow { srow_Seal : OTAPeriodSeal; srow_ContentSHA256 : string }.

Record BillingTables := mkBillingTables {
  bt_usage : list UsageRow;
  bt_periods : list BillingPeriod;
  bt_invoices : list Invoice;      (* without lines, document and settlement *)
  bt_lines : list LineRow;
  bt_links : list SettlementLink;
  bt_documents : list DocumentRow;
  bt_activities : list ActivityEvent;
  bt_versions : list PricingVersion;   (* without rates *)
  bt_rates : list PricingRate;
  bt_drafts : list PricingDraft;
  bt_publications : list PricingPublication;
  bt_seals : list SealRow;
  bt_invoice_seq : Z               (* billing_invoice_number_seq *)
}.
#[export] Instance BillingTables_eta : Eta BillingTables := fun t => {|
  bt_usage := bt_usage t; bt_periods := bt_periods t; bt_invoices := bt_invoices t;
  bt_lines := bt_lines t; bt_links := bt_links t; bt_documents := bt_documents t;
  bt_activities := bt_activities t; bt_versions := bt_versions t; bt_rates := bt_rates t;
  bt_drafts := bt_drafts t; bt_publications := bt_publications t;
  bt_seals := bt_seals t; bt_invoice_seq := bt_invoice_seq t |}.

(** What the [jsonb_build_object] of [captureSettlementStateTx] is built from: the
    account, and the selected columns of the rows that belong to it, in their order. *)
Record SettlementView := mkSettlementView {
  view_account : string * Z * Z * Currency * AccountState;
  view_usage : list UsageRow;
  view_periods : list (string * string * Z * Time * Time * option Time * option Time * string);
  view_invoices : list (string * InvoiceState * Z * Z * Z * Z * string);
  view_settlements : list (string * string * string * Z);
  view_intents : list (string * PaymentIntentState * Z * Currency * Time);
  view_jobs : list (string * string * ReconciliationReason * ReconciliationStatus);
  view_attempts : list (string * string * ProviderOperation * string * option Time);
  view_setups : list (string * PaymentIntentState * string * Time);
  view_observations : list (string * string);
  view_webhooks : list (string * string * string * string);
  view_unresolved : list (string * string * string)
}.

(** The JSON text of a value ([json.Marshal]), the text of a [jsonb], the text of a
    settlement view, and SHA-256 in hexadecimal: only that they are functions is used. *)
Class Digest := {
  json_text : json_value → string;
  jsonb_text : json_value → string;
  settlement_text : SettlementView → string;
  sha256_hex : string → string
}.

Section digest.
Context {dg : Digest}.

Definition handoffDigest (fields : list (string * json_value)) : string :=
  sha256_hex (json_text (JObject fields)).

Definition settlement_sha256 (v : SettlementView) : string := sha256_hex (settlement_text v).

Definition newline : string := String (Ascii.ascii_of_nat 10) "".

(** One [encoder.Encode] per text: its JSON, and a newline. *)
Definition collectorCheckpoint (domain : string) (fields : list string) : string :=
  sha256_hex (String.concat "" ((fun f => json_text (JString f) +:+ newline) <$> (domain :: fields))).
End digest.

(** ** The database *)
Record Db := mkDb {
  db_accounts : list CommercialAccount;
  db_entries : list LedgerEntry;
  db_consents : list PaymentConsent;
  db_methods : list MethodRow;
  db_policies : list AutoTopUpPolicy;
  db_intents : list PaymentIntent;
  db_attempts : list PaymentAttempt;
  db_jobs : list ReconciliationJob;
  db_receipts : list WebhookReceipt;
  db_emails : list TopUpEmailRow;
  db_periods : list ResponsibilityPeriod;
  db_intent_periods : list PeriodBinding;
  db_method_periods : list PeriodBinding;
  db_handoffs : list OwnershipHandoff;
  db_commit_authorizations : list HandoffCommitAuthorization;
  db_committed_decisions : list HandoffDecision;
  db_closures : list CloudClosure;
  db_closure_revocations : list ClosureTask;
  db_setups : list PaymentMethodSetupSession;
  db_observations : list SetupObservation;
  db_reversals : list ReversalEvent;
  db_allocations : list ReversalAllocation;
  db_reviews : list ReversalReview;
  db_profiles : list BillingProfile;
  db_handoff : HandoffTables;
  db_closure : ClosureTables;
  db_billing : BillingTables;
  db_serial : nat;                          (* UUIDs drawn *)
  db_now : Time;                            (* now() of the transaction *)
  db_wall : list Time;                      (* what clock_timestamp() will show next *)
  db_clock : Time                           (* time.Now() of the process *)
}.

#[export] Instance Db_eta : Eta Db := fun d => {|
  db_accounts := db_accounts d; db_entries := db_entries d; db_consents := db_consents d;
  db_methods := db_methods d; db_policies := db_policies d; db_intents := db_intents d;
  db_attempts := db_attempts d; db_jobs := db_jobs d; db_receipts := db_receipts d;
  db_emails := db_emails d; db_periods := db_periods d;
  db_intent_periods := db_intent_periods d; db_method_periods := db_method_periods d;
  db_handoffs := db_handoffs d; db_commit_authorizations := db_commit_authorizations d;
  db_committed_decisions := db_committed_decisions d; db_closures := db_closures d;
  db_closure_revocations := db_closure_revocations d; db_setups := db_setups d;
  db_observations := db_observations d; db_reversals := db_reversals d;
  db_allocations := db_allocations d; db_reviews := db_reviews d; db_profiles := db_profiles d;
  db_handoff := db_handoff d; db_closure := db_closure d; db_billing := db_billing d; db_serial := db_serial d;
  db_now := db_now d; db_wall := db_wall d; db_clock := db_clock d |}.

(** ** Computations on the database *)

Definition M (A : Type) : Type := Db → Result (A * Db).

#[export] Instance M_ret : MRet M := fun A a db => Ok (a, db).
#[export] Instance M_bind : MBind M := fun A B f m db =>
  match m db with Ok (a, db') => f a db' | Err e => Err e end.

Definition lift {A} (r : Result A) : M A := fun db =>
  match r with Ok a => Ok (a, db) | Err e => Err e end.
Definition throw {A} (e : GoError) : M A := fun _ => Err e.
(** [if !cond { return err }] *)
Definition require_that (b : bool) (e : GoError) : M unit := lift (guard_err b e).
Definition gets {A} (f : Db → A) : M A := fun db => Ok (f db, db).

(** [if errors.Is(err, e) { ... }]: [None] when the computation fails with [e]. *)
Definition try_err {A} (e : GoError) (m : M A) : M (option A) := fun db =>
  match m db with
  | Ok (a, db') => Ok (Some a, db')
  | Err e' => if e' == e then Ok (None, db) else Err e'
  end.

(** How a transaction function ends: after [tx.Commit], or with a return before it,
    whose writes the deferred [Rollback] drops. *)
Inductive Outcome (A : Type) :=
  | Committed (a : A)
  | RolledBack (a : A).
Arguments Committed {_} _.
Arguments RolledBack {_} _.

Definition withTx {A} (m : M (Outcome A)) : M A := fun db =>
  match m db with
  | Ok (Committed a, db') => Ok (a, db')
  | Ok (RolledBack a, _) => Ok (a, db)
  | Err e => Err e
  end.

(** An operation of the store, run: an error leaves the database as it was. *)
Definition run {A} (m : M A) (db : Db) : Result A * Db :=
  match m db with Ok (a, db') => (Ok a, db') | Err e => (Err e, db) end.

(** [in.Now.IsZero()]: the process clock, else the given instant. *)
Definition default_now (now : Time) : M Time :=
  if IsZero now then (clock ← gets db_clock; mret (UTC clock)) else mret (UTC now).

(** [mapNotFound], applied by every [scan] function. *)
Definition mapNotFound (e : GoError) : GoError :=
  match e with
  | ErrPg code constraint =>
      if (code == "55000") && ((constraint == "billing_handoff_commit_barrier")
                               || (constraint == "billing_cloud_closure_barrier"))
      then ErrHandoffFenced else e
  | ErrNoRows => ErrNotFound
  | _ => e
  end.

Definition scan {A} (m : M A) : M A := fun db =>
  match m db with Ok r => Ok r | Err e => Err (mapNotFound e) end.

(** [errors.As(err, &pgErr) && pgErr.Code == "23505"]: a unique violation is [e]. *)
Definition on_duplicate {A} (e : GoError) (m : M A) : M A := fun db =>
  match m db with
  | Err (ErrPg code constraint) => if code == "23505" then Err e else Err (ErrPg code constraint)
  | r => r
  end.
