(* ===== verification/Tables.v ===== *)
(** * Tables and statements

    What the schema of [migrations/] enforces, as an interface: a type of rows with
    its table, unique indexes, CHECK constraints and update trigger; the generic
    SELECT, INSERT and UPDATE statements over it; and the barrier triggers. *)
From S2P Require Import Prelude GoStrings GoTime BillingTypes PaymentTypes Payment Database.

(** ** The interface of a table *)
Class Table (R : Type) := {
  t_name : string;
  t_rows : Db → list R;
  t_put : list R → Db → Db;
  t_conflict : R → R → bool;      (* PRIMARY KEY, UNIQUE constraints and indexes *)
  t_check : R → bool;             (* CHECK constraints *)
  t_touch : Time → R → R          (* BEFORE UPDATE: set_updated_at *)
}.

Class TableLaws (R : Type) `{!Table R} := {
  t_rows_put : ∀ rows db, t_rows (t_put rows db) = rows;
  t_conflict_sym : ∀ r s, t_conflict r s = t_conflict s r
}.

(** No two rows of the list violate a unique index together. *)
Fixpoint pairwise_ok {R} (conflict : R → R → bool) (rows : list R) : bool :=
  match rows with
  | [] => true
  | r :: rows => forallb (fun s => negb (conflict r s)) rows && pairwise_ok conflict rows
  end.

Section statements.
Context {R : Type} `{!Table R}.

(** [SELECT ... WHERE p], one row. *)
Definition select (p : R → bool) : M R := fun db =>
  match find p (t_rows db) with Some r => Ok (r, db) | None => Err ErrNoRows end.
(** [SELECT EXISTS (SELECT 1 ... WHERE p)] *)
Definition exists_row (p : R → bool) : M bool := gets (fun db => existsb p (t_rows db)).

Definition insert_row (r : R) : M R := fun db =>
  if negb (t_check r) then Err (ErrPg "23514" t_name) else
  if existsb (fun s => t_conflict s r) (t_rows db) then Err (ErrPg "23505" t_name) else
  Ok (r, t_put (t_rows db ++ [r]) db).

(** [INSERT ... ON CONFLICT target DO NOTHING RETURNING ...] *)
Definition insert_or_nothing (target : R → R → bool) (r : R) : M R := fun db =>
  if negb (t_check r) then Err (ErrPg "23514" t_name) else
  if existsb (fun s => target s r) (t_rows db) then Err ErrNoRows else
  insert_row r db.

(** [UPDATE ... SET f WHERE p RETURNING ...]: the updated rows. *)
Definition update_rows (p : R → bool) (f : R → R) : M (list R) := fun db =>
  let g r := t_touch (db_now db) (f r) in
  let rows := (fun r => if p r then g r else r) <$> t_rows db in
  let updated := g <$> filter (fun r => p r = true) (t_rows db) in
  if negb (forallb t_check updated) then Err (ErrPg "23514" t_name) else
  if negb (pairwise_ok t_conflict rows) then Err (ErrPg "23505" t_name) else
  Ok (updated, t_put rows db).

(** [UPDATE ... RETURNING] scanned as one row. *)
Definition update_one (p : R → bool) (f : R → R) : M R :=
  rows ← update_rows p f;
  match rows with r :: _ => mret r | [] => throw ErrNoRows end.
End statements.

(** A fresh identifier for a new row. *)
Definition fresh `{!Postgres} : M string := fun db =>
  Ok (pg_uuid (db_serial db), db <| db_serial ::= S |>).

(** [clock_timestamp()]: the clock of the database server, [now()] when nothing is said. *)
Definition clock_timestamp : M Time := fun db =>
  match db_wall db with
  | t :: later => Ok (t, db <| db_wall := later |>)
  | [] => Ok (db_now db, db)
  end.

(** ** Text conditions of the CHECK constraints *)

(** [btrim(s) <> ''] *)
Definition not_blank (s : string) : bool := negb (forallb (N.eqb 32) (bytes_of s)).
Definition both_set (a b : string) : bool := (a != "") && (a == b).

Definition is_hex (c : N) : bool := ((48 <=? c)%N && (c <=? 57)%N) || ((97 <=? c)%N && (c <=? 102)%N).
(** [s ~ '^[0-9a-f]{64}$'] *)
Definition lower_sha256 (s : string) : bool := (len s =? 64) && forallb is_hex (bytes_of s).

Definition one_of (s : string) (names : list string) : bool := existsb (fun n => s == n) names.

(** ** The tables *)

#[export] Instance accounts_table : Table CommercialAccount := {|
  t_name := "commercial_accounts"; t_rows := db_accounts;
  t_put := fun rows db => db <| db_accounts := rows |>;
  t_conflict a b := (account_ID a == account_ID b)
    || ((account_OrganizationID a == account_OrganizationID b)
        && (account_Currency a == account_Currency b));
  t_check a := (account_Currency a == TWD)
    && one_of (account_State a) ["active"; "attention_required"; "suspended"; "closed"]
    && (0 <=? account_Version a);
  t_touch now a := a <| account_UpdatedAt := now |> |}.

#[export] Instance entries_table : Table LedgerEntry := {|
  t_name := "balance_ledger_entries"; t_rows := db_entries;
  t_put := fun rows db => db <| db_entries := rows |>;
  t_conflict a b := (entry_ID a == entry_ID b)
    || ((entry_AccountID a == entry_AccountID b)
        && (entry_IdempotencyScope a == entry_IdempotencyScope b)
        && (entry_IdempotencyKey a == entry_IdempotencyKey b));
  t_check e := is_ok (ValidateLedgerReason (entry_Direction e) (entry_Reason e))
    && (0 <? entry_AmountMinor e) && (entry_Currency e == TWD)
    && not_blank (entry_IdempotencyScope e) && not_blank (entry_IdempotencyKey e)
    && bool_decide (entry_ExternalType e = "" ↔ entry_ExternalID e = "");
  t_touch now e := e |}.

#[export] Instance consents_table : Table PaymentConsent := {|
  t_name := "payment_consents"; t_rows := db_consents;
  t_put := fun rows db => db <| db_consents := rows |>;
  t_conflict a b := consent_ID a == consent_ID b;
  t_check c := one_of (consent_ConsentType c) ["payment_method"; "auto_topup"]
    && not_blank (consent_TextVersion c) && lower_sha256 (consent_TextSHA256 c)
    && not_blank (consent_AcceptedActorType c) && not_blank (consent_AcceptedActorID c)
    && not_blank (consent_Locale c) && not_blank (consent_Source c)
    && match consent_RevokedAt c with
       | None => consent_RevocationReason c == ""
       | Some _ => not_blank (consent_RevocationReason c)
       end;
  t_touch now c := mkPaymentConsent (consent_ID c) (consent_AccountID c) (consent_ConsentType c)
    (consent_TextVersion c) (consent_TextSHA256 c) (consent_AcceptedActorType c)
    (consent_AcceptedActorID c) (consent_AcceptedAt c) (consent_Locale c) (consent_Source c)
    (consent_RevokedAt c) (consent_RevocationReason c) (consent_CreatedAt c) now |}.

Definition set_method_status (status : PaymentMethodStatus) (now : option Time) (r : MethodRow) : MethodRow :=
  let m := mrow_method r in
  mkMethodRow (mkPaymentMethod (method_ID m) (method_AccountID m) (method_Provider m) status
      (method_CardBrand m) (method_LastFour m) (method_ExpiryMonth m) (method_ExpiryYear m)
      (method_Capabilities m) (method_ConsentID m) (method_CreatedAt m)
      (default (method_UpdatedAt m) now))
    (mrow_customer_ref r) (mrow_method_ref r) (mrow_ref_sha256 r).

Definition all_digits (s : string) : bool :=
  forallb (fun c => (48 <=? c)%N && (c <=? 57)%N) (bytes_of s).
Definition in_range (lo hi : Z) (z : option Z) : bool :=
  match z with None => true | Some v => (lo <=? v) && (v <=? hi) end.

#[export] Instance methods_table : Table MethodRow := {|
  t_name := "payment_methods"; t_rows := db_methods;
  t_put := fun rows db => db <| db_methods := rows |>;
  t_conflict a b := (method_ID (mrow_method a) == method_ID (mrow_method b))
    || ((method_AccountID (mrow_method a) == method_AccountID (mrow_method b))
        && (method_Provider (mrow_method a) == method_Provider (mrow_method b))
        && both_set (mrow_ref_sha256 a) (mrow_ref_sha256 b));
  t_check r := let m := mrow_method r in
    not_blank (method_Provider m) && (method_Provider m == ToLower (method_Provider m))
    && one_of (method_Status m) ["pending"; "active"; "expired"; "revoked"; "failed"]
    && ((mrow_ref_sha256 r == "") || lower_sha256 (mrow_ref_sha256 r))
    && ((method_LastFour m == "") || ((len (method_LastFour m) =? 4) && all_digits (method_LastFour m)))
    && bool_decide (method_ExpiryMonth m = None ↔ method_ExpiryYear m = None)
    && in_range 1 12 (method_ExpiryMonth m) && in_range 2000 9999 (method_ExpiryYear m)
    && ((method_Status m != "active") || ((mrow_customer_ref r != "") && (mrow_method_ref r != "")
        && (mrow_ref_sha256 r != "")));
  t_touch now r := set_method_status (method_Status (mrow_method r)) (Some now) r |}.

#[export] Instance policies_table : Table AutoTopUpPolicy := {|
  t_name := "auto_topup_policies"; t_rows := db_policies;
  t_put := fun rows db => db <| db_policies := rows |>;
  t_conflict a b := (policy_ID a == policy_ID b) || (policy_AccountID a == policy_AccountID b);
  t_check p := (0 <? policy_ThresholdMinor p) && (0 <? policy_TopUpAmountMinor p)
    && (0 <? policy_DailyAmountLimitMinor p) && (policy_Currency p == TWD)
    && (1 <=? policy_DailyAttemptLimit p) && (policy_DailyAttemptLimit p <=? 10)
    && (policy_TopUpAmountMinor p <=? policy_DailyAmountLimitMinor p)
    && (300 <=? policy_CooldownSeconds p) && (0 <? policy_Generation p) && (0 <? policy_Version p)
    && (0 <=? policy_ConsecutiveFailureCount p);
  t_touch now p := p <| policy_UpdatedAt := now |> |}.

(** The text form of a [UUID] column. *)
Definition uuid_text (s : string) : bool :=
  (len s =? 36) && forallb (fun c => is_hex c || N.eqb c 45) (bytes_of s).

(** The states of an intent that is still open. *)
Definition intent_open (i : PaymentIntent) : bool :=
  one_of (intent_State i) ["created"; "processing"; "authorized"; "requires_action"; "unknown"].

#[export] Instance intents_table : Table PaymentIntent := {|
  t_name := "payment_intents"; t_rows := db_intents;
  t_put := fun rows db => db <| db_intents := rows |>;
  t_conflict a b := (intent_ID a == intent_ID b)
    || ((intent_AccountID a == intent_AccountID b) && (intent_IdempotencyKey a == intent_IdempotencyKey b))
    || both_set (intent_TriggerLedgerEntryID a) (intent_TriggerLedgerEntryID b)
    || ((intent_Provider a == intent_Provider b)
        && both_set (intent_MerchantOrderReference a) (intent_MerchantOrderReference b))
    || ((intent_Provider a == intent_Provider b)
        && both_set (intent_ProviderTransactionReference a) (intent_ProviderTransactionReference b))
    || ((intent_AccountID a == intent_AccountID b)
        && bool_decide (is_Some (intent_PolicyGeneration a))
        && (intent_PolicyGeneration a == intent_PolicyGeneration b)
        && (intent_Reason a == "auto_top_up") && (intent_Reason b == "auto_top_up")
        && intent_open a && intent_open b);
  t_check i := uuid_text (intent_ID i) && (0 <? intent_AmountMinor i) && (intent_Currency i == TWD)
    && (((intent_Reason i == "auto_top_up") && bool_decide (is_Some (intent_PolicyGeneration i))
         && (intent_TriggerLedgerEntryID i != ""))
        || ((intent_Reason i == "manual_top_up") && bool_decide (intent_PolicyGeneration i = None)
            && (intent_TriggerLedgerEntryID i == "")))
    && not_blank (intent_Provider i) && (intent_Provider i == ToLower (intent_Provider i))
    && ValidIntentState (intent_State i)
    && not_blank (intent_IdempotencyKey i) && not_blank (intent_CorrelationID i)
    && Bool.eqb (IntentStateTerminal (intent_State i)) (bool_decide (is_Some (intent_CompletedAt i)));
  t_touch now i := i <| intent_UpdatedAt := now |> |}.

#[export] Instance attempts_table : Table PaymentAttempt := {|
  t_name := "payment_attempts"; t_rows := db_attempts;
  t_put := fun rows db => db <| db_attempts := rows |>;
  t_conflict a b := (attempt_ID a == attempt_ID b)
    || ((attempt_IntentID a == attempt_IntentID b) && (attempt_AttemptNumber a =? attempt_AttemptNumber b));
  t_check a := one_of (attempt_Operation a) ["setup"; "charge"; "query"; "cancel"; "refund"]
    && (0 <? attempt_AttemptNumber a)
    && one_of (attempt_NormalizedResult a)
         ["started"; "authorized"; "requires_action"; "unknown"; "succeeded"; "failed"; "canceled"]
    && ((attempt_RequestSHA256 a == "") || lower_sha256 (attempt_RequestSHA256 a))
    && ((attempt_ResponseSHA256 a == "") || lower_sha256 (attempt_ResponseSHA256 a));
  t_touch now a := a |}.

Definition job_open (j : ReconciliationJob) : bool := one_of (job_Status j) ["pending"; "leased"].

#[export] Instance jobs_table : Table ReconciliationJob := {|
  t_name := "payment_reconciliation_jobs"; t_rows := db_jobs;
  t_put := fun rows db => db <| db_jobs := rows |>;
  t_conflict a b := (job_ID a == job_ID b)
    || ((job_IntentID a == job_IntentID b) && (job_Reason a == job_Reason b) && job_open a && job_open b);
  t_check j := one_of (job_Reason j) ["charge"; "unknown"; "webhook"; "credit"; "refund"]
    && one_of (job_Status j) ["pending"; "leased"; "completed"; "failed"]
    && (0 <=? job_AttemptCount j) && bool_decide (job_LeasedAt j = None ↔ job_LeaseOwner j = "");
  t_touch now j := j <| job_UpdatedAt := now |> |}.

#[export] Instance receipts_table : Table WebhookReceipt := {|
  t_name := "payment_webhook_inbox"; t_rows := db_receipts;
  t_put := fun rows db => db <| db_receipts := rows |>;
  t_conflict a b := (receipt_ID a == receipt_ID b)
    || ((receipt_Provider a == receipt_Provider b)
        && (both_set (receipt_ProviderEventReference a) (receipt_ProviderEventReference b)
            || (receipt_PayloadSHA256 a == receipt_PayloadSHA256 b)));
  t_check r := not_blank (receipt_Provider r) && (receipt_Provider r == ToLower (receipt_Provider r))
    && lower_sha256 (receipt_PayloadSHA256 r)
    && one_of (receipt_VerificationResult r) ["pending"; "verified"; "rejected"]
    && one_of (receipt_ProcessingState r) ["received"; "scheduled"; "processed"; "quarantined"]
    && Bool.eqb (one_of (receipt_ProcessingState r) ["processed"; "quarantined"])
         (bool_decide (is_Some (receipt_ProcessedAt r)));
  t_touch now r := mkWebhookReceipt (receipt_ID r) (receipt_Provider r)
    (receipt_ProviderEventReference r) (receipt_PayloadSHA256 r) (receipt_VerificationResult r)
    (receipt_IntentID r) (receipt_NormalizedEventType r) (receipt_ProcessingState r)
    (receipt_SafeSummary r) (receipt_ReceivedAt r) (receipt_ProcessedAt r) (receipt_CreatedAt r) now |}.

(** [position('@' in recipient_email) > 1] *)
Definition at_inside (s : string) : bool :=
  match bytes_of s with [] => false | c :: l => negb (N.eqb c 64) && existsb (N.eqb 64) l end.

#[export] Instance emails_table : Table TopUpEmailRow := {|
  t_name := "billing_topup_email_outbox"; t_rows := db_emails;
  t_put := fun rows db => db <| db_emails := rows |>;
  t_conflict a b := email_IntentID a == email_IntentID b;
  t_check e := at_inside (email_RecipientEmail e) && (0 <? email_AmountMinor e)
    && (email_Currency e == TWD) && (email_Provider e == "paypal")
    && one_of (email_Status e) ["pending"; "sending"; "sent"] && (0 <=? email_AttemptCount e);
  t_touch now e := e |}.

#[export] Instance setups_table : Table PaymentMethodSetupSession := {|
  t_name := "payment_method_setup_sessions"; t_rows := db_setups;
  t_put := fun rows db => db <| db_setups := rows |>;
  t_conflict a b := (setup_ID a == setup_ID b)
    || ((setup_AccountID a == setup_AccountID b) && (setup_Provider a == setup_Provider b)
        && (setup_IdempotencyKey a == setup_IdempotencyKey b));
  t_check s := not_blank (setup_Provider s) && (setup_Provider s == ToLower (setup_Provider s))
    && not_blank (setup_IdempotencyKey s) && lower_sha256 (setup_RequestSHA256 s)
    && not_blank (setup_CorrelationID s)
    && one_of (setup_State s) ["created"; "requires_action"; "succeeded"; "failed"; "unknown"]
    && ((setup_ProviderCode s == "") || not_blank (setup_ProviderCode s))
    && ((setup_HostedURLSHA256 s == "") || lower_sha256 (setup_HostedURLSHA256 s));
  t_touch now s := s <| setup_UpdatedAt := now |> |}.

#[export] Instance observations_table : Table SetupObservation := {|
  t_name := "billing_handoff_setup_observations"; t_rows := db_observations;
  t_put := fun rows db => db <| db_observations := rows |>;
  t_conflict a b := (observation_SessionID a == observation_SessionID b)
    && (observation_ResultSHA256 a == observation_ResultSHA256 b);
  t_check o := lower_sha256 (observation_ResultSHA256 o)
    && one_of (observation_ProviderState o) ["requires_action"; "succeeded"; "failed"];
  t_touch now o := o |}.

#[export] Instance reversals_table : Table ReversalEvent := {|
  t_name := "billing_provider_reversal_events"; t_rows := db_reversals;
  t_put := fun rows db => db <| db_reversals := rows |>;
  t_conflict a b := (event_ID a == event_ID b)
    || ((event_Provider a == event_Provider b) && (event_EventReference a == event_EventReference b));
  t_check e := not_blank (event_Provider e) && (event_Provider e == ToLower (event_Provider e))
    && (1 <=? len (event_EventReference e)) && (len (event_EventReference e) <=? 200)
    && (0 <? event_AmountMinor e) && (event_Currency e == TWD)
    && one_of (event_Reason e) ["refund_debit"; "chargeback_debit"]
    && lower_sha256 (event_RequestSHA256 e) && lower_sha256 (event_ProviderPayloadSHA256 e)
    && not_blank (event_RequestID e);
  t_touch now e := e |}.

#[export] Instance allocations_table : Table ReversalAllocation := {|
  t_name := "billing_provider_reversal_allocations"; t_rows := db_allocations;
  t_put := fun rows db => db <| db_allocations := rows |>;
  t_conflict a b := (alloc_EventID a == alloc_EventID b)
    || both_set (alloc_LedgerEntryID a) (alloc_LedgerEntryID b);
  t_check a := one_of (alloc_Disposition a) ["current_balance"; "predecessor_adjustment"]
    && lower_sha256 (alloc_Evidence a)
    && Bool.eqb (alloc_Disposition a == "current_balance") (alloc_LedgerEntryID a != "");
  t_touch now a := a |}.

#[export] Instance reviews_table : Table ReversalReview := {|
  t_name := "billing_provider_reversal_reviews"; t_rows := db_reviews;
  t_put := fun rows db => db <| db_reviews := rows |>;
  t_conflict a b := review_EventID a == review_EventID b;
  t_check r := not_blank (review_ReasonCode r);
  t_touch now r := r |}.

#[export] Instance periods_table : Table ResponsibilityPeriod := {|
  t_name := "billing_responsibility_periods"; t_rows := db_periods;
  t_put := fun rows db => db <| db_periods := rows |>;
  t_conflict a b := (period_ID a == period_ID b)
    || ((period_AccountID a == period_AccountID b)
        && (period_OwnershipVersion a =? period_OwnershipVersion b))
    || ((period_AccountID a == period_AccountID b)
        && bool_decide (period_EffectiveUntil a = None) && bool_decide (period_EffectiveUntil b = None))
    || match period_Opening a, period_Opening b with
       | Some (x, _), Some (y, _) => x == y
       | _, _ => false
       end;
  t_check p := (0 <? period_OwnershipVersion p) && lower_sha256 (period_Evidence p)
    && match period_EffectiveUntil p with Some t => period_EffectiveFrom p <? t | None => true end
    && match period_Opening p with Some (_, balance) => 0 <=? balance | None => true end;
  t_touch now p := p |}.

#[export] Instance handoffs_table : Table OwnershipHandoff := {|
  t_name := "billing_ownership_handoffs"; t_rows := db_handoffs;
  t_put := fun rows db => db <| db_handoffs := rows |>;
  t_conflict a b := (handoff_ID a == handoff_ID b)
    || ((handoff_AccountID a == handoff_AccountID b)
        && negb (one_of (handoff_Phase a) ["finalized"; "aborted"])
        && negb (one_of (handoff_Phase b) ["finalized"; "aborted"]));
  t_check h := lower_sha256 (handoff_RequestSHA256 h) && (0 <? handoff_Version h)
    && (handoff_SourceUserID h != handoff_TargetUserID h)
    && one_of (handoff_Phase h) ["preparing"; "prepared"; "commit_authorized"; "finalizing";
         "finalized"; "abort_pending"; "aborted"];
  t_touch now h := h |}.

(** ** Fences

    The conditions on handoffs and closures that the triggers and the store share. *)

(** A handoff that is neither finalized nor aborted. *)
Definition handoff_open (db : Db) (accountID : string) : bool :=
  existsb (fun h => (handoff_AccountID h == accountID)
                    && negb (one_of (handoff_Phase h) ["finalized"; "aborted"])) (db_handoffs db).

(** A handoff whose ownership commit has been authorized. *)
Definition commit_fenced (db : Db) (accountID : string) : bool :=
  existsb (fun h => (handoff_AccountID h == accountID)
      && (one_of (handoff_Phase h) ["commit_authorized"; "finalizing"]
          || ((handoff_Phase h == "abort_pending")
              && existsb (fun a => auth_OperationID a == handoff_ID h) (db_commit_authorizations db)))) (db_handoffs db).

Definition closure_open (db : Db) (accountID : string) : bool :=
  existsb (fun c => (closure_AccountID c == accountID) && (closure_Phase c != "canceled"))
    (db_closures db).
Definition closure_closed (db : Db) (accountID : string) : bool :=
  existsb (fun c => (closure_AccountID c == accountID) && (closure_Phase c == "closed"))
    (db_closures db).

(** [RAISE EXCEPTION ... USING ERRCODE='55000', CONSTRAINT=...] when [fenced] holds. *)
Definition barrier (constraint : string) (fenced : Db → bool) : M unit := fun db =>
  if fenced db then Err (ErrPg "55000" constraint) else Ok (tt, db).
Definition handoff_barrier := barrier "billing_handoff_commit_barrier".
Definition closure_barrier := barrier "billing_cloud_closure_barrier".

(** ** Statements with their triggers *)

(** Triggers [closed_cloud_ledger] and [handoff_ledger_commit_barrier]. *)
Definition insert_entry (e : LedgerEntry) : M LedgerEntry :=
  _ ← closure_barrier (fun db => closure_closed db (entry_AccountID e));
  _ ← handoff_barrier (fun db => commit_fenced db (entry_AccountID e));
  insert_row e.

(** Triggers [closed_cloud_balance] and [handoff_balance_commit_barrier]. *)
Definition update_account (accountID : string) (f : CommercialAccount → CommercialAccount) :
    M CommercialAccount :=
  old ← select (fun a => account_ID a == accountID);
  let new := f old in
  let moved := account_AvailableBalanceMinor new != account_AvailableBalanceMinor old in
  _ ← closure_barrier (fun db => closure_closed db accountID
         && (moved || (account_State new != account_State old))
         && negb ((account_State new == AccountStateClosed)
                  && (account_AvailableBalanceMinor new =? 0)
                  && (account_AvailableBalanceMinor old =? 0)));
  _ ← handoff_barrier (fun db => moved && commit_fenced db accountID);
  update_one (fun a => account_ID a == accountID) f.

Definition current_period (db : Db) (accountID : string) : option ResponsibilityPeriod :=
  find (fun p => (period_AccountID p == accountID) && bool_decide (period_EffectiveUntil p = None))
    (db_periods db).

(** The row an AFTER INSERT trigger adds to bind a record to the current period. *)
Definition period_binding (db : Db) (recordID accountID : string) : list PeriodBinding :=
  match current_period db accountID with
  | Some p => [mkPeriodBinding recordID accountID (period_ID p) (period_Evidence p)]
  | None => []
  end.
Definition bind_intent (i : PaymentIntent) : M unit := fun db =>
  Ok (tt, db <| db_intent_periods ::= fun bs =>
            bs ++ period_binding db (intent_ID i) (intent_AccountID i) |>).
Definition bind_method (m : PaymentMethod) : M unit := fun db =>
  Ok (tt, db <| db_method_periods ::= fun bs =>
            bs ++ period_binding db (method_ID m) (method_AccountID m) |>).

(** Triggers [closure_new_intent] (before) and [payment_intent_responsibility] (after). *)
Definition insert_intent (i : PaymentIntent) : M PaymentIntent :=
  _ ← closure_barrier (fun db => closure_open db (intent_AccountID i));
  r ← insert_row i;
  _ ← handoff_barrier (fun db => handoff_open db (intent_AccountID i));
  _ ← bind_intent r;
  mret r.

(** Trigger [closure_new_charge]. *)
Definition insert_attempt (a : PaymentAttempt) : M PaymentAttempt :=
  _ ← closure_barrier (fun db => (attempt_Operation a == "charge")
        && match find (fun i => intent_ID i == attempt_IntentID a) (db_intents db) with
           | Some i => closure_open db (intent_AccountID i)
           | None => false
           end);
  insert_row a.

(** Triggers [closure_method_barrier] and [payment_method_responsibility]. *)
Definition insert_method (r : MethodRow) : M MethodRow :=
  let m := mrow_method r in
  _ ← closure_barrier (fun db => closure_open db (method_AccountID m));
  r ← insert_row r;
  _ ← bind_method m;
  mret r.

(** Trigger [closure_consent_barrier]. *)
Definition insert_consent (c : PaymentConsent) : M PaymentConsent :=
  _ ← closure_barrier (fun db => closure_open db (consent_AccountID c));
  insert_row c.

(** An update under an open closure may only do what [allowed] says of the old and
    the new row; the account of a row is [acct]. *)
Definition update_fenced {R} `{!Table R} (acct : R → string) (allowed : R → R → bool)
    (p : R → bool) (f : R → R) : M (list R) :=
  _ ← closure_barrier (fun db => existsb (fun old =>
        p old && closure_open db (acct old) && negb (allowed old (f old))) (t_rows db));
  update_rows p f.

(** Trigger [closure_method_barrier]: a method revoked by a closure stays so, and under
    an open closure an update may be a revocation and nothing else. *)
Definition update_methods (p : MethodRow → bool) (f : MethodRow → MethodRow) : M (list MethodRow) :=
  _ ← closure_barrier (fun db => existsb (fun old => p old
        && (method_Status (mrow_method (f old)) != "revoked")
        && existsb (fun t => (task_SubjectType t == "method")
                             && (task_SubjectID t == method_ID (mrow_method old)))
             (db_closure_revocations db)) (db_methods db));
  update_fenced (fun r => method_AccountID (mrow_method r))
    (fun old new => (method_Status (mrow_method new) == "revoked")
       && (set_method_status "revoked" (Some 0) new == set_method_status "revoked" (Some 0) old)) p f.

Definition revoke_fields (at_ : option Time) (reason : string) (c : PaymentConsent) : PaymentConsent :=
  mkPaymentConsent (consent_ID c) (consent_AccountID c) (consent_ConsentType c)
    (consent_TextVersion c) (consent_TextSHA256 c) (consent_AcceptedActorType c)
    (consent_AcceptedActorID c) (consent_AcceptedAt c) (consent_Locale c) (consent_Source c)
    at_ reason (consent_CreatedAt c) (consent_UpdatedAt c).

(** Trigger [closure_consent_barrier]. *)
Definition update_consents (p : PaymentConsent → bool) (f : PaymentConsent → PaymentConsent) :
    M (list PaymentConsent) :=
  _ ← closure_barrier (fun db => existsb (fun old => p old
        && (consent_RevocationReason old == "cloud_closure")
        && (bool_decide (consent_RevokedAt (f old) = None)
            || (consent_RevocationReason (f old) != "cloud_closure"))) (db_consents db));
  update_fenced consent_AccountID
    (fun old new => bool_decide (is_Some (consent_RevokedAt new))
       && (revoke_fields None "" new == revoke_fields None "" old)) p f.

(** Trigger [closure_setup_barrier]. *)
Definition insert_setup (s : PaymentMethodSetupSession) : M PaymentMethodSetupSession :=
  _ ← closure_barrier (fun db => closure_open db (setup_AccountID s));
  insert_row s.
Definition update_setups (p : PaymentMethodSetupSession → bool)
    (f : PaymentMethodSetupSession → PaymentMethodSetupSession) : M (list PaymentMethodSetupSession) :=
  _ ← closure_barrier (fun db => existsb (fun old => p old
        && (setup_InvalidatedByClosure old != "")
        && ((setup_InvalidatedByClosure (f old) != setup_InvalidatedByClosure old)
            || (setup_State (f old) != "failed"))) (db_setups db));
  update_fenced setup_AccountID
    (fun old new => (setup_State new == "failed") && (setup_InvalidatedByClosure new != "")
       && ((new <| setup_State := "" |> <| setup_InvalidatedByClosure := "" |> <| setup_UpdatedAt := 0 |>)
           == (old <| setup_State := "" |> <| setup_InvalidatedByClosure := "" |>
                   <| setup_UpdatedAt := 0 |>))) p f.

(** Trigger [closure_policy_barrier]: disabling and disarming, and nothing else. *)
Definition policy_update_allowed (old new : AutoTopUpPolicy) : bool :=
  let mask p := p <| policy_Enabled := false |> <| policy_Armed := false |>
                  <| policy_Version := 0 |> <| policy_UpdatedAt := 0 |> in
  negb (policy_Enabled new) && negb (policy_Armed new) && (mask new == mask old).
Definition update_policies := update_fenced policy_AccountID policy_update_allowed.
Definition insert_policy (p : AutoTopUpPolicy) : M AutoTopUpPolicy :=
  _ ← closure_barrier (fun db => closure_open db (policy_AccountID p));
  insert_row p.

Definition first_row {R} (m : M (list R)) : M R :=
  rows ← m; match rows with r :: _ => mret r | [] => throw ErrNoRows end.
