(* ===== verification/Keeps.v ===== *)
(** * Reasoning about the store's computations

    Inversion of a successful computation, statement by statement ([run_inv]); the
    relational frame logic [keeps R m], "whatever [m] commits is related to where it
    started by the preorder [R]", with the tactic [keeps] that walks a computation; and
    what each kind of statement does to its own table. *)
From S2P Require Import Prelude GoStrings GoTime BillingTypes PaymentTypes Payment Database Tables.

(** ** Inversion *)

Section inversion.
Context {A B : Type}.
Implicit Types (db : Db).

Lemma bind_ok (m : M A) (f : A → M B) db b db' :
  (m ≫= f) db = Ok (b, db') ↔ ∃ a db1, m db = Ok (a, db1) ∧ f a db1 = Ok (b, db').
Proof.
  unfold mbind, M_bind. destruct (m db) as [[a db1]|e]; [|naive_solver].
  split; [eauto|]. by intros (? & ? & [= -> ->] & ?).
Qed.

(** Running forwards: the first computation has succeeded. *)
Lemma bind_run (m : M A) (f : A → M B) db a db' :
  m db = Ok (a, db') → (m ≫= f) db = f a db'.
Proof. unfold mbind, M_bind. by intros ->. Qed.

Lemma bind_run_err (m : M A) (f : A → M B) db e : m db = Err e → (m ≫= f) db = Err e.
Proof. unfold mbind, M_bind. by intros ->. Qed.

Lemma ret_ok (a : A) db b db' : (mret a : M A) db = Ok (b, db') ↔ b = a ∧ db' = db.
Proof. unfold mret, M_ret. naive_solver. Qed.

Lemma lift_ok (r : Result A) db a db' : lift r db = Ok (a, db') ↔ r = Ok a ∧ db' = db.
Proof. unfold lift. destruct r; naive_solver. Qed.

Lemma gets_ok (f : Db → A) db a db' : gets f db = Ok (a, db') ↔ a = f db ∧ db' = db.
Proof. unfold gets. naive_solver. Qed.

Lemma throw_ok e db (a : A) db' : ¬ throw e db = Ok (a, db').
Proof. done. Qed.

Lemma scan_ok (m : M A) db a db' : scan m db = Ok (a, db') ↔ m db = Ok (a, db').
Proof. unfold scan. destruct (m db); naive_solver. Qed.

Lemma on_duplicate_ok e (m : M A) db a db' :
  on_duplicate e m db = Ok (a, db') ↔ m db = Ok (a, db').
Proof.
  unfold on_duplicate. destruct (m db) as [[? ?]|e']; [done|].
  destruct e'; try done. by case_bool_decide.
Qed.

Lemma try_err_ok e (m : M A) db o db' :
  try_err e m db = Ok (o, db') ↔
  (∃ a, o = Some a ∧ m db = Ok (a, db')) ∨ (o = None ∧ db' = db ∧ m db = Err e).
Proof.
  unfold try_err. destruct (m db) as [[a db1]|e']; [naive_solver|].
  case_bool_decide; naive_solver.
Qed.

Lemma withTx_ok (m : M (Outcome A)) db a db' :
  withTx m db = Ok (a, db') ↔
  m db = Ok (Committed a, db') ∨ (db' = db ∧ ∃ db1, m db = Ok (RolledBack a, db1)).
Proof. unfold withTx. destruct (m db) as [[[] ?]|]; naive_solver. Qed.
End inversion.

Lemma require_ok b e db u db' : require_that b e db = Ok (u, db') ↔ b = true ∧ db' = db.
Proof.
  unfold require_that. rewrite lift_ok, guard_err_ok. done.
Qed.

Lemma require_err e db : require_that false e db = Err e.
Proof. done. Qed.

Lemma barrier_ok c fenced db u db' : barrier c fenced db = Ok (u, db') ↔ fenced db = false ∧ db' = db.
Proof. unfold barrier. destruct (fenced db), u; naive_solver. Qed.

Lemma fresh_ok `{!Postgres} db id db' :
  fresh db = Ok (id, db') ↔ id = pg_uuid (db_serial db) ∧ db' = db <| db_serial ::= S |>.
Proof. unfold fresh. naive_solver. Qed.

Lemma default_now_ok now db t db' :
  default_now now db = Ok (t, db') ↔ t = (if IsZero now then UTC (db_clock db) else UTC now) ∧ db' = db.
Proof.
  unfold default_now. destruct (IsZero now); cbn; split; [intros [= <- <-]; done|by intros [-> ->]|
    intros [= <- <-]; done|by intros [-> ->]].
Qed.

Section statements_ok.
Context {R : Type} `{!Table R}.

Lemma select_ok (p : R → bool) db r db' :
  select p db = Ok (r, db') ↔ find p (t_rows db) = Some r ∧ db' = db.
Proof. unfold select. case_match; naive_solver. Qed.

Lemma select_err (p : R → bool) db e :
  select p db = Err e ↔ find p (t_rows db) = None ∧ e = ErrNoRows.
Proof. unfold select. case_match; naive_solver. Qed.

Lemma scan_select_err (p : R → bool) db e :
  scan (select p) db = Err e → find p (t_rows db) = None ∧ e = ErrNotFound.
Proof.
  unfold scan. destruct (select p db) as [[? ?]|e'] eqn:E; [done|].
  apply select_err in E as [? ->]. intros [= <-]. done.
Qed.

Lemma insert_row_ok (r : R) db r' db' :
  insert_row r db = Ok (r', db') ↔
  r' = r ∧ t_check r = true ∧ (∀ s, s ∈ t_rows db → t_conflict s r = false) ∧
  db' = t_put (t_rows db ++ [r]) db.
Proof.
  unfold insert_row. rewrite <- existsb_false. destruct (t_check r); simpl.
  2: { split; [done|]. by intros (_ & ? & _). }
  destruct (existsb _ _); split; try done; [by intros (_ & _ & ? & _)| |].
  - by intros [= <- <-].
  - by intros (-> & _ & _ & ->).
Qed.

Lemma insert_or_nothing_ok target (r : R) db r' db' :
  insert_or_nothing target r db = Ok (r', db') → insert_row r db = Ok (r', db').
Proof. unfold insert_or_nothing. do 2 (case_match; [done|]). done. Qed.

Lemma update_rows_ok (p : R → bool) (f : R → R) db rows db' :
  update_rows p f db = Ok (rows, db') ↔
  let g r := t_touch (db_now db) (f r) in
  let new := (fun r => if p r then g r else r) <$> t_rows db in
  rows = g <$> filter (fun r => p r = true) (t_rows db) ∧
  forallb t_check rows = true ∧ pairwise_ok t_conflict new = true ∧ db' = t_put new db.
Proof.
  unfold update_rows. destruct (forallb _ _) eqn:E1; simpl.
  2: { split; [done|]. intros (-> & H & _). congruence. }
  destruct (pairwise_ok _ _) eqn:E2; simpl; naive_solver.
Qed.

Lemma update_one_ok (p : R → bool) (f : R → R) db r db' :
  update_one p f db = Ok (r, db') ↔ ∃ rest, update_rows p f db = Ok (r :: rest, db').
Proof.
  unfold update_one. rewrite bind_ok. split.
  - intros ([|r' rest] & db1 & H1 & H2); [by apply throw_ok in H2|].
    apply ret_ok in H2 as [-> ->]. eauto.
  - intros [rest H]. eexists _, _. split; [exact H|]. done.
Qed.

Lemma update_fenced_ok acct allowed (p : R → bool) (f : R → R) db rows db' :
  update_fenced acct allowed p f db = Ok (rows, db') ↔
  (∀ r, r ∈ t_rows db → p r = true → closure_open db (acct r) = true → allowed r (f r) = true) ∧
  update_rows p f db = Ok (rows, db').
Proof.
  unfold update_fenced, closure_barrier. rewrite bind_ok. setoid_rewrite barrier_ok.
  setoid_rewrite existsb_false. split.
  - intros ([] & ? & (Hf & ->) & H). split; [|done]. intros r Hr Hp Hc.
    specialize (Hf r Hr). rewrite Hp, Hc in Hf. by apply negb_false_iff.
  - intros [Hall H]. exists tt, db. split; [|done]. split; [|done]. intros r Hr.
    destruct (p r) eqn:Hp, (closure_open db (acct r)) eqn:Hc; try done. by rewrite Hall.
Qed.
End statements_ok.

Lemma first_row_ok {R} (m : M (list R)) db r db' :
  first_row m db = Ok (r, db') ↔ ∃ rest, m db = Ok (r :: rest, db').
Proof.
  unfold first_row. rewrite bind_ok. split.
  - intros ([|r' rest] & db1 & H1 & H2); [by apply throw_ok in H2|].
    apply ret_ok in H2 as [-> ->]. eauto.
  - intros [rest H]. eexists _, _. split; [exact H|]. done.
Qed.

(** [run_inv] follows every successful computation among the hypotheses back through
    its binds, guards, reads and branches. *)
Ltac run_inv_step :=
  match goal with
  | H : mbind _ _ _ = Ok (_, _) |- _ => apply bind_ok in H as (? & ? & ? & ?)
  | H : mret _ _ = Ok (_, _) |- _ => apply ret_ok in H as [? ?]
  | H : lift _ _ = Ok (_, _) |- _ => apply lift_ok in H as [? ?]
  | H : require_that _ _ _ = Ok (_, _) |- _ => apply require_ok in H as [? ?]
  | H : gets _ _ = Ok (_, _) |- _ => apply gets_ok in H as [? ?]
  | H : exists_row _ _ = Ok (_, _) |- _ => unfold exists_row in H; apply gets_ok in H as [? ?]
  | H : throw _ _ = Ok (_, _) |- _ => by apply throw_ok in H
  | H : scan _ _ = Ok (_, _) |- _ => apply (proj1 (scan_ok _ _ _ _)) in H
  | H : select _ _ = Ok (_, _) |- _ => apply select_ok in H as [? ?]
  | H : fresh _ = Ok (_, _) |- _ => apply fresh_ok in H as [? ?]
  | H : default_now _ _ = Ok (_, _) |- _ => apply default_now_ok in H as [? ?]
  | H : try_err _ _ _ = Ok (_, _) |- _ => apply try_err_ok in H as [(? & ? & ?)|(? & ? & ?)]
  | H : Some _ = Some _ |- _ => injection H as ?
  | H : Some _ = None |- _ => discriminate H
  | H : None = Some _ |- _ => discriminate H
  | H : (_, _) = (_, _) |- _ => injection H as ? ?
  | H : Committed _ = Committed _ |- _ => injection H as ?
  | H : Committed _ = RolledBack _ |- _ => discriminate H
  | H : RolledBack _ = Committed _ |- _ => discriminate H
  | H : RolledBack _ = RolledBack _ |- _ => injection H as ?
  | x : (_ * _)%type |- _ => destruct x
  | H : ?x = _ |- _ => is_var x; subst x
  | H : _ = ?x |- _ => is_var x; subst x
  end.
Ltac run_inv := repeat (run_inv_step; simpl in *).

(** ** Frames *)

Definition keeps {A} (R : relation Db) (m : M A) : Prop := ∀ db a db', m db = Ok (a, db') → R db db'.

Existing Class keeps.

(** A preorder that ignores drawn identifiers and the period bindings of new records. *)
Class Frame (R : relation Db) := {
  frame_pre :: PreOrder R;
  frame_serial : ∀ db n, R db (db <| db_serial := n |>);
  frame_wall : ∀ db ts, R db (db <| db_wall := ts |>);
  frame_intent_periods : ∀ db bs, R db (db <| db_intent_periods := bs |>);
  frame_method_periods : ∀ db bs, R db (db <| db_method_periods := bs |>)
}.
(** A relation that ignores a table. *)
Class Skips (R : relation Db) (T : Type) `{!Table T} := skips : ∀ (rows : list T) db, R db (t_put rows db).

Section frames.
Context (R : relation Db) `{!PreOrder R}.
Context {A B : Type}.

Lemma keeps_bind (m : M A) (f : A → M B) : keeps R m → (∀ a, keeps R (f a)) → keeps R (m ≫= f).
Proof.
  intros Hm Hf db b db' (a & db1 & H1 & H2)%bind_ok.
  transitivity db1; [by eapply Hm|by eapply Hf].
Qed.
(** A computation that leaves the database as it is. *)
Lemma keeps_pure (m : M A) : (∀ db a db', m db = Ok (a, db') → db' = db) → keeps R m.
Proof. intros Hm db a db' H. by rewrite (Hm _ _ _ H). Qed.
Lemma keeps_ret (a : A) : keeps R (mret a : M A).
Proof. apply keeps_pure. by intros ??? [_ ?]%ret_ok. Qed.
Lemma keeps_lift (r : Result A) : keeps R (lift r).
Proof. apply keeps_pure. by intros ??? [_ ?]%lift_ok. Qed.
Lemma keeps_gets (f : Db → A) : keeps R (gets f).
Proof. apply keeps_pure. by intros ??? [_ ?]%gets_ok. Qed.
Lemma keeps_throw e : keeps R (throw e : M A).
Proof. by intros ????. Qed.
Lemma keeps_scan (m : M A) : keeps R m → keeps R (scan m).
Proof. intros Hm db a db' H. apply (proj1 (scan_ok _ _ _ _)) in H. by apply (Hm db a). Qed.
Lemma keeps_on_duplicate e (m : M A) : keeps R m → keeps R (on_duplicate e m).
Proof. intros Hm db a db' H%on_duplicate_ok. by apply (Hm db a). Qed.
Lemma keeps_try e (m : M A) : keeps R m → keeps R (try_err e m).
Proof. intros Hm db a db' [(? & _ & ?)|(_ & -> & _)]%try_err_ok; [by eapply Hm|done]. Qed.
Lemma keeps_withTx (m : M (Outcome A)) : keeps R m → keeps R (withTx m).
Proof. intros Hm db a db' [?|[-> _]]%withTx_ok; [by eapply Hm|done]. Qed.
End frames.

Section frame_statements.
Context (R : relation Db) `{!PreOrder R}.

Lemma keeps_require b e : keeps R (require_that b e).
Proof. apply keeps_lift, _. Qed.
Lemma keeps_barrier c fenced : keeps R (barrier c fenced).
Proof. apply keeps_pure; [apply _|]. by intros ??? [_ ?]%barrier_ok. Qed.
Lemma keeps_default_now now : keeps R (default_now now).
Proof. apply keeps_pure; [apply _|]. by intros ??? [_ ?]%default_now_ok. Qed.
Lemma keeps_fresh `{!Postgres, !Frame R} : keeps R fresh.
Proof. intros db a db' [_ ->]%fresh_ok. apply frame_serial. Qed.
Lemma keeps_clock_timestamp `{!Frame R} : keeps R clock_timestamp.
Proof.
  intros db a db'. unfold clock_timestamp. destruct (db_wall db); intros [= <- <-]; [done|apply frame_wall].
Qed.
Lemma keeps_bind_intent i `{!Frame R} : keeps R (bind_intent i).
Proof. intros db a db' [= <- <-]. apply frame_intent_periods. Qed.
Lemma keeps_bind_method m `{!Frame R} : keeps R (bind_method m).
Proof. intros db a db' [= <- <-]. apply frame_method_periods. Qed.

Context {T : Type} `{!Table T}.
Lemma keeps_select (p : T → bool) : keeps R (select p).
Proof. apply keeps_pure; [apply _|]. by intros ??? [_ ?]%select_ok. Qed.
Lemma keeps_exists_row (p : T → bool) : keeps R (exists_row p).
Proof. apply keeps_gets, _. Qed.

Context `{!Skips R T}.
Lemma keeps_insert_row (r : T) : keeps R (insert_row r).
Proof. intros db a db' (_ & _ & _ & ->)%insert_row_ok. apply skips. Qed.
Lemma keeps_insert_or_nothing target (r : T) : keeps R (insert_or_nothing target r).
Proof. intros db a db' H%insert_or_nothing_ok. by eapply keeps_insert_row. Qed.
Lemma keeps_update_rows (p : T → bool) f : keeps R (update_rows p f).
Proof. intros db a db' (_ & _ & _ & ->)%update_rows_ok. apply skips. Qed.
Lemma keeps_update_one (p : T → bool) f : keeps R (update_one p f).
Proof. intros db a db' [? H]%update_one_ok. by eapply keeps_update_rows. Qed.
Lemma keeps_update_fenced acct allowed (p : T → bool) f : keeps R (update_fenced acct allowed p f).
Proof. intros db a db' [_ H]%update_fenced_ok. by eapply keeps_update_rows. Qed.
End frame_statements.

Lemma keeps_first_row (R : relation Db) {T} (m : M (list T)) : keeps R m → keeps R (first_row m).
Proof. intros Hm db a db' [? H]%first_row_ok. by eapply Hm. Qed.

(** The lemmas about statements and whole operations are instances, found by resolution. *)
#[export] Existing Instances keeps_ret keeps_lift keeps_gets keeps_throw keeps_require
  keeps_barrier keeps_default_now keeps_fresh keeps_clock_timestamp keeps_bind_intent keeps_bind_method keeps_select
  keeps_exists_row keeps_insert_row keeps_insert_or_nothing keeps_update_rows keeps_update_one
  keeps_update_fenced keeps_first_row.

Ltac keeps :=
  intros;
  repeat first
    [ solve [apply _]
    | apply keeps_bind; [apply _| |intros ?]
    | apply keeps_scan | apply keeps_on_duplicate | apply keeps_try; [apply _|] | apply keeps_withTx; [apply _|]
    | apply keeps_first_row
    | match goal with
      | |- keeps _ (match ?x with _ => _ end) => destruct x
      | |- keeps _ (let _ := _ in _) => cbv zeta
      end ].

(** ** Statements with triggers *)
Section fenced.
Context (R : relation Db) `{!Frame R}.

Lemma keeps_insert_attempt a `{!Skips R PaymentAttempt} : keeps R (insert_attempt a).
Proof. unfold insert_attempt, closure_barrier. keeps. Qed.
Lemma keeps_insert_method m `{!Skips R MethodRow} : keeps R (insert_method m).
Proof. unfold insert_method, closure_barrier. keeps. Qed.
Lemma keeps_insert_consent c `{!Skips R PaymentConsent} : keeps R (insert_consent c).
Proof. unfold insert_consent, closure_barrier. keeps. Qed.
Lemma keeps_insert_policy p `{!Skips R AutoTopUpPolicy} : keeps R (insert_policy p).
Proof. unfold insert_policy, closure_barrier. keeps. Qed.
Lemma keeps_insert_setup s `{!Skips R PaymentMethodSetupSession} : keeps R (insert_setup s).
Proof. unfold insert_setup, closure_barrier. keeps. Qed.
Lemma keeps_update_policies p f `{!Skips R AutoTopUpPolicy} : keeps R (update_policies p f).
Proof. unfold update_policies. keeps. Qed.
Lemma keeps_update_methods p f `{!Skips R MethodRow} : keeps R (update_methods p f).
Proof. unfold update_methods, closure_barrier. keeps. Qed.
Lemma keeps_update_consents p f `{!Skips R PaymentConsent} : keeps R (update_consents p f).
Proof. unfold update_consents, closure_barrier. keeps. Qed.
Lemma keeps_update_setups p f `{!Skips R PaymentMethodSetupSession} : keeps R (update_setups p f).
Proof. unfold update_setups, closure_barrier. keeps. Qed.
End fenced.

#[export] Existing Instances keeps_insert_attempt keeps_insert_method
  keeps_insert_consent keeps_insert_policy keeps_insert_setup keeps_update_policies
  keeps_update_methods keeps_update_consents keeps_update_setups.

(** ** The two statements with effects on money

    Relations that allow a new intent (not a succeeded one), and relations that allow a change of an account's
    state (never to [closed]), without ignoring those tables altogether. *)
Class NewIntent (i : PaymentIntent) := new_intent : intent_State i ≠ PaymentIntentStateSucceeded.
Class SkipsNewIntent (R : relation Db) := skips_new_intent :
  ∀ i, NewIntent i → keeps R (insert_intent i).
Class OpenState (s : AccountState) := open_state : s ≠ AccountStateClosed.
#[export] Instance open_active : OpenState AccountStateActive.
Proof. done. Qed.
#[export] Instance open_attention : OpenState AccountStateAttentionRequired.
Proof. done. Qed.
#[export] Instance open_if (b : bool) s t `{!OpenState s, !OpenState t} : OpenState (if b then s else t).
Proof. by destruct b. Qed.
Class SkipsState (R : relation Db) := skips_state :
  ∀ accountID (f : CommercialAccount → CommercialAccount) state, state ≠ AccountStateClosed →
    (∀ a, f a = a <| account_State := state |>) → keeps R (update_account accountID f).

#[export] Instance Skips_new_intent R `{!Frame R, !Skips R PaymentIntent} : SkipsNewIntent R.
Proof. intros i _. unfold insert_intent, closure_barrier, handoff_barrier. keeps. Qed.
(** An UPDATE that leaves the identity of an account alone. *)
Class SameAccount (f : CommercialAccount → CommercialAccount) := same_account : ∀ a,
  account_ID (f a) = account_ID a ∧ account_OrganizationID (f a) = account_OrganizationID a ∧
  account_Currency (f a) = account_Currency a.
#[export] Hint Extern 1 (SameAccount _) => intros ?; repeat split; reflexivity : typeclass_instances.

(** Relations that such an UPDATE keeps, by the barriers it passes. *)
Class KeepsAccount (R : relation Db) := keeps_account :
  ∀ accountID f, SameAccount f → keeps R (update_account accountID f).
#[export] Instance Skips_account R `{!Frame R, !Skips R CommercialAccount} : KeepsAccount R.
Proof. intros accountID f _. unfold update_account, closure_barrier, handoff_barrier. keeps. Qed.
#[export] Instance KeepsAccount_state R `{!KeepsAccount R} : SkipsState R.
Proof.
  intros accountID f state _ Hf. apply keeps_account. intros a. rewrite Hf. by split_and!.
Qed.

(** Relations that the INSERT of a ledger entry keeps. *)
Class KeepsEntry (R : relation Db) := keeps_entry : ∀ e, keeps R (insert_entry e).
#[export] Instance Skips_entry R `{!Frame R, !Skips R LedgerEntry} : KeepsEntry R.
Proof. intros e. unfold insert_entry, closure_barrier, handoff_barrier. keeps. Qed.

#[export] Existing Instances keeps_account keeps_entry skips_new_intent.

(** [frame H]: the goal [R db db'] from the run [H : m db = Ok (a, db')]. *)
Ltac frame H :=
  match type of H with
  | ?m ?db = Ok (?a, ?db') =>
      match goal with
      | |- ?R _ _ => let Hk := fresh in
          assert (keeps R m) as Hk by (first [apply _ | keeps]); exact (Hk db a db' H)
      end
  end.
