(* ===== verification/Fixtures.v ===== *)
(** * A concrete store

    An instance of the external values and a small database, at which the witnesses of
    the store's theorems are evaluated: an active account of 1000 TWD funded by one
    top-up, with an automatic top-up policy on a vaulted card, a succeeded intent, a
    created automatic intent with its due charge job, and a current responsibility
    period. *)
From S2P Require Import Prelude GoStrings GoTime BillingTypes PaymentTypes Payment Database Tables.

Definition demo_pg : Postgres := {|
  pg_uuid n := "00000000-0000-4000-8000-" +:+ pretty (500000000000 + N.of_nat n)%N; pg_time t := t; pg_valid_uuid s := s != "" |}.

Definition demo_paid_id : string := "00000000-0000-4000-8000-000000000001".
Definition demo_new_id : string := "00000000-0000-4000-8000-000000000002".

Definition demo_digest : string := "e3b0c44298fc1c149afbf4c8996fb92427ae41e4649b934ca495991b7852b855".

(** A hash with results of the right shape: the hexadecimal digits of the text, filled up. *)
Fixpoint demo_digits (s : string) : string :=
  match s with
  | String a s => if is_hex (Ascii.N_of_ascii a) then String a (demo_digits s) else demo_digits s
  | "" => ""
  end.
Definition zeros : string := "0000000000000000000000000000000000000000000000000000000000000000".
Definition demo_hash (s : string) : string := String.substring 0 64 (demo_digits s +:+ zeros).

Fixpoint demo_json (j : json_value) : string :=
  match j with
  | JString s => s
  | JNumber z | JTime z => pretty z
  | JBool b => if b then "t" else "f"
  | JObject fields => String.concat "," ((fun '(k, v) => k +:+ demo_json v) <$> fields)
  | JArray items => String.concat "," (demo_json <$> items)
  | JNull => ""
  end.

Definition demo_dg : Digest := {|
  json_text := demo_json; jsonb_text := demo_json; sha256_hex := demo_hash;
  settlement_text v := let '(id, balance, version, _, _) := view_account v in
    id +:+ "," +:+ pretty balance +:+ "," +:+ pretty version |}.

Definition demo_account : CommercialAccount :=
  mkCommercialAccount "acc" "org" TWD 1000 AccountStateActive 1 0 0.
Definition demo_other_account : CommercialAccount :=
  mkCommercialAccount "acc2" "org2" TWD 0 AccountStateActive 0 0 0.

Definition demo_caps : ProviderCapabilities := mkProviderCapabilities true true true true true true true false.
Definition demo_method : MethodRow :=
  mkMethodRow (mkPaymentMethod "pm" "acc" "paypal" PaymentMethodStatusActive "visa" "4242" (Some 1)
    (Some 2030) demo_caps "con" 0 0) "customer" "method" demo_digest.
Definition demo_consent (id kind : string) : PaymentConsent :=
  mkPaymentConsent id "acc" kind "v1" demo_digest "user" "user-1" 0 "en" "portal" None "" 0 0.
Definition demo_policy : AutoTopUpPolicy :=
  mkAutoTopUpPolicy "pol" "acc" true 600 500 TWD "pm" 3 1500 300 1 1 true 0 None None "con2" 0 0.

Definition demo_intent (id : string) (state : PaymentIntentState) (completedAt : option Time) : PaymentIntent :=
  mkPaymentIntent id "acc" 1000 TWD PaymentIntentReasonManualTopUp None "" "paypal" "pm" state
    ("key-" +:+ id) "" "" "corr" 0 0 completedAt.
Definition demo_credit : LedgerEntry :=
  mkLedgerEntry "entry" "acc" LedgerDirectionCredit 1000 TWD LedgerReasonPaymentTopUpCredit
    "payment_intent" demo_paid_id "payment_intent" demo_paid_id 1000 "service" "payment_worker" "corr" 0.
Definition demo_job : ReconciliationJob :=
  mkReconciliationJob "job" demo_new_id ReconciliationReasonCharge ReconciliationStatusPending 0 0 None "" "" 0 0.
Definition demo_period : ResponsibilityPeriod :=
  mkResponsibilityPeriod "period" "acc" "user-1" 1 0 None demo_digest None.

Definition demo_now : Time := 1000 * Second.

Definition no_handoff_tables : HandoffTables := mkHandoffTables [] [] [] [] [] [] [].
Definition no_closure_tables : ClosureTables := mkClosureTables [] [] [] [] [] [] [] [] [].
Definition no_billing_tables : BillingTables := mkBillingTables [] [] [] [] [] [] [] [] [] [] [] [] 0.

Definition demo_db : Db := {|
  db_accounts := [demo_account; demo_other_account]; db_entries := [demo_credit];
  db_consents := [demo_consent "con" "payment_method"; demo_consent "con2" "auto_topup"];
  db_methods := [demo_method]; db_policies := [demo_policy];
  db_intents := [demo_intent demo_paid_id PaymentIntentStateSucceeded (Some 0);
                 demo_intent demo_new_id PaymentIntentStateCreated None];
  db_attempts := []; db_jobs := [demo_job]; db_receipts := []; db_emails := [];
  db_periods := [demo_period];
  db_intent_periods := [mkPeriodBinding demo_paid_id "acc" "period" demo_digest];
  db_method_periods := [mkPeriodBinding "pm" "acc" "period" demo_digest];
  db_handoffs := []; db_commit_authorizations := []; db_committed_decisions := [];
  db_closures := []; db_closure_revocations := []; db_setups := []; db_observations := [];
  db_reversals := []; db_allocations := []; db_reviews := []; db_profiles := [];
  db_handoff := no_handoff_tables; db_closure := no_closure_tables; db_billing := no_billing_tables;
  db_serial := 0;
  db_now := demo_now; db_wall := []; db_clock := demo_now |}.

