(* ===== verification/Accounts.v ===== *)
(** * Accounts, tenant authority and fences

    [internal/paymentstore/accounts.go], the write-side check of
    [internal/billingidentity/owner.go], the visibility predicates of [privacy.go] and
    the handoff fence of [handoff.go]. *)
From S2P Require Import Prelude GoStrings GoTime BillingTypes PaymentTypes Payment Database Tables.
From S2P Require Import Keeps.

(** ** [billingidentity] *)

Record Scope := mkScope {
  scope_OrganizationID : string;
  scope_AccountID : string;
  scope_UserID : string;
  scope_OwnershipVersion : Z
}.

(** [FromContext]: the scope of a request context, absent for internal workers. *)
Definition Ctx := option Scope.

Section accounts.
Context {pg : Postgres}.

Definition ValidUUID (value : string) : bool := pg_valid_uuid value.

(** The handoffs and closures during which no tenant write may start. *)
Definition committing (db : Db) (accountID : string) : bool :=
  commit_fenced db accountID || closure_open db accountID.

Definition LockAccount (ctx : Ctx) (accountID : string) : M unit :=
  match ctx with
  | None => mret tt
  | Some scope =>
      _ ← require_that (negb ((scope_AccountID scope != accountID) || negb (ValidUUID accountID)
             || negb (ValidUUID (scope_OrganizationID scope)) || negb (ValidUUID (scope_UserID scope))
             || (scope_OwnershipVersion scope <? 1))) ErrIdentityDenied;
      found ← try_err ErrNoRows (select (fun a => account_ID a == accountID));
      match found with
      | None => throw ErrIdentityDenied
      | Some account =>
          _ ← require_that (negb ((account_OrganizationID account != scope_OrganizationID scope)
                 || (account_State account == "closed"))) ErrIdentityDenied;
          period ← gets (fun db => current_period db accountID);
          match period with
          | None => throw ErrIdentityUnavailable
          | Some p =>
              _ ← require_that (period_OwnerUserID p == scope_UserID scope) ErrIdentityDenied;
              _ ← require_that (period_OwnershipVersion p =? scope_OwnershipVersion scope)
                    ErrIdentityVersion;
              busy ← gets (fun db => committing db accountID);
              require_that (negb busy) ErrIdentityTransition
          end
      end
  end.

(** The read of [AuthorizeOwner]: the scope a request gets. *)
Definition AuthorizeOwner (organizationID userID : string) (version : Z) : M Scope :=
  _ ← require_that (negb (negb (ValidUUID organizationID) || negb (ValidUUID userID)
         || (version <? 1))) ErrIdentityInvalid;
  found ← try_err ErrNoRows (select (fun a => (account_OrganizationID a == organizationID)
                                             && (account_Currency a == Settlement)));
  match found with
  | None => throw ErrIdentityUnavailable
  | Some account =>
      period ← gets (fun db => current_period db (account_ID account));
      match period with
      | None => throw ErrIdentityUnavailable
      | Some p =>
          _ ← require_that (negb ((period_OwnerUserID p != userID)
                 || (account_State account == "closed"))) ErrIdentityDenied;
          _ ← require_that (period_OwnershipVersion p =? version) ErrIdentityVersion;
          busy ← gets (fun db => committing db (account_ID account));
          _ ← require_that (negb busy) ErrIdentityTransition;
          mret (mkScope organizationID (account_ID account) userID version)
      end
  end.

(** ** [privacy.go] *)

(** The binding of a record to a period of the scope's user (and version). *)
Definition periodVisibility (ctx : Ctx) (bindings : list PeriodBinding) (db : Db)
    (recordID accountID : string) (currentVersion : bool) : bool :=
  match ctx with
  | None => true
  | Some scope =>
      existsb (fun b => (binding_RecordID b == recordID) && (binding_AccountID b == accountID)
          && existsb (fun p => (period_ID p == binding_PeriodID b)
                 && (period_OwnerUserID p == scope_UserID scope)
                 && (negb currentVersion || (period_OwnershipVersion p =? scope_OwnershipVersion scope)))
               (db_periods db)) bindings
  end.

Definition methodVisibility (ctx : Ctx) (db : Db) (m : PaymentMethod) (current : bool) : bool :=
  periodVisibility ctx (db_method_periods db) db (method_ID m) (method_AccountID m) current.

Definition requireCurrentIntentReplay (ctx : Ctx) (intentID : string) : M unit :=
  match ctx with
  | None => mret tt
  | Some _ =>
      visible ← gets (fun db => existsb (fun i => (intent_ID i == intentID)
        && periodVisibility ctx (db_intent_periods db) db (intent_ID i) (intent_AccountID i) true)
        (db_intents db));
      require_that visible ErrIdempotencyConflict
  end.

(** ** [handoff.go] *)

(** [canonicalUUID]: not the nil UUID either. *)
Definition canonicalUUID (value : string) : bool :=
  ValidUUID value && (value != "00000000-0000-0000-0000-000000000000").

Definition databaseTime (value : Time) : Time := Truncate (UTC value) Microsecond.

Definition requireNoHandoffTx (accountID : string) : M unit :=
  fenced ← gets (fun db => handoff_open db accountID || closure_open db accountID);
  require_that (negb fenced) ErrHandoffFenced.

(** ** [accounts.go] *)

Definition getAccountForUpdate (ctx : Ctx) (accountID : string) : M CommercialAccount :=
  _ ← LockAccount ctx accountID;
  scan (select (fun a => account_ID a == accountID)).

Definition GetCommercialAccount (ctx : Ctx) (accountID : string) : M CommercialAccount :=
  match ctx with
  | Some _ => withTx (account ← getAccountForUpdate ctx accountID; mret (Committed account))
  | None => scan (select (fun a => account_ID a == accountID))
  end.

Definition by_organization (organizationID : string) (code : Currency) (a : CommercialAccount) : bool :=
  (account_OrganizationID a == organizationID) && (account_Currency a == code).

(** The account, and whether it was created. *)
Definition EnsureCommercialAccount (ctx : Ctx) (organizationID : string) (code : Currency) :
    M (CommercialAccount * bool) :=
  match ctx with
  | Some scope =>
      _ ← require_that (negb ((scope_OrganizationID scope != organizationID) || negb (CanSettle code)))
            ErrIdentityDenied;
      account ← GetCommercialAccount ctx (scope_AccountID scope);
      mret (account, false)
  | None =>
      _ ← require_that (required organizationID) ErrConflict;
      _ ← lift (ValidateCurrency code);
      id ← fresh;
      now ← gets db_now;
      created ← try_err ErrNotFound (scan (insert_or_nothing
        (fun a b => by_organization (account_OrganizationID b) (account_Currency b) a)
        (mkCommercialAccount id organizationID code 0 AccountStateActive 0 now now)));
      match created with
      | Some account => mret (account, true)
      | None =>
          account ← scan (select (by_organization organizationID code));
          mret (account, false)
      end
  end.

Definition GetCommercialAccountByOrganization (ctx : Ctx) (organizationID : string) (code : Currency) :
    M CommercialAccount :=
  match ctx with
  | Some scope =>
      _ ← require_that (negb ((scope_OrganizationID scope != organizationID) || negb (CanSettle code)))
            ErrIdentityDenied;
      GetCommercialAccount ctx (scope_AccountID scope)
  | None =>
      _ ← require_that (negb (negb (required organizationID) || negb (is_ok (ValidateCurrency code))))
            ErrConflict;
      scan (select (by_organization organizationID code))
  end.
(** ** Frames *)
Section frames.
Context (R : relation Db) `{!PreOrder R}.

Lemma keeps_LockAccount ctx accountID : keeps R (LockAccount ctx accountID).
Proof. unfold LockAccount. keeps. Qed.
Lemma keeps_AuthorizeOwner organizationID userID version :
  keeps R (AuthorizeOwner organizationID userID version).
Proof. unfold AuthorizeOwner. keeps. Qed.
Lemma keeps_requireCurrentIntentReplay ctx intentID : keeps R (requireCurrentIntentReplay ctx intentID).
Proof. unfold requireCurrentIntentReplay. keeps. Qed.
Lemma keeps_requireNoHandoffTx accountID : keeps R (requireNoHandoffTx accountID).
Proof. unfold requireNoHandoffTx. keeps. Qed.
Local Existing Instance keeps_LockAccount.
Lemma keeps_getAccountForUpdate ctx accountID : keeps R (getAccountForUpdate ctx accountID).
Proof. unfold getAccountForUpdate. keeps. Qed.
End frames.
End accounts.

#[export] Existing Instances keeps_LockAccount keeps_AuthorizeOwner
  keeps_requireCurrentIntentReplay keeps_requireNoHandoffTx keeps_getAccountForUpdate.
