(* ===== verification/Ledger.v ===== *)
(** * The ledger: [internal/paymentstore/ledger.go]

    Posting an entry, with its idempotency key, the balance projection, the automatic
    top-up a debit may trigger and the re-arming a credit may cause. *)
From S2P Require Import Prelude GoStrings GoTime BillingTypes PaymentTypes Payment Database Tables.
From S2P Require Import Accounts Keeps Fixtures.

Record PostLedgerEntryInput := mkPostLedgerEntryInput {
  post_AccountID : string;
  post_Direction : LedgerDirection;
  post_AmountMinor : Z;
  post_Currency : Currency;
  post_Reason : LedgerReason;
  post_IdempotencyScope : string;
  post_IdempotencyKey : string;
  post_ExternalType : string;
  post_ExternalID : string;
  post_ActorType : string;
  post_ActorID : string;
  post_RequestID : string;
  post_Now : Time
}.

Record PostLedgerEntryResult := mkPostLedgerEntryResult {
  posted_Account : CommercialAccount;
  posted_Entry : LedgerEntry;
  posted_Intent : option PaymentIntent;
  posted_Duplicate : bool
}.

Definition isSettlementReversal (reason : LedgerReason) : bool :=
  (reason == LedgerReasonRefundDebit) || (reason == LedgerReasonChargebackDebit).

Definition validateLedgerInput (in_ : PostLedgerEntryInput) : Result unit :=
  if negb (required (post_AccountID in_)) || negb (required (post_IdempotencyScope in_))
     || negb (required (post_IdempotencyKey in_)) then Err ErrConflict else
  if (required (post_ExternalType in_) && negb (required (post_ExternalID in_)))
     || (negb (required (post_ExternalType in_)) && required (post_ExternalID in_))
  then Err ErrConflict else
  if (required (post_ActorType in_) && negb (required (post_ActorID in_)))
     || (negb (required (post_ActorType in_)) && required (post_ActorID in_))
  then Err ErrConflict else
  _ ← ValidateChargeAmount (post_Currency in_) (post_AmountMinor in_);
  ValidateLedgerReason (post_Direction in_) (post_Reason in_).

Definition sameLedgerRequest (existing : LedgerEntry) (in_ : PostLedgerEntryInput) : bool :=
  (entry_AccountID existing == post_AccountID in_)
  && (entry_Direction existing == post_Direction in_)
  && (entry_AmountMinor existing == post_AmountMinor in_)
  && (entry_Currency existing == post_Currency in_)
  && (entry_Reason existing == post_Reason in_)
  && (entry_IdempotencyScope existing == TrimSpace (post_IdempotencyScope in_))
  && (entry_IdempotencyKey existing == TrimSpace (post_IdempotencyKey in_))
  && (entry_ExternalType existing == TrimSpace (post_ExternalType in_))
  && (entry_ExternalID existing == TrimSpace (post_ExternalID in_))
  && (entry_ActorType existing == TrimSpace (post_ActorType in_))
  && (entry_ActorID existing == TrimSpace (post_ActorID in_)).

(** [policyDayStart] of [policy.go]. *)
Definition policyDayStart (now : Time) : Time := (DailyLimitWindow now).1.

(** The automatic top-ups of the account since the start of the day. *)
Definition auto_topups_since (db : Db) (accountID : string) (since : Time) : list PaymentIntent :=
  filter (fun i => (intent_AccountID i == accountID) && (intent_Reason i == "auto_top_up")
                   && (since <=? intent_CreatedAt i) = true) (db_intents db).

(** Their amount, the failed and canceled ones apart. *)
Definition topup_amount (intents : list PaymentIntent) : Z :=
  sum_by intent_AmountMinor
    (filter (fun i => negb (one_of (intent_State i) ["failed"; "canceled"]) = true) intents).

Section ledger.
Context {pg : Postgres}.

Definition getLedgerEntryByIdempotency (accountID scope key : string) : M LedgerEntry :=
  scan (select (fun e => (entry_AccountID e == accountID)
    && (entry_IdempotencyScope e == TrimSpace scope) && (entry_IdempotencyKey e == TrimSpace key))).

Definition getIntentByTriggerLedgerEntry (ledgerEntryID : string) : M PaymentIntent :=
  scan (select (fun i => (intent_TriggerLedgerEntryID i != "")
                         && (intent_TriggerLedgerEntryID i == ledgerEntryID))).

(** [getPolicyForUpdate] of [policy.go], [getPaymentMethodForUpdate] of [methods.go]. *)
Definition getPolicyForUpdate (accountID : string) : M AutoTopUpPolicy :=
  scan (select (fun p => policy_AccountID p == accountID)).

Definition getPaymentMethodForUpdate (ctx : Ctx) (methodID : string) : M PaymentMethod :=
  db ← gets (fun db => db);
  row ← scan (select (fun r => (method_ID (mrow_method r) == methodID)
                               && methodVisibility ctx db (mrow_method r) true));
  mret (mrow_method row).

(** The row the INSERT builds from the request and the new balance. *)
Definition new_entry (id : string) (accountID : string) (in_ : PostLedgerEntryInput) (balance : Z) :
    LedgerEntry :=
  {| entry_ID := id; entry_AccountID := accountID; entry_Direction := post_Direction in_;
     entry_AmountMinor := post_AmountMinor in_; entry_Currency := post_Currency in_;
     entry_Reason := post_Reason in_;
     entry_IdempotencyScope := TrimSpace (post_IdempotencyScope in_);
     entry_IdempotencyKey := TrimSpace (post_IdempotencyKey in_);
     entry_ExternalType := TrimSpace (post_ExternalType in_);
     entry_ExternalID := TrimSpace (post_ExternalID in_); entry_BalanceAfterMinor := balance;
     entry_ActorType := TrimSpace (post_ActorType in_); entry_ActorID := TrimSpace (post_ActorID in_);
     entry_RequestID := TrimSpace (post_RequestID in_); entry_CreatedAt := pg_time (post_Now in_) |}.

Definition insertLedgerEntryTx (account : CommercialAccount) (in_ : PostLedgerEntryInput) :
    M (LedgerEntry * CommercialAccount) :=
  nextBalance ← lift (ApplyBalance (account_AvailableBalanceMinor account) (post_Direction in_)
                        (post_AmountMinor in_));
  id ← fresh;
  entry ← scan (insert_entry (new_entry id (account_ID account) in_ nextBalance));
  account ← scan (update_account (account_ID account) (fun a =>
    a <| account_AvailableBalanceMinor := nextBalance |> <| account_Version ::= Z.succ |>));
  mret (entry, account).

Definition set_account_state (accountID : string) (state : AccountState) : M CommercialAccount :=
  scan (update_account accountID (fun a => a <| account_State := state |>)).

Definition disarmAutoTopUpAfterSettlementReversalTx (account : CommercialAccount) : M CommercialAccount :=
  rows ← update_policies (fun p => (policy_AccountID p == account_ID account) && policy_Armed p)
           (fun p => p <| policy_Armed := false |> <| policy_Version ::= Z.succ |>);
  if (length rows =? 0)%nat || (account_State account != AccountStateActive) then mret account
  else set_account_state (account_ID account) AccountStateAttentionRequired.

(** A pending job of an intent. *)
Definition new_job (id intentID : string) (reason : ReconciliationReason) (dueAt now : Time) :
    ReconciliationJob :=
  mkReconciliationJob id intentID reason ReconciliationStatusPending (pg_time dueAt) 0 None "" "" now now.

Definition insert_job (intentID : string) (reason : ReconciliationReason) (dueAt : Time) :
    M ReconciliationJob :=
  id ← fresh; now ← gets db_now; insert_row (new_job id intentID reason dueAt now).

(** The automatic intent of a trigger. *)
Definition new_auto_intent (id : string) (account : CommercialAccount) (policy : AutoTopUpPolicy)
    (method : PaymentMethod) (trigger : LedgerEntry) (now : Time) (correlationID : string) :
    PaymentIntent :=
  {| intent_ID := id; intent_AccountID := account_ID account;
     intent_AmountMinor := policy_TopUpAmountMinor policy; intent_Currency := policy_Currency policy;
     intent_Reason := PaymentIntentReasonAutoTopUp;
     intent_PolicyGeneration := Some (policy_Generation policy);
     intent_TriggerLedgerEntryID := entry_ID trigger; intent_Provider := method_Provider method;
     intent_PaymentMethodID := method_ID method; intent_State := PaymentIntentStateCreated;
     intent_IdempotencyKey := "auto/" +:+ policy_ID policy +:+ "/" +:+ pretty (policy_Generation policy)
                              +:+ "/" +:+ entry_ID trigger;
     intent_MerchantOrderReference := ""; intent_ProviderTransactionReference := "";
     intent_CorrelationID := correlationID; intent_CreatedAt := pg_time now;
     intent_UpdatedAt := pg_time now; intent_CompletedAt := None |}.

Definition evaluateAutoTopUpTx (ctx : Ctx) (account : CommercialAccount) (trigger : LedgerEntry)
    (now : Time) (correlationID : string) : M (option PaymentIntent) :=
  free ← try_err ErrHandoffFenced (requireNoHandoffTx (account_ID account));
  match free with
  | None => mret None
  | Some _ =>
  found ← try_err ErrNotFound (getPolicyForUpdate (account_ID account));
  match found with
  | None => mret None
  | Some policy =>
      _ ← lift (ValidatePolicy policy);
      method ← getPaymentMethodForUpdate ctx (policy_PaymentMethodID policy);
      hasOpen ← exists_row (fun i => (intent_AccountID i == account_ID account) && intent_open i);
      today ← gets (fun db => auto_topups_since db (account_ID account) (pg_time (policyDayStart now)));
      _ ← require_that (IsInt64 (topup_amount today)) (ErrPg "22003" "");
      let decision := EvaluateAutoTopUp policy {|
        eval_BalanceMinor := account_AvailableBalanceMinor account; eval_Now := now;
        eval_AttemptsToday := Z.of_nat (length today);
        eval_AutomaticAmountTodayMinor := topup_amount today;
        eval_HasOpenIntent := hasOpen; eval_PaymentMethodStatus := method_Status method;
        eval_MerchantInitiatedCharge := cap_MerchantInitiatedCharge (method_Capabilities method) |} in
      if negb (decision_Trigger decision) then mret None else
      let correlationID := if required correlationID then correlationID else entry_ID trigger in
      id ← fresh;
      intent ← scan (insert_intent (new_auto_intent id account policy method trigger now correlationID));
      _ ← update_policies (fun p => policy_ID p == policy_ID policy)
            (fun p => p <| policy_Armed := false |> <| policy_LastTriggeredAt := Some (pg_time now) |>
                        <| policy_Version ::= Z.succ |>);
      _ ← insert_job (intent_ID intent) ReconciliationReasonCharge now;
      mret (Some intent)
  end
  end.

Definition rearmPolicyAfterCreditTx (account : CommercialAccount) : M CommercialAccount :=
  free ← try_err ErrHandoffFenced (requireNoHandoffTx (account_ID account));
  match free with
  | None => mret account
  | Some _ =>
  found ← try_err ErrNotFound (getPolicyForUpdate (account_ID account));
  match found with
  | None => mret account
  | Some policy =>
      if policy_Enabled policy
         && (account_AvailableBalanceMinor account >=? policy_ThresholdMinor policy) then
        _ ← update_policies (fun p => policy_ID p == policy_ID policy)
              (fun p => p <| policy_Armed := true |>
                          <| policy_Version := if policy_Armed p then policy_Version p
                                               else Z.succ (policy_Version p) |>);
        if account_State account == AccountStateAttentionRequired
        then set_account_state (account_ID account) AccountStateActive
        else mret account
      else mret account
  end
  end.

(** The transaction of [PostLedgerEntry]. *)
Definition postLedgerEntryTx (ctx : Ctx) (in_ : PostLedgerEntryInput) :
    M (Outcome PostLedgerEntryResult) :=
  account ← getAccountForUpdate ctx (post_AccountID in_);
  _ ← require_that (account_State account != AccountStateClosed) ErrAccountClosed;
  _ ← require_that (account_Currency account == post_Currency in_) ErrConflict;
  existing ← try_err ErrNotFound (getLedgerEntryByIdempotency (post_AccountID in_)
               (post_IdempotencyScope in_) (post_IdempotencyKey in_));
  match existing with
  | Some existing =>
      _ ← require_that (sameLedgerRequest existing in_) ErrIdempotencyConflict;
      intent ← try_err ErrNotFound (getIntentByTriggerLedgerEntry (entry_ID existing));
      mret (RolledBack (mkPostLedgerEntryResult account existing intent true))
  | None =>
      _ ← (if post_Direction in_ == LedgerDirectionCredit
           then requireNoHandoffTx (account_ID account) else mret tt);
      '(entry, account) ← insertLedgerEntryTx account in_;
      if (post_Direction in_ == LedgerDirectionDebit) && (account_State account == AccountStateActive)
      then
        intent ← evaluateAutoTopUpTx ctx account entry (post_Now in_) (post_RequestID in_);
        mret (Committed (mkPostLedgerEntryResult account entry intent false))
      else if post_Direction in_ == LedgerDirectionCredit then
        account ← rearmPolicyAfterCreditTx account;
        mret (Committed (mkPostLedgerEntryResult account entry None false))
      else mret (Committed (mkPostLedgerEntryResult account entry None false))
  end.

Definition with_now (now : Time) (in_ : PostLedgerEntryInput) : PostLedgerEntryInput :=
  mkPostLedgerEntryInput (post_AccountID in_) (post_Direction in_) (post_AmountMinor in_)
    (post_Currency in_) (post_Reason in_) (post_IdempotencyScope in_) (post_IdempotencyKey in_)
    (post_ExternalType in_) (post_ExternalID in_) (post_ActorType in_) (post_ActorID in_)
    (post_RequestID in_) now.

Definition PostLedgerEntry (ctx : Ctx) (in_ : PostLedgerEntryInput) : M PostLedgerEntryResult :=
  _ ← lift (validateLedgerInput in_);
  _ ← require_that (negb (isSettlementReversal (post_Reason in_))) ErrProviderReversalRequired;
  now ← default_now (post_Now in_);
  withTx (postLedgerEntryTx ctx (with_now now in_)).

End ledger.

(** ** The books *)

(** The effect of an entry on the balance. *)
Definition entry_delta (e : LedgerEntry) : Z := signed (entry_Direction e) (entry_AmountMinor e).
Definition account_sum (accountID : string) (entries : list LedgerEntry) : Z :=
  sum_by entry_delta (filter (fun e => entry_AccountID e = accountID) entries).

(** What the ledger says: the entries, and the identity and balance of each account. *)
Definition account_key (a : CommercialAccount) : string * (string * Currency) * Z :=
  (account_ID a, (account_OrganizationID a, account_Currency a), account_AvailableBalanceMinor a).
Definition same_books (db db' : Db) : Prop :=
  db_entries db' = db_entries db ∧ account_key <$> db_accounts db' = account_key <$> db_accounts db.

Record LedgerInv (db : Db) : Prop := {
  li_unique : NoDup (account_ID <$> db_accounts db);
  li_owner : ∀ e, e ∈ db_entries db → entry_AccountID e ∈ account_ID <$> db_accounts db;
  li_balance : ∀ a, a ∈ db_accounts db →
    account_AvailableBalanceMinor a = account_sum (account_ID a) (db_entries db)
    ∧ int64 (account_AvailableBalanceMinor a);
  li_history : ∀ l e k, db_entries db = l ++ e :: k →
    entry_BalanceAfterMinor e = account_sum (entry_AccountID e) (l ++ [e]);
  li_valid : ∀ e, e ∈ db_entries db →
    0 < entry_AmountMinor e ∧ ValidateLedgerReason (entry_Direction e) (entry_Reason e) = Ok tt
}.

#[export] Instance same_books_frame : Frame same_books.
Proof.
  unfold same_books. split; try done.
  - split; [done|]. intros x y z [H1 H2] [H3 H4]. split; congruence.
Qed.

#[export] Hint Extern 1 (Skips same_books _) => by intros ?? : typeclass_instances.

Lemma account_sum_snoc accountID l e :
  account_sum accountID (l ++ [e]) =
  account_sum accountID l + (if decide (entry_AccountID e = accountID) then entry_delta e else 0).
Proof.
  unfold account_sum. rewrite filter_app, sum_by_app, filter_cons, filter_nil.
  case_decide; simpl; lia.
Qed.

Lemma account_sum_none accountID l :
  (∀ e, e ∈ l → entry_AccountID e ≠ accountID) → account_sum accountID l = 0.
Proof.
  induction l as [|e l IH] using rev_ind; intros Hno; [done|]. rewrite account_sum_snoc.
  rewrite decide_False by (apply Hno; set_solver). rewrite IH; [done|]. set_solver.
Qed.

(** The invariant only looks at the books. *)
Lemma same_books_inv db db' : same_books db db' → LedgerInv db → LedgerInv db'.
Proof.
  intros [He Ha] [Hu Ho Hb Hh Hv].
  assert (account_ID <$> db_accounts db' = account_ID <$> db_accounts db) as Hid.
  { apply (f_equal (fmap (fun k => k.1.1))) in Ha. by rewrite <- !list_fmap_compose in Ha. }
  constructor; rewrite ?Hid, ?He; try done.
  intros a Hin'. assert (account_key a ∈ account_key <$> db_accounts db') as Hin
    by (apply list_elem_of_fmap; eauto).
  rewrite Ha in Hin.
  apply list_elem_of_fmap in Hin as (b & Hk & Hin). injection Hk as -> _ _ ->. by apply Hb.
Qed.

(** ** Updates of one account *)

Lemma find_account db accountID a :
  find (fun a => account_ID a == accountID) (db_accounts db) = Some a →
  a ∈ db_accounts db ∧ account_ID a = accountID.
Proof. intros [? ?%bool_decide_eq_true]%find_some_iff. done. Qed.

(** A successful UPDATE of an account by its identifier. *)
Lemma update_account_ok accountID f db a db' :
  update_account accountID f db = Ok (a, db') →
  ∃ old, find (fun a => account_ID a == accountID) (db_accounts db) = Some old ∧
  let g r := (f r) <| account_UpdatedAt := db_now db |> in
  (account_AvailableBalanceMinor (f old) = account_AvailableBalanceMinor old ∨
   closure_closed db accountID = false ∧ commit_fenced db accountID = false) ∧
  a = g old ∧
  db' = db <| db_accounts ::= fmap (fun r => if account_ID r == accountID then g r else r) |>.
Proof.
  unfold update_account, closure_barrier, handoff_barrier. intros H. rewrite bind_ok in H.
  destruct H as (old & db1 & [Hold ->]%select_ok & H). cbv zeta in H.
  rewrite bind_ok in H. destruct H as ([] & db1 & [Hc ->]%barrier_ok & H).
  rewrite bind_ok in H. destruct H as ([] & db1 & [Hh ->]%barrier_ok & H).
  apply update_one_ok in H as (rest & (Hr & _ & _ & ->)%update_rows_ok). exists old.
  split; [done|]. cbv zeta. split.
  - destruct (decide (account_AvailableBalanceMinor (f old) = account_AvailableBalanceMinor old)); [by left|].
    right. rewrite bool_decide_eq_false_2 in Hc, Hh by done. simpl in Hc, Hh.
    destruct (closure_closed db accountID); [|done]. simpl in Hc. reflect_go. lia.
  - split; [|done]. apply find_some in Hold as Hf. destruct Hf as [_ Hp].
    revert Hr Hold. cbn [t_rows accounts_table]. clear. intros Hr Hold.
    induction (db_accounts db) as [|b l IH]; [done|]. simpl in Hold. rewrite filter_cons in Hr.
    destruct (account_ID b == accountID) eqn:E.
    + rewrite decide_True in Hr by done. injection Hold as ->. rewrite fmap_cons in Hr. by injection Hr.
    + rewrite decide_False in Hr by done. by apply IH.
Qed.

(** ** Frames of the ledger's operations *)
Section ledger_frames.
Context {pg : Postgres} (R : relation Db) `{!Frame R}.

Lemma keeps_set_account_state accountID state `{!SkipsState R, !OpenState state} :
  keeps R (set_account_state accountID state).
Proof. unfold set_account_state. apply keeps_scan. by apply (skips_state accountID _ state). Qed.
Local Existing Instance keeps_set_account_state.

Lemma keeps_getLedgerEntry a s k : keeps R (getLedgerEntryByIdempotency a s k).
Proof. unfold getLedgerEntryByIdempotency. keeps. Qed.
Lemma keeps_getIntentByTrigger e : keeps R (getIntentByTriggerLedgerEntry e).
Proof. unfold getIntentByTriggerLedgerEntry. keeps. Qed.
Lemma keeps_getPolicyForUpdate a : keeps R (getPolicyForUpdate a).
Proof. unfold getPolicyForUpdate. keeps. Qed.
Lemma keeps_getPaymentMethodForUpdate ctx m : keeps R (getPaymentMethodForUpdate ctx m).
Proof. unfold getPaymentMethodForUpdate. keeps. Qed.
Local Existing Instances keeps_getLedgerEntry keeps_getIntentByTrigger keeps_getPolicyForUpdate
  keeps_getPaymentMethodForUpdate.

Lemma keeps_insert_job i r d `{!Skips R ReconciliationJob} : keeps R (insert_job i r d).
Proof. unfold insert_job. keeps. Qed.
Local Existing Instance keeps_insert_job.

Lemma keeps_insertLedgerEntryTx account in_ `{!KeepsAccount R, !KeepsEntry R} :
  keeps R (insertLedgerEntryTx account in_).
Proof. unfold insertLedgerEntryTx. keeps. Qed.

Context `{!Skips R AutoTopUpPolicy}.
Lemma keeps_disarm account `{!SkipsState R} :
  keeps R (disarmAutoTopUpAfterSettlementReversalTx account).
Proof. unfold disarmAutoTopUpAfterSettlementReversalTx. keeps. Qed.
Lemma keeps_rearm account `{!SkipsState R} : keeps R (rearmPolicyAfterCreditTx account).
Proof. unfold rearmPolicyAfterCreditTx. keeps. Qed.
#[local] Instance new_auto_intent_new id a p m t n c : NewIntent (new_auto_intent id a p m t n c).
Proof. done. Qed.
Lemma keeps_evaluateAutoTopUpTx ctx account entry now correlationID
    `{!SkipsNewIntent R, !Skips R ReconciliationJob} :
  keeps R (evaluateAutoTopUpTx ctx account entry now correlationID).
Proof. unfold evaluateAutoTopUpTx. keeps. Qed.
Local Existing Instances keeps_rearm keeps_evaluateAutoTopUpTx.

(** Posting an entry keeps every relation that the INSERT and the balance UPDATE keep. *)
Lemma keeps_PostLedgerEntry ctx in_
    `{!SkipsState R, !SkipsNewIntent R, !Skips R ReconciliationJob} :
  (∀ account now, keeps R (insertLedgerEntryTx account (with_now now in_))) →
  keeps R (PostLedgerEntry ctx in_).
Proof. intros Hpost. unfold PostLedgerEntry, postLedgerEntryTx. keeps. Qed.
End ledger_frames.

#[export] Existing Instances keeps_set_account_state keeps_getLedgerEntry keeps_getIntentByTrigger
  keeps_getPolicyForUpdate keeps_getPaymentMethodForUpdate keeps_insert_job keeps_disarm keeps_rearm
  keeps_evaluateAutoTopUpTx keeps_insertLedgerEntryTx keeps_PostLedgerEntry new_auto_intent_new.

Lemma insert_entry_ok e db e' db' :
  insert_entry e db = Ok (e', db') →
  e' = e ∧ t_check e = true ∧ (∀ s, s ∈ db_entries db → t_conflict s e = false) ∧
  closure_closed db (entry_AccountID e) = false ∧ commit_fenced db (entry_AccountID e) = false ∧
  db' = db <| db_entries ::= fun es => es ++ [e] |>.
Proof.
  unfold insert_entry, closure_barrier, handoff_barrier. intros H.
  apply bind_ok in H as ([] & db1 & [Hc ->]%barrier_ok & H).
  apply bind_ok in H as ([] & db1 & [Hh ->]%barrier_ok & H).
  by apply insert_row_ok in H as (-> & ? & ? & ->).
Qed.

Section ledger_theory.
Context {pg : Postgres}.

(** The UPDATE of the balance. *)
Definition with_balance (now : Time) (balance : Z) (a : CommercialAccount) : CommercialAccount :=
  a <| account_AvailableBalanceMinor := balance |> <| account_Version ::= Z.succ |>
    <| account_UpdatedAt := now |>.

Lemma insertLedgerEntryTx_ok account in_ db entry account' db' :
  insertLedgerEntryTx account in_ db = Ok ((entry, account'), db') →
  ∃ balance current,
    ApplyBalance (account_AvailableBalanceMinor account) (post_Direction in_) (post_AmountMinor in_)
      = Ok balance ∧
    find (fun a => account_ID a == account_ID account) (db_accounts db) = Some current ∧
    closure_closed db (account_ID account) = false ∧ commit_fenced db (account_ID account) = false ∧
    entry = new_entry (pg_uuid (db_serial db)) (account_ID account) in_ balance ∧
    t_check entry = true ∧ (∀ s, s ∈ db_entries db → t_conflict s entry = false) ∧
    account' = with_balance (db_now db) balance current ∧
    db' = db <| db_serial ::= S |> <| db_entries ::= fun es => es ++ [entry] |>
             <| db_accounts ::= fmap (fun r => if account_ID r == account_ID account
                                               then with_balance (db_now db) balance r else r) |>.
Proof.
  unfold insertLedgerEntryTx. intros H.
  apply bind_ok in H as (balance & db1 & [Hb ->]%lift_ok & H).
  apply bind_ok in H as (id & db1 & [-> ->]%fresh_ok & H).
  apply bind_ok in H as (entry' & db1 & He & H). apply (proj1 (scan_ok _ _ _ _)) in He.
  apply insert_entry_ok in He as (-> & Hck & Hno & Hc & Hf & ->).
  apply bind_ok in H as (a & db1 & Ha & H). apply (proj1 (scan_ok _ _ _ _)) in Ha.
  apply update_account_ok in Ha as (current & Hcur & _ & -> & ->).
  apply ret_ok in H as [[= -> ->] ->]. exists balance, current. by split_and!.
Qed.

(** What the two statements do to the books. *)
Definition posts (db db' : Db) (e : LedgerEntry) : Prop :=
  db_entries db' = db_entries db ++ [e] ∧
  account_ID <$> db_accounts db' = account_ID <$> db_accounts db ∧
  (∀ a, a ∈ db_accounts db' → ∃ old, old ∈ db_accounts db ∧ account_ID a = account_ID old ∧
     account_AvailableBalanceMinor a =
       if decide (account_ID old = entry_AccountID e) then entry_BalanceAfterMinor e
       else account_AvailableBalanceMinor old).

Lemma insertLedgerEntryTx_posts account in_ db entry account' db' :
  insertLedgerEntryTx account in_ db = Ok ((entry, account'), db') → posts db db' entry.
Proof.
  intros (balance & current & _ & _ & _ & _ & -> & _ & _ & _ & ->)%insertLedgerEntryTx_ok.
  unfold posts. get_upd. cbn [db_entries db_accounts]. split_and!.
  - done.
  - rewrite <- list_fmap_compose. apply list_fmap_ext. intros i r _. simpl. by case_match.
  - intros a (old & -> & Hin)%list_elem_of_fmap. exists old. split; [done|]. simpl.
    unfold with_balance. destruct (decide (account_ID old = account_ID account)) as [Heq|Hne].
    + by rewrite bool_decide_eq_true_2.
    + by rewrite bool_decide_eq_false_2.
Qed.

Lemma t_check_entry (e : LedgerEntry) :
  t_check e = true →
  0 < entry_AmountMinor e ∧ ValidateLedgerReason (entry_Direction e) (entry_Reason e) = Ok tt ∧
  entry_Currency e = TWD.
Proof.
  cbn [t_check entries_table]. intros H.
  destruct (ValidateLedgerReason _ _) as [[]|] eqn:E; [|done]. simpl in H. reflect_go. done.
Qed.

(** An entry whose [BalanceAfter] is the balance moved by its amount keeps the books. *)
Lemma posts_inv db db' e :
  LedgerInv db → posts db db' e →
  (∃ a, a ∈ db_accounts db ∧ account_ID a = entry_AccountID e ∧
     entry_BalanceAfterMinor e = account_AvailableBalanceMinor a + entry_delta e ∧
     int64 (entry_BalanceAfterMinor e)) →
  0 < entry_AmountMinor e → ValidateLedgerReason (entry_Direction e) (entry_Reason e) = Ok tt →
  LedgerInv db'.
Proof.
  intros [Hu Ho Hb Hh Hv] (He & Hid & Ha) (cur & Hcur & Hcid & Hbal & H64) Hpos Hreason.
  assert (entry_BalanceAfterMinor e = account_sum (entry_AccountID e) (db_entries db ++ [e])) as Hsum.
  { rewrite account_sum_snoc, decide_True by done. rewrite <- Hcid.
    destruct (Hb cur Hcur) as [<- _]. done. }
  constructor; rewrite ?He, ?Hid.
  - done.
  - intros x Hx. apply elem_of_app in Hx as [Hx|Hx%list_elem_of_singleton]; [by apply Ho|subst x].
    rewrite <- Hcid. apply list_elem_of_fmap. eauto.
  - intros a Hin. destruct (Ha a Hin) as (old & Hold & -> & ->).
    destruct (decide (account_ID old = entry_AccountID e)) as [Heq|Hne].
    + by rewrite Heq, <- Hsum.
    + rewrite account_sum_snoc, decide_False, Z.add_0_r by done. by apply Hb.
  - intros l x k Hl. destruct k as [|y k _] using rev_ind.
    + apply app_inj_tail in Hl as [<- <-]. done.
    + rewrite app_comm_cons, app_assoc in Hl. apply app_inj_tail in Hl as [Hl _]. by apply (Hh l x k).
  - intros x Hx. apply elem_of_app in Hx as [Hx|Hx%list_elem_of_singleton]; [by apply Hv|by subst x].
Qed.

Lemma insertLedgerEntryTx_inv account in_ db entry account' db' :
  LedgerInv db →
  find (fun a => account_ID a == account_ID account) (db_accounts db) = Some account →
  insertLedgerEntryTx account in_ db = Ok ((entry, account'), db') → LedgerInv db'.
Proof.
  intros Hinv Hcur H. pose proof (insertLedgerEntryTx_posts _ _ _ _ _ _ H) as Hp.
  apply insertLedgerEntryTx_ok in H as (b & cur & Hb & Hcur' & _ & _ & Hentry & Hck & _).
  destruct (find_account _ _ _ Hcur) as [Hin _].
  apply ApplyBalance_ok in Hb as (_ & _ & Hbal & H64); [|by apply Hinv].
  apply t_check_entry in Hck as (Hpos & Hr & _).
  eapply posts_inv; [done..| |by subst entry|by subst entry].
  exists account. subst entry. split_and!; done.
Qed.

(** Changing the state of an account leaves the books alone. *)
#[export] Instance same_books_state : SkipsState same_books.
Proof.
  intros accountID f state _ Hf db a db' (old & _ & _ & _ & ->)%update_account_ok. split; [done|].
  get_upd. cbn [db_accounts]. rewrite <- list_fmap_compose. apply list_fmap_ext. intros i r _. simpl.
  case_match; [|done]. by rewrite Hf.
Qed.

(** ** The invariant through [PostLedgerEntry] *)

Lemma getAccountForUpdate_ok ctx accountID db account db' :
  getAccountForUpdate ctx accountID db = Ok (account, db') →
  db' = db ∧ find (fun a => account_ID a == accountID) (db_accounts db) = Some account.
Proof.
  unfold getAccountForUpdate. intros H. apply bind_ok in H as (u & db1 & Hl & H).
  assert (db1 = db) as ->.
  { symmetry. apply (keeps_LockAccount eq _ _ _ _ _ Hl). }
  apply (proj1 (scan_ok _ _ _ _)) in H. apply select_ok in H as [? ->]. done.
Qed.
End ledger_theory.

Section posting.
Context {pg : Postgres}.

(** The key under which a request is idempotent. *)
Definition same_key (in_ : PostLedgerEntryInput) (e : LedgerEntry) : bool :=
  (entry_AccountID e == post_AccountID in_)
  && (entry_IdempotencyScope e == TrimSpace (post_IdempotencyScope in_))
  && (entry_IdempotencyKey e == TrimSpace (post_IdempotencyKey in_)).

Lemma getLedgerEntry_ok in_ db e db' :
  getLedgerEntryByIdempotency (post_AccountID in_) (post_IdempotencyScope in_)
    (post_IdempotencyKey in_) db = Ok (e, db') ↔
  find (same_key in_) (db_entries db) = Some e ∧ db' = db.
Proof. unfold getLedgerEntryByIdempotency. rewrite scan_ok, select_ok. done. Qed.

Lemma getLedgerEntry_err in_ db :
  getLedgerEntryByIdempotency (post_AccountID in_) (post_IdempotencyScope in_)
    (post_IdempotencyKey in_) db = Err ErrNotFound ↔ find (same_key in_) (db_entries db) = None.
Proof.
  unfold getLedgerEntryByIdempotency, scan, select. cbn [t_rows entries_table].
  fold (same_key in_). change (fun e => _) with (same_key in_). by destruct (find (same_key in_) _).
Qed.

(** The two ways a post succeeds: a replay, which changes nothing, or a new entry. *)
Definition replayed (in_ : PostLedgerEntryInput) (db : Db) (r : PostLedgerEntryResult) (db' : Db) : Prop :=
  db' = db ∧ posted_Duplicate r = true ∧
  find (same_key in_) (db_entries db) = Some (posted_Entry r) ∧
  sameLedgerRequest (posted_Entry r) in_ = true.
Definition posted_new (in_ : PostLedgerEntryInput) (db : Db) (r : PostLedgerEntryResult) (db' : Db) : Prop :=
  posted_Duplicate r = false ∧ find (same_key in_) (db_entries db) = None ∧
  ∃ before after db1,
    find (fun a => account_ID a == post_AccountID in_) (db_accounts db) = Some before ∧
    account_State before ≠ AccountStateClosed ∧
    (post_Direction in_ = LedgerDirectionCredit →
       handoff_open db (account_ID before) = false ∧ closure_open db (account_ID before) = false) ∧
    insertLedgerEntryTx before in_ db = Ok ((posted_Entry r, after), db1) ∧ same_books db1 db'.

Lemma requireNoHandoffTx_ok accountID db u db' :
  requireNoHandoffTx accountID db = Ok (u, db') ↔
  db' = db ∧ handoff_open db accountID = false ∧ closure_open db accountID = false.
Proof.
  unfold requireNoHandoffTx. rewrite bind_ok. setoid_rewrite gets_ok. setoid_rewrite require_ok.
  destruct u. split.
  - intros (b & db1 & [-> ->] & Hb & ->). reflect_go. done.
  - intros (-> & -> & ->). eexists _, _. split; [done|]. done.
Qed.

Lemma postLedgerEntryTx_ok ctx in_ db r db' :
  withTx (postLedgerEntryTx ctx in_) db = Ok (r, db') →
  replayed in_ db r db' ∨ posted_new in_ db r db'.
Proof.
  unfold postLedgerEntryTx. intros H. apply withTx_ok in H.
  assert (∃ o db2, (o = Committed r ∧ db2 = db' ∨ o = RolledBack r ∧ db' = db) ∧
            postLedgerEntryTx ctx in_ db = Ok (o, db2)) as (o & db2 & Ho & Hrun).
  { destruct H as [H|[-> [db1 H]]]; eauto 10. }
  clear H. unfold postLedgerEntryTx in Hrun.
  apply bind_ok in Hrun as (before & db1 & [-> Hacc]%getAccountForUpdate_ok & H).
  apply bind_ok in H as (u1 & db1 & [Hopen ->]%require_ok & H).
  apply bind_ok in H as (u2 & db1 & [Hcur ->]%require_ok & H).
  apply bind_ok in H as (existing & db1 & He & H).
  apply try_err_ok in He as [(e & -> & He)|(-> & -> & He)].
  - apply getLedgerEntry_ok in He as [He ->]. left.
    apply bind_ok in H as (u3 & db1 & [Hsame ->]%require_ok & H).
    apply bind_ok in H as (i & db1 & Hi & [-> ->]%ret_ok).
    destruct Ho as [[Ho _]|[Ho ->]]; [done|]. by injection Ho as <-.
  - apply getLedgerEntry_err in He. right.
    apply bind_ok in H as (u3 & db1 & Hfree & H).
    assert (db1 = db ∧ (post_Direction in_ = LedgerDirectionCredit →
       handoff_open db (account_ID before) = false ∧ closure_open db (account_ID before) = false))
      as [-> Hfree'].
    { destruct (decide (post_Direction in_ = LedgerDirectionCredit)) as [Hd|Hd].
      - rewrite bool_decide_eq_true_2 in Hfree by done.
        by apply requireNoHandoffTx_ok in Hfree as (-> & ?).
      - rewrite bool_decide_eq_false_2 in Hfree by done. by apply ret_ok in Hfree as [_ ->]. }
    apply bind_ok in H as ([entry after] & db1 & Hins & H).
    assert (same_books db1 db2 ∧ ∃ account intent,
              o = Committed (mkPostLedgerEntryResult account entry intent false))
      as [Hbooks (account & intent & ->)].
    { destruct (_ && _); [|destruct (post_Direction in_ == LedgerDirectionCredit)].
      - apply bind_ok in H as (i & db3 & Hev & [-> ->]%ret_ok).
        split; [|eauto]. frame Hev.
      - apply bind_ok in H as (a & db3 & Hre & [-> ->]%ret_ok).
        split; [|eauto]. frame Hre.
      - apply ret_ok in H as [-> ->]. split; [done|eauto]. }
    destruct Ho as [[[= <-] <-]|[Ho _]]; [|done].
    split; [done|]. split; [done|]. exists before, after, db1. cbn [posted_Entry].
    apply negb_true_iff, bool_decide_eq_false in Hopen. split_and!; done.
Qed.

(** The invariant as a relation. *)
Definition preserves (P : Db → Prop) (db db' : Db) : Prop := P db → P db'.
#[export] Instance preserves_preorder P : PreOrder (preserves P).
Proof. unfold preserves. split; repeat intro; auto. Qed.

Lemma PostLedgerEntry_ok ctx in_ db r db' :
  PostLedgerEntry ctx in_ db = Ok (r, db') →
  validateLedgerInput in_ = Ok tt ∧ isSettlementReversal (post_Reason in_) = false ∧
  ∃ now, withTx (postLedgerEntryTx ctx (with_now now in_)) db = Ok (r, db').
Proof.
  unfold PostLedgerEntry. intros H.
  apply bind_ok in H as ([] & db1 & [Hv ->]%lift_ok & H).
  apply bind_ok in H as (u2 & db1 & [Hn ->]%require_ok & H).
  apply bind_ok in H as (now & db1 & [_ ->]%default_now_ok & H).
  split; [done|]. split; [by apply negb_true_iff|eauto].
Qed.

Lemma PostLedgerEntry_inv ctx in_ : keeps (preserves LedgerInv) (PostLedgerEntry ctx in_).
Proof.
  intros db r db' (_ & _ & now & H)%PostLedgerEntry_ok Hinv.
  apply postLedgerEntryTx_ok in H as [(-> & _)|(_ & _ & before & after & db1 & Hb & _ & _ & Hi & Hs)]; [done|].
  apply (same_books_inv _ _ Hs). eapply insertLedgerEntryTx_inv; [done| |exact Hi].
  destruct (find_account _ _ _ Hb) as [_ ->]. exact Hb.
Qed.
End posting.

(** ** What posting promises *)

Definition balance_of (db : Db) (accountID : string) : option Z :=
  account_AvailableBalanceMinor <$> find (fun a => account_ID a == accountID) (db_accounts db).

Lemma balance_of_key db accountID :
  balance_of db accountID = snd <$> find (fun k => k.1.1 == accountID) (account_key <$> db_accounts db).
Proof.
  unfold balance_of. induction (db_accounts db) as [|a l IH]; [done|]. rewrite fmap_cons. simpl.
  by case_bool_decide.
Qed.

Lemma balance_of_same_books db db' accountID :
  same_books db db' → balance_of db' accountID = balance_of db accountID.
Proof. intros [_ Hk]. by rewrite !balance_of_key, Hk. Qed.

Section promises.
Context {pg : Postgres}.

Lemma insertLedgerEntryTx_balance account in_ db entry account' db' accountID :
  insertLedgerEntryTx account in_ db = Ok ((entry, account'), db') →
  balance_of db' accountID =
    if decide (accountID = entry_AccountID entry) then Some (entry_BalanceAfterMinor entry)
    else balance_of db accountID.
Proof.
  intros (b & cur & _ & Hcur & _ & _ & -> & _ & _ & _ & ->)%insertLedgerEntryTx_ok.
  unfold balance_of. get_upd. cbn [db_accounts entry_AccountID entry_BalanceAfterMinor new_entry].
  rewrite (find_fmap_same (fun a => account_ID a == accountID)); [|intros x; by case_match].
  destruct (decide (accountID = account_ID account)) as [->|Hne].
  - rewrite Hcur. simpl. apply find_account in Hcur as [_ Hid].
    by rewrite bool_decide_eq_true_2.
  - destruct (find (fun a => account_ID a == accountID) (db_accounts db)) as [a|] eqn:Ea; [|done].
    simpl. apply find_account in Ea as [_ <-]. by rewrite bool_decide_eq_false_2.
Qed.

(** The stored entry answers the request it was made from. *)
Lemma sameLedgerRequest_new id in_ balance :
  sameLedgerRequest (new_entry id (post_AccountID in_) in_ balance) in_ = true ∧
  same_key in_ (new_entry id (post_AccountID in_) in_ balance) = true.
Proof.
  unfold sameLedgerRequest, same_key. rewrite !andb_true_iff, !bool_decide_eq_true. done.
Qed.

Lemma posted_new_entry in_ db r db' :
  posted_new in_ db r db' →
  ∃ id balance, posted_Entry r = new_entry id (post_AccountID in_) in_ balance ∧
  db_entries db' = db_entries db ++ [posted_Entry r] ∧
  (∀ accountID, balance_of db' accountID =
     if decide (accountID = post_AccountID in_) then Some balance else balance_of db accountID) ∧
  (LedgerInv db → ∃ old, balance_of db (post_AccountID in_) = Some old ∧ int64 balance ∧
     balance = old + signed (post_Direction in_) (post_AmountMinor in_)).
Proof.
  intros (_ & _ & before & after & db1 & Hb & _ & _ & Hi & Hs).
  destruct (find_account _ _ _ Hb) as [Hin Hid].
  pose proof (insertLedgerEntryTx_balance _ _ _ _ _ _ (post_AccountID in_) Hi) as _.
  pose proof (insertLedgerEntryTx_posts _ _ _ _ _ _ Hi) as (He & _ & _).
  pose proof (fun a => insertLedgerEntryTx_balance _ _ _ _ _ _ a Hi) as Hbal.
  apply insertLedgerEntryTx_ok in Hi as (b & cur & Hap & _ & _ & _ & Hentry & _).
  exists (pg_uuid (db_serial db)), b. rewrite <- Hid, Hentry.
  split_and!; [done| | |].
  - destruct Hs as [-> _]. by rewrite He, Hentry.
  - intros a. rewrite (balance_of_same_books _ _ a Hs), Hbal, Hentry. done.
  - intros Hinv. destruct (li_balance _ Hinv _ Hin) as [_ H64].
    apply ApplyBalance_ok in Hap as (_ & _ & -> & ?); [|done].
    exists (account_AvailableBalanceMinor before). unfold balance_of. rewrite Hid, Hb. done.
Qed.

(** C17: A posting that succeeds either replays the entry recorded under its idempotency
    key, for the same request, and changes nothing at all; or appends exactly one
    entry, made of the request, whose amount is positive and whose reason fits its
    direction, and moves the balance of its account, and of no other, by exactly the
    signed amount, without overflow; the books stay in balance. *)
Theorem PostLedgerEntry_spec ctx in_ db r db' :
  LedgerInv db → PostLedgerEntry ctx in_ db = Ok (r, db') →
  LedgerInv db' ∧ sameLedgerRequest (posted_Entry r) in_ = true ∧
  if posted_Duplicate r then db' = db ∧ find (same_key in_) (db_entries db) = Some (posted_Entry r)
  else
    find (same_key in_) (db_entries db) = None ∧
    db_entries db' = db_entries db ++ [posted_Entry r] ∧
    0 < entry_AmountMinor (posted_Entry r) ∧
    ValidateLedgerReason (post_Direction in_) (post_Reason in_) = Ok tt ∧
    ∃ old, balance_of db (post_AccountID in_) = Some old ∧
      let balance := old + signed (post_Direction in_) (post_AmountMinor in_) in
      int64 balance ∧ entry_BalanceAfterMinor (posted_Entry r) = balance ∧
      ∀ accountID, balance_of db' accountID =
        if decide (accountID = post_AccountID in_) then Some balance else balance_of db accountID.
Proof.
  intros Hinv H. pose proof (PostLedgerEntry_inv _ _ _ _ _ H Hinv) as Hinv'.
  split; [done|]. apply PostLedgerEntry_ok in H as (Hv & _ & now & H).
  apply postLedgerEntryTx_ok in H as [(-> & -> & Hf & Hs)|H]; [done|].
  pose proof (posted_new_entry _ _ _ _ H) as (id & b & Hentry & He & Hbal & Hold).
  destruct H as (Hdup & Hnone & _). destruct (Hold Hinv) as (old & Ho & H64 & Hsum).
  cbn [post_AccountID with_now post_Direction post_AmountMinor] in *.
  rewrite Hdup. pose proof (sameLedgerRequest_new id (with_now now in_) b) as [Hsame _].
  cbn [post_AccountID with_now] in Hsame. rewrite <- Hentry in Hsame. split; [exact Hsame|]. split; [exact Hnone|]. split; [done|].
  destruct (li_valid _ Hinv' (posted_Entry r)) as [Hpos Hr]; [rewrite He; set_solver|].
  rewrite Hentry in Hr. split; [done|]. split; [exact Hr|].
  exists old. cbv zeta. rewrite <- Hsum. rewrite Hentry. done.
Qed.
End promises.

(** ** Retries *)

(** An open account stays open, in its currency. *)
Definition stays_open (db db' : Db) : Prop := ∀ accountID a,
  find (fun a => account_ID a == accountID) (db_accounts db) = Some a →
  account_State a ≠ AccountStateClosed →
  ∃ a', find (fun a => account_ID a == accountID) (db_accounts db') = Some a' ∧
    account_State a' ≠ AccountStateClosed ∧ account_Currency a' = account_Currency a.

#[export] Instance stays_open_frame : Frame stays_open.
Proof.
  split; try (intros db v accountID a Hf Hs; by exists a).
  split; [intros db accountID a Hf Hs; by exists a|]. intros x y z Hxy Hyz accountID a Hf Hs.
  destruct (Hxy _ _ Hf Hs) as (b & Hb & Hbs & <-). by apply Hyz.
Qed.
#[export] Hint Extern 1 (Skips stays_open _) => by intros ?? ? acct ??; exists acct : typeclass_instances.

(** An UPDATE of the accounts that keeps them open. *)
Lemma stays_open_update db db' (g : CommercialAccount → CommercialAccount) :
  db_accounts db' = g <$> db_accounts db →
  (∀ a, account_ID (g a) = account_ID a ∧ account_Currency (g a) = account_Currency a ∧
     (account_State a ≠ AccountStateClosed → account_State (g a) ≠ AccountStateClosed)) →
  stays_open db db'.
Proof.
  intros Heq Hg accountID a Hf Hs. exists (g a). destruct (Hg a) as (_ & Hc & Ho).
  rewrite Heq, (find_fmap_same (fun a => account_ID a == accountID)), Hf; [by auto|].
  intros x. by destruct (Hg x) as (-> & _).
Qed.

Section retries.
Context {pg : Postgres}.

#[export] Instance stays_open_state : SkipsState stays_open.
Proof.
  intros accountID f state Hs Hf db a db' (old & _ & _ & _ & ->)%update_account_ok.
  eapply stays_open_update; [done|]. intros r. simpl. case_match; [|done]. by rewrite Hf.
Qed.
#[export] Instance stays_open_posting account in_ : keeps stays_open (insertLedgerEntryTx account in_).
Proof.
  intros db [e a] db' (b & cur & _ & _ & _ & _ & _ & _ & _ & _ & ->)%insertLedgerEntryTx_ok.
  eapply stays_open_update; [done|]. intros r. simpl. by case_match.
Qed.

(** The entry of a success stays the answer to its key. *)
Lemma posted_key ctx in_ db r db1 :
  PostLedgerEntry ctx in_ db = Ok (r, db1) →
  find (same_key in_) (db_entries db1) = Some (posted_Entry r) ∧
  sameLedgerRequest (posted_Entry r) in_ = true.
Proof.
  intros (_ & _ & now & H)%PostLedgerEntry_ok.
  apply postLedgerEntryTx_ok in H as [(-> & _ & Hf & Hs)|H]; [done|].
  pose proof (posted_new_entry _ _ _ _ H) as (id & b & Hentry & He & _).
  destruct H as (_ & Hnone & _). change (same_key (with_now now in_)) with (same_key in_) in Hnone.
  destruct (sameLedgerRequest_new id (with_now now in_) b) as [Hsame Hkey].
  rewrite <- Hentry in Hsame, Hkey. split; [|exact Hsame].
  rewrite He, find_app, Hnone. simpl. change (same_key (with_now now in_)) with (same_key in_) in Hkey.
  by rewrite Hkey.
Qed.

(** C22: The idempotency key of a posting names one entry for ever: once a request has been
    posted, and however the ledger has grown since, any request under the same key
    that succeeds returns that first entry, says so, and changes nothing; a request
    that asks for anything else under the key cannot succeed. *)
Theorem PostLedgerEntry_idempotent ctx ctx' in_ in' db db1 db2 db3 r r' :
  PostLedgerEntry ctx in_ db = Ok (r, db1) →
  db_entries db1 `prefix_of` db_entries db2 →
  post_AccountID in' = post_AccountID in_ →
  TrimSpace (post_IdempotencyScope in') = TrimSpace (post_IdempotencyScope in_) →
  TrimSpace (post_IdempotencyKey in') = TrimSpace (post_IdempotencyKey in_) →
  PostLedgerEntry ctx' in' db2 = Ok (r', db3) →
  db3 = db2 ∧ posted_Duplicate r' = true ∧ posted_Entry r' = posted_Entry r ∧
  sameLedgerRequest (posted_Entry r) in' = true.
Proof.
  intros [Hf _]%posted_key [k Hk] Ha Hs Hkey (_ & _ & now & H)%PostLedgerEntry_ok.
  assert (find (same_key in') (db_entries db2) = Some (posted_Entry r)) as Hf2.
  { rewrite Hk, find_app. unfold same_key in *. by rewrite Ha, Hs, Hkey, Hf. }
  apply postLedgerEntryTx_ok in H as [(-> & Hd & Hf' & Hr)|(_ & Hnone & _)].
  - change (same_key (with_now now in')) with (same_key in') in Hf'.
    rewrite Hf2 in Hf'. injection Hf' as Heq. rewrite Heq. split_and!; done.
  - change (same_key (with_now now in')) with (same_key in') in Hnone. by rewrite Hf2 in Hnone.
Qed.

(** A request whose key is taken, run by an internal caller on an open account. *)
Lemma post_again in_ db a e :
  find (fun a => account_ID a == post_AccountID in_) (db_accounts db) = Some a →
  account_State a ≠ AccountStateClosed → account_Currency a = post_Currency in_ →
  find (same_key in_) (db_entries db) = Some e →
  if sameLedgerRequest e in_
  then ∃ i, withTx (postLedgerEntryTx None in_) db = Ok (mkPostLedgerEntryResult a e i true, db)
  else withTx (postLedgerEntryTx None in_) db = Err ErrIdempotencyConflict.
Proof.
  intros Ha Hs Hc Hf. unfold withTx, postLedgerEntryTx.
  assert (getAccountForUpdate None (post_AccountID in_) db = Ok (a, db)) as Hacc.
  { unfold getAccountForUpdate. rewrite (bind_run _ _ _ tt db) by done.
    apply (scan_ok (select _)), select_ok. done. }
  rewrite (bind_run _ _ _ _ _ Hacc).
  rewrite (bind_run _ _ _ tt db); [|apply require_ok; by rewrite bool_decide_eq_false_2].
  rewrite (bind_run _ _ _ tt db); [|apply require_ok; by rewrite bool_decide_eq_true_2].
  rewrite (bind_run _ _ _ (Some e) db); [|apply try_err_ok; left; exists e; split; [done|by apply getLedgerEntry_ok]].
  destruct (sameLedgerRequest e in_); [|by rewrite (bind_run_err _ _ _ _ (require_err _ _))].
  rewrite (bind_run _ _ _ tt db) by by apply require_ok.
  destruct (getIntentByTriggerLedgerEntry (entry_ID e) db) as [[i db']|err] eqn:E.
  - assert (db' = db) as ->.
    { revert E. unfold getIntentByTriggerLedgerEntry. rewrite scan_ok, select_ok. by intros [_ ?]. }
    exists (Some i). rewrite (bind_run _ _ _ (Some i) db); [done|]. apply try_err_ok. eauto.
  - assert (err = ErrNotFound) as ->.
    { by apply scan_select_err in E as [_ ->]. }
    exists None. rewrite (bind_run _ _ _ None db); [done|]. apply try_err_ok. eauto.
Qed.

(** C30: Retrying is always safe: after an internal posting has succeeded, the very same
    request succeeds again at once, with the same entry and no effect, so a caller that
    lost the answer can repeat it. *)
Theorem PostLedgerEntry_retry in_ db db1 r :
  PostLedgerEntry None in_ db = Ok (r, db1) →
  ∃ r', PostLedgerEntry None in_ db1 = Ok (r', db1) ∧ posted_Duplicate r' = true ∧
    posted_Entry r' = posted_Entry r.
Proof.
  intros H. destruct (posted_key _ _ _ _ _ H) as [Hf Hsame].
  assert (stays_open db db1) as Hopen by frame H.
  apply PostLedgerEntry_ok in H as (Hv & Hrev & now & H).
  assert (∃ a, find (fun a => account_ID a == post_AccountID in_) (db_accounts db1) = Some a ∧
      account_State a ≠ AccountStateClosed ∧ account_Currency a = post_Currency in_) as (a & Ha & Hst & Hcur).
  { apply withTx_ok in H. assert (∃ o db2, postLedgerEntryTx None (with_now now in_) db = Ok (o, db2))
      as (o & db2 & Hrun) by (destruct H as [?|[_ [? ?]]]; eauto).
    unfold postLedgerEntryTx in Hrun.
    apply bind_ok in Hrun as (before & db3 & [-> Hacc]%getAccountForUpdate_ok & Hrun).
    apply bind_ok in Hrun as (u1 & db3 & [Hcl ->]%require_ok & Hrun).
    apply bind_ok in Hrun as (u2 & db3 & [Hcu ->]%require_ok & Hrun).
    apply negb_true_iff, bool_decide_eq_false in Hcl. apply bool_decide_eq_true in Hcu.
    destruct (Hopen _ _ Hacc Hcl) as (a & ? & ? & ?). exists a. split_and!; [done..|by transitivity (account_Currency before)]. }
  unfold PostLedgerEntry.
  set (now' := if IsZero (post_Now in_) then UTC (db_clock db1) else UTC (post_Now in_)).
  pose proof (post_again (with_now now' in_) db1 a (posted_Entry r) Ha Hst Hcur Hf) as Hi.
  change (sameLedgerRequest (posted_Entry r) (with_now now' in_))
    with (sameLedgerRequest (posted_Entry r) in_) in Hi.
  rewrite Hsame in Hi. destruct Hi as [i Hi].
  exists (mkPostLedgerEntryResult a (posted_Entry r) i true). split; [|done].
  apply bind_ok. exists tt, db1. split; [by apply lift_ok|].
  apply bind_ok. exists tt, db1. split; [apply require_ok; by rewrite Hrev|].
  apply bind_ok. exists now', db1. split; [by apply default_now_ok|exact Hi].
Qed.
End retries.

(** ** Witnesses *)
Definition demo_debit (key : string) (amount : Z) : PostLedgerEntryInput :=
  mkPostLedgerEntryInput "acc" LedgerDirectionDebit amount TWD LedgerReasonInvoiceDebit
    "billing_invoice" key "" "" "" "" "req" demo_now.

Lemma demo_inv : LedgerInv demo_db.
Proof.
  constructor.
  - apply (bool_decide_eq_true_1 _). by vm_compute.
  - intros e ->%list_elem_of_singleton. left.
  - intros a. cbn [db_accounts demo_db]. rewrite !elem_of_cons, elem_of_nil.
    intros [-> |[-> |[]]]; by vm_compute.
  - intros [|x l] e k H; [injection H as <- <-; by vm_compute|]. by destruct l.
  - by intros e ->%list_elem_of_singleton.
Qed.

Lemma PostLedgerEntry_spec_witness :
  ∃ r db', PostLedgerEntry (pg := demo_pg) None (demo_debit "inv-1" 300) demo_db = Ok (r, db') ∧
    LedgerInv db'.
Proof.
  eexists _, _. split; [by vm_compute|].
  eapply (PostLedgerEntry_spec (pg := demo_pg) None (demo_debit "inv-1" 300) demo_db);
    [exact demo_inv|by vm_compute].
Defined.

Lemma PostLedgerEntry_idempotent_witness :
  ∃ r db' r2 db2,
    PostLedgerEntry (pg := demo_pg) None (demo_debit "inv-1" 300) demo_db = Ok (r, db') ∧
    PostLedgerEntry (pg := demo_pg) None (demo_debit " inv-1 " 300) db' = Ok (r2, db2) ∧ db2 = db'.
Proof.
  eexists _, _, _, _. split; [by vm_compute|]. split; [by vm_compute|].
  eapply (PostLedgerEntry_idempotent (pg := demo_pg) None None (demo_debit "inv-1" 300)
            (demo_debit " inv-1 " 300) demo_db); try (by vm_compute). exists []. by rewrite app_nil_r.
Defined.

Lemma PostLedgerEntry_retry_witness :
  ∃ r db' r', PostLedgerEntry (pg := demo_pg) None (demo_debit "inv-1" 300) demo_db = Ok (r, db') ∧
    PostLedgerEntry (pg := demo_pg) None (demo_debit "inv-1" 300) db' = Ok (r', db') ∧
    posted_Duplicate r' = true.
Proof.
  eexists _, _.
  edestruct (PostLedgerEntry_retry (pg := demo_pg) (demo_debit "inv-1" 300) demo_db) as (r' & H & Hd & _);
    [by vm_compute|].
  exists r'. split; [by vm_compute|]. split; [exact H|exact Hd].
Defined.
