(* ===== verification/AutoTopUp.v ===== *)
(** * The automatic top-up of a debit

    What [evaluateAutoTopUpTx] of [internal/paymentstore/ledger.go] commits: the
    decision of the policy at the rows of the database, the intent and the job it
    creates, the policy it disarms. *)
From S2P Require Import Prelude GoStrings GoTime BillingTypes PaymentTypes Payment Database Tables.
From S2P Require Import Keeps Fixtures Accounts Ledger.

Section auto_topup.
Context {pg : Postgres}.

(** The evaluation of the policy at the rows of the database. *)
Definition evaluation (db : Db) (account : CommercialAccount) (method : PaymentMethod) (now : Time) :
    PolicyEvaluation :=
  let today := auto_topups_since db (account_ID account) (pg_time (policyDayStart now)) in
  {| eval_BalanceMinor := account_AvailableBalanceMinor account; eval_Now := now;
     eval_AttemptsToday := Z.of_nat (length today);
     eval_AutomaticAmountTodayMinor := topup_amount today;
     eval_HasOpenIntent := existsb (fun i => (intent_AccountID i == account_ID account) && intent_open i)
                             (db_intents db);
     eval_PaymentMethodStatus := method_Status method;
     eval_MerchantInitiatedCharge := cap_MerchantInitiatedCharge (method_Capabilities method) |}.

Definition policy_of (db : Db) (accountID : string) : option AutoTopUpPolicy :=
  find (fun p => policy_AccountID p == accountID) (db_policies db).

(** The policy after its trigger. *)
Definition triggered (now : Time) (p : AutoTopUpPolicy) : AutoTopUpPolicy :=
  p <| policy_Armed := false |> <| policy_LastTriggeredAt := Some (pg_time now) |>
    <| policy_Version ::= Z.succ |>.

Lemma getPolicyForUpdate_ok accountID db p db' :
  getPolicyForUpdate accountID db = Ok (p, db') ↔ policy_of db accountID = Some p ∧ db' = db.
Proof. unfold getPolicyForUpdate. rewrite scan_ok, select_ok. done. Qed.

Lemma getPaymentMethodForUpdate_ok ctx methodID db m db' :
  getPaymentMethodForUpdate ctx methodID db = Ok (m, db') →
  db' = db ∧ method_ID m = methodID ∧ methodVisibility ctx db m true = true ∧
  ∃ row, row ∈ db_methods db ∧ mrow_method row = m.
Proof.
  unfold getPaymentMethodForUpdate. intros H.
  apply bind_ok in H as (cur & db1 & [-> ->]%gets_ok & H).
  apply bind_ok in H as (row & db1 & Hr & [-> ->]%ret_ok). apply (proj1 (scan_ok _ _ _ _)) in Hr.
  apply select_ok in Hr as [[Hin Hp]%find_some_iff ->]. reflect_go. split_and!; eauto.
Qed.

Lemma insert_intent_ok i db i' db' :
  insert_intent i db = Ok (i', db') →
  i' = i ∧ t_check i = true ∧ (∀ s, s ∈ db_intents db → t_conflict s i = false) ∧
  closure_open db (intent_AccountID i) = false ∧ handoff_open db (intent_AccountID i) = false ∧
  db' = db <| db_intents ::= fun l => l ++ [i] |>
           <| db_intent_periods ::= fun bs => bs ++ period_binding db (intent_ID i) (intent_AccountID i) |>.
Proof.
  unfold insert_intent, closure_barrier, handoff_barrier. intros H.
  apply bind_ok in H as ([] & db1 & [Hc ->]%barrier_ok & H).
  apply bind_ok in H as (r & db1 & (-> & Hck & Hno & ->)%insert_row_ok & H).
  apply bind_ok in H as ([] & db1 & [Hh ->]%barrier_ok & H).
  apply bind_ok in H as ([] & db1 & [= <-] & [-> ->]%ret_ok). split_and!; done.
Qed.

Lemma insert_job_ok intentID reason dueAt db j db' :
  insert_job intentID reason dueAt db = Ok (j, db') →
  j = new_job (pg_uuid (db_serial db)) intentID reason dueAt (db_now db) ∧
  (∀ s, s ∈ db_jobs db → t_conflict s j = false) ∧
  db' = db <| db_serial ::= S |> <| db_jobs ::= fun l => l ++ [j] |>.
Proof.
  unfold insert_job. intros H.
  apply bind_ok in H as (id & db1 & [-> ->]%fresh_ok & H).
  apply bind_ok in H as (t & db1 & [-> ->]%gets_ok & H).
  apply insert_row_ok in H as (-> & _ & Hno & ->). split_and!; done.
Qed.

(** Everything a trigger commits. *)
Record triggers ctx (account : CommercialAccount) (trigger : LedgerEntry) (now : Time) (db : Db)
    (intent : PaymentIntent) (db' : Db) (policy : AutoTopUpPolicy) (method : PaymentMethod) : Prop := {
  tr_free : handoff_open db (account_ID account) = false ∧ closure_open db (account_ID account) = false;
  tr_policy : policy_of db (account_ID account) = Some policy;
  tr_valid : ValidatePolicy policy = Ok tt;
  tr_method : method_ID method = policy_PaymentMethodID policy ∧ methodVisibility ctx db method true = true;
  tr_decision : decision_Trigger (EvaluateAutoTopUp policy (evaluation db account method now)) = true;
  tr_intent : ∃ id correlationID,
    intent = new_auto_intent id account policy method trigger now correlationID;
  tr_intents : db_intents db' = db_intents db ++ [intent];
  tr_policies : db_policies db' =
    (fun p => if policy_ID p == policy_ID policy then triggered now p <| policy_UpdatedAt := db_now db |>
              else p) <$> db_policies db;
  tr_jobs : ∃ id, db_jobs db' =
    db_jobs db ++ [new_job id (intent_ID intent) ReconciliationReasonCharge now (db_now db)]
}.

Lemma evaluateAutoTopUpTx_ok ctx account trigger now correlationID db o db' :
  evaluateAutoTopUpTx ctx account trigger now correlationID db = Ok (o, db') →
  match o with
  | None => db' = db
  | Some intent => ∃ policy method, triggers ctx account trigger now db intent db' policy method
  end.
Proof.
  unfold evaluateAutoTopUpTx. intros H.
  apply bind_ok in H as (free & db1 & Hfree & H).
  apply try_err_ok in Hfree as [(u & -> & Hfree)|(-> & -> & _)]; [|by apply ret_ok in H as [-> ->]].
  apply requireNoHandoffTx_ok in Hfree as (-> & Hh & Hc).
  apply bind_ok in H as (found & db1 & Hp & H).
  apply try_err_ok in Hp as [(policy & -> & Hp)|(-> & -> & _)]; [|by apply ret_ok in H as [-> ->]].
  apply getPolicyForUpdate_ok in Hp as [Hp ->].
  apply bind_ok in H as ([] & db1 & [Hv ->]%lift_ok & H).
  apply bind_ok in H as (method & db1 & (-> & Hm & Hvis & _)%getPaymentMethodForUpdate_ok & H).
  apply bind_ok in H as (open & db1 & [-> ->]%gets_ok & H).
  apply bind_ok in H as (today & db1 & [-> ->]%gets_ok & H).
  apply bind_ok in H as (u2 & db1 & [_ ->]%require_ok & H). cbv zeta in H.
  fold (evaluation db account method now) in H.
  destruct (decision_Trigger _) eqn:Hd; cbn [negb] in H; [|by apply ret_ok in H as [-> ->]].
  apply bind_ok in H as (id & db1 & [-> ->]%fresh_ok & H).
  apply bind_ok in H as (intent & db1 & Hi & H). apply (proj1 (scan_ok _ _ _ _)) in Hi.
  apply insert_intent_ok in Hi as (-> & _ & _ & _ & _ & ->).
  apply bind_ok in H as (rows & db1 & Hup & H).
  apply update_fenced_ok in Hup as (_ & Hup). apply update_rows_ok in Hup as (_ & _ & _ & ->).
  apply bind_ok in H as (j & db1 & Hj & H). apply insert_job_ok in Hj as (-> & _ & ->).
  apply ret_ok in H as [-> ->]. exists policy, method.
  constructor; try done; eauto.
Qed.

(** The sums of the day after a new intent. *)
Lemma auto_topups_snoc db db' i accountID since :
  db_intents db' = db_intents db ++ [i] →
  ∃ added, auto_topups_since db' accountID since = auto_topups_since db accountID since ++ added ∧
    (added = [] ∨ added = [i]).
Proof.
  intros Hi. unfold auto_topups_since. rewrite Hi, filter_app, filter_cons, filter_nil.
  eexists. split; [done|]. case_decide; auto.
Qed.

Lemma topup_amount_app l k : topup_amount (l ++ k) = topup_amount l + topup_amount k.
Proof. unfold topup_amount. by rewrite filter_app, sum_by_app. Qed.

Lemma topup_amount_singleton i : 0 ≤ intent_AmountMinor i → topup_amount [i] ≤ intent_AmountMinor i.
Proof. intros Hi. unfold topup_amount. rewrite filter_cons, filter_nil. case_decide; simpl; lia. Qed.


(** A policy fires once: after an automatic top-up has been created, no later debit
    of the account creates another while the policy row stays as the trigger left it,
    whatever the balance, the time or the caller. *)
Theorem evaluateAutoTopUpTx_once ctx ctx' account account' trigger trigger' now now' corr corr'
    db intent db1 db2 o db3 :
  evaluateAutoTopUpTx ctx account trigger now corr db = Ok (Some intent, db1) →
  db_policies db2 = db_policies db1 → account_ID account' = account_ID account →
  evaluateAutoTopUpTx ctx' account' trigger' now' corr' db2 = Ok (o, db3) →
  o = None ∧ db3 = db2.
Proof.
  intros H1%evaluateAutoTopUpTx_ok Hpol2 Hid H2%evaluateAutoTopUpTx_ok.
  destruct H1 as (policy & method & [_ Hp _ _ _ _ _ Hpol _]).
  destruct o as [i2|]; [exfalso|done].
  destruct H2 as (policy2 & method2 & [_ Hp2 _ _ Hd2 _ _ _ _]).
  unfold policy_of in Hp2. rewrite Hpol2, Hpol, Hid,
    (find_fmap_same (fun p => policy_AccountID p == account_ID account)) in Hp2 by (intros p; by case_match).
  fold (policy_of db (account_ID account)) in Hp2. rewrite Hp in Hp2. simpl in Hp2.
  rewrite bool_decide_eq_true_2 in Hp2 by done. injection Hp2 as Hp2.
  assert (policy_Armed policy2 = false) as Harmed by (by rewrite <- Hp2).
  revert Hd2. unfold EvaluateAutoTopUp. rewrite Harmed. by destruct (policy_Enabled policy2).
Qed.
End auto_topup.

(** A debit that leaves 400 TWD, below the threshold of 600. *)
Definition demo_trigger : LedgerEntry := new_entry (pg := demo_pg) "entry-2" "acc" (demo_debit "inv-1" 600) 400.
Definition demo_low_account : CommercialAccount := demo_account <| account_AvailableBalanceMinor := 400 |>.
Definition demo_settled_db : Db :=
  demo_db <| db_intents := [demo_intent demo_paid_id PaymentIntentStateSucceeded (Some 0)] |>
          <| db_jobs := [] |> <| db_accounts := [demo_low_account; demo_other_account] |>.

Definition demo_topup : PaymentIntent * Db := Eval vm_compute in
  match evaluateAutoTopUpTx (pg := demo_pg) None demo_low_account demo_trigger demo_now ""
          demo_settled_db with
  | Ok (Some i, db') => (i, db')
  | _ => (demo_intent "" "" None, demo_settled_db)
  end.


Definition demo_second : option PaymentIntent := Eval vm_compute in
  match evaluateAutoTopUpTx (pg := demo_pg) None demo_low_account demo_trigger (2 * demo_now) ""
          demo_topup.2 with
  | Ok (o, _) => o
  | _ => Some demo_topup.1
  end.

Lemma evaluateAutoTopUpTx_once_witness :
  evaluateAutoTopUpTx (pg := demo_pg) None demo_low_account demo_trigger (2 * demo_now) "" demo_topup.2
    = Ok (demo_second, demo_topup.2) ∧ demo_second = None.
Proof.
  split; [by vm_compute|].
  exact (proj1 (evaluateAutoTopUpTx_once (pg := demo_pg) None None demo_low_account demo_low_account
    demo_trigger demo_trigger demo_now (2 * demo_now) "" "" demo_settled_db demo_topup.1 demo_topup.2
    demo_topup.2 demo_second demo_topup.2
    ltac:(by vm_compute) eq_refl eq_refl ltac:(by vm_compute))).
Defined.
