(* ===== verification/Intents.v ===== *)
(** * Payment intents: [internal/paymentstore/intents.go]

    The transition of an intent: its state machine, the credit of a success, the
    receipt email, and what success and failure do to the policy and the account. *)
From S2P Require Import Prelude GoStrings GoTime BillingTypes PaymentTypes Payment Database Tables.
From S2P Require Import Keeps Fixtures Accounts Ledger.

Record TransitionIntentInput := mkTransitionIntentInput {
  trans_IntentID : string;
  trans_ToState : PaymentIntentState;
  trans_ProviderTransactionReference : string;
  trans_Now : Time
}.

Record TransitionIntentResult := mkTransitionIntentResult {
  transitioned_Intent : PaymentIntent;
  transitioned_Account : CommercialAccount;
  transitioned_CreditEntry : option LedgerEntry;
  transitioned_Duplicate : bool
}.

(** The profile that gets the email: the SELECT behind the outbox INSERT. *)
Definition email_profile (db : Db) (intentID accountID : string) : option (CommercialAccount * BillingProfile) :=
  match find (fun a => account_ID a == accountID) (db_accounts db) with
  | None => None
  | Some a =>
      let wanted p := (profile_OrganizationID p == account_OrganizationID a)
        && existsb (fun b => (binding_AccountID b == accountID) && (binding_RecordID b == intentID)
             && existsb (fun period => (period_ID period == binding_PeriodID b)
                  && (profile_OwnershipVersion p == Some (period_OwnershipVersion period)))
                (db_periods db)) (db_intent_periods db)
        && (profile_DeliveryPreference p == "portal_and_email")
        && negb (profile_RequiresConfiguration p) && not_blank (profile_ContactEmail p) in
      (fun p => (a, p)) <$> find wanted (db_profiles db)
  end.

Section intents.
Context {pg : Postgres}.

Definition getIntentForUpdate (intentID : string) : M PaymentIntent :=
  scan (select (fun i => intent_ID i == intentID)).

Definition GetPaymentIntent (intentID : string) : M PaymentIntent := getIntentForUpdate intentID.

Definition GetPaymentIntentByProviderReference (provider reference : string) : M PaymentIntent :=
  _ ← require_that (negb ((provider == "") || (reference == ""))) ErrNotFound;
  scan (select (fun i => (intent_Provider i == provider)
                         && (intent_ProviderTransactionReference i == reference))).

Definition getPaymentIntentCredit (intentID : string) : M LedgerEntry :=
  scan (select (fun e => (entry_IdempotencyScope e == "payment_intent")
                         && (entry_IdempotencyKey e == intentID))).

(** The ledger entry of a succeeded intent. *)
Definition credit_input (account : CommercialAccount) (intent : PaymentIntent) (now : Time) :
    PostLedgerEntryInput :=
  {| post_AccountID := account_ID account; post_Direction := LedgerDirectionCredit;
     post_AmountMinor := intent_AmountMinor intent; post_Currency := intent_Currency intent;
     post_Reason := LedgerReasonPaymentTopUpCredit; post_IdempotencyScope := "payment_intent";
     post_IdempotencyKey := intent_ID intent; post_ExternalType := "payment_intent";
     post_ExternalID := intent_ID intent; post_ActorType := "service";
     post_ActorID := "payment_worker"; post_RequestID := intent_CorrelationID intent;
     post_Now := now |}.

(** The outbox INSERT, [ON CONFLICT (intent_id) DO NOTHING]. *)
Definition queue_topup_email (accountID : string) (intent : PaymentIntent) (now : Time) : M unit :=
  profile ← gets (fun db => email_profile db (intent_ID intent) accountID);
  match profile with
  | None => mret tt
  | Some (a, p) =>
      _ ← try_err ErrNoRows (insert_or_nothing (fun e f => email_IntentID e == email_IntentID f)
        (mkTopUpEmailRow (intent_ID intent) (account_OrganizationID a) (profile_ContactEmail p)
           (profile_LegalName p) (intent_AmountMinor intent) (intent_Currency intent)
           (intent_Provider intent) (intent_CreatedAt intent) (pg_time now) "pending" 0
           (pg_time now) None None));
      mret tt
  end.

(** The policy and account after a success: the branch after the credit. *)
Definition settle_policy_after_success (account : CommercialAccount) (intent : PaymentIntent) (now : Time) :
    M CommercialAccount :=
  found ← try_err ErrNotFound (getPolicyForUpdate (account_ID account));
  match found with
  | Some policy =>
      if policy_Enabled policy then
        let armed := account_AvailableBalanceMinor account >=? policy_ThresholdMinor policy in
        let resetFailures := (intent_Reason intent == PaymentIntentReasonAutoTopUp)
          && (intent_PolicyGeneration intent == Some (policy_Generation policy)) in
        _ ← update_policies (fun p => policy_ID p == policy_ID policy)
              (fun p => p <| policy_LastSucceededAt := Some (pg_time now) |>
                          <| policy_Armed := armed |>
                          <| policy_ConsecutiveFailureCount :=
                               if resetFailures then 0 else policy_ConsecutiveFailureCount p |>
                          <| policy_Version ::= Z.succ |>);
        if (account_State account != AccountStateSuspended)
           && (account_State account != AccountStateClosed)
        then set_account_state (account_ID account)
               (if armed then AccountStateActive else AccountStateAttentionRequired)
        else mret account
      else mret account
  | None => mret account
  end.

(** The policy and account after any other state of an automatic intent. *)
Definition settle_policy_after_failure (account : CommercialAccount) (intent : PaymentIntent)
    (toState : PaymentIntentState) : M CommercialAccount :=
  found ← try_err ErrNotFound (getPolicyForUpdate (account_ID account));
  match found with
  | Some policy =>
      if intent_PolicyGeneration intent == Some (policy_Generation policy) then
        attentionRequired ←
          (if (toState == PaymentIntentStateFailed) || (toState == PaymentIntentStateCanceled) then
             let failures := policy_ConsecutiveFailureCount policy + 1 in
             let disable := failures >=? 3 in
             _ ← update_policies (fun p => policy_ID p == policy_ID policy)
                   (fun p => p <| policy_ConsecutiveFailureCount := failures |>
                               <| policy_Enabled := if disable then false else policy_Enabled p |>
                               <| policy_Armed := false |> <| policy_Version ::= Z.succ |>);
             mret disable
           else mret (toState == PaymentIntentStateRequiresAction));
        if attentionRequired && (account_State account == AccountStateActive)
        then set_account_state (account_ID account) AccountStateAttentionRequired
        else mret account
      else mret account
  | None => mret account
  end.

Definition transitionIntentTx (account : CommercialAccount) (intent : PaymentIntent)
    (in_ : TransitionIntentInput) : M TransitionIntentResult :=
  let providerReference := TrimSpace (trans_ProviderTransactionReference in_) in
  _ ← require_that (negb ((intent_ProviderTransactionReference intent != "")
         && (providerReference != "")
         && (intent_ProviderTransactionReference intent != providerReference))) ErrConflict;
  if intent_State intent == trans_ToState in_ then
    credit ← try_err ErrNotFound (getPaymentIntentCredit (intent_ID intent));
    mret (mkTransitionIntentResult intent account credit true)
  else
  _ ← lift (ValidateIntentTransition (intent_State intent) (trans_ToState in_));
  let reference := if intent_ProviderTransactionReference intent == "" then providerReference
                   else intent_ProviderTransactionReference intent in
  let completedAt := if IntentStateTerminal (trans_ToState in_) then Some (pg_time (trans_Now in_))
                     else None in
  intent ← scan (update_one (fun i => intent_ID i == intent_ID intent) (fun i =>
    i <| intent_State := trans_ToState in_ |>
      <| intent_ProviderTransactionReference := reference |>
      <| intent_CompletedAt := completedAt |> <| intent_UpdatedAt := pg_time (trans_Now in_) |>));
  if trans_ToState in_ == PaymentIntentStateSucceeded then
    '(credit, account) ← insertLedgerEntryTx account (credit_input account intent (trans_Now in_));
    _ ← (if (intent_Provider intent == "paypal")
            && (intent_Reason intent == PaymentIntentReasonManualTopUp)
         then queue_topup_email (account_ID account) intent (trans_Now in_) else mret tt);
    account ← settle_policy_after_success account intent (trans_Now in_);
    mret (mkTransitionIntentResult intent account (Some credit) false)
  else if (intent_Reason intent == PaymentIntentReasonAutoTopUp)
          && bool_decide (is_Some (intent_PolicyGeneration intent)) then
    account ← settle_policy_after_failure account intent (trans_ToState in_);
    mret (mkTransitionIntentResult intent account None false)
  else mret (mkTransitionIntentResult intent account None false).

(** [SELECT account_id::text FROM payment_intents WHERE id = $1] *)
Definition intent_account (intentID : string) : M string :=
  intent ← scan (select (fun i => intent_ID i == intentID)); mret (intent_AccountID intent).

Definition TransitionIntent (ctx : Ctx) (in_ : TransitionIntentInput) : M TransitionIntentResult :=
  _ ← require_that (required (trans_IntentID in_) && ValidIntentState (trans_ToState in_)) ErrConflict;
  now ← default_now (trans_Now in_);
  accountID ← intent_account (trans_IntentID in_);
  withTx (
    account ← getAccountForUpdate ctx accountID;
    intent ← getIntentForUpdate (trans_IntentID in_);
    result ← transitionIntentTx account intent (mkTransitionIntentInput (trans_IntentID in_)
               (trans_ToState in_) (trans_ProviderTransactionReference in_) now);
    mret (Committed result)).

End intents.

(** ** Frames of the intent operations *)
Section intent_frames.
Context {pg : Postgres} (R : relation Db) `{!Frame R}.

Lemma keeps_getIntentForUpdate i : keeps R (getIntentForUpdate i).
Proof. unfold getIntentForUpdate. keeps. Qed.
Lemma keeps_getPaymentIntentCredit i : keeps R (getPaymentIntentCredit i).
Proof. unfold getPaymentIntentCredit. keeps. Qed.
Lemma keeps_intent_account i : keeps R (intent_account i).
Proof. unfold intent_account. keeps. Qed.
Lemma keeps_queue_topup_email a i t `{!Skips R TopUpEmailRow} : keeps R (queue_topup_email a i t).
Proof. unfold queue_topup_email. keeps. Qed.

Context `{!Skips R AutoTopUpPolicy, !SkipsState R}.
Lemma keeps_settle_success account intent now : keeps R (settle_policy_after_success account intent now).
Proof. unfold settle_policy_after_success. keeps. Qed.
Lemma keeps_settle_failure account intent state : keeps R (settle_policy_after_failure account intent state).
Proof. unfold settle_policy_after_failure. keeps. Qed.
End intent_frames.

#[export] Existing Instances keeps_getIntentForUpdate keeps_getPaymentIntentCredit keeps_intent_account
  keeps_queue_topup_email keeps_settle_success keeps_settle_failure.

(** The books and the intents, both unchanged. *)
Definition calm (db db' : Db) : Prop := same_books db db' ∧ db_intents db' = db_intents db.
#[export] Instance calm_frame : Frame calm.
Proof.
  unfold calm. split; try done.
  split; [by split|]. intros x y z [H1 H2] [H3 H4]. split; [by transitivity y|congruence].
Qed.
#[export] Hint Extern 1 (Skips calm _) => by intros ?? : typeclass_instances.
#[export] Instance calm_state : SkipsState calm.
Proof.
  intros accountID f state Hs Hf db a db' H. split; [by eapply (skips_state (R := same_books))|].
  by apply update_account_ok in H as (old & _ & _ & _ & ->).
Qed.

Section transitions.
Context {pg : Postgres}.

(** The UPDATE of a transition, and the row it leaves. *)
Definition moved (in_ : TransitionIntentInput) (intent : PaymentIntent) (now : Time) (i : PaymentIntent) :
    PaymentIntent :=
  i <| intent_State := trans_ToState in_ |>
    <| intent_ProviderTransactionReference :=
         (if intent_ProviderTransactionReference intent == ""
          then TrimSpace (trans_ProviderTransactionReference in_)
          else intent_ProviderTransactionReference intent) |>
    <| intent_CompletedAt := (if IntentStateTerminal (trans_ToState in_)
                              then Some (pg_time (trans_Now in_)) else None) |>
    <| intent_UpdatedAt := now |>.

Definition move_intent (in_ : TransitionIntentInput) (intent : PaymentIntent) (db : Db) : Db :=
  db <| db_intents ::= fmap (fun i => if intent_ID i == intent_ID intent
                                       then moved in_ intent (db_now db) i else i) |>.

(** The two ways a transition succeeds. *)
Inductive transitions (account : CommercialAccount) (intent : PaymentIntent) (in_ : TransitionIntentInput)
    (db : Db) : TransitionIntentResult → Db → Prop :=
  | transition_repeat credit :
      intent_State intent = trans_ToState in_ →
      transitions account intent in_ db (mkTransitionIntentResult intent account credit true) db
  | transition_credit row account' credit account'' db1 db' :
      intent_step (intent_State intent) (trans_ToState in_) → intent_State intent ≠ trans_ToState in_ →
      trans_ToState in_ = PaymentIntentStateSucceeded →
      find (fun i => intent_ID i == intent_ID intent) (db_intents db) = Some row →
      pairwise_ok t_conflict (db_intents (move_intent in_ intent db)) = true →
      insertLedgerEntryTx account (credit_input account (moved in_ intent (db_now db) row) (trans_Now in_))
        (move_intent in_ intent db) = Ok ((credit, account'), db1) →
      calm db1 db' →
      transitions account intent in_ db
        (mkTransitionIntentResult (moved in_ intent (db_now db) row) account'' (Some credit) false) db'
  | transition_other row account' db' :
      intent_step (intent_State intent) (trans_ToState in_) → intent_State intent ≠ trans_ToState in_ →
      trans_ToState in_ ≠ PaymentIntentStateSucceeded →
      find (fun i => intent_ID i == intent_ID intent) (db_intents db) = Some row →
      pairwise_ok t_conflict (db_intents (move_intent in_ intent db)) = true →
      calm (move_intent in_ intent db) db' →
      transitions account intent in_ db
        (mkTransitionIntentResult (moved in_ intent (db_now db) row) account' None false) db'.

(** The first row an UPDATE ... RETURNING yields is the first row it finds. *)
Lemma filter_find {A} (p : A → bool) l x rest :
  filter (fun r => p r = true) l = x :: rest → find p l = Some x.
Proof.
  induction l as [|y l IH]; [done|]. rewrite filter_cons. simpl.
  destruct (p y); [rewrite decide_True by done; by intros [= -> _]|rewrite decide_False by done; done].
Qed.

Lemma transitionIntentTx_ok account intent in_ db r db' :
  transitionIntentTx account intent in_ db = Ok (r, db') → transitions account intent in_ db r db'.
Proof.
  unfold transitionIntentTx. intros H.
  apply bind_ok in H as (u & db1 & [_ ->]%require_ok & H).
  destruct (decide (intent_State intent = trans_ToState in_)) as [Heq|Hne].
  { rewrite bool_decide_eq_true_2 in H by done.
    apply bind_ok in H as (credit & db1 & Hc & [-> ->]%ret_ok).
    assert (db1 = db) as ->.
    { apply try_err_ok in Hc as [(e & _ & Hc)|(_ & -> & _)]; [|done].
      unfold getPaymentIntentCredit in Hc. apply (proj1 (scan_ok _ _ _ _)) in Hc.
      by apply select_ok in Hc as [_ ->]. }
    by constructor. }
  rewrite bool_decide_eq_false_2 in H by done.
  apply bind_ok in H as (u2 & db1 & [Hstep ->]%lift_ok & H).
  apply bind_ok in H as (moved_ & db1 & Hup & H). apply (proj1 (scan_ok _ _ _ _)) in Hup.
  apply update_one_ok in Hup as (rest & (Hrows & _ & Hpair & ->)%update_rows_ok).
  cbv zeta in Hrows, Hpair. cbn [t_rows t_touch intents_table] in Hrows.
  symmetry in Hrows. apply fmap_cons_inv in Hrows as (row & l & -> & _ & Hl).
  apply filter_find in Hl. destruct u2.
  destruct (decide (trans_ToState in_ = PaymentIntentStateSucceeded)) as [Hs|Hs].
  - rewrite bool_decide_eq_true_2 in H by done.
    apply bind_ok in H as ([credit account'] & db2 & Hins & H).
    apply bind_ok in H as (u3 & db3 & Hmail & H).
    apply bind_ok in H as (account'' & db4 & Hset & [-> ->]%ret_ok).
    eapply transition_credit; [done..|exact Hpair|exact Hins|].
    transitivity db3; [|frame Hset]. destruct (_ && _) in Hmail; [frame Hmail|].
    by apply ret_ok in Hmail as [_ ->].
  - rewrite bool_decide_eq_false_2 in H by done.
    destruct (_ && _) in H.
    + apply bind_ok in H as (account' & db2 & Hset & [-> ->]%ret_ok).
      eapply transition_other; [done..|exact Hpair|frame Hset].
    + apply ret_ok in H as [-> ->]. by eapply transition_other.
Qed.
End transitions.

(** ** A closure and a failing automatic top-up *)
Section closure.
Context {pg : Postgres}.

Lemma settle_failure_fenced account intent toState db policy :
  closure_open db (account_ID account) = true →
  find (fun p => policy_AccountID p == account_ID account) (db_policies db) = Some policy →
  intent_PolicyGeneration intent = Some (policy_Generation policy) →
  toState = PaymentIntentStateFailed ∨ toState = PaymentIntentStateCanceled →
  ∀ r db', settle_policy_after_failure account intent toState db ≠ Ok (r, db').
Proof.
  intros Hc Hp Hg Hto account' db2 Hset.
  unfold settle_policy_after_failure in Hset.
  apply bind_ok in Hset as (found & db3 & Hpol & Hset).
  apply try_err_ok in Hpol as [(p & -> & Hpol)|(-> & -> & Hpol)].
  2: { unfold getPolicyForUpdate in Hpol. apply scan_select_err in Hpol as [Hpol _].
       change (find (fun p => policy_AccountID p == account_ID account) (db_policies db) = None) in Hpol.
       by rewrite Hp in Hpol. }
  unfold getPolicyForUpdate in Hpol. apply (proj1 (scan_ok _ _ _ _)) in Hpol.
  apply select_ok in Hpol as [Hpol ->].
  change (find (fun p => policy_AccountID p == account_ID account) (db_policies db) = Some p) in Hpol.
  rewrite Hp in Hpol. injection Hpol as <-.
  rewrite bool_decide_eq_true_2 in Hset by exact Hg.
  apply bind_ok in Hset as (att & db3 & Hset & _).
  match type of Hset with (if ?c then _ else _) _ = _ => assert (c = true) as Hcond' end.
  { apply orb_true_iff. by destruct Hto as [-> | ->]; [left|right]; apply bool_decide_eq_true. }
  rewrite Hcond' in Hset. apply bind_ok in Hset as (rows & db4 & Hupd & _).
  apply update_fenced_ok in Hupd as [Hall _].
  apply find_some_iff in Hp as [Hin Hacc%bool_decide_eq_true].
  specialize (Hall policy Hin). rewrite bool_decide_eq_true_2, Hacc in Hall by done.
  specialize (Hall eq_refl Hc). unfold policy_update_allowed in Hall.
  apply andb_true_iff in Hall as [_ Hmask%bool_decide_eq_true].
  apply (f_equal policy_ConsecutiveFailureCount) in Hmask. 
  change (policy_ConsecutiveFailureCount policy + 1 = policy_ConsecutiveFailureCount policy) in Hmask. lia.
Qed.

(** C40: While a closure of the account is open, a failed or canceled automatic top-up of the
    policy's current generation cannot be recorded: the closure disables the policy but
    keeps its generation, so the UPDATE of the failure count still runs, and the barrier
    trigger rejects it.  The transition aborts whatever the provider reported. *)
Theorem closure_blocks_failed_topup account intent in_ db policy :
  closure_open db (account_ID account) = true →
  find (fun p => policy_AccountID p == account_ID account) (db_policies db) = Some policy →
  intent_Reason intent = PaymentIntentReasonAutoTopUp →
  intent_PolicyGeneration intent = Some (policy_Generation policy) →
  find (fun i => intent_ID i == intent_ID intent) (db_intents db) = Some intent →
  trans_ToState in_ = PaymentIntentStateFailed ∨ trans_ToState in_ = PaymentIntentStateCanceled →
  intent_State intent ≠ trans_ToState in_ →
  ∀ r db', transitionIntentTx account intent in_ db ≠ Ok (r, db').
Proof.
  intros Hc Hp Hr Hg Hf Hto Hne r db' H.
  unfold transitionIntentTx in H.
  apply bind_ok in H as (u & db1 & [_ ->]%require_ok & H).
  rewrite bool_decide_eq_false_2 in H by done.
  apply bind_ok in H as (u2 & db1 & [_ ->]%lift_ok & H).
  apply bind_ok in H as (i' & db1 & Hup & H). apply (proj1 (scan_ok _ _ _ _)) in Hup.
  apply update_one_ok in Hup as (rest & (Hrows & _ & _ & ->)%update_rows_ok).
  cbv zeta in Hrows. cbn [t_rows t_touch intents_table] in Hrows.
  symmetry in Hrows. apply fmap_cons_inv in Hrows as (row & l & -> & _ & Hl%filter_find).
  rewrite Hf in Hl. injection Hl as <-.
  rewrite (bool_decide_eq_false_2 (trans_ToState in_ = _)) in H by (by destruct Hto as [-> | ->]).
  match type of H with (if ?c then _ else _) _ = _ => assert (c = true) as Hcond end.
  { apply andb_true_iff. split; [by apply bool_decide_eq_true|].
    apply bool_decide_eq_true. exists (policy_Generation policy). exact Hg. }
  rewrite Hcond in H. apply bind_ok in H as (account' & db2 & Hset & _).
  revert Hset. by eapply (settle_failure_fenced _ _ _ _ policy).
Qed.
End closure.

Definition demo_closure_db : Db :=
  demo_db <| db_closures := [mkCloudClosure "closure" "acc" "user-1" 1 0 "preparing" 1 0 "period" demo_digest demo_digest] |>
          <| db_policies := [demo_policy <| policy_Enabled := false |> <| policy_Armed := false |>] |>
          <| db_intents := [mkPaymentIntent demo_new_id "acc" 500 TWD PaymentIntentReasonAutoTopUp (Some 1)
               "entry" "paypal" "pm" PaymentIntentStateProcessing "auto" "" "" "corr" 0 0 None] |>.

Definition demo_auto_intent : PaymentIntent :=
  mkPaymentIntent demo_new_id "acc" 500 TWD PaymentIntentReasonAutoTopUp (Some 1)
    "entry" "paypal" "pm" PaymentIntentStateProcessing "auto" "" "" "corr" 0 0 None.

Lemma closure_blocks_failed_topup_witness :
  is_ok (transitionIntentTx (pg := demo_pg) demo_account demo_auto_intent
    (mkTransitionIntentInput demo_new_id PaymentIntentStateFailed "" demo_now) demo_closure_db) = false.
Proof.
  destruct (transitionIntentTx _ _ _ _) as [[r db']|e] eqn:H; [exfalso|done]. revert H.
  apply (closure_blocks_failed_topup (pg := demo_pg) demo_account demo_auto_intent _ demo_closure_db
    (demo_policy <| policy_Enabled := false |> <| policy_Armed := false |>)); try by vm_compute.
  by left.
Defined.
