(* ===== verification/Credits.v ===== *)
(** * Exactly one credit per paid intent

    The invariant that ties the intents of [internal/paymentstore/intents.go] to the
    ledger: an intent that has succeeded has exactly one credit entry, of its account
    and amount, and no other intent has any; and the history of an intent row. *)
From S2P Require Import Prelude GoStrings GoTime BillingTypes PaymentTypes Payment Database Tables.
From S2P Require Import Keeps Fixtures Accounts Ledger Intents.

(** The entries recorded as the credit of an intent. *)
Definition credit_key (intentID : string) (e : LedgerEntry) : bool :=
  (entry_IdempotencyScope e == "payment_intent") && (entry_IdempotencyKey e == intentID).
Definition credits_of (db : Db) (intentID : string) : list LedgerEntry :=
  filter (fun e => credit_key intentID e = true) (db_entries db).

(** An entry that credits the intent, in full. *)
Definition pays (i : PaymentIntent) (e : LedgerEntry) : Prop :=
  entry_AccountID e = intent_AccountID i ∧ entry_AmountMinor e = intent_AmountMinor i ∧
  entry_Currency e = intent_Currency i ∧ entry_Direction e = LedgerDirectionCredit ∧
  entry_Reason e = LedgerReasonPaymentTopUpCredit ∧ entry_ExternalID e = intent_ID i.

Record CreditInv (db : Db) : Prop := {
  ci_unique : NoDup (intent_ID <$> db_intents db);
  ci_uuid : ∀ i, i ∈ db_intents db → uuid_text (intent_ID i) = true;
  ci_owner : ∀ e, e ∈ db_entries db → entry_IdempotencyScope e = "payment_intent" →
    entry_IdempotencyKey e ∈ intent_ID <$> db_intents db;
  ci_paid : ∀ i, i ∈ db_intents db → intent_State i = PaymentIntentStateSucceeded →
    ∃ e, credits_of db (intent_ID i) = [e] ∧ pays i e;
  ci_unpaid : ∀ i, i ∈ db_intents db → intent_State i ≠ PaymentIntentStateSucceeded →
    credits_of db (intent_ID i) = []
}.

(** What a credit looks at in an intent. *)
Definition credit_view (i : PaymentIntent) : string * string * Z * Currency * bool :=
  (intent_ID i, intent_AccountID i, intent_AmountMinor i, intent_Currency i,
   intent_State i == PaymentIntentStateSucceeded).

Lemma CreditInv_view db db' :
  db_entries db' = db_entries db → credit_view <$> db_intents db' = credit_view <$> db_intents db →
  CreditInv db → CreditInv db'.
Proof.
  intros He Hv [Hu Huu Ho Hp Hn].
  assert (intent_ID <$> db_intents db' = intent_ID <$> db_intents db) as Hid.
  { apply (f_equal (fmap (fun k => k.1.1.1.1))) in Hv. by rewrite <- !list_fmap_compose in Hv. }
  assert (∀ i, i ∈ db_intents db' → ∃ j, j ∈ db_intents db ∧ credit_view i = credit_view j) as Hold.
  { intros i Hi. assert (credit_view i ∈ credit_view <$> db_intents db') as Hin
      by (apply list_elem_of_fmap; eauto). rewrite Hv in Hin.
    apply list_elem_of_fmap in Hin as (j & ? & ?). eauto. }
  assert (∀ id, credits_of db' id = credits_of db id) as Hc by (intros; unfold credits_of; by rewrite He).
  constructor; rewrite ?Hid, ?He; try done.
  - intros i Hi. destruct (Hold i Hi) as (j & Hj & Hij). injection Hij as H1 _ _ _ _. rewrite H1. by apply Huu.
  - intros i Hi Hs. destruct (Hold i Hi) as (j & Hj & Hij). injection Hij as H1 H2 H3 H4 H5.
    rewrite Hs, (bool_decide_eq_true_2 (_ = _)) in H5 by done. symmetry in H5. apply bool_decide_eq_true in H5.
    destruct (Hp j Hj H5) as (e & Hce & Hpay). exists e. rewrite Hc, H1. split; [done|].
    unfold pays in *. by rewrite H1, H2, H3, H4.
  - intros i Hi Hs. destruct (Hold i Hi) as (j & Hj & Hij). injection Hij as H1 H2 H3 H4 H5.
    rewrite Hc, H1. apply Hn; [done|]. rewrite bool_decide_eq_false_2 in H5 by done.
    symmetry in H5. by apply bool_decide_eq_false in H5.
Qed.

Lemma CreditInv_calm db db' : calm db db' → CreditInv db → CreditInv db'.
Proof. intros [[He _] Hi]. apply CreditInv_view; [done|by rewrite Hi]. Qed.

(** An UPDATE of the intents that does not touch what a credit looks at. *)
Lemma CreditInv_update db db' (g : PaymentIntent → PaymentIntent) :
  db_entries db' = db_entries db → db_intents db' = g <$> db_intents db →
  (∀ i, i ∈ db_intents db → credit_view (g i) = credit_view i) → CreditInv db → CreditInv db'.
Proof.
  intros He Hg Hview. apply CreditInv_view; [done|]. rewrite Hg, <- list_fmap_compose.
  apply list_fmap_ext. intros n i Hi. apply Hview. by eapply list_elem_of_lookup_2.
Qed.

(** A new intent that has not succeeded. *)
Lemma CreditInv_insert db db' i :
  db_entries db' = db_entries db → db_intents db' = db_intents db ++ [i] →
  intent_State i ≠ PaymentIntentStateSucceeded → uuid_text (intent_ID i) = true → (∀ s, s ∈ db_intents db → intent_ID s ≠ intent_ID i) →
  CreditInv db → CreditInv db'.
Proof.
  intros He Hi Hs Huuid Hfresh [Hu Huu Ho Hp Hn].
  assert (∀ id, credits_of db' id = credits_of db id) as Hc by (intros; unfold credits_of; by rewrite He).
  assert (intent_ID i ∉ intent_ID <$> db_intents db) as Hnew.
  { intros (s & Heq & Hin)%list_elem_of_fmap. by apply (Hfresh s Hin). }
  constructor; rewrite ?Hi, ?He, ?fmap_app.
  - apply NoDup_app. split; [done|]. split; [|apply NoDup_singleton]. intros x Hx ->%list_elem_of_singleton.
    done.
  - by intros j [Hj| ->%list_elem_of_singleton]%elem_of_app; [apply Huu|].
  - intros e Hin Hsc. apply elem_of_app. left. by apply Ho.
  - intros j [Hj| ->%list_elem_of_singleton]%elem_of_app Hst; [|done]. rewrite Hc. by apply Hp.
  - intros j [Hj| ->%list_elem_of_singleton]%elem_of_app Hst; rewrite Hc; [by apply Hn|].
    unfold credits_of. destruct (filter _ _) as [|e l] eqn:E; [done|]. exfalso.
    assert (e ∈ filter (fun e => credit_key (intent_ID i) e = true) (db_entries db)) as Hin
      by (rewrite E; left).
    apply list_elem_of_filter in Hin as [Hk Hin]. unfold credit_key in Hk. reflect_go.
    apply Hnew. rewrite <- H0. by apply Ho.
Qed.

(** A new entry that is not a credit. *)
Lemma CreditInv_entry db db' e :
  db_entries db' = db_entries db ++ [e] → db_intents db' = db_intents db →
  entry_IdempotencyScope e ≠ "payment_intent" → CreditInv db → CreditInv db'.
Proof.
  intros He Hi Hs [Hu Huu Ho Hp Hn].
  assert (∀ id, credits_of db' id = credits_of db id) as Hc.
  { intros. unfold credits_of. rewrite He, filter_app, filter_cons, filter_nil, decide_False, app_nil_r;
      [done|]. unfold credit_key. by rewrite bool_decide_eq_false_2. }
  constructor; rewrite ?Hi; [done|done|..].
  - intros x. rewrite He. intros [Hin| ->%list_elem_of_singleton]%elem_of_app ?; [by apply Ho|done].
  - intros i ??. rewrite Hc. by apply Hp.
  - intros i ??. rewrite Hc. by apply Hn.
Qed.

Lemma uuid_text_trim s : uuid_text s = true → TrimSpace s = s.
Proof.
  unfold uuid_text. intros [_ H]%andb_true_iff. apply TrimSpace_safe.
  rewrite forallb_true in *. intros c Hc. specialize (H c Hc). unfold is_hex in H. unfold code_char.
  rewrite !orb_true_iff, !andb_true_iff, !N.leb_le, !N.eqb_eq in *. lia.
Qed.

Lemma pairwise_NoDup {R K} (conflict : R → R → bool) (key : R → K) l :
  (∀ r s, key r = key s → conflict r s = true) → pairwise_ok conflict l = true → NoDup (key <$> l).
Proof.
  intros Hk. induction l as [|r l IH]; [constructor|]. simpl. intros [Hr Hl]%andb_true_iff.
  constructor; [|by apply IH]. intros (s & Heq & Hs)%list_elem_of_fmap.
  rewrite forallb_true in Hr. specialize (Hr s Hs). by rewrite Hk in Hr.
Qed.

Section credits.
Context {pg : Postgres}.

Lemma moved_view in_ intent now i :
  credit_view (moved in_ intent now i) =
  (intent_ID i, intent_AccountID i, intent_AmountMinor i, intent_Currency i,
   trans_ToState in_ == PaymentIntentStateSucceeded).
Proof. done. Qed.

(** The transition to success: the row moves and its one credit is posted. *)
Lemma CreditInv_credit in_ intent account db entry account' db1 :
  CreditInv db →
  find (fun i => intent_ID i == intent_ID intent) (db_intents db) = Some intent →
  account_ID account = intent_AccountID intent → intent_State intent ≠ PaymentIntentStateSucceeded →
  trans_ToState in_ = PaymentIntentStateSucceeded →
  insertLedgerEntryTx account (credit_input account (moved in_ intent (db_now db) intent) (trans_Now in_))
    (move_intent in_ intent db) = Ok ((entry, account'), db1) →
  CreditInv db1 ∧ credits_of db1 (intent_ID intent) = [entry] ∧ pays intent entry.
Proof.
  intros [Hu Huu Ho Hp Hn] Hfind Hacc Hst Hto Hins.
  apply find_some_iff in Hfind as [Hin _].
  apply insertLedgerEntryTx_ok in Hins as (b & cur & _ & _ & _ & _ & Hentry & _ & _ & _ & Hdb1).
  assert (db_entries db1 = db_entries db ++ [entry]) as He by by rewrite Hdb1.
  assert (db_intents db1 = (fun i => if intent_ID i == intent_ID intent
            then moved in_ intent (db_now db) i else i) <$> db_intents db) as Hi by by rewrite Hdb1.
  assert (entry_IdempotencyKey entry = intent_ID intent) as Hkey.
  { rewrite Hentry. apply uuid_text_trim. by apply Huu. }
  assert (entry_IdempotencyScope entry = "payment_intent") as Hscope by by rewrite Hentry.
  assert (pays intent entry) as Hpays.
  { rewrite Hentry. unfold pays. split_and!; try done. apply uuid_text_trim. by apply Huu. }
  clear Hdb1 Hentry.
  assert (∀ id, credits_of db1 id = credits_of db id ++
            (if decide (id = intent_ID intent) then [entry] else [])) as Hc.
  { intros id. unfold credits_of. rewrite He, filter_app, filter_cons, filter_nil. f_equal.
    unfold credit_key. rewrite Hscope, Hkey, bool_decide_eq_true_2 by done. simpl.
    destruct (decide (id = intent_ID intent)) as [->|Hne].
    - by rewrite decide_True by by apply bool_decide_eq_true.
    - by rewrite decide_False by (rewrite bool_decide_eq_true; congruence). }
  assert (intent_ID <$> db_intents db1 = intent_ID <$> db_intents db) as Hids.
  { rewrite Hi, <- list_fmap_compose. apply list_fmap_ext. intros n i _. simpl. by case_match. }
  split; [|split; [|done]].
  2: { rewrite Hc, decide_True, (Hn intent Hin Hst) by done. done. }
  constructor; rewrite ?Hids.
  - done.
  - rewrite Hi. intros i (j & -> & Hj)%list_elem_of_fmap. specialize (Huu j Hj). by case_match.
  - rewrite He. intros e [Hine| ->%list_elem_of_singleton]%elem_of_app Hsc; [by apply Ho|].
    rewrite Hkey. apply list_elem_of_fmap. eauto.
  - rewrite Hi. intros i (j & -> & Hj)%list_elem_of_fmap Hs.
    destruct (decide (intent_ID j = intent_ID intent)) as [Heq|Hne].
    + assert (j = intent) as -> by (by eapply (NoDup_fmap_inj_elem intent_ID (db_intents db))).
      exists entry. rewrite bool_decide_eq_true_2 by done. rewrite Hc, decide_True by done.
      change (intent_ID (moved in_ intent (db_now db) intent)) with (intent_ID intent).
      rewrite (Hn intent Hin Hst). split; [done|]. exact Hpays.
    + rewrite bool_decide_eq_false_2 in * by done. rewrite Hc, decide_False, app_nil_r by done. by apply Hp.
  - rewrite Hi. intros i (j & -> & Hj)%list_elem_of_fmap Hs.
    destruct (decide (intent_ID j = intent_ID intent)) as [Heq|Hne].
    + rewrite bool_decide_eq_true_2 in Hs by done. done.
    + rewrite bool_decide_eq_false_2 in * by done. rewrite Hc, decide_False, app_nil_r by done. by apply Hn.
Qed.

Lemma transitions_credit account intent in_ db r db' :
  CreditInv db →
  find (fun i => intent_ID i == intent_ID intent) (db_intents db) = Some intent →
  account_ID account = intent_AccountID intent →
  transitions account intent in_ db r db' → CreditInv db'.
Proof.
  intros Hinv Hfind Hacc H.
  destruct H as [|row acc' credit acc'' db1 db' Hstep Hne Hs Hrow Hpair Hins Hcalm
                 |row acc' db' Hstep Hne Hs Hrow Hpair Hcalm]; [done|..].
  - rewrite Hrow in Hfind. injection Hfind as ->. apply (CreditInv_calm _ _ Hcalm).
    eapply CreditInv_credit; try done. by rewrite <- Hs.
  - apply (CreditInv_calm _ _ Hcalm). eapply (CreditInv_update db (move_intent in_ intent db)); [done|done| |done].
    intros i Hi. simpl. destruct (decide (intent_ID i = intent_ID intent)) as [Heq|Hid].
    2: { by rewrite bool_decide_eq_false_2. }
    rewrite bool_decide_eq_true_2, moved_view by done. unfold credit_view. f_equal.
    apply find_some_iff in Hfind as [Hin _].
    assert (i = intent) as -> by (apply (NoDup_fmap_inj_elem intent_ID (db_intents db)); [apply Hinv|done..]).
    rewrite bool_decide_eq_false_2 by done. symmetry. apply bool_decide_eq_false. intros Hsucc.
    apply intent_step_ok in Hstep as (_ & _ & Hstep). rewrite Hsucc in *.
    apply Hne. symmetry. by apply CanTransition_terminal.
Qed.
End credits.

Section transition_intent.
Context {pg : Postgres}.

Lemma intent_account_ok intentID db accountID db' :
  intent_account intentID db = Ok (accountID, db') →
  db' = db ∧ ∃ i, find (fun i => intent_ID i == intentID) (db_intents db) = Some i ∧
    accountID = intent_AccountID i.
Proof.
  unfold intent_account. intros H. apply bind_ok in H as (i & db1 & Hi & [-> ->]%ret_ok).
  apply (proj1 (scan_ok _ _ _ _)) in Hi. apply select_ok in Hi as [Hi ->]. eauto.
Qed.

Lemma getIntentForUpdate_ok intentID db i db' :
  getIntentForUpdate intentID db = Ok (i, db') ↔
  find (fun i => intent_ID i == intentID) (db_intents db) = Some i ∧ db' = db.
Proof. unfold getIntentForUpdate. by rewrite scan_ok, select_ok. Qed.

(** The row found by its identifier is found by its own identifier. *)
Lemma find_intent_self intentID db i :
  find (fun i => intent_ID i == intentID) (db_intents db) = Some i →
  intent_ID i = intentID ∧ find (fun j => intent_ID j == intent_ID i) (db_intents db) = Some i.
Proof. intros Hf. pose proof (find_some_iff _ _ _ Hf) as [_ Hid%bool_decide_eq_true]. by rewrite Hid. Qed.

Definition at_now (in_ : TransitionIntentInput) (now : Time) : TransitionIntentInput :=
  mkTransitionIntentInput (trans_IntentID in_) (trans_ToState in_)
    (trans_ProviderTransactionReference in_) now.

Lemma TransitionIntent_ok ctx in_ db r db' :
  TransitionIntent ctx in_ db = Ok (r, db') →
  ∃ now account intent,
    find (fun a => account_ID a == account_ID account) (db_accounts db) = Some account ∧
    find (fun i => intent_ID i == intent_ID intent) (db_intents db) = Some intent ∧
    account_ID account = intent_AccountID intent ∧ intent_ID intent = trans_IntentID in_ ∧
    transitions account intent (at_now in_ now) db r db'.
Proof.
  unfold TransitionIntent. intros H.
  apply bind_ok in H as (u & db1 & [_ ->]%require_ok & H).
  apply bind_ok in H as (now & db1 & [_ ->]%default_now_ok & H).
  apply bind_ok in H as (accountID & db1 & (-> & i & Hi & ->)%intent_account_ok & H).
  apply withTx_ok in H as [H|(-> & db1 & H)];
    apply bind_ok in H as (account & db2 & [-> Ha]%getAccountForUpdate_ok & H);
    apply bind_ok in H as (intent & db2 & [Hf ->]%getIntentForUpdate_ok & H);
    apply bind_ok in H as (res & db2 & Ht%transitionIntentTx_ok & [Heq ->]%ret_ok); [|done].
  injection Heq as <-. destruct (find_account _ _ _ Ha) as [_ Hid].
  rewrite Hi in Hf. injection Hf as <-. destruct (find_intent_self _ _ _ Hi) as [Hiid Hself].
  exists now, account, i. split_and!; try done. by rewrite Hid.
Qed.

(** The effect of a transition, on the intent and on the books. *)
Lemma transitions_books account intent in_ db r db' :
  LedgerInv db →
  find (fun a => account_ID a == account_ID account) (db_accounts db) = Some account →
  transitions account intent in_ db r db' →
  LedgerInv db' ∧
  (transitioned_Duplicate r = true → db' = db) ∧
  (transitioned_Duplicate r = false →
     (trans_ToState in_ = PaymentIntentStateSucceeded ↔ is_Some (transitioned_CreditEntry r)) ∧
     db_entries db' = db_entries db ++ option_list (transitioned_CreditEntry r) ∧
     ∀ accountID, balance_of db' accountID =
       match transitioned_CreditEntry r with
       | Some e => if decide (accountID = account_ID account)
                   then Some (account_AvailableBalanceMinor account + entry_AmountMinor e)
                   else balance_of db accountID
       | None => balance_of db accountID
       end).
Proof.
  intros Hinv Ha H. destruct (find_account _ _ _ Ha) as [Hin _].
  destruct H as [credit Heq|row acc' credit acc'' db1 db' Hstep Hne Hs Hrow _ Hins [Hbooks _]
                 |row acc' db' Hstep Hne Hs Hrow _ [Hbooks _]]; simpl.
  - by split_and!.
  - assert (LedgerInv (move_intent in_ intent db)) as Hinv1 by by apply (same_books_inv db).
    split_and!; [|done|].
    + apply (same_books_inv _ _ Hbooks). by eapply insertLedgerEntryTx_inv.
    + intros _. split; [by split; eauto|].
      pose proof (insertLedgerEntryTx_posts _ _ _ _ _ _ Hins) as (He & _). split.
      { destruct Hbooks as [-> _]. by rewrite He. }
      intros accountID. rewrite (balance_of_same_books _ _ accountID Hbooks),
        (insertLedgerEntryTx_balance _ _ _ _ _ _ accountID Hins).
      apply insertLedgerEntryTx_ok in Hins as (b & cur & Hb & _ & _ & _ & -> & _).
      apply ApplyBalance_ok in Hb as (_ & _ & -> & _); [|by apply Hinv]. done.
  - split_and!; [by apply (same_books_inv _ _ Hbooks), (same_books_inv db)|done|]. intros _. split_and!.
    + split; [done|]. by intros [? ?].
    + destruct Hbooks as [-> _]. by rewrite app_nil_r.
    + intros accountID. exact (balance_of_same_books _ _ accountID Hbooks).
Qed.

Lemma TransitionIntent_inv ctx in_ :
  keeps (preserves (fun db => LedgerInv db ∧ CreditInv db)) (TransitionIntent ctx in_).
Proof.
  intros db r db' (now & account & intent & Ha & Hi & Hacc & _ & Ht)%TransitionIntent_ok [Hl Hc].
  split; [by eapply transitions_books|by eapply transitions_credit].
Qed.

Lemma moved_in in_ intent db :
  intent ∈ db_intents db →
  moved in_ intent (db_now db) intent ∈ db_intents (move_intent in_ intent db).
Proof.
  intros Hin. apply list_elem_of_fmap. exists intent. by rewrite bool_decide_eq_true_2.
Qed.

(** C18: A transition of an intent either repeats its current state, and changes nothing,
    or follows an edge of the state machine; its move to [succeeded] appends exactly
    one credit, of the intent's amount, to its own account and to no other, and any
    other move leaves the ledger and all balances alone.  Afterwards every succeeded
    intent still has exactly one credit, and every other intent none. *)
Theorem TransitionIntent_spec ctx in_ db r db' :
  LedgerInv db → CreditInv db → TransitionIntent ctx in_ db = Ok (r, db') →
  LedgerInv db' ∧ CreditInv db' ∧
  if transitioned_Duplicate r then db' = db
  else ∃ before,
    before ∈ db_intents db ∧ intent_ID before = trans_IntentID in_ ∧
    intent_step (intent_State before) (trans_ToState in_) ∧
    intent_State (transitioned_Intent r) = trans_ToState in_ ∧
    transitioned_Intent r ∈ db_intents db' ∧
    db_entries db' = db_entries db ++ option_list (transitioned_CreditEntry r) ∧
    match transitioned_CreditEntry r with
    | Some e => trans_ToState in_ = PaymentIntentStateSucceeded ∧
        pays (transitioned_Intent r) e ∧ credits_of db' (trans_IntentID in_) = [e] ∧
        (∀ accountID, balance_of db' accountID =
           if decide (accountID = intent_AccountID before)
           then (fun b => b + intent_AmountMinor before) <$> balance_of db accountID
           else balance_of db accountID)
    | None => trans_ToState in_ ≠ PaymentIntentStateSucceeded ∧
        ∀ accountID, balance_of db' accountID = balance_of db accountID
    end.
Proof.
  intros Hl Hc H. pose proof (TransitionIntent_inv _ _ _ _ _ H (conj Hl Hc)) as [Hl' Hc'].
  split; [done|]. split; [done|].
  apply TransitionIntent_ok in H as (now & account & intent & Ha & Hi & Hacc & Hid & Ht).
  destruct (transitions_books _ _ _ _ _ _ Hl Ha Ht) as (_ & _ & Hnew).
  destruct (find_some_iff _ _ _ Hi) as [Hin _].
  destruct Ht as [credit Heq|row acc' credit acc'' db1 db' Hstep Hne Hs Hrow _ Hins Hcalm
                 |row acc' db' Hstep Hne Hs Hrow _ Hcalm]; simpl in *; [done|..];
    destruct (Hnew eq_refl) as (_ & He & Hbal); rewrite Hrow in Hi; injection Hi as ->;
    exists intent; do 4 (split; [done|]).
  - assert (intent_State intent ≠ PaymentIntentStateSucceeded) as Hne' by (by rewrite <- Hs).
    destruct (CreditInv_credit (at_now in_ now) intent account db credit acc' db1) as (_ & Hcred & Hpays);
      try done.
    assert (db_intents db1 = db_intents (move_intent (at_now in_ now) intent db)) as Hi1.
    { by apply insertLedgerEntryTx_ok in Hins as (? & ? & _ & _ & _ & _ & _ & _ & _ & _ & ->). }
    destruct Hcalm as [[Hbooks _] Hsame].
    split; [rewrite Hsame, Hi1; by apply moved_in|]. split; [done|]. split; [done|].
    split; [done|]. split; [unfold credits_of; rewrite Hbooks, <- Hid; done|].
    intros accountID. rewrite Hbal, <- Hacc. destruct Hpays as (_ & -> & _). destruct (decide _) as [->|]; [|done].
    unfold balance_of. by rewrite Ha.
  - destruct Hcalm as [_ Hsame]. split; [rewrite Hsame; by apply moved_in|]. done.
Qed.
End transition_intent.

(** ** Witness: an intent being processed succeeds *)
Definition demo_paid : PaymentIntent := demo_intent demo_paid_id PaymentIntentStateSucceeded (Some 0).
Definition demo_processing : PaymentIntent := demo_intent demo_new_id PaymentIntentStateProcessing None.
Definition demo_processing_db : Db := demo_db <| db_intents := [demo_paid; demo_processing] |>.
Definition demo_success : TransitionIntentInput :=
  mkTransitionIntentInput demo_new_id PaymentIntentStateSucceeded "capture-1" demo_now.

Lemma demo_processing_ledger : LedgerInv demo_processing_db.
Proof. apply (same_books_inv demo_db); [done|exact demo_inv]. Qed.

Lemma demo_processing_intents i :
  i ∈ db_intents demo_processing_db → i = demo_paid ∨ i = demo_processing.
Proof.
  change (db_intents demo_processing_db) with [demo_paid; demo_processing].
  rewrite !elem_of_cons, elem_of_nil. tauto.
Qed.

Lemma demo_processing_credit : CreditInv demo_processing_db.
Proof.
  constructor.
  - apply (bool_decide_eq_true_1 _). by vm_compute.
  - intros i [-> | ->]%demo_processing_intents; by vm_compute.
  - intros e ->%list_elem_of_singleton _. left.
  - intros i [-> | ->]%demo_processing_intents Hs; [|done]. exists demo_credit. by vm_compute.
  - intros i [-> | ->]%demo_processing_intents Hs; [done|]. by vm_compute.
Qed.

Definition demo_transition : TransitionIntentResult * Db := Eval vm_compute in
  match TransitionIntent (pg := demo_pg) None demo_success demo_processing_db with
  | Ok p => p
  | Err _ => (mkTransitionIntentResult (demo_intent "" "" None) demo_account None true, demo_db)
  end.

Lemma TransitionIntent_spec_witness :
  TransitionIntent (pg := demo_pg) None demo_success demo_processing_db
    = Ok (demo_transition.1, demo_transition.2) ∧
  balance_of demo_transition.2 "acc" = Some 2000 ∧ CreditInv demo_transition.2.
Proof.
  assert (TransitionIntent (pg := demo_pg) None demo_success demo_processing_db
    = Ok (demo_transition.1, demo_transition.2)) as Hrun by by vm_compute.
  split; [exact Hrun|]. split; [by vm_compute|].
  exact (proj1 (proj2 (TransitionIntent_spec (pg := demo_pg) None demo_success demo_processing_db
    demo_transition.1 demo_transition.2 demo_processing_ledger demo_processing_credit Hrun))).
Defined.
