(* ===== verification/Jobs.v ===== *)
(** * Payment jobs: [internal/paymentstore/orchestration.go]

    Leasing of the reconciliation jobs, the attempts made with a provider, and the
    recording of their results. *)
From S2P Require Import Prelude GoStrings GoTime BillingTypes PaymentTypes Payment Database Tables.
From S2P Require Import Keeps Fixtures Accounts Ledger Intents Credits.

Record ProviderAttemptWork := mkProviderAttemptWork {
  work_Job : ReconciliationJob;
  work_Attempt : PaymentAttempt;
  work_Intent : PaymentIntent;
  work_ProviderMethodRefCiphertext : string;
  work_ProviderCustomerRefCiphertext : string;
  work_RecoverIncompleteAttempt : bool
}.

(** [validSHA256]: 64 hexadecimal digits in either case. *)
Definition validSHA256 (value : string) : bool :=
  (len value =? 64) && forallb is_hex (bytes_of (ToLower value)).

(** [ORDER BY due_at, created_at, id] *)
Definition job_before (a b : ReconciliationJob) : bool :=
  (job_DueAt a <? job_DueAt b)
  || ((job_DueAt a =? job_DueAt b)
      && ((job_CreatedAt a <? job_CreatedAt b)
          || ((job_CreatedAt a =? job_CreatedAt b) && String.ltb (job_ID a) (job_ID b)))).

(** A job that may be leased: due, or with a stale lease. *)
Definition claimable (now staleBefore : Time) (j : ReconciliationJob) : bool :=
  ((job_Status j == "pending") && (job_DueAt j <=? now))
  || ((job_Status j == "leased")
      && match job_LeasedAt j with Some t => t <=? staleBefore | None => false end).

Definition lease (now : Time) (owner : string) (j : ReconciliationJob) : ReconciliationJob :=
  j <| job_Status := ReconciliationStatusLeased |> <| job_LeasedAt := Some now |>
    <| job_LeaseOwner := owner |> <| job_AttemptCount ::= Z.succ |> <| job_LastError := "" |>.

(** The release of a lease. *)
Definition release (status : ReconciliationStatus) (lastError : string) (j : ReconciliationJob) :
    ReconciliationJob :=
  j <| job_Status := status |> <| job_LeasedAt := None |> <| job_LeaseOwner := "" |>
    <| job_LastError := lastError |>.

Record BeginProviderAttemptInput := mkBeginProviderAttemptInput {
  begin_JobID : string;
  begin_LeaseOwner : string;
  begin_Operation : ProviderOperation;
  begin_Now : Time
}.

Record FinalizeProviderAttemptInput := mkFinalizeProviderAttemptInput {
  final_JobID : string;
  final_LeaseOwner : string;
  final_AttemptID : string;
  final_Result : ProviderResult;
  final_ResponseSHA256 : string;
  final_Now : Time;
  final_NextReconciliationAt : Time
}.

Record FinalizeProviderAttemptResult := mkFinalizeProviderAttemptResult {
  finalized_Transition : option TransitionIntentResult;  (* unset on a duplicate *)
  finalized_Job : ReconciliationJob;
  finalized_Duplicate : bool
}.

(** [strings.ReplaceAll(s, "-", "")] *)
Definition remove_dashes (s : string) : string :=
  of_bytes (filter (fun c => N.eqb c 45 = false) (bytes_of s)).

Definition nullTimeUnlessUnknown (state : PaymentIntentState) (value : Time) : option Time :=
  if state == PaymentIntentStateUnknown then Some (UTC value) else None.

Definition sanitizeSafeError (value : string) : string := NormalizeProviderCode value.

Section jobs.
Context {pg : Postgres}.

Definition ClaimPaymentJobs (now staleBefore : Time) (leaseOwner : string) (limit : Z) :
    M (list ReconciliationJob) :=
  _ ← require_that (required leaseOwner) ErrConflict;
  let limit := if (limit <=? 0) || (limit >? 100) then 20 else limit in
  let now := pg_time (UTC now) in
  let staleBefore := pg_time (UTC staleBefore) in
  candidates ← gets (fun db => take (Z.to_nat limit) (sort_stable job_before
                 (filter (fun j => claimable now staleBefore j = true) (db_jobs db))));
  let ids := job_ID <$> candidates in
  claimed ← update_rows (fun j => bool_decide (job_ID j ∈ ids)) (lease now (TrimSpace leaseOwner));
  mret (sort_stable job_before claimed).

Definition getJobForUpdate (jobID : string) : M ReconciliationJob :=
  scan (select (fun j => job_ID j == jobID)).

(** The guard on the lease of both attempt operations. *)
Definition require_lease (job : ReconciliationJob) (leaseOwner : string) : M unit :=
  require_that ((job_Status job == ReconciliationStatusLeased)
                && (job_LeaseOwner job == TrimSpace leaseOwner)) ErrLeaseConflict.

(** [ORDER BY attempt_number DESC LIMIT 1] among the attempts not completed. *)
Definition open_attempt (db : Db) (intentID : string) (operation : ProviderOperation) :
    option PaymentAttempt :=
  head (sort_stable (fun a b => attempt_AttemptNumber a >? attempt_AttemptNumber b)
    (filter (fun a => (attempt_IntentID a == intentID) && (attempt_Operation a == operation)
                      && bool_decide (attempt_CompletedAt a = None) = true) (db_attempts db))).

(** [COALESCE(max(attempt_number), 0) + 1] *)
Definition next_attempt_number (db : Db) (intentID : string) : Z :=
  match attempt_AttemptNumber <$> filter (fun a => attempt_IntentID a = intentID) (db_attempts db) with
  | [] => 1
  | n :: ns => foldr Z.max n ns + 1
  end.

(** The switch on the operation: the intent the attempt works on. *)
Definition prepare_operation (job : ReconciliationJob) (intent : PaymentIntent) (accountID : string)
    (operation : ProviderOperation) (now : Time) : M PaymentIntent :=
  if operation == ProviderOperationCharge then
    _ ← requireNoHandoffTx accountID;
    _ ← require_that (negb ((job_Reason job != ReconciliationReasonCharge)
           || (intent_State intent != PaymentIntentStateCreated))) ErrJobNotActionable;
    let reference := if intent_MerchantOrderReference intent == ""
                     then "rtk_" +:+ str_take 26 (remove_dashes (intent_ID intent))
                     else intent_MerchantOrderReference intent in
    scan (update_one (fun i => intent_ID i == intent_ID intent) (fun i =>
      i <| intent_State := PaymentIntentStateProcessing |>
        <| intent_MerchantOrderReference := reference |> <| intent_UpdatedAt := pg_time now |>))
  else
    _ ← require_that (negb ((job_Reason job == ReconciliationReasonCharge)
           || ((intent_State intent != PaymentIntentStateProcessing)
               && (intent_State intent != PaymentIntentStateAuthorized)
               && (intent_State intent != PaymentIntentStateRequiresAction)
               && (intent_State intent != PaymentIntentStateUnknown)))) ErrJobNotActionable;
    mret intent.

(** The ciphertexts of the method to charge. *)
Definition charge_references (operation : ProviderOperation) (intent : PaymentIntent) : M (string * string) :=
  if operation == ProviderOperationCharge then
    row ← scan (select (fun r => (method_ID (mrow_method r) == intent_PaymentMethodID intent)
      && (method_AccountID (mrow_method r) == intent_AccountID intent)
      && (method_Provider (mrow_method r) == intent_Provider intent)
      && (method_Status (mrow_method r) == "active")));
    mret (mrow_method_ref row, mrow_customer_ref row)
  else mret ("", "").

Definition beginProviderAttemptTx (ctx : Ctx) (in_ : BeginProviderAttemptInput) (now : Time) :
    M (Outcome ProviderAttemptWork) :=
  job ← getJobForUpdate (begin_JobID in_);
  _ ← require_lease job (begin_LeaseOwner in_);
  accountID ← intent_account (job_IntentID job);
  _ ← getAccountForUpdate ctx accountID;
  intent ← getIntentForUpdate (job_IntentID job);
  _ ← require_that (negb (IntentStateTerminal (intent_State intent))) ErrJobNotActionable;
  existing ← gets (fun db => open_attempt db (intent_ID intent) (begin_Operation in_));
  match existing with
  | Some existing => mret (Committed (mkProviderAttemptWork job existing intent "" "" true))
  | None =>
      intent ← prepare_operation job intent accountID (begin_Operation in_) now;
      number ← gets (fun db => next_attempt_number db (intent_ID intent));
      id ← fresh;
      db_now ← gets db_now;
      attempt ← scan (insert_attempt (mkPaymentAttempt id (intent_ID intent) (begin_Operation in_) number
                        (pg_time now) None "started" "" "" "" None db_now));
      '(methodRef, customerRef) ← charge_references (begin_Operation in_) intent;
      mret (Committed (mkProviderAttemptWork job attempt intent methodRef customerRef false))
  end.

Definition BeginProviderAttempt (ctx : Ctx) (in_ : BeginProviderAttemptInput) : M ProviderAttemptWork :=
  _ ← require_that (required (begin_JobID in_) && required (begin_LeaseOwner in_)
        && ((begin_Operation in_ == ProviderOperationCharge)
            || (begin_Operation in_ == ProviderOperationQuery))) ErrConflict;
  now ← default_now (begin_Now in_);
  withTx (beginProviderAttemptTx ctx in_ now).

Definition SetAttemptRequestDigest (attemptID sha256 : string) : M unit :=
  _ ← require_that (required attemptID && validSHA256 sha256) ErrConflict;
  rows ← update_rows (fun a => (attempt_ID a == attemptID) && bool_decide (attempt_CompletedAt a = None)
                               && (attempt_RequestSHA256 a == ""))
           (fun a => a <| attempt_RequestSHA256 := ToLower sha256 |>);
  require_that (length rows =? 1)%nat ErrConflict.

(** What the result does to the job. *)
Definition settle_job (job : ReconciliationJob) (intentID : string) (state : PaymentIntentState)
    (nextAt : Time) : M ReconciliationJob :=
  if (state == PaymentIntentStateUnknown) && (job_Reason job == ReconciliationReasonUnknown) then
    scan (update_one (fun j => job_ID j == job_ID job) (fun j =>
      release ReconciliationStatusPending "" j <| job_DueAt := pg_time nextAt |>))
  else
    job ← scan (update_one (fun j => job_ID j == job_ID job) (release ReconciliationStatusCompleted ""));
    if state == PaymentIntentStateUnknown then
      id ← fresh;
      now ← gets db_now;
      _ ← try_err ErrNoRows (insert_or_nothing t_conflict
            (new_job id intentID ReconciliationReasonUnknown nextAt now));
      mret job
    else mret job.

Definition mark_processed (now : Time) (r : WebhookReceipt) : WebhookReceipt :=
  mkWebhookReceipt (receipt_ID r) (receipt_Provider r)
    (receipt_ProviderEventReference r) (receipt_PayloadSHA256 r) (receipt_VerificationResult r)
    (receipt_IntentID r) (receipt_NormalizedEventType r) "processed" (receipt_SafeSummary r)
    (receipt_ReceivedAt r) (Some now) (receipt_CreatedAt r) (receipt_UpdatedAt r).

Definition finalizeProviderAttemptTx (ctx : Ctx) (in_ : FinalizeProviderAttemptInput) (now nextAt : Time) :
    M (Outcome FinalizeProviderAttemptResult) :=
  let state := result_State (final_Result in_) in
  job ← getJobForUpdate (final_JobID in_);
  _ ← require_lease job (final_LeaseOwner in_);
  attempt ← scan (select (fun a => attempt_ID a == final_AttemptID in_));
  _ ← require_that (attempt_IntentID attempt == job_IntentID job) ErrConflict;
  if bool_decide (is_Some (attempt_CompletedAt attempt)) then
    mret (RolledBack (mkFinalizeProviderAttemptResult None job true))
  else
  accountID ← intent_account (job_IntentID job);
  account ← getAccountForUpdate ctx accountID;
  intent ← getIntentForUpdate (job_IntentID job);
  let providerCode := NormalizeProviderCode (result_ProviderCode (final_Result in_)) in
  _ ← update_rows (fun a => attempt_ID a == attempt_ID attempt) (fun a =>
        a <| attempt_CompletedAt := Some (pg_time now) |> <| attempt_NormalizedResult := state |>
          <| attempt_ProviderCode := providerCode |>
          <| attempt_ResponseSHA256 := ToLower (final_ResponseSHA256 in_) |>
          <| attempt_NextReconciliationAt := pg_time <$> nullTimeUnlessUnknown state nextAt |>);
  transition ← transitionIntentTx account intent (mkTransitionIntentInput (intent_ID intent) state
                 (result_ProviderTransactionReference (final_Result in_)) now);
  job ← settle_job job (intent_ID intent) state nextAt;
  _ ← (if state != PaymentIntentStateUnknown then
         _ ← update_rows (fun r => (receipt_IntentID r == intent_ID intent)
                                   && (receipt_ProcessingState r == "scheduled"))
               (mark_processed (pg_time now));
         mret tt
       else mret tt);
  mret (Committed (mkFinalizeProviderAttemptResult (Some transition) job false)).

Definition FinalizeProviderAttempt (ctx : Ctx) (in_ : FinalizeProviderAttemptInput) :
    M FinalizeProviderAttemptResult :=
  _ ← require_that (required (final_JobID in_) && required (final_LeaseOwner in_)
        && required (final_AttemptID in_)
        && negb ((final_ResponseSHA256 in_ != "") && negb (validSHA256 (final_ResponseSHA256 in_))))
        ErrConflict;
  _ ← lift (ValidateProviderResult (final_Result in_));
  now ← default_now (final_Now in_);
  let nextAt := if IsZero (final_NextReconciliationAt in_) then Add now Minute
                else UTC (final_NextReconciliationAt in_) in
  withTx (finalizeProviderAttemptTx ctx in_ now nextAt).

(** The jobs of a lease: [WHERE id = $1 AND status = 'leased' AND lease_owner = $2]. *)
Definition held_by (jobID leaseOwner : string) (j : ReconciliationJob) : bool :=
  (job_ID j == jobID) && (job_Status j == "leased") && (job_LeaseOwner j != "")
  && (job_LeaseOwner j == TrimSpace leaseOwner).

Definition CompletePaymentJob (jobID leaseOwner : string) : M unit :=
  rows ← update_rows (held_by jobID leaseOwner) (release ReconciliationStatusCompleted "");
  require_that (length rows =? 1)%nat ErrLeaseConflict.

Definition RetryPaymentJob (jobID leaseOwner : string) (dueAt : Time) (safeError : string) : M unit :=
  rows ← update_rows (held_by jobID leaseOwner) (fun j =>
           release ReconciliationStatusPending (sanitizeSafeError safeError) j
             <| job_DueAt := pg_time (UTC dueAt) |>);
  require_that (length rows =? 1)%nat ErrLeaseConflict.

End jobs.

(** ** Leases *)
Section leases.
Context {pg : Postgres}.

Definition claim_limit (limit : Z) : Z := if (limit <=? 0) || (limit >? 100) then 20 else limit.
Definition due (now staleBefore : Time) : ReconciliationJob → bool :=
  claimable (pg_time (UTC now)) (pg_time (UTC staleBefore)).
Definition claim_candidates (now staleBefore : Time) (limit : Z) (db : Db) : list ReconciliationJob :=
  take (Z.to_nat (claim_limit limit))
    (sort_stable job_before (filter (fun j => due now staleBefore j = true) (db_jobs db))).

(** The row a claim leaves. *)
Definition claimed (db : Db) (now : Time) (owner : string) (j : ReconciliationJob) : ReconciliationJob :=
  lease (pg_time (UTC now)) (TrimSpace owner) j <| job_UpdatedAt := db_now db |>.

Lemma job_conflict_id r s : job_ID r = job_ID s → t_conflict r s = true.
Proof. intros Heq. cbn [t_conflict jobs_table]. by rewrite bool_decide_eq_true_2. Qed.

Lemma pairwise_job_ids l : pairwise_ok t_conflict l = true → NoDup (job_ID <$> l).
Proof. apply pairwise_NoDup. apply job_conflict_id. Qed.

(** Selecting by identifier the rows of a sublist gives the sublist. *)
Lemma filter_ids (l k : list ReconciliationJob) :
  NoDup (job_ID <$> l) → NoDup k → (∀ j, j ∈ k → j ∈ l) →
  filter (fun j => bool_decide (job_ID j ∈ job_ID <$> k) = true) l ≡ₚ k.
Proof.
  intros Hnd Hk Hsub. apply NoDup_Permutation; [|done|].
  - apply NoDup_filter. by eapply NoDup_fmap_1.
  - intros j. rewrite list_elem_of_filter, bool_decide_eq_true. split; [|intros Hj; split; [|by apply Hsub]].
    + intros [(j' & Heq & Hj')%list_elem_of_fmap Hj].
      by rewrite (NoDup_fmap_inj_elem job_ID l j j' Hnd Hj (Hsub _ Hj') Heq).
    + apply list_elem_of_fmap. eauto.
Qed.

Lemma ClaimPaymentJobs_ok now staleBefore owner limit db jobs db' :
  ClaimPaymentJobs now staleBefore owner limit db = Ok (jobs, db') →
  let candidates := claim_candidates now staleBefore limit db in
  NoDup (job_ID <$> db_jobs db) ∧
  jobs ≡ₚ claimed db now owner <$> candidates ∧
  (∃ rows, jobs = sort_stable job_before rows) ∧
  db' = db <| db_jobs ::= fmap (fun j => if bool_decide (job_ID j ∈ job_ID <$> candidates)
                                          then claimed db now owner j else j) |>.
Proof.
  unfold ClaimPaymentJobs. intros H.
  apply bind_ok in H as (u & db1 & [_ ->]%require_ok & H). cbv zeta in H.
  apply bind_ok in H as (candidates & db1 & [-> ->]%gets_ok & H).
  apply bind_ok in H as (rows & db1 & Hup & [-> ->]%ret_ok).
  fold (claim_limit limit) in Hup. fold (due now staleBefore) in Hup.
  fold (claim_candidates now staleBefore limit db) in Hup. cbv zeta.
  set (candidates := claim_candidates now staleBefore limit db) in *.
  apply update_rows_ok in Hup as (-> & _ & Hpair & ->). cbv zeta in Hpair.
  cbn [t_rows t_touch jobs_table] in *.
  change (fun r => lease (pg_time (UTC now)) (TrimSpace owner) r <| job_UpdatedAt := db_now db |>)
    with (claimed db now owner) in *.
  assert (NoDup (job_ID <$> db_jobs db)) as Hnd.
  { apply pairwise_job_ids in Hpair. rewrite <- list_fmap_compose in Hpair.
    erewrite list_fmap_ext; [exact Hpair|]. intros n j _. simpl. by case_bool_decide. }
  split; [done|]. split; [|split; [by eexists|done]].
  rewrite sort_stable_Permutation. apply fmap_Permutation, filter_ids; [done| |].
  - unfold candidates, claim_candidates. eapply sublist_NoDup; [|apply sublist_take].
    rewrite sort_stable_Permutation. apply NoDup_filter. by eapply NoDup_fmap_1.
  - intros j Hj. unfold candidates, claim_candidates in Hj. apply elem_of_take in Hj as (n & Hj & _).
    apply list_elem_of_lookup_2 in Hj. rewrite sort_stable_Permutation in Hj.
    by apply list_elem_of_filter in Hj as [_ ?].
Qed.
End leases.

Section lease_theorems.
Context {pg : Postgres}.

Lemma claim_candidates_in now staleBefore limit db j :
  j ∈ claim_candidates now staleBefore limit db → j ∈ db_jobs db ∧ due now staleBefore j = true.
Proof.
  intros (n & Hj & _)%elem_of_take. apply list_elem_of_lookup_2 in Hj.
  rewrite sort_stable_Permutation in Hj. by apply list_elem_of_filter in Hj as [? ?].
Qed.

(** The identifiers of the claimed jobs are those of the candidates. *)
Lemma claimed_ids db now owner jobs candidates :
  jobs ≡ₚ claimed db now owner <$> candidates → job_ID <$> jobs ≡ₚ job_ID <$> candidates.
Proof. intros ->. by rewrite <- list_fmap_compose. Qed.

(** A worker's claim takes only jobs that are due or whose lease has gone stale, at most
    the batch size of them, and leases each to that worker from now on; no other job
    changes, and a claimable job is left behind only when the batch is full. *)
Theorem ClaimPaymentJobs_spec now staleBefore owner limit db jobs db' :
  ClaimPaymentJobs now staleBefore owner limit db = Ok (jobs, db') →
  (length jobs ≤ Z.to_nat (claim_limit limit))%nat ∧
  (∀ j, j ∈ jobs → j ∈ db_jobs db' ∧ job_Status j = ReconciliationStatusLeased ∧
     job_LeaseOwner j = TrimSpace owner ∧ job_LeasedAt j = Some (pg_time (UTC now)) ∧
     ∃ old, old ∈ db_jobs db ∧ job_ID old = job_ID j ∧ due now staleBefore old = true ∧
       job_AttemptCount j = job_AttemptCount old + 1) ∧
  (∀ old, old ∈ db_jobs db → job_ID old ∉ job_ID <$> jobs →
     old ∈ db_jobs db' ∧
     (due now staleBefore old = true → length jobs = Z.to_nat (claim_limit limit))).
Proof.
  intros H. apply ClaimPaymentJobs_ok in H as (Hnd & Hjobs & _ & ->).
  set (candidates := claim_candidates now staleBefore limit db) in *.
  assert (length jobs = length candidates) as Hlen by (by rewrite Hjobs, length_fmap).
  split_and!.
  - rewrite Hlen. unfold candidates, claim_candidates. rewrite length_take. lia.
  - intros j Hj. rewrite Hjobs in Hj. apply list_elem_of_fmap in Hj as (old & -> & Hold).
    destruct (claim_candidates_in _ _ _ _ _ Hold) as [Hin Hdue]. split_and!; try done.
    + apply list_elem_of_fmap. exists old. split; [|done]. rewrite bool_decide_eq_true_2; [done|].
      apply list_elem_of_fmap. eauto.
    + exists old. split_and!; done.
  - intros old Hin Hids. rewrite (claimed_ids _ _ _ _ _ Hjobs) in Hids. split.
    + apply list_elem_of_fmap. exists old. split; [|done]. by rewrite bool_decide_eq_false_2.
    + intros Hdue. rewrite Hlen. unfold candidates, claim_candidates. rewrite length_take.
      destruct (decide (Z.to_nat (claim_limit limit) ≤ length (sort_stable job_before
        (filter (fun j => due now staleBefore j = true) (db_jobs db))))%nat) as [?|Hshort]; [lia|].
      exfalso. apply Hids. unfold candidates, claim_candidates. rewrite take_ge by lia.
      rewrite sort_stable_Permutation. apply list_elem_of_fmap. exists old. split; [done|].
      by apply list_elem_of_filter.
Qed.

(** A leased job is due again when its lease is old enough. *)
Lemma claimed_due db now1 owner j now2 stale2 :
  due now2 stale2 (claimed db now1 owner j) = (pg_time (UTC now1) <=? pg_time (UTC stale2)).
Proof. done. Qed.

(** C27: No two workers hold the same job: jobs claimed at one instant cannot be claimed
    again, by anyone, as long as the leases are younger than the staleness bound of the
    later claim, whatever happened to the other jobs in between. *)
Theorem claims_disjoint now1 stale1 owner1 limit1 now2 stale2 owner2 limit2 db db1 db2 db3 jobs1 jobs2 :
  ClaimPaymentJobs now1 stale1 owner1 limit1 db = Ok (jobs1, db1) →
  (∀ j, j ∈ jobs1 → j ∈ db_jobs db2) →
  ClaimPaymentJobs now2 stale2 owner2 limit2 db2 = Ok (jobs2, db3) →
  pg_time (UTC stale2) < pg_time (UTC now1) →
  ∀ j1 j2, j1 ∈ jobs1 → j2 ∈ jobs2 → job_ID j1 ≠ job_ID j2.
Proof.
  intros H1 Hkept H2 Hstale j1 j2 Hj1 Hj2 Heq. specialize (Hkept j1 Hj1).
  apply ClaimPaymentJobs_ok in H1 as (_ & Hjobs1 & _), H2 as (Hnd & Hjobs2 & _).
  rewrite Hjobs1 in Hj1. apply list_elem_of_fmap in Hj1 as (old1 & -> & _).
  rewrite Hjobs2 in Hj2. apply list_elem_of_fmap in Hj2 as (old2 & -> & Hold2).
  apply claim_candidates_in in Hold2 as [Hin2 Hdue].
  assert (claimed db now1 owner1 old1 = old2) as <-
    by (by apply (NoDup_fmap_inj_elem job_ID (db_jobs db2))).
  rewrite claimed_due in Hdue. lia.
Qed.

Lemma getJobForUpdate_ok jobID db j db' :
  getJobForUpdate jobID db = Ok (j, db') →
  db' = db ∧ j ∈ db_jobs db ∧ job_ID j = jobID.
Proof.
  unfold getJobForUpdate. intros H. apply (proj1 (scan_ok _ _ _ _)) in H.
  by apply select_ok in H as [[? ?%bool_decide_eq_true]%find_some_iff ->].
Qed.

(** The job is leased by the worker. *)
Definition holds_lease (db : Db) (jobID owner : string) : Prop :=
  ∃ j, j ∈ db_jobs db ∧ job_ID j = jobID ∧ job_Status j = ReconciliationStatusLeased ∧
    job_LeaseOwner j = TrimSpace owner.

Lemma require_lease_ok job owner db u db' :
  require_lease job owner db = Ok (u, db') ↔
  db' = db ∧ job_Status job = ReconciliationStatusLeased ∧ job_LeaseOwner job = TrimSpace owner.
Proof.
  unfold require_lease. rewrite require_ok, andb_true_iff, !bool_decide_eq_true. tauto.
Qed.

Lemma get_lease jobID owner job db db1 u db2 :
  getJobForUpdate jobID db = Ok (job, db1) → require_lease job owner db1 = Ok (u, db2) →
  db1 = db ∧ db2 = db ∧ holds_lease db jobID owner.
Proof.
  intros (-> & Hin & Hid)%getJobForUpdate_ok (-> & ? & ?)%require_lease_ok.
  split_and!; [done..|]. by exists job.
Qed.

Lemma held_update jobID owner f db rows db' :
  update_rows (held_by jobID owner) f db = Ok (rows, db') → (length rows =? 1)%nat = true →
  holds_lease db jobID owner.
Proof.
  intros (-> & _)%update_rows_ok Hlen. rewrite length_fmap in Hlen.
  destruct (filter _ _) as [|j l] eqn:E; [done|].
  assert (j ∈ filter (fun r => held_by jobID owner r = true) (t_rows db)) as Hin by (rewrite E; left).
  apply list_elem_of_filter in Hin as [Hh Hin]. unfold held_by in Hh. reflect_go. by exists j.
Qed.

(** C28: Only the worker that holds the lease of a job can begin an attempt, record its
    result, complete the job or put it back: for anyone else these operations fail and
    leave the database as it was. *)
Theorem lease_required ctx db owner jobID :
  ¬ holds_lease db jobID owner →
  (∀ in_, begin_JobID in_ = jobID → begin_LeaseOwner in_ = owner →
     ∃ e, run (BeginProviderAttempt ctx in_) db = (Err e, db)) ∧
  (∀ in_, final_JobID in_ = jobID → final_LeaseOwner in_ = owner →
     ∃ e, run (FinalizeProviderAttempt ctx in_) db = (Err e, db)) ∧
  (∃ e, run (CompletePaymentJob jobID owner) db = (Err e, db)) ∧
  (∀ dueAt safeError, ∃ e, run (RetryPaymentJob jobID owner dueAt safeError) db = (Err e, db)).
Proof.
  intros Hno.
  assert (∀ A (m : M A), (∀ a db', m db = Ok (a, db') → holds_lease db jobID owner) →
            ∃ e, run m db = (Err e, db)) as Hfail.
  { intros A m Hm. unfold run. destruct (m db) as [[a db']|e] eqn:E; [|eauto].
    destruct Hno. by eapply Hm. }
  split_and!.
  - intros in_ <- <-. apply Hfail. intros a db' H. unfold BeginProviderAttempt in H.
    apply bind_ok in H as (u & db1 & [_ ->]%require_ok & H).
    apply bind_ok in H as (now & db1 & [_ ->]%default_now_ok & H).
    apply withTx_ok in H as [H|(_ & db1 & H)]; unfold beginProviderAttemptTx in H;
      apply bind_ok in H as (job & db2 & Hj & H); apply bind_ok in H as (u2 & db3 & Hl & _);
      by destruct (get_lease _ _ _ _ _ _ _ Hj Hl) as (_ & _ & ?).
  - intros in_ <- <-. apply Hfail. intros a db' H. unfold FinalizeProviderAttempt in H.
    apply bind_ok in H as (u & db1 & [_ ->]%require_ok & H).
    apply bind_ok in H as (u1 & db1 & [_ ->]%lift_ok & H).
    apply bind_ok in H as (now & db1 & [_ ->]%default_now_ok & H). cbv zeta in H.
    apply withTx_ok in H as [H|(_ & db1 & H)]; unfold finalizeProviderAttemptTx in H; cbv zeta in H;
      apply bind_ok in H as (job & db2 & Hj & H); apply bind_ok in H as (u2 & db3 & Hl & _);
      by destruct (get_lease _ _ _ _ _ _ _ Hj Hl) as (_ & _ & ?).
  - apply Hfail. intros a db' H. unfold CompletePaymentJob in H.
    apply bind_ok in H as (rows & db1 & Hup & [Hlen _]%require_ok). by eapply held_update.
  - intros dueAt e. apply Hfail. intros a db' H. unfold RetryPaymentJob in H.
    apply bind_ok in H as (rows & db1 & Hup & [Hlen _]%require_ok). by eapply held_update.
Qed.
End lease_theorems.

(** ** The theorems at the demonstration database *)

Definition demo_claim : list ReconciliationJob * Db :=
  Eval vm_compute in
  match ClaimPaymentJobs (pg := demo_pg) demo_now demo_now "worker" 5 demo_db with
  | Ok r => r
  | Err _ => ([], demo_db)
  end.

Lemma ClaimPaymentJobs_spec_witness :
  length demo_claim.1 = 1%nat ∧
  (∀ j, j ∈ demo_claim.1 → job_LeaseOwner j = "worker").
Proof.
  pose proof (ClaimPaymentJobs_spec (pg := demo_pg) demo_now demo_now "worker" 5 demo_db
    demo_claim.1 demo_claim.2 eq_refl) as (_ & H & _).
  split; [done|]. intros j Hj. by destruct (H j Hj) as (_ & _ & -> & _).
Defined.

(** Two due jobs, taken one by one by two workers. *)
Definition demo_two_jobs : Db :=
  demo_db <| db_jobs := [demo_job;
    mkReconciliationJob "job2" demo_paid_id ReconciliationReasonWebhook ReconciliationStatusPending
      0 0 None "" "" 0 0] |>.
Definition claim_one (owner : string) (now : Time) (db : Db) : list ReconciliationJob * Db :=
  match ClaimPaymentJobs (pg := demo_pg) now (demo_now - 1) owner 1 db with
  | Ok r => r
  | Err _ => ([], db)
  end.
Definition demo_first_claim : list ReconciliationJob * Db :=
  Eval vm_compute in claim_one "worker" demo_now demo_two_jobs.
Definition demo_second_claim : list ReconciliationJob * Db :=
  Eval vm_compute in claim_one "other" (demo_now + 60 * Second) demo_first_claim.2.

Lemma claims_disjoint_witness :
  ∃ j1 j2, demo_first_claim.1 = [j1] ∧ demo_second_claim.1 = [j2] ∧ job_ID j1 ≠ job_ID j2.
Proof.
  eexists _, _. split; [reflexivity|]. split; [reflexivity|].
  apply (claims_disjoint (pg := demo_pg) demo_now (demo_now - 1) "worker" 1
    (demo_now + 60 * Second) (demo_now - 1) "other" 1 demo_two_jobs demo_first_claim.2
    demo_first_claim.2 demo_second_claim.2 demo_first_claim.1 demo_second_claim.1);
    [vm_compute; reflexivity| |vm_compute; reflexivity|vm_compute; reflexivity|by left|by left].
  intros j Hj. apply list_elem_of_singleton in Hj as ->. by left.
Defined.

Lemma lease_required_witness :
  ∃ e, run (CompletePaymentJob "job" "worker") demo_db = (Err e, demo_db).
Proof.
  assert (¬ holds_lease demo_db "job" "worker") as Hno.
  { intros (j & Hj & _ & Hs & _). apply list_elem_of_singleton in Hj as ->. discriminate Hs. }
  apply (lease_required (pg := demo_pg) None demo_db "worker" "job" Hno).
Defined.
