(* ===== verification/Attempts.v ===== *)
(** * Provider attempts

    What beginning and finalizing a provider attempt do to the intents, the ledger and
    the attempts: an intent is charged at most once, and the result of an attempt is
    recorded once. *)
From S2P Require Import Prelude GoStrings GoTime BillingTypes PaymentTypes Payment Database Tables.
From S2P Require Import Keeps Fixtures Accounts Ledger Intents Credits Jobs.

Section job_frames.
Context {pg : Postgres} (R : relation Db) `{!Frame R}.

Lemma keeps_getJobForUpdate jobID : keeps R (getJobForUpdate jobID).
Proof. unfold getJobForUpdate. keeps. Qed.
Lemma keeps_require_lease job owner : keeps R (require_lease job owner).
Proof. unfold require_lease. keeps. Qed.
Lemma keeps_settle_job job intentID state nextAt `{!Skips R ReconciliationJob} :
  keeps R (settle_job job intentID state nextAt).
Proof. unfold settle_job. keeps. Qed.
Lemma keeps_charge_references op intent : keeps R (charge_references op intent).
Proof. unfold charge_references. keeps. Qed.
End job_frames.
#[export] Existing Instances keeps_getJobForUpdate keeps_require_lease keeps_settle_job
  keeps_charge_references.

(** The attempts are left alone. *)
Definition same_attempts (db db' : Db) : Prop := db_attempts db' = db_attempts db.
#[export] Instance same_attempts_frame : Frame same_attempts.
Proof. unfold same_attempts. split; try done. split; [done|]. intros ???. congruence. Qed.
#[export] Hint Extern 1 (Skips same_attempts _) => by intros ?? : typeclass_instances.

Section attempts.
Context {pg : Postgres}.

(** ** Finalizing *)

Definition complete_attempt (in_ : FinalizeProviderAttemptInput) (now nextAt : Time) (a : PaymentAttempt) :
    PaymentAttempt :=
  let state := result_State (final_Result in_) in
  a <| attempt_CompletedAt := Some (pg_time now) |> <| attempt_NormalizedResult := state |>
    <| attempt_ProviderCode := NormalizeProviderCode (result_ProviderCode (final_Result in_)) |>
    <| attempt_ResponseSHA256 := ToLower (final_ResponseSHA256 in_) |>
    <| attempt_NextReconciliationAt := pg_time <$> nullTimeUnlessUnknown state nextAt |>.

(** The database after the UPDATE of the attempt. *)
Definition with_completed (in_ : FinalizeProviderAttemptInput) (now nextAt : Time) (db : Db) : Db :=
  db <| db_attempts ::= fmap (fun a => if attempt_ID a == final_AttemptID in_
                                       then complete_attempt in_ now nextAt a else a) |>.

(** The two ways a result is finalized. *)
Inductive finalizes (in_ : FinalizeProviderAttemptInput) (db : Db) :
    FinalizeProviderAttemptResult → Db → Prop :=
  | finalize_duplicate job attempt :
      find (fun a => attempt_ID a == final_AttemptID in_) (db_attempts db) = Some attempt →
      is_Some (attempt_CompletedAt attempt) →
      finalizes in_ db (mkFinalizeProviderAttemptResult None job true) db
  | finalize_result job job' attempt account intent now nextAt transition db1 db' :
      find (fun a => attempt_ID a == final_AttemptID in_) (db_attempts db) = Some attempt →
      attempt_CompletedAt attempt = None → attempt_IntentID attempt = intent_ID intent →
      job ∈ db_jobs db → job_ID job = final_JobID in_ → job_IntentID job = intent_ID intent →
      find (fun a => account_ID a == account_ID account) (db_accounts db) = Some account →
      find (fun i => intent_ID i == intent_ID intent) (db_intents db) = Some intent →
      account_ID account = intent_AccountID intent →
      transitions account intent (mkTransitionIntentInput (intent_ID intent) (result_State (final_Result in_))
        (result_ProviderTransactionReference (final_Result in_)) now)
        (with_completed in_ now nextAt db) transition db1 →
      calm db1 db' → same_attempts (with_completed in_ now nextAt db) db' →
      finalizes in_ db (mkFinalizeProviderAttemptResult (Some transition) job' false) db'.

Lemma transitionIntentTx_attempts account intent in_ :
  keeps same_attempts (transitionIntentTx account intent in_).
Proof. unfold transitionIntentTx. keeps. Qed.

Lemma FinalizeProviderAttempt_ok ctx in_ db r db' :
  FinalizeProviderAttempt ctx in_ db = Ok (r, db') → finalizes in_ db r db'.
Proof.
  unfold FinalizeProviderAttempt. intros H.
  apply bind_ok in H as (u & db1 & [_ ->]%require_ok & H).
  apply bind_ok in H as (u1 & db1 & [_ ->]%lift_ok & H).
  apply bind_ok in H as (now & db1 & [_ ->]%default_now_ok & H). cbv zeta in H.
  set (nextAt := if IsZero _ then _ else _) in H.
  assert (∃ o db1, finalizeProviderAttemptTx ctx in_ now nextAt db = Ok (o, db1) ∧
    ((o = Committed r ∧ db1 = db') ∨ (o = RolledBack r ∧ db' = db))) as (o & db1 & Htx & Ho).
  { apply withTx_ok in H as [H|(-> & db1 & H)]; eauto 10. }
  clear H. unfold finalizeProviderAttemptTx in Htx. cbv zeta in Htx.
  apply bind_ok in Htx as (job & db2 & (-> & Hjob & Hjid)%getJobForUpdate_ok & Htx).
  apply bind_ok in Htx as (u2 & db2 & (-> & _)%require_lease_ok & Htx).
  apply bind_ok in Htx as (attempt & db2 & Ha & Htx). apply (proj1 (scan_ok _ _ _ _)) in Ha.
  apply select_ok in Ha as [Ha ->].
  apply bind_ok in Htx as (u3 & db2 & [Hint%bool_decide_eq_true ->]%require_ok & Htx).
  destruct (decide (is_Some (attempt_CompletedAt attempt))) as [Hdone|Hopen].
  { rewrite bool_decide_eq_true_2 in Htx by done. apply ret_ok in Htx as [-> ->].
    destruct Ho as [[? _]|[[= <-] ->]]; [done|]. by eapply finalize_duplicate. }
  rewrite bool_decide_eq_false_2 in Htx by done. apply eq_None_not_Some in Hopen.
  apply bind_ok in Htx as (accountID & db2 & (-> & i & Hi & ->)%intent_account_ok & Htx).
  apply bind_ok in Htx as (account & db2 & [-> Hacc]%getAccountForUpdate_ok & Htx).
  apply bind_ok in Htx as (intent & db2 & [Hf ->]%getIntentForUpdate_ok & Htx).
  rewrite Hi in Hf. injection Hf as <-.
  apply bind_ok in Htx as (rows & db2 & Hup & Htx).
  apply update_rows_ok in Hup as (_ & _ & _ & ->).
  apply bind_ok in Htx as (transition & db2 & Ht & Htx).
  apply bind_ok in Htx as (job' & db3 & Hj & Htx).
  apply bind_ok in Htx as (u4 & db4 & Hr & Htx). apply ret_ok in Htx as [-> ->].
  destruct Ho as [[[= <-] <-]|[? _]]; [|done].
  destruct (find_account _ _ _ Hacc) as [_ Haid]. destruct (find_intent_self _ _ _ Hi) as [Hiid Hself].
  assert (attempt_ID attempt = final_AttemptID in_) as Haid' by (by apply find_some_iff in Ha as [_ ?%bool_decide_eq_true]).
  rewrite Haid' in Ht. change (t_put _ db) with (with_completed in_ now nextAt db) in Ht.
  eapply (finalize_result in_ db job job' attempt account i now nextAt transition db2);
    [done..|congruence|done|done|congruence|by rewrite Haid|done|by rewrite Haid| | |].
  - by apply transitionIntentTx_ok.
  - transitivity db3; [frame Hj|]. destruct (negb _) in Hr; [|by apply ret_ok in Hr as [_ ->]].
    apply bind_ok in Hr as (rows' & db5 & Hr & [_ ->]%ret_ok). frame Hr.
  - transitivity db2; [exact (transitionIntentTx_attempts _ _ _ _ _ _ Ht)|].
    transitivity db3; [frame Hj|].
    destruct (negb _) in Hr; [|by apply ret_ok in Hr as [_ ->]].
    apply bind_ok in Hr as (rows' & db5 & Hr & [_ ->]%ret_ok). frame Hr.
Qed.

(** ** Beginning *)

(** The UPDATE that starts the charge of an intent. *)
Definition start_charge (intent : PaymentIntent) (now : Time) (i : PaymentIntent) : PaymentIntent :=
  i <| intent_State := PaymentIntentStateProcessing |>
    <| intent_MerchantOrderReference :=
         (if intent_MerchantOrderReference intent == ""
          then "rtk_" +:+ str_take 26 (remove_dashes (intent_ID intent))
          else intent_MerchantOrderReference intent) |>
    <| intent_UpdatedAt := now |>.

Definition started_charge (intent : PaymentIntent) (db : Db) : Db :=
  db <| db_intents ::= fmap (fun i => if intent_ID i == intent_ID intent
                                      then start_charge intent (db_now db) i else i) |>.

Lemma prepare_operation_ok job intent accountID op now db intent' db' :
  prepare_operation job intent accountID op now db = Ok (intent', db') →
  if op == ProviderOperationCharge then
    handoff_open db accountID = false ∧ closure_open db accountID = false ∧
    job_Reason job = ReconciliationReasonCharge ∧ intent_State intent = PaymentIntentStateCreated ∧
    intent_ID intent' = intent_ID intent ∧ intent_State intent' = PaymentIntentStateProcessing ∧
    intent' ∈ db_intents db' ∧ db' = started_charge intent db ∧ NoDup (intent_ID <$> db_intents db)
  else intent' = intent ∧ db' = db ∧ intent_State intent ≠ PaymentIntentStateCreated.
Proof.
  unfold prepare_operation. case_bool_decide as Hop; intros H.
  - apply bind_ok in H as (u & db1 & (-> & Hh & Hc)%requireNoHandoffTx_ok & H).
    apply bind_ok in H as (u1 & db1 & [Hst ->]%require_ok & H). cbv zeta in H.
    apply (proj1 (scan_ok _ _ _ _)) in H.
    apply update_one_ok in H as (rest & (Hrows & _ & Hpair & ->)%update_rows_ok).
    cbv zeta in Hrows, Hpair. cbn [t_rows t_touch intents_table] in Hrows, Hpair.
    symmetry in Hrows. apply fmap_cons_inv in Hrows as (row & l & -> & _ & Hl).
    assert (row ∈ filter (fun r => bool_decide (intent_ID r = intent_ID intent) = true) (db_intents db))
      as Hrow by (rewrite Hl; left).
    apply list_elem_of_filter in Hrow as [Hid%bool_decide_eq_true Hin]. reflect_go.
    split_and!; try done.
    { apply list_elem_of_fmap. exists row. by rewrite (bool_decide_eq_true_2 (intent_ID row = _)). }
    apply pairwise_NoDup with (key := intent_ID) in Hpair.
    + rewrite <- list_fmap_compose in Hpair. erewrite list_fmap_ext; [exact Hpair|].
      intros n i _. simpl. by destruct (bool_decide (intent_ID i = intent_ID intent)).
    + intros r t Heq. cbn [t_conflict intents_table]. by rewrite bool_decide_eq_true_2.
  - apply bind_ok in H as (u & db1 & [Hst ->]%require_ok & [-> ->]%ret_ok). split_and!; try done.
    intros Hcr. rewrite Hcr in Hst. reflect_go. naive_solver.
Qed.

(** What beginning an attempt does. *)
Inductive begins (in_ : BeginProviderAttemptInput) (db : Db) : ProviderAttemptWork → Db → Prop :=
  | begin_recover job attempt intent :
      attempt ∈ db_attempts db → attempt_IntentID attempt = intent_ID intent →
      attempt_Operation attempt = begin_Operation in_ → attempt_CompletedAt attempt = None →
      begins in_ db (mkProviderAttemptWork job attempt intent "" "" true) db
  | begin_new job attempt intent intent' accountID now methodRef customerRef db1 db' :
      find (fun i => intent_ID i == intent_ID intent) (db_intents db) = Some intent →
      accountID = intent_AccountID intent → IntentStateTerminal (intent_State intent) = false →
      (∀ a, a ∈ db_attempts db → attempt_IntentID a = intent_ID intent →
         attempt_Operation a = begin_Operation in_ → attempt_CompletedAt a ≠ None) →
      prepare_operation job intent accountID (begin_Operation in_) now db = Ok (intent', db1) →
      attempt_IntentID attempt = intent_ID intent → attempt_Operation attempt = begin_Operation in_ →
      attempt_CompletedAt attempt = None →
      attempt_AttemptNumber attempt = next_attempt_number db (intent_ID intent) →
      db_attempts db' = db_attempts db1 ++ [attempt] → calm db1 db' →
      begins in_ db (mkProviderAttemptWork job attempt intent' methodRef customerRef false) db'.

Lemma open_attempt_some db intentID op a :
  open_attempt db intentID op = Some a →
  a ∈ db_attempts db ∧ attempt_IntentID a = intentID ∧ attempt_Operation a = op ∧ attempt_CompletedAt a = None.
Proof.
  unfold open_attempt. intros H.
  assert (a ∈ sort_stable (fun a b => attempt_AttemptNumber a >? attempt_AttemptNumber b)
    (filter (fun a => (attempt_IntentID a == intentID) && (attempt_Operation a == op)
                      && bool_decide (attempt_CompletedAt a = None) = true) (db_attempts db))) as Hin.
  { destruct (sort_stable _ _); [done|]. injection H as ->. left. }
  rewrite sort_stable_Permutation in Hin. apply list_elem_of_filter in Hin as [Hp Hin]. reflect_go. done.
Qed.

Lemma open_attempt_none db intentID op a :
  open_attempt db intentID op = None → a ∈ db_attempts db → attempt_IntentID a = intentID →
  attempt_Operation a = op → attempt_CompletedAt a ≠ None.
Proof.
  unfold open_attempt. intros H Hin Hi Ho Hc.
  destruct (sort_stable _ _) as [|b l] eqn:E; [|done].
  assert (a ∈ sort_stable (fun a b => attempt_AttemptNumber a >? attempt_AttemptNumber b)
    (filter (fun a => (attempt_IntentID a == intentID) && (attempt_Operation a == op)
                      && bool_decide (attempt_CompletedAt a = None) = true) (db_attempts db))) as Hbad.
  { rewrite sort_stable_Permutation. apply list_elem_of_filter. split; [|done].
    by rewrite !bool_decide_eq_true_2. }
  rewrite E in Hbad. by apply elem_of_nil in Hbad.
Qed.

Lemma insert_attempt_ok a db a' db' :
  insert_attempt a db = Ok (a', db') → a' = a ∧ db' = db <| db_attempts ::= fun l => l ++ [a] |>.
Proof.
  unfold insert_attempt, closure_barrier. intros H.
  apply bind_ok in H as (u & db1 & [_ ->]%barrier_ok & (-> & _ & _ & ->)%insert_row_ok). done.
Qed.

Lemma BeginProviderAttempt_ok ctx in_ db work db' :
  BeginProviderAttempt ctx in_ db = Ok (work, db') → begins in_ db work db'.
Proof.
  unfold BeginProviderAttempt. intros H.
  apply bind_ok in H as (u & db1 & [_ ->]%require_ok & H).
  apply bind_ok in H as (now & db1 & [_ ->]%default_now_ok & H).
  assert (beginProviderAttemptTx ctx in_ now db = Ok (Committed work, db') ∨
          (db' = db ∧ ∃ db1, beginProviderAttemptTx ctx in_ now db = Ok (RolledBack work, db1))) as Htx
    by (by apply withTx_ok).
  clear H. assert (∃ o db1, beginProviderAttemptTx ctx in_ now db = Ok (o, db1) ∧
    ((o = Committed work ∧ db1 = db') ∨ (o = RolledBack work ∧ db' = db))) as (o & db1 & H & Ho)
    by (destruct Htx as [H|(-> & db1 & H)]; eauto 10).
  clear Htx. unfold beginProviderAttemptTx in H.
  apply bind_ok in H as (job & db2 & (-> & _ & _)%getJobForUpdate_ok & H).
  apply bind_ok in H as (u2 & db2 & (-> & _)%require_lease_ok & H).
  apply bind_ok in H as (accountID & db2 & (-> & i & Hi & ->)%intent_account_ok & H).
  apply bind_ok in H as (account & db2 & [-> Hacc]%getAccountForUpdate_ok & H).
  apply bind_ok in H as (intent & db2 & [Hf ->]%getIntentForUpdate_ok & H).
  rewrite Hi in Hf. injection Hf as <-. destruct (find_intent_self _ _ _ Hi) as [Hiid Hself].
  apply bind_ok in H as (u3 & db2 & [Hterm%negb_true_iff ->]%require_ok & H).
  apply bind_ok in H as (existing & db2 & [-> ->]%gets_ok & H).
  destruct (open_attempt db (intent_ID i) (begin_Operation in_)) as [a|] eqn:Hopen.
  { apply ret_ok in H as [-> ->]. destruct Ho as [[[= <-] <-]|[? _]]; [|done].
    apply open_attempt_some in Hopen as (? & ? & ? & ?). by constructor. }
  apply bind_ok in H as (intent' & db2 & Hprep & H).
  apply bind_ok in H as (number & db3 & [-> ->]%gets_ok & H).
  apply bind_ok in H as (id & db3 & [-> ->]%fresh_ok & H).
  apply bind_ok in H as (t & db3 & [-> ->]%gets_ok & H).
  apply bind_ok in H as (attempt & db3 & Ha & H). apply (proj1 (scan_ok _ _ _ _)) in Ha.
  apply insert_attempt_ok in Ha as [-> ->].
  apply bind_ok in H as ([methodRef customerRef] & db3 & Hrefs & H).
  apply ret_ok in H as [-> ->]. destruct Ho as [[[= <-] <-]|[? _]]; [|done].
  assert (intent_ID intent' = intent_ID i ∧ db_attempts db2 = db_attempts db) as [Hid Hatt].
  { pose proof (prepare_operation_ok _ _ _ _ _ _ _ _ Hprep) as Hp. case_bool_decide.
    - destruct Hp as (_ & _ & _ & _ & ? & _ & _ & -> & _). done.
    - by destruct Hp as (-> & -> & _). }
  assert (db3 = _) as -> by (revert Hrefs; unfold charge_references; case_bool_decide; intros Hrefs;
    [apply bind_ok in Hrefs as (row & db4 & Hr & [_ ->]%ret_ok);
     apply (proj1 (scan_ok _ _ _ _)) in Hr; apply select_ok in Hr as [_ ->]; reflexivity
    |apply ret_ok in Hrefs as [_ ->]; reflexivity]).
  eapply (begin_new in_ db job _ i intent' (intent_AccountID i) now methodRef customerRef db2);
    [exact Hself|done|exact Hterm| |exact Hprep|exact Hid|done|done| |done|done].
  - intros a Hin Hia Hop. by eapply open_attempt_none.
  - cbn [attempt_AttemptNumber]. unfold next_attempt_number. simpl. by rewrite Hid, Hatt.
Qed.
End attempts.
