(* ===== verification/Evolution.v ===== *)
(** * How the store's data may change

    The two-state relation every operation of the store keeps: the ledger only grows at
    its end, and an intent keeps all that identifies it while its state follows the
    state machine, its references are set once and its completion is final.  Then the
    invariant that an intent is charged at most once. *)
From S2P Require Import Prelude GoStrings GoTime BillingTypes PaymentTypes Payment Database Tables.
From S2P Require Import Keeps Fixtures Accounts Ledger AutoTopUp Intents Credits Jobs Attempts.

(** ** Intents *)

(** What no operation changes in an intent. *)
Definition frozen (i : PaymentIntent) : PaymentIntent :=
  i <| intent_State := "" |> <| intent_MerchantOrderReference := "" |>
    <| intent_ProviderTransactionReference := "" |> <| intent_UpdatedAt := 0 |>
    <| intent_CompletedAt := None |>.

(** A reference, once set, stays. *)
Definition set_once (before after : string) : Prop := before = "" ∨ after = before.

Record intent_evolves (i j : PaymentIntent) : Prop := {
  ie_frozen : frozen j = frozen i;
  ie_state : rtc intent_step (intent_State i) (intent_State j);
  ie_order : set_once (intent_MerchantOrderReference i) (intent_MerchantOrderReference j);
  ie_reference : set_once (intent_ProviderTransactionReference i) (intent_ProviderTransactionReference j);
  ie_completed : IntentStateTerminal (intent_State i) = true → intent_CompletedAt j = intent_CompletedAt i
}.

Lemma rtc_terminal from to : IntentStateTerminal from = true → rtc intent_step from to → to = from.
Proof.
  intros Ht Hrun. induction Hrun as [|x y z Hs _ IH]; [done|].
  apply intent_step_ok in Hs as (_ & _ & Hs%CanTransition_terminal); [|done]. subst y. by apply IH.
Qed.

Lemma rtc_into_created from :
  rtc intent_step from PaymentIntentStateCreated → from = PaymentIntentStateCreated.
Proof.
  intros Hrun. remember PaymentIntentStateCreated as to eqn:Hto.
  induction Hrun as [|x y z Hs _ IH]; [done|]. specialize (IH Hto). subst.
  apply intent_step_ok in Hs as (_ & _ & Hs). by apply CanTransition_into_created.
Qed.

#[export] Instance intent_evolves_preorder : PreOrder intent_evolves.
Proof.
  split.
  - intros i. by constructor; try (by right).
  - intros i j k [F1 S1 O1 R1 C1] [F2 S2 O2 R2 C2]. constructor.
    + congruence.
    + by etransitivity.
    + unfold set_once in *. destruct O1, O2; try (by left); [left; congruence|right; congruence].
    + unfold set_once in *. destruct R1, R2; try (by left); [left; congruence|right; congruence].
    + intros Ht. rewrite C2, C1; [done|done|]. by rewrite (rtc_terminal _ _ Ht S1).
Qed.

Lemma frozen_id i j : frozen j = frozen i → intent_ID j = intent_ID i.
Proof. intros H. by apply (f_equal intent_ID) in H. Qed.

(** ** Databases *)

Record evolves (db db' : Db) : Prop := {
  ev_entries : ∃ new, db_entries db' = db_entries db ++ new;
  ev_intents : ∃ old new, db_intents db' = old ++ new ∧ Forall2 intent_evolves (db_intents db) old
}.

Lemma evolves_same db db' :
  db_entries db' = db_entries db → db_intents db' = db_intents db → evolves db db'.
Proof.
  intros He Hi. split; [exists []; by rewrite app_nil_r|].
  exists (db_intents db), []. rewrite app_nil_r. split; [done|]. reflexivity.
Qed.

#[export] Instance evolves_frame : Frame evolves.
Proof.
  split; [|by intros; apply evolves_same..]. split; [by intros db; apply evolves_same|].
  intros x y z [[e1 He1] (o1 & n1 & Hi1 & Hf1)] [[e2 He2] (o2 & n2 & Hi2 & Hf2)]. split.
  - exists (e1 ++ e2). by rewrite He2, He1, app_assoc.
  - rewrite Hi1 in Hf2. apply Forall2_app_inv_l in Hf2 as (o2a & o2b & Hfa & Hfb & ->).
    exists o2a, (o2b ++ n2). split; [by rewrite Hi2, app_assoc|]. by transitivity o1.
Qed.

#[export] Hint Extern 1 (Skips evolves _) => intros ??; by apply evolves_same : typeclass_instances.

Lemma evolves_calm db db' : db_entries db' = db_entries db → calm db db' → evolves db db'.
Proof. intros He [_ Hi]. by apply evolves_same. Qed.

(** An UPDATE that lets every intent evolve. *)
Lemma evolves_update db db' (g : PaymentIntent → PaymentIntent) :
  db_entries db' = db_entries db → db_intents db' = g <$> db_intents db →
  (∀ i, i ∈ db_intents db → intent_evolves i (g i)) → evolves db db'.
Proof.
  intros He Hi Hg. split; [exists []; by rewrite app_nil_r|]. exists (g <$> db_intents db), [].
  rewrite app_nil_r. split; [done|]. apply Forall2_fmap_r, Forall2_same_length_lookup. split; [done|].
  intros n i j Hn Hj. rewrite Hn in Hj. injection Hj as <-. apply Hg. by eapply list_elem_of_lookup_2.
Qed.

(** An INSERT into the ledger. *)
Lemma evolves_entry db db' new :
  db_entries db' = db_entries db ++ new → db_intents db' = db_intents db → evolves db db'.
Proof.
  intros He Hi. split; [by exists new|]. exists (db_intents db), [].
  rewrite app_nil_r. split; [done|]. reflexivity.
Qed.

Lemma evolves_insert db db' new :
  db_entries db' = db_entries db → db_intents db' = db_intents db ++ new → evolves db db'.
Proof.
  intros He Hi. split; [exists []; by rewrite app_nil_r|]. exists (db_intents db), new.
  split; [done|]. reflexivity.
Qed.

(** An intent that is still there. *)
Lemma evolves_intent db db' i :
  evolves db db' → i ∈ db_intents db → ∃ j, j ∈ db_intents db' ∧ intent_evolves i j.
Proof.
  intros [_ (old & new & Hi & Hf)] Hin. rewrite Hi.
  apply list_elem_of_lookup in Hin as [n Hn].
  destruct (Forall2_lookup_l _ _ _ _ _ Hf Hn) as (j & Hj & Hev). exists j. split; [|done].
  apply elem_of_app. left. by eapply list_elem_of_lookup_2.
Qed.

(** An intent that was not there, or that has evolved. *)
Lemma evolves_intent_inv db db' j :
  evolves db db' → j ∈ db_intents db' → NoDup (intent_ID <$> db_intents db') →
  (∃ i, i ∈ db_intents db ∧ intent_evolves i j) ∨ intent_ID j ∉ intent_ID <$> db_intents db.
Proof.
  intros [_ (old & new & Hi & Hf)] Hin Hnd. rewrite Hi in *. apply elem_of_app in Hin as [Hin|Hin].
  - left. apply list_elem_of_lookup in Hin as [n Hn].
    destruct (Forall2_lookup_r _ _ _ _ _ Hf Hn) as (i & Hi' & Hev). exists i. split; [|done].
    by eapply list_elem_of_lookup_2.
  - right. intros Hid. rewrite fmap_app in Hnd. apply NoDup_app in Hnd as (_ & Hdisj & _).
    apply list_elem_of_fmap in Hid as (i & Heq & Hi'). apply list_elem_of_lookup in Hi' as [n Hn].
    destruct (Forall2_lookup_l _ _ _ _ _ Hf Hn) as (k & Hk & [Hfr _ _ _ _]).
    apply (Hdisj (intent_ID j)).
    + rewrite Heq, <- (frozen_id _ _ Hfr). apply list_elem_of_fmap.
      exists k. split; [done|]. by eapply list_elem_of_lookup_2.
    + apply list_elem_of_fmap. eauto.
Qed.

(** ** The operations *)
Section evolution.
Context {pg : Postgres}.

#[local] Instance evolves_new_intent : SkipsNewIntent evolves.
Proof.
  intros i _ db r db' (-> & _ & _ & _ & _ & ->)%insert_intent_ok. by apply (evolves_insert _ _ [i]).
Qed.

Lemma keeps_evolves_insertLedgerEntryTx account in_ : keeps evolves (insertLedgerEntryTx account in_).
Proof.
  intros db [e a] db' (b & cur & _ & _ & _ & _ & _ & _ & _ & _ & ->)%insertLedgerEntryTx_ok.
  by apply (evolves_entry _ _ [e]).
Qed.

Lemma frozen_moved in_ intent now i : frozen (moved in_ intent now i) = frozen i.
Proof. by destruct i. Qed.

Lemma moved_evolves in_ intent now :
  intent_step (intent_State intent) (trans_ToState in_) → intent_State intent ≠ trans_ToState in_ →
  intent_evolves intent (moved in_ intent now intent).
Proof.
  intros Hstep Hne. constructor.
  - apply frozen_moved.
  - by apply rtc_once.
  - by right.
  - unfold set_once, moved. get_upd. case_bool_decide; auto.
  - intros Ht. apply intent_step_ok in Hstep as (_ & _ & Hs%CanTransition_terminal); [|done]. by destruct Hne.
Qed.

(** The rows a UPDATE by identifier touches, when identifiers are unique. *)
Lemma update_unique_elem db (intent : PaymentIntent) (g : PaymentIntent → PaymentIntent) :
  intent ∈ db_intents db → NoDup (intent_ID <$> db_intents db) →
  ∀ i, i ∈ db_intents db → (if intent_ID i == intent_ID intent then g i else i) =
                           (if decide (i = intent) then g intent else i).
Proof.
  intros Hin Hnd i Hi. case_bool_decide as Hid.
  - rewrite (NoDup_fmap_inj_elem intent_ID (db_intents db) i intent) by done. by rewrite decide_True.
  - rewrite decide_False; [done|]. by intros ->.
Qed.
Lemma update_unique db (intent : PaymentIntent) (g : PaymentIntent → PaymentIntent) :
  find (fun i => intent_ID i == intent_ID intent) (db_intents db) = Some intent →
  NoDup (intent_ID <$> db_intents db) →
  ∀ i, i ∈ db_intents db → (if intent_ID i == intent_ID intent then g i else i) =
                           (if decide (i = intent) then g intent else i).
Proof. intros [Hin _]%find_some_iff. by apply update_unique_elem. Qed.

(** A successful UPDATE that keeps the identifiers proves them unique. *)
Lemma pairwise_intents_NoDup db (g : PaymentIntent → PaymentIntent) :
  (∀ i, intent_ID (g i) = intent_ID i) →
  pairwise_ok t_conflict (g <$> db_intents db) = true → NoDup (intent_ID <$> db_intents db).
Proof.
  intros Hg H. apply pairwise_NoDup with (key := intent_ID) in H.
  - rewrite <- list_fmap_compose in H. erewrite list_fmap_ext; [exact H|]. intros n i _. by simpl.
  - intros r t Heq. cbn [t_conflict intents_table]. by rewrite bool_decide_eq_true_2.
Qed.

Lemma move_intent_evolves in_ intent db :
  intent_step (intent_State intent) (trans_ToState in_) → intent_State intent ≠ trans_ToState in_ →
  find (fun i => intent_ID i == intent_ID intent) (db_intents db) = Some intent →
  pairwise_ok t_conflict (db_intents (move_intent in_ intent db)) = true →
  evolves db (move_intent in_ intent db).
Proof.
  intros Hstep Hne Hf Hpair. apply pairwise_intents_NoDup in Hpair; [|intros i; by case_match].
  eapply evolves_update; [done|done|]. intros i Hi. cbv beta. rewrite (update_unique db) by done.
  case_decide as Heq; [|done]. subst i. by apply moved_evolves.
Qed.

Lemma transitions_evolves account intent in_ db r db' :
  find (fun i => intent_ID i == intent_ID intent) (db_intents db) = Some intent →
  transitions account intent in_ db r db' → evolves db db'.
Proof.
  intros Hf H. destruct H as [credit Heq|row acc' credit acc'' db1 db' Hstep Hne Hs Hrow Hpair Hins Hcalm
                 |row acc' db' Hstep Hne Hs Hrow Hpair Hcalm]; [done|..];
    (transitivity (move_intent in_ intent db); [by apply move_intent_evolves|]).
  - transitivity db1; [by eapply keeps_evolves_insertLedgerEntryTx|].
    apply evolves_calm; [apply Hcalm|done].
  - apply evolves_calm; [apply Hcalm|done].
Qed.

Lemma TransitionIntent_evolves ctx in_ : keeps evolves (TransitionIntent ctx in_).
Proof.
  intros db r db' (now & account & intent & _ & Hi & _ & _ & Ht)%TransitionIntent_ok.
  by eapply transitions_evolves.
Qed.

Lemma FinalizeProviderAttempt_evolves ctx in_ : keeps evolves (FinalizeProviderAttempt ctx in_).
Proof.
  intros db r db' H%FinalizeProviderAttempt_ok. destruct H as [|? ? ? ? ? ? ? ? db1 db' ? ? ? ? ? ? ? Hf ? Ht Hc _]; [done|].
  transitivity (with_completed in_ now nextAt db); [by apply evolves_same|].
  transitivity db1; [by eapply transitions_evolves|]. apply evolves_calm; [apply Hc|done].
Qed.

Lemma start_charge_evolves intent now :
  intent_State intent = PaymentIntentStateCreated → intent_evolves intent (start_charge intent now intent).
Proof.
  intros Hs. constructor.
  - by destruct intent.
  - unfold start_charge. get_upd. rewrite Hs. apply rtc_once. by vm_compute.
  - unfold set_once, start_charge. get_upd. case_bool_decide; auto.
  - by right.
  - by rewrite Hs.
Qed.

Lemma prepare_operation_evolves job intent op now db intent' db' :
  find (fun i => intent_ID i == intent_ID intent) (db_intents db) = Some intent →
  prepare_operation job intent (intent_AccountID intent) op now db = Ok (intent', db') → evolves db db'.
Proof.
  intros Hf H%prepare_operation_ok. case_bool_decide; [|by destruct H as (_ & -> & _)].
  destruct H as (_ & _ & _ & Hs & _ & _ & _ & -> & Hnd).
  eapply evolves_update; [done|done|]. intros i Hi. cbv beta. rewrite (update_unique db) by done.
  case_decide as Heq; [|done]. subst i. by apply start_charge_evolves.
Qed.

Lemma BeginProviderAttempt_evolves ctx in_ : keeps evolves (BeginProviderAttempt ctx in_).
Proof.
  intros db w db' H%BeginProviderAttempt_ok. destruct H as [|? ? intent ? ? ? ? ? db1 db' Hf -> _ _ Hp _ _ _ _ _ Hc]; [done|].
  transitivity db1; [by eapply prepare_operation_evolves|]. apply evolves_calm; [apply Hc|done].
Qed.
End evolution.
#[export] Existing Instances evolves_new_intent keeps_evolves_insertLedgerEntryTx.

(** ** One charge per intent *)

Definition attempt_key (a : PaymentAttempt) : string * ProviderOperation :=
  (attempt_IntentID a, attempt_Operation a).
(** How often the charge of the intent has been begun. *)
Definition charge_count (db : Db) (intentID : string) : nat :=
  length (filter (fun k => k = (intentID, ProviderOperationCharge)) (attempt_key <$> db_attempts db)).

Record AttemptInv (db : Db) : Prop := {
  ai_owner : ∀ a, a ∈ db_attempts db → attempt_IntentID a ∈ intent_ID <$> db_intents db;
  ai_created : ∀ i, i ∈ db_intents db → intent_State i = PaymentIntentStateCreated →
    charge_count db (intent_ID i) = 0%nat;
  ai_once : ∀ intentID, (charge_count db intentID ≤ 1)%nat
}.

Lemma charge_count_none db intentID :
  (∀ a, a ∈ db_attempts db → attempt_IntentID a ≠ intentID) → charge_count db intentID = 0%nat.
Proof.
  intros Hno. unfold charge_count. apply length_zero_iff_nil.
  destruct (filter _ _) as [|k l] eqn:E; [done|].
  assert (k ∈ filter (fun k => k = (intentID, ProviderOperationCharge)) (attempt_key <$> db_attempts db))
    as Hk by (rewrite E; left).
  apply list_elem_of_filter in Hk as [-> (a & [= Ha _] & Hin)%list_elem_of_fmap].
  by destruct (Hno a Hin).
Qed.

(** Intents evolve, and the attempts keep what they are for. *)
Lemma AttemptInv_evolves db db' :
  evolves db db' → attempt_key <$> db_attempts db' = attempt_key <$> db_attempts db →
  NoDup (intent_ID <$> db_intents db') → AttemptInv db → AttemptInv db'.
Proof.
  intros Hev Hatt Hnd [Ho Hc H1].
  assert (∀ id, charge_count db' id = charge_count db id) as Hcount
    by (intros; unfold charge_count; by rewrite Hatt).
  assert (∀ id, id ∈ intent_ID <$> db_intents db → id ∈ intent_ID <$> db_intents db') as Hids.
  { intros id (i & -> & Hi)%list_elem_of_fmap.
    destruct (evolves_intent _ _ _ Hev Hi) as (j & Hj & [Hfr _ _ _ _]).
    rewrite <- (frozen_id _ _ Hfr). apply list_elem_of_fmap. eauto. }
  constructor.
  - intros a Ha. apply Hids. assert (attempt_key a ∈ attempt_key <$> db_attempts db') as Hk
      by (apply list_elem_of_fmap; eauto).
    rewrite Hatt in Hk. apply list_elem_of_fmap in Hk as (b & [= -> _] & Hb). by apply Ho.
  - intros j Hj Hs. rewrite Hcount. destruct (evolves_intent_inv _ _ _ Hev Hj Hnd) as [(i & Hi & [Hfr Hst _ _ _])|Hnew].
    + rewrite (frozen_id i j Hfr). apply Hc; [done|]. rewrite Hs in Hst. by apply rtc_into_created.
    + apply charge_count_none. intros a Ha Heq. apply Hnew. rewrite <- Heq. by apply Ho.
  - intros id. rewrite Hcount. apply H1.
Qed.

Section charges.
Context {pg : Postgres}.

Lemma charge_count_snoc db db1 db' a intentID :
  db_attempts db1 = db_attempts db → db_attempts db' = db_attempts db1 ++ [a] →
  charge_count db' intentID =
  (charge_count db intentID + if decide (attempt_key a = (intentID, ProviderOperationCharge)) then 1 else 0)%nat.
Proof.
  intros H1 H2. unfold charge_count. rewrite H2, H1, fmap_app, filter_app, length_app. f_equal.
  change (attempt_key <$> [a]) with [attempt_key a]. rewrite filter_cons, filter_nil. by case_decide.
Qed.

Lemma started_charge_intents intent db :
  db_intents (started_charge intent db) =
  (fun i => if intent_ID i == intent_ID intent then start_charge intent (db_now db) i else i) <$> db_intents db.
Proof. done. Qed.
Lemma with_completed_attempts in_ now nextAt db :
  db_attempts (with_completed in_ now nextAt db) =
  (fun a => if attempt_ID a == final_AttemptID in_ then complete_attempt in_ now nextAt a else a)
    <$> db_attempts db.
Proof. done. Qed.

Lemma BeginProviderAttempt_attempts ctx in_ db work db' :
  BeginProviderAttempt ctx in_ db = Ok (work, db') → NoDup (intent_ID <$> db_intents db) →
  AttemptInv db → AttemptInv db'.
Proof.
  intros H%BeginProviderAttempt_ok Hnd [Ho Hc H1].
  destruct H as [|job a intent intent' accountID now mref cref db1 db' Hf -> _ _ Hp Hai Hao _ _ Hatt [_ Hint]]; [done|].
  apply prepare_operation_ok in Hp. pose proof (find_some_iff _ _ _ Hf) as [Hin _].
  assert (intent_ID intent ∈ intent_ID <$> db_intents db) as Hid by (apply list_elem_of_fmap; eauto).
  destruct (decide (begin_Operation in_ = ProviderOperationCharge)) as [Hop|Hop].
  - rewrite bool_decide_eq_true_2 in Hp by done. destruct Hp as (_ & _ & _ & Hs & _ & _ & _ & -> & _).
    assert (∀ id, charge_count db' id = (charge_count db id + if decide (id = intent_ID intent) then 1 else 0)%nat)
      as Hcount.
    { intros id. rewrite (charge_count_snoc db (started_charge intent db) db' a id) by done. f_equal.
      unfold attempt_key. rewrite Hai, Hao, Hop. apply decide_ext. naive_solver. }
    assert (intent_ID <$> db_intents db' = intent_ID <$> db_intents db) as Hids.
    { rewrite Hint, started_charge_intents, <- list_fmap_compose. apply list_fmap_ext. intros n i _. simpl. by case_match. }
    constructor.
    + rewrite Hatt, Hids. intros b [Hb| ->%list_elem_of_singleton]%elem_of_app; [by apply Ho|congruence].
    + rewrite Hint, started_charge_intents. intros i (j & -> & Hj)%list_elem_of_fmap. rewrite (update_unique db) by done.
      case_decide as Heq; [done|]. intros Hcr. rewrite Hcount, (Hc j Hj Hcr). rewrite decide_False; [done|].
      intros Hij. apply Heq. by apply (NoDup_fmap_inj_elem intent_ID (db_intents db)).
    + intros id. rewrite Hcount. case_decide; [subst id; by rewrite (Hc intent)|]. specialize (H1 id). lia.
  - rewrite bool_decide_eq_false_2 in Hp by done. destruct Hp as (-> & -> & _).
    assert (∀ id, charge_count db' id = charge_count db id) as Hcount.
    { intros id. rewrite (charge_count_snoc db db db' a id) by done. rewrite decide_False; [lia|].
      unfold attempt_key. rewrite Hao. naive_solver. }
    constructor.
    + rewrite Hatt, Hint. intros b [Hb| ->%list_elem_of_singleton]%elem_of_app; [by apply Ho|congruence].
    + rewrite Hint. intros i Hi Hs. rewrite Hcount. by apply Hc.
    + intros id. by rewrite Hcount.
Qed.

Lemma FinalizeProviderAttempt_attempts ctx in_ db r db' :
  FinalizeProviderAttempt ctx in_ db = Ok (r, db') →
  attempt_key <$> db_attempts db' = attempt_key <$> db_attempts db.
Proof.
  intros H%FinalizeProviderAttempt_ok.
  destruct H as [|? ? attempt account intent now nextAt transition db1 db' _ _ _ _ _ _ _ _ _ Ht _ Hatt]; [done|].
  rewrite Hatt, with_completed_attempts, <- list_fmap_compose. apply list_fmap_ext. intros n b _. simpl. by case_match.
Qed.
End charges.
