(* ===== verification/Webhooks.v ===== *)
(** * Webhooks and receipt emails: [webhooks.go], [topup_email.go]

    The inbox of verified and rejected provider events, which only schedules
    reconciliation, and the outbox of top-up emails. *)
From S2P Require Import Prelude GoStrings GoTime BillingTypes PaymentTypes Payment Database Tables.
From S2P Require Import Accounts Ledger Intents Jobs.

Record WebhookEvent := mkWebhookEvent {
  webhook_ProviderEventReference : string;
  webhook_MerchantOrderReference : string;
  webhook_ProviderTransactionReference : string;
  webhook_AmountMinor : Z;
  webhook_Currency : Currency;
  webhook_State : PaymentIntentState;
  webhook_EventType : string;
  webhook_ProviderCode : string
}.

Record RecordWebhookInput := mkRecordWebhookInput {
  hook_Provider : string;
  hook_PayloadSHA256 : string;
  hook_VerificationResult : string;
  hook_Event : WebhookEvent;
  hook_ReceivedAt : Time
}.

Record RecordWebhookResult := mkRecordWebhookResult {
  hooked_Receipt : WebhookReceipt;
  hooked_Duplicate : bool
}.

Definition truncateSafe (value : string) (limit : Z) : string :=
  if len value >? limit then str_take (Z.to_nat limit) value else value.

Definition sanitizeWebhookSummary (event : WebhookEvent) : list (string * string) :=
  [("event_type", truncateSafe (TrimSpace (webhook_EventType event)) 64);
   ("provider_code", NormalizeProviderCode (webhook_ProviderCode event));
   ("state", webhook_State event)].

Section webhooks.
Context {pg : Postgres}.

(** [ORDER BY created_at LIMIT 1] *)
Definition findWebhookDuplicate (provider eventReference digest : string) : M WebhookReceipt := fun db =>
  match sort_stable (fun a b => receipt_CreatedAt a <? receipt_CreatedAt b)
          (filter (fun r => (receipt_Provider r == provider)
             && ((receipt_PayloadSHA256 r == digest)
                 || both_set eventReference (receipt_ProviderEventReference r)) = true)
             (db_receipts db)) with
  | r :: _ => Ok (r, db)
  | [] => Err ErrNotFound
  end.

Definition by_order (provider reference : string) (i : PaymentIntent) : bool :=
  (intent_Provider i == provider) && both_set reference (intent_MerchantOrderReference i).

(** The checks of a verified event: the intent it belongs to, with its transaction
    reference recorded. *)
Definition match_event (ctx : Ctx) (provider : string) (event : WebhookEvent) : M PaymentIntent :=
  let order := TrimSpace (webhook_MerchantOrderReference event) in
  let providerReference := TrimSpace (webhook_ProviderTransactionReference event) in
  _ ← require_that (negb (negb (required (webhook_MerchantOrderReference event))
         || (webhook_AmountMinor event <=? 0)
         || negb (is_ok (ValidateProviderResult (mkProviderResult (webhook_State event) "" "" ∅)))))
        ErrConflict;
  found ← scan (select (by_order provider order));
  _ ← getAccountForUpdate ctx (intent_AccountID found);
  intent ← scan (select (by_order provider order));
  _ ← require_that ((intent_AmountMinor intent =? webhook_AmountMinor event)
                    && (intent_Currency intent == webhook_Currency event)) ErrConflict;
  _ ← require_that (negb ((intent_ProviderTransactionReference intent != "")
         && (providerReference != "")
         && (intent_ProviderTransactionReference intent != providerReference))) ErrConflict;
  if (intent_ProviderTransactionReference intent == "") && (providerReference != "") then
    scan (update_one (fun i => intent_ID i == intent_ID intent)
            (fun i => i <| intent_ProviderTransactionReference := providerReference |>))
  else mret intent.

Definition recordWebhookTx (ctx : Ctx) (in_ : RecordWebhookInput) (receivedAt : Time) :
    M (Outcome RecordWebhookResult) :=
  let provider := NormalizeProvider (hook_Provider in_) in
  let verified := hook_VerificationResult in_ == "verified" in
  let digest := ToLower (hook_PayloadSHA256 in_) in
  let eventReference := TrimSpace (webhook_ProviderEventReference (hook_Event in_)) in
  intent ← (if verified then intent ← match_event ctx provider (hook_Event in_); mret (Some intent)
            else mret None);
  id ← fresh;
  now ← gets db_now;
  inserted ← try_err ErrNotFound (scan (insert_or_nothing t_conflict
    {| receipt_ID := id; receipt_Provider := provider;
       receipt_ProviderEventReference := eventReference; receipt_PayloadSHA256 := digest;
       receipt_VerificationResult := hook_VerificationResult in_;
       receipt_IntentID := match intent with Some i => intent_ID i | None => "" end;
       receipt_NormalizedEventType := TrimSpace (webhook_EventType (hook_Event in_));
       receipt_ProcessingState := if verified then "scheduled" else "quarantined";
       receipt_SafeSummary := sanitizeWebhookSummary (hook_Event in_);
       receipt_ReceivedAt := pg_time receivedAt;
       receipt_ProcessedAt := if verified then None else Some (pg_time receivedAt);
       receipt_CreatedAt := now; receipt_UpdatedAt := now |}));
  match inserted with
  | None =>
      receipt ← findWebhookDuplicate provider eventReference digest;
      _ ← require_that ((receipt_PayloadSHA256 receipt == digest)
             && (receipt_VerificationResult receipt == hook_VerificationResult in_)) ErrIdempotencyConflict;
      mret (Committed (mkRecordWebhookResult receipt true))
  | Some receipt =>
      _ ← match intent with
          | Some i =>
              id ← fresh;
              now ← gets db_now;
              _ ← try_err ErrNoRows (insert_or_nothing t_conflict
                    (new_job id (intent_ID i) ReconciliationReasonWebhook receivedAt now));
              mret tt
          | None => mret tt
          end;
      mret (Committed (mkRecordWebhookResult receipt false))
  end.

Definition RecordWebhook (ctx : Ctx) (in_ : RecordWebhookInput) : M RecordWebhookResult :=
  _ ← require_that (negb ((NormalizeProvider (hook_Provider in_) == "")
         || negb (validSHA256 (hook_PayloadSHA256 in_))
         || ((hook_VerificationResult in_ != "verified")
             && (hook_VerificationResult in_ != "rejected")))) ErrConflict;
  receivedAt ← default_now (hook_ReceivedAt in_);
  withTx (recordWebhookTx ctx in_ receivedAt).

(** ** The outbox of top-up emails *)

Definition set_email (status : string) (attempts : Z) (availableAt : Time) (leaseUntil sentAt : option Time)
    (e : TopUpEmailRow) : TopUpEmailRow :=
  mkTopUpEmailRow (email_IntentID e) (email_OrganizationID e) (email_RecipientEmail e)
    (email_RecipientName e) (email_AmountMinor e) (email_Currency e) (email_Provider e)
    (email_PaymentCreatedAt e) (email_PaymentCompletedAt e) status attempts availableAt leaseUntil sentAt.

Definition email_ready (now : Time) (e : TopUpEmailRow) : bool :=
  ((email_Status e == "pending") && (email_AvailableAt e <=? now))
  || ((email_Status e == "sending")
      && match email_LeaseUntil e with Some t => t <=? now | None => false end).

(** The rows claimed; [created_at], the second key of the order, is the order of
    insertion here. *)
Definition ClaimTopUpEmails (now : Time) (limit : Z) : M (list TopUpEmailRow) :=
  let limit := if (limit <? 1) || (limit >? 100) then 25 else limit in
  let leaseUntil := pg_time (Add (UTC now) (5 * Minute)) in
  let now := pg_time (UTC now) in
  ready ← gets (fun db => take (Z.to_nat limit)
            (sort_stable (fun a b => email_AvailableAt a <? email_AvailableAt b)
               (filter (fun e => email_ready now e = true) (db_emails db))));
  let ids := email_IntentID <$> ready in
  update_rows (fun e => bool_decide (email_IntentID e ∈ ids)) (fun e =>
    set_email "sending" (email_AttemptCount e + 1) (email_AvailableAt e) (Some leaseUntil)
      (email_SentAt e) e).

Definition claimed_email (intentID : string) (attempt : Z) (e : TopUpEmailRow) : bool :=
  (email_IntentID e == intentID) && (email_Status e == "sending") && (email_AttemptCount e =? attempt).

Definition MarkTopUpEmailSent (intentID : string) (attempt : Z) (now : Time) : M bool :=
  rows ← update_rows (claimed_email intentID attempt) (fun e =>
    set_email "sent" (email_AttemptCount e) (email_AvailableAt e) None (Some (pg_time (UTC now))) e);
  mret (length rows =? 1)%nat.

(** The loop that doubles the delay: [n] iterations at most. *)
Fixpoint double_delay (n : nat) (delay : Duration) : Duration :=
  match n with
  | O => delay
  | S n => if delay <? Hour then double_delay n (2 * delay) else delay
  end.
Definition retry_delay (attempt : Z) : Duration :=
  let delay := double_delay (Z.to_nat (attempt - 1)) (30 * Second) in
  if delay >? Hour then Hour else delay.

Definition RetryTopUpEmail (intentID : string) (attempt : Z) (now : Time) : M bool :=
  rows ← update_rows (claimed_email intentID attempt) (fun e =>
    set_email "pending" (email_AttemptCount e) (pg_time (Add (UTC now) (retry_delay attempt))) None
      (email_SentAt e) e);
  mret (length rows =? 1)%nat.

End webhooks.
