(* ===== verification/Inbox.v ===== *)
(** * What a webhook may do

    The theory of [RecordWebhook] ([internal/paymentstore/webhooks.go]): a webhook only
    schedules a reconciliation, deliveries are deduplicated, and a payload that was once
    rejected stays rejected.  And the back-off of the mail outbox ([topup_email.go]). *)
From S2P Require Import Prelude GoStrings GoTime BillingTypes PaymentTypes Payment Database Tables.
From S2P Require Import Keeps Fixtures Accounts Ledger Intents Jobs Webhooks.

(** The receipts a delivery is a duplicate of. *)
Definition same_delivery (provider eventReference digest : string) (r : WebhookReceipt) : bool :=
  (receipt_Provider r == provider)
  && ((receipt_PayloadSHA256 r == digest) || both_set eventReference (receipt_ProviderEventReference r)).

(** The intents with the reference that a verified event reports. *)
Definition with_reference (intentID reference : string) (db : Db) : Db :=
  db <| db_intents ::= fmap (fun i => if intent_ID i == intentID
     then i <| intent_ProviderTransactionReference := reference |> <| intent_UpdatedAt := db_now db |> else i) |>.

Section inbox.
Context {pg : Postgres}.

Lemma findWebhookDuplicate_ok provider eventReference digest db r db' :
  findWebhookDuplicate provider eventReference digest db = Ok (r, db') →
  db' = db ∧ r ∈ db_receipts db ∧ same_delivery provider eventReference digest r = true.
Proof.
  unfold findWebhookDuplicate. intros H.
  destruct (sort_stable _ _) as [|r' l] eqn:Hs; [done|]. injection H as -> <-. split; [done|].
  assert (r ∈ r :: l) as Hin by left. rewrite <- Hs, sort_stable_Permutation in Hin.
  by apply list_elem_of_filter in Hin as [? ?].
Qed.

(** A verified event that matches its intent. *)
Lemma match_event_ok ctx provider event db i db' :
  match_event ctx provider event db = Ok (i, db') →
  ∃ i0, i0 ∈ db_intents db ∧ intent_ID i = intent_ID i0 ∧
    intent_Provider i0 = provider ∧ intent_AmountMinor i0 = webhook_AmountMinor event ∧
    intent_Currency i0 = webhook_Currency event ∧ 0 < webhook_AmountMinor event ∧
    (db' = db ∨ intent_ProviderTransactionReference i0 = "" ∧
       db' = with_reference (intent_ID i0) (TrimSpace (webhook_ProviderTransactionReference event)) db).
Proof.
  intros H. unfold match_event in H. cbv zeta in H.
  apply bind_ok in H as (u & db1 & [Hv ->]%require_ok & H).
  apply bind_ok in H as (found & db1 & Hs & H). apply (proj1 (scan_ok _ _ _ _)) in Hs.
  apply select_ok in Hs as [_ ->].
  apply bind_ok in H as (account & db1 & [-> _]%getAccountForUpdate_ok & H).
  apply bind_ok in H as (intent & db1 & Hs & H). apply (proj1 (scan_ok _ _ _ _)) in Hs.
  apply select_ok in Hs as [[Hin Hby]%find_some_iff ->].
  apply bind_ok in H as (u2 & db1 & [Hamt ->]%require_ok & H).
  apply bind_ok in H as (u3 & db1 & [_ ->]%require_ok & H).
  unfold by_order in Hby. reflect_go. exists intent.
  destruct (_ && _) eqn:Hc in H.
  2: { apply ret_ok in H as [-> ->]. split_and!; try done; try lia. by left. }
  reflect_go. apply (proj1 (scan_ok _ _ _ _)) in H.
  apply update_one_ok in H as (rest & (Hrows & _ & _ & ->)%update_rows_ok). cbv zeta in Hrows.
  symmetry in Hrows. apply fmap_cons_inv in Hrows as (row & l & -> & _ & Hl).
  assert (row ∈ filter (fun i => (intent_ID i == intent_ID intent) = true) (t_rows db)) as Hrow
    by (rewrite Hl; left).
  apply list_elem_of_filter in Hrow as [Hid%bool_decide_eq_true _].
  split_and!; try done; try lia. by right.
Qed.
End inbox.

Section deliveries.
Context {pg : Postgres}.

(** What matching a delivery to its intent leaves of the tables: at most the reference of
    an intent of the account that had none. *)
Definition matched (in_ : RecordWebhookInput) (db db' : Db) : Prop :=
  db' = db ∨ hook_VerificationResult in_ = "verified" ∧ ∃ i, i ∈ db_intents db ∧
    intent_ProviderTransactionReference i = "" ∧
    db' = with_reference (intent_ID i) (TrimSpace (webhook_ProviderTransactionReference (hook_Event in_))) db.

(** The reconciliation that a new delivery schedules, unless one is already open. *)
Definition schedules (in_ : RecordWebhookInput) (intentID : string) (jobs jobs' : list ReconciliationJob) : Prop :=
  jobs' = jobs ∨ hook_VerificationResult in_ = "verified" ∧ ∃ job, jobs' = jobs ++ [job] ∧
    job_IntentID job = intentID ∧ job_Reason job = ReconciliationReasonWebhook ∧
    job_Status job = ReconciliationStatusPending.

(** The two ways a delivery is recorded. *)
Inductive hooks (in_ : RecordWebhookInput) (db : Db) : RecordWebhookResult → Db → Prop :=
  | hook_duplicate receipt db1 db' :
      matched in_ db db1 → db' = db1 <| db_serial ::= S |> →
      receipt ∈ db_receipts db → receipt_Provider receipt = NormalizeProvider (hook_Provider in_) →
      receipt_PayloadSHA256 receipt = ToLower (hook_PayloadSHA256 in_) →
      receipt_VerificationResult receipt = hook_VerificationResult in_ →
      hooks in_ db (mkRecordWebhookResult receipt true) db'
  | hook_new receipt jobs serial db1 db' :
      matched in_ db db1 →
      db' = db1 <| db_receipts ::= fun rs => rs ++ [receipt] |> <| db_jobs := jobs |> <| db_serial := serial |> →
      receipt_Provider receipt = NormalizeProvider (hook_Provider in_) →
      receipt_PayloadSHA256 receipt = ToLower (hook_PayloadSHA256 in_) →
      receipt_VerificationResult receipt = hook_VerificationResult in_ →
      (∀ s, s ∈ db_receipts db → t_conflict s receipt = false) →
      schedules in_ (receipt_IntentID receipt) (db_jobs db) jobs →
      hooks in_ db (mkRecordWebhookResult receipt false) db'.

Lemma RecordWebhook_ok ctx in_ db r db' : RecordWebhook ctx in_ db = Ok (r, db') → hooks in_ db r db'.
Proof.
  unfold RecordWebhook. intros H.
  apply bind_ok in H as (u & db1 & [_ ->]%require_ok & H).
  apply bind_ok in H as (now & db1 & [_ ->]%default_now_ok & H).
  assert (∃ o db1, recordWebhookTx ctx in_ now db = Ok (o, db1) ∧
    ((o = Committed r ∧ db1 = db') ∨ o = RolledBack r)) as (o & dbf & Htx & Ho)
    by (apply withTx_ok in H as [H|(_ & db1 & H)]; eauto 10).
  clear H. unfold recordWebhookTx in Htx. cbv zeta in Htx.
  apply bind_ok in Htx as (intent & db1 & Hmatch & H).
  assert (matched in_ db db1 ∧ (is_Some intent → hook_VerificationResult in_ = "verified")) as [Hm Hver].
  { destruct (bool_decide (hook_VerificationResult in_ = "verified")) eqn:Hv in Hmatch.
    - apply bind_ok in Hmatch as (i & db2 & (i0 & Hi & _ & _ & _ & _ & _ & Hdb)%match_event_ok & [-> ->]%ret_ok).
      reflect_go. split; [|done]. destruct Hdb as [->|[Href ->]]; [by left|]. right. eauto.
    - apply ret_ok in Hmatch as [-> ->]. split; [by left|]. by intros [? ?]. }
  assert (db_receipts db1 = db_receipts db ∧ db_jobs db1 = db_jobs db) as [Hrs Hjs]
    by (destruct Hm as [->|(_ & i & _ & _ & ->)]; done).
  apply bind_ok in H as (id & db2 & [-> ->]%fresh_ok & H).
  apply bind_ok in H as (t & db2 & [-> ->]%gets_ok & H).
  apply bind_ok in H as (inserted & db2 & Hins & H).
  apply try_err_ok in Hins as [(receipt & -> & Hins)|(-> & -> & _)].
  - apply (proj1 (scan_ok _ _ _ _)) in Hins.
    apply insert_or_nothing_ok, insert_row_ok in Hins as (Hr & _ & Hno & ->). rewrite <- Hr in *.
    cbn [t_rows t_put receipts_table] in Hno, H. apply bind_ok in H as (u1 & db3 & Hjob & [-> ->]%ret_ok).
    destruct Ho as [[[= <-] <-]|?]; [|done].
    assert (∃ jobs serial, db3 = db1 <| db_receipts ::= fun rs => rs ++ [receipt] |> <| db_jobs := jobs |>
        <| db_serial := serial |> ∧
      schedules in_ (match intent with Some i => intent_ID i | None => "" end) (db_jobs db1) jobs)
      as (jobs & serial & -> & Hsch).
    { destruct intent as [i|]; [|apply ret_ok in Hjob as [_ ->]; do 2 eexists; split; [reflexivity|by left]].
      apply bind_ok in Hjob as (id & db4 & [-> ->]%fresh_ok & H).
      apply bind_ok in H as (t & db4 & [-> ->]%gets_ok & H).
      apply bind_ok in H as (o & db4 & Hj & [_ ->]%ret_ok).
      apply try_err_ok in Hj as [(job & -> & Hj%insert_or_nothing_ok%insert_row_ok)|(-> & -> & _)].
      - destruct Hj as (-> & _ & _ & ->). do 2 eexists. split; [reflexivity|]. right.
        split; [by apply Hver|]. eexists. by split_and!.
      - do 2 eexists. split; [reflexivity|by left]. }
    rewrite Hjs in Hsch. eapply (hook_new in_ db _ jobs serial db1); [exact Hm|reflexivity|by rewrite Hr..| |by rewrite Hr].
    rewrite <- Hrs. exact Hno.
  - apply bind_ok in H as (receipt & db2 & (-> & Hin & Hsd)%findWebhookDuplicate_ok & H).
    apply bind_ok in H as (u1 & db2 & [Hsame ->]%require_ok & [-> ->]%ret_ok).
    destruct Ho as [[[= <-] <-]|?]; [|done].
    apply andb_true_iff in Hsd as [Hsp%bool_decide_eq_true _]. reflect_go.
    eapply hook_duplicate; [exact Hm|reflexivity| |done|done|done]. rewrite <- Hrs. exact Hin.
Qed.
End deliveries.

Section inbox_theorems.
Context {pg : Postgres}.


(** C39: A payload that was once recorded as rejected can never be accepted: when the
    provider delivers it again and the signature verifies this time (the first check may
    have failed because the provider could not be reached), recording the webhook fails
    and the database stays as it was. *)
Theorem rejected_webhook_blocks ctx in_ db receipt :
  hook_VerificationResult in_ = "verified" → receipt ∈ db_receipts db →
  receipt_Provider receipt = NormalizeProvider (hook_Provider in_) →
  receipt_PayloadSHA256 receipt = ToLower (hook_PayloadSHA256 in_) →
  (∀ r, r ∈ db_receipts db → receipt_Provider r = receipt_Provider receipt →
     receipt_PayloadSHA256 r = receipt_PayloadSHA256 receipt → receipt_VerificationResult r = "rejected") →
  ∃ e, run (RecordWebhook ctx in_) db = (Err e, db).
Proof.
  intros Hv Hin Hp Hd Hrej. unfold run. destruct (RecordWebhook ctx in_ db) as [[r db']|e] eqn:E; [|eauto].
  exfalso. apply RecordWebhook_ok in E.
  destruct E as [dup db1 db' _ _ Hdup Hdp Hdd Hdv|new jobs serial db1 db' _ _ Hnp Hnd _ Hno _].
  - rewrite (Hrej dup) in Hdv by congruence. by rewrite Hv in Hdv.
  - specialize (Hno receipt Hin). cbn [t_conflict receipts_table] in Hno.
    rewrite (bool_decide_eq_true_2 (receipt_Provider receipt = _)) in Hno by congruence.
    rewrite (bool_decide_eq_true_2 (receipt_PayloadSHA256 receipt = _)) in Hno by congruence.
    by rewrite !orb_true_r in Hno.
Qed.
End inbox_theorems.

(** ** The back-off of the mail outbox *)

Lemma double_delay_min n d : 0 < d → Z.min Hour (double_delay n d) = Z.min Hour (d * 2 ^ Z.of_nat n).
Proof.
  revert d. induction n as [|n IH]; intros d Hd; [simpl; by rewrite Z.mul_1_r|]. simpl double_delay.
  rewrite Nat2Z.inj_succ, Z.pow_succ_r by lia. destruct (d <? Hour) eqn:E.
  - rewrite IH by lia. f_equal. lia.
  - assert (0 < 2 ^ Z.of_nat n) by (apply Z.pow_pos_nonneg; lia). nia.
Qed.

(** C36: The delay before a top-up mail is sent again is 30 seconds, doubled for each
    attempt after the first, and an hour at most; the doubling loop runs at most seven
    times however many attempts were made, so the delay never overflows. *)
Theorem retry_delay_spec attempt :
  retry_delay attempt = Z.min Hour (30 * Second * 2 ^ Z.max 0 (attempt - 1)) ∧
  30 * Second ≤ retry_delay attempt ≤ Hour ∧
  ∀ n, double_delay (7 + n) (30 * Second) = double_delay 7 (30 * Second).
Proof.
  assert (retry_delay attempt = Z.min Hour (30 * Second * 2 ^ Z.max 0 (attempt - 1))) as Heq.
  { unfold retry_delay. cbv zeta.
    pose proof (double_delay_min (Z.to_nat (attempt - 1)) (30 * Second) ltac:(done)) as H.
    replace (Z.of_nat (Z.to_nat (attempt - 1))) with (Z.max 0 (attempt - 1)) in H by lia.
    rewrite <- H. destruct (_ >? _) eqn:E; lia. }
  split; [done|]. split; [|intros n; by destruct n; vm_compute].
  rewrite Heq. assert (0 < 2 ^ Z.max 0 (attempt - 1)) by (apply Z.pow_pos_nonneg; lia).
  unfold Hour, Minute, Second, Microsecond, Nanosecond in *. lia.
Qed.

(** ** Witnesses *)
Definition demo_awaiting : Db := demo_db <| db_intents := [demo_intent demo_new_id PaymentIntentStateRequiresAction None
  <| intent_MerchantOrderReference := "order-1" |>] |>.
Definition demo_event : WebhookEvent :=
  mkWebhookEvent "evt-1" "order-1" "capture-1" 1000 TWD PaymentIntentStateSucceeded "payment.succeeded" "completed".
Definition demo_delivery (verification : string) : RecordWebhookInput :=
  mkRecordWebhookInput "PayPal" demo_digest verification demo_event 0.
Definition demo_rejected : RecordWebhookResult * Db := Eval vm_compute in
  match RecordWebhook (pg := demo_pg) None (demo_delivery "rejected") demo_awaiting with
  | Ok r => r
  | Err _ => (mkRecordWebhookResult (mkWebhookReceipt "" "" "" "" "" "" "" "" [] 0 None 0 0) true, demo_awaiting)
  end.
Definition demo_hooked : RecordWebhookResult * Db := Eval vm_compute in
  match RecordWebhook (pg := demo_pg) None (demo_delivery "verified") demo_awaiting with
  | Ok r => r
  | Err _ => demo_rejected
  end.


Lemma rejected_webhook_blocks_witness :
  is_ok (run (RecordWebhook (pg := demo_pg) None (demo_delivery "rejected")) demo_awaiting).1 = true ∧
  ∃ e, run (RecordWebhook (pg := demo_pg) None (demo_delivery "verified")) demo_rejected.2 = (Err e, demo_rejected.2).
Proof.
  split; [by vm_compute|].
  apply (rejected_webhook_blocks (pg := demo_pg) None (demo_delivery "verified") demo_rejected.2
    (hooked_Receipt demo_rejected.1)); [done|by left|by vm_compute|by vm_compute|].
  by intros r ->%list_elem_of_singleton.
Defined.
