(* ===== verification/Customer.v ===== *)
(** * Customer operations: [methods.go], [policy.go], [customer.go]

    Consents, payment methods, the automatic top-up policy, and the manual and hosted
    top-ups. *)
From S2P Require Import Prelude GoStrings GoTime BillingTypes PaymentTypes Payment Database Tables.
From S2P Require Import Accounts Ledger.

(** ** [methods.go] *)

Record CreateConsentInput := mkCreateConsentInput {
  consentin_AccountID : string;
  consentin_ConsentType : string;
  consentin_TextVersion : string;
  consentin_TextSHA256 : string;
  consentin_AcceptedActorType : string;
  consentin_AcceptedActorID : string;
  consentin_AcceptedAt : Time;
  consentin_Locale : string;
  consentin_Source : string
}.

Record CreatePaymentMethodInput := mkCreatePaymentMethodInput {
  methodin_AccountID : string;
  methodin_Provider : string;
  methodin_ProviderCustomerRefCiphertext : string;
  methodin_ProviderMethodRefCiphertext : string;
  methodin_ProviderMethodRefSHA256 : string;
  methodin_CardBrand : string;
  methodin_LastFour : string;
  methodin_ExpiryMonth : option Z;
  methodin_ExpiryYear : option Z;
  methodin_Capabilities : ProviderCapabilities;
  methodin_Status : PaymentMethodStatus;
  methodin_ConsentID : string
}.

Section customer.
Context {pg : Postgres}.

Definition getConsentForUpdate (consentID : string) : M PaymentConsent :=
  scan (select (fun c => consent_ID c == consentID)).

Definition CreateConsent (ctx : Ctx) (in_ : CreateConsentInput) : M PaymentConsent :=
  _ ← require_that (negb (negb (required (consentin_AccountID in_))
         || ((consentin_ConsentType in_ != "payment_method") && (consentin_ConsentType in_ != "auto_topup"))
         || negb (required (consentin_TextVersion in_)) || negb (len (consentin_TextSHA256 in_) =? 64)
         || negb (required (consentin_AcceptedActorType in_))
         || negb (required (consentin_AcceptedActorID in_)) || IsZero (consentin_AcceptedAt in_)
         || negb (required (consentin_Locale in_)) || negb (required (consentin_Source in_)))) ErrConflict;
  withTx (
    _ ← getAccountForUpdate ctx (consentin_AccountID in_);
    _ ← requireNoHandoffTx (consentin_AccountID in_);
    id ← fresh;
    now ← gets db_now;
    consent ← scan (insert_consent (mkPaymentConsent id (consentin_AccountID in_)
      (consentin_ConsentType in_) (TrimSpace (consentin_TextVersion in_))
      (ToLower (consentin_TextSHA256 in_)) (consentin_AcceptedActorType in_)
      (consentin_AcceptedActorID in_) (pg_time (UTC (consentin_AcceptedAt in_)))
      (consentin_Locale in_) (consentin_Source in_) None "" now now));
    mret (Committed consent)).

Definition CreatePaymentMethod (ctx : Ctx) (in_ : CreatePaymentMethodInput) : M PaymentMethod :=
  let provider := NormalizeProvider (methodin_Provider in_) in
  _ ← require_that (required (methodin_AccountID in_) && (provider != "")
                    && required (methodin_ConsentID in_)) ErrConflict;
  _ ← require_that (negb ((methodin_Status in_ == PaymentMethodStatusActive)
         && ((methodin_ProviderCustomerRefCiphertext in_ == "")
             || (methodin_ProviderMethodRefCiphertext in_ == "")
             || negb (len (methodin_ProviderMethodRefSHA256 in_) =? 64)))) ErrConflict;
  _ ← require_that (negb ((methodin_LastFour in_ != "")
         && (negb (len (methodin_LastFour in_) =? 4) || negb (all_digits (methodin_LastFour in_)))))
        ErrConflict;
  withTx (
    _ ← getAccountForUpdate ctx (methodin_AccountID in_);
    _ ← requireNoHandoffTx (methodin_AccountID in_);
    consent ← getConsentForUpdate (methodin_ConsentID in_);
    _ ← require_that (negb ((consent_AccountID consent != methodin_AccountID in_)
           || (consent_ConsentType consent != "payment_method")
           || bool_decide (is_Some (consent_RevokedAt consent)))) ErrConflict;
    id ← fresh;
    now ← gets db_now;
    row ← scan (insert_method (mkMethodRow
      (mkPaymentMethod id (methodin_AccountID in_) provider (methodin_Status in_)
         (methodin_CardBrand in_) (methodin_LastFour in_) (methodin_ExpiryMonth in_)
         (methodin_ExpiryYear in_) (methodin_Capabilities in_) (methodin_ConsentID in_) now now)
      (methodin_ProviderCustomerRefCiphertext in_) (methodin_ProviderMethodRefCiphertext in_)
      (ToLower (methodin_ProviderMethodRefSHA256 in_))));
    mret (Committed (mrow_method row))).

(** ** [policy.go] *)

Record PutAutoTopUpPolicyInput := mkPutAutoTopUpPolicyInput {
  put_AccountID : string;
  put_Enabled : bool;
  put_ThresholdMinor : Z;
  put_TopUpAmountMinor : Z;
  put_Currency : Currency;
  put_PaymentMethodID : string;
  put_DailyAttemptLimit : Z;
  put_DailyAmountLimitMinor : Z;
  put_CooldownSeconds : Z;
  put_ConsentID : string;
  put_ActorID : string;
  put_ExpectedVersion : Z
}.

(** The EXISTS query that proves a retired predecessor configuration. *)
Definition retired_predecessor (db : Db) (accountID : string) (current : AutoTopUpPolicy) (version : Z) : bool :=
  existsb (fun b => (binding_AccountID b == accountID)
      && (binding_RecordID b == policy_PaymentMethodID current)
      && existsb (fun p => (period_ID p == binding_PeriodID b)
            && bool_decide (is_Some (period_EffectiveUntil p))
            && (period_OwnershipVersion p <? version)) (db_periods db)) (db_method_periods db)
  && existsb (fun r => (method_ID (mrow_method r) == policy_PaymentMethodID current)
      && (method_Status (mrow_method r) == "revoked")) (db_methods db)
  && existsb (fun c => (consent_ID c == policy_ConsentID current) && (consent_AccountID c == accountID)
      && bool_decide (is_Some (consent_RevokedAt c))) (db_consents db).

(** The tenant's check of the policy it replaces: whether it retires a predecessor's. *)
Definition check_replaced_policy (ctx : Ctx) (accountID : string) (current : AutoTopUpPolicy)
    (expectedVersion : Z) : M bool :=
  match ctx with
  | None => mret false
  | Some scope =>
      method ← try_err ErrNotFound (getPaymentMethodForUpdate ctx (policy_PaymentMethodID current));
      match method with
      | None =>
          retired ← gets (fun db => retired_predecessor db accountID current (scope_OwnershipVersion scope));
          _ ← require_that (negb (negb retired || policy_Enabled current || policy_Armed current
                 || negb (expectedVersion =? 0))) ErrConflict;
          mret retired
      | Some _ =>
          _ ← require_that (expectedVersion =? policy_Version current) ErrConflict;
          mret false
      end
  end.

(** The generation, the version and the replacement flag of the new policy. *)
Definition next_policy_version (ctx : Ctx) (in_ : PutAutoTopUpPolicyInput) (current : option AutoTopUpPolicy) :
    M (Z * Z * bool) :=
  match current with
  | Some current =>
      retired ← check_replaced_policy ctx (put_AccountID in_) current (put_ExpectedVersion in_);
      _ ← require_that (negb (negb retired && (put_ExpectedVersion in_ >? 0)
             && negb (policy_Version current =? put_ExpectedVersion in_))) ErrConflict;
      mret (policy_Generation current + 1, policy_Version current + 1, retired)
  | None =>
      _ ← require_that (negb (put_ExpectedVersion in_ >? 0)) ErrConflict;
      mret (1, 1, false)
  end.

Definition candidate_policy (in_ : PutAutoTopUpPolicyInput) (id : string) (generation version : Z)
    (createdAt updatedAt : Time) : AutoTopUpPolicy :=
  {| policy_ID := id; policy_AccountID := put_AccountID in_; policy_Enabled := put_Enabled in_;
     policy_ThresholdMinor := put_ThresholdMinor in_;
     policy_TopUpAmountMinor := put_TopUpAmountMinor in_; policy_Currency := put_Currency in_;
     policy_PaymentMethodID := put_PaymentMethodID in_;
     policy_DailyAttemptLimit := put_DailyAttemptLimit in_;
     policy_DailyAmountLimitMinor := put_DailyAmountLimitMinor in_;
     policy_CooldownSeconds := put_CooldownSeconds in_; policy_Generation := generation;
     policy_Version := version; policy_Armed := true; policy_ConsecutiveFailureCount := 0;
     policy_LastTriggeredAt := None; policy_LastSucceededAt := None;
     policy_ConsentID := put_ConsentID in_; policy_CreatedAt := createdAt;
     policy_UpdatedAt := updatedAt |}.

Definition putAutoTopUpPolicyTx (ctx : Ctx) (in_ : PutAutoTopUpPolicyInput) : M (Outcome AutoTopUpPolicy) :=
  account ← getAccountForUpdate ctx (put_AccountID in_);
  _ ← require_that (account_State account != AccountStateClosed) ErrAccountClosed;
  _ ← requireNoHandoffTx (account_ID account);
  _ ← require_that (account_Currency account == put_Currency in_) ErrConflict;
  method ← getPaymentMethodForUpdate ctx (put_PaymentMethodID in_);
  _ ← require_that ((method_AccountID method == put_AccountID in_)
         && (method_Status method == PaymentMethodStatusActive)) ErrPaymentMethodInactive;
  _ ← require_that (cap_MerchantInitiatedCharge (method_Capabilities method)) ErrCapabilityUnsupported;
  consent ← getConsentForUpdate (put_ConsentID in_);
  _ ← require_that (negb ((consent_AccountID consent != put_AccountID in_)
         || (consent_ConsentType consent != "auto_topup")
         || bool_decide (is_Some (consent_RevokedAt consent)))) ErrConflict;
  current ← try_err ErrNotFound (getPolicyForUpdate (put_AccountID in_));
  '(generation, version, replacesRetired) ← next_policy_version ctx in_ current;
  now ← gets db_now;
  _ ← lift (ValidatePolicy (candidate_policy in_ "" generation version now now));
  policy ← match current with
           | Some _ =>
               scan (first_row (update_policies (fun p => policy_AccountID p == put_AccountID in_)
                 (fun p => candidate_policy in_ (policy_ID p) generation version
                    (if replacesRetired : bool then now else policy_CreatedAt p) (policy_UpdatedAt p))))
           | None =>
               id ← fresh;
               scan (insert_policy (candidate_policy in_ id generation version now now))
           end;
  mret (Committed policy).

Definition PutAutoTopUpPolicy (ctx : Ctx) (in_ : PutAutoTopUpPolicyInput) : M AutoTopUpPolicy :=
  _ ← require_that (required (put_AccountID in_) && required (put_PaymentMethodID in_)
        && required (put_ConsentID in_) && required (put_ActorID in_)) ErrConflict;
  withTx (putAutoTopUpPolicyTx ctx in_).

(** ** [customer.go] *)

Record RevokePaymentMethodInput := mkRevokePaymentMethodInput {
  revoke_AccountID : string;
  revoke_MethodID : string;
  revoke_ActorID : string;
  revoke_Reason : string;
  revoke_Now : Time
}.

Record RevokePaymentMethodResult := mkRevokePaymentMethodResult {
  revoked_Method : PaymentMethod;
  revoked_PolicyDisabled : bool;
  revoked_Duplicate : bool
}.

(** A disabled policy: the UPDATE of both operations that switch it off. *)
Definition disable_policy (p : AutoTopUpPolicy) : AutoTopUpPolicy :=
  p <| policy_Enabled := false |> <| policy_Armed := false |>
    <| policy_Generation ::= Z.succ |> <| policy_Version ::= Z.succ |>.

Definition revokePaymentMethodTx (ctx : Ctx) (in_ : RevokePaymentMethodInput) (now : Time) :
    M (Outcome RevokePaymentMethodResult) :=
  _ ← getAccountForUpdate ctx (revoke_AccountID in_);
  method ← getPaymentMethodForUpdate ctx (revoke_MethodID in_);
  _ ← require_that (method_AccountID method == revoke_AccountID in_) ErrNotFound;
  if method_Status method == PaymentMethodStatusRevoked then
    mret (Committed (mkRevokePaymentMethodResult method false true))
  else
  row ← scan (first_row (update_methods (fun r => method_ID (mrow_method r) == revoke_MethodID in_)
                           (set_method_status PaymentMethodStatusRevoked None)));
  let method := mrow_method row in
  _ ← update_consents (fun c => consent_ID c == method_ConsentID method) (fun c =>
        revoke_fields (Some (default (pg_time now) (consent_RevokedAt c)))
          (if consent_RevocationReason c == "" then TrimSpace (revoke_Reason in_)
           else consent_RevocationReason c) c);
  policies ← update_policies (fun p => (policy_AccountID p == revoke_AccountID in_)
               && (policy_PaymentMethodID p == revoke_MethodID in_) && policy_Enabled p) disable_policy;
  mret (Committed (mkRevokePaymentMethodResult method (negb (length policies =? 0)%nat) false)).

Definition RevokePaymentMethod (ctx : Ctx) (in_ : RevokePaymentMethodInput) : M RevokePaymentMethodResult :=
  _ ← require_that (required (revoke_AccountID in_) && required (revoke_MethodID in_)
        && required (revoke_ActorID in_) && required (revoke_Reason in_)) ErrConflict;
  now ← default_now (revoke_Now in_);
  withTx (revokePaymentMethodTx ctx in_ now).

Definition disableAutoTopUpPolicyTx (ctx : Ctx) (accountID : string) (expectedVersion : Z) :
    M (Outcome AutoTopUpPolicy) :=
  _ ← getAccountForUpdate ctx accountID;
  policy ← getPolicyForUpdate accountID;
  _ ← match ctx with
      | Some _ => _ ← getPaymentMethodForUpdate ctx (policy_PaymentMethodID policy); mret tt
      | None => mret tt
      end;
  _ ← require_that (negb ((expectedVersion >? 0) && negb (policy_Version policy =? expectedVersion)))
        ErrConflict;
  if negb (policy_Enabled policy) then mret (Committed policy) else
  policy ← scan (first_row (update_policies (fun p => policy_AccountID p == accountID) disable_policy));
  mret (Committed policy).

Definition DisableAutoTopUpPolicy (ctx : Ctx) (accountID actorID : string) (expectedVersion : Z) :
    M AutoTopUpPolicy :=
  _ ← require_that (required accountID && required actorID && negb (expectedVersion <? 0)) ErrConflict;
  withTx (disableAutoTopUpPolicyTx ctx accountID expectedVersion).

(** The row of a top-up the customer asked for. *)
Definition manual_intent (id accountID : string) (amount : Z) (currency : Currency)
    (provider methodID state key order correlationID : string) (now : Time) : PaymentIntent :=
  mkPaymentIntent id accountID amount currency PaymentIntentReasonManualTopUp None "" provider methodID
    state key order "" correlationID (pg_time now) (pg_time now) None.

Definition getIntentByIdempotency (accountID key : string) : M PaymentIntent :=
  scan (select (fun i => (intent_AccountID i == accountID) && (intent_IdempotencyKey i == TrimSpace key))).

(** The guards both top-ups share. *)
Definition require_topup_account (ctx : Ctx) (accountID : string) (currency : Currency) :
    M CommercialAccount :=
  account ← getAccountForUpdate ctx accountID;
  _ ← require_that (negb ((account_State account == AccountStateClosed)
         || (account_State account == AccountStateSuspended))) ErrAccountClosed;
  _ ← requireNoHandoffTx (account_ID account);
  _ ← require_that (account_Currency account == currency) ErrConflict;
  mret account.

Record CreateManualTopUpInput := mkCreateManualTopUpInput {
  manual_AccountID : string;
  manual_AmountMinor : Z;
  manual_Currency : Currency;
  manual_PaymentMethodID : string;
  manual_IdempotencyKey : string;
  manual_CorrelationID : string;
  manual_Now : Time
}.

(** The intent, and whether it existed. *)
Definition createManualTopUpTx (ctx : Ctx) (in_ : CreateManualTopUpInput) (now : Time) :
    M (Outcome (PaymentIntent * bool)) :=
  account ← require_topup_account ctx (manual_AccountID in_) (manual_Currency in_);
  existing ← try_err ErrNotFound (getIntentByIdempotency (manual_AccountID in_) (manual_IdempotencyKey in_));
  match existing with
  | Some existing =>
      _ ← requireCurrentIntentReplay ctx (intent_ID existing);
      _ ← require_that (negb (negb (intent_AmountMinor existing =? manual_AmountMinor in_)
             || (intent_Currency existing != manual_Currency in_)
             || (intent_PaymentMethodID existing != manual_PaymentMethodID in_)
             || (intent_Reason existing != PaymentIntentReasonManualTopUp))) ErrIdempotencyConflict;
      mret (Committed (existing, true))
  | None =>
      method ← getPaymentMethodForUpdate ctx (manual_PaymentMethodID in_);
      _ ← require_that ((method_AccountID method == manual_AccountID in_)
             && (method_Status method == PaymentMethodStatusActive)) ErrPaymentMethodInactive;
      _ ← require_that (cap_MerchantInitiatedCharge (method_Capabilities method)) ErrCapabilityUnsupported;
      id ← fresh;
      intent ← scan (insert_intent (manual_intent id (manual_AccountID in_) (manual_AmountMinor in_)
                 (manual_Currency in_) (method_Provider method) (manual_PaymentMethodID in_)
                 PaymentIntentStateCreated (TrimSpace (manual_IdempotencyKey in_)) ""
                 (TrimSpace (manual_CorrelationID in_)) now));
      _ ← insert_job (intent_ID intent) ReconciliationReasonCharge now;
      mret (Committed (intent, false))
  end.

Definition CreateManualTopUp (ctx : Ctx) (in_ : CreateManualTopUpInput) : M (PaymentIntent * bool) :=
  _ ← require_that (required (manual_AccountID in_) && required (manual_PaymentMethodID in_)
        && required (manual_IdempotencyKey in_) && required (manual_CorrelationID in_)) ErrConflict;
  _ ← lift (ValidateChargeAmount (manual_Currency in_) (manual_AmountMinor in_));
  now ← default_now (manual_Now in_);
  withTx (createManualTopUpTx ctx in_ now).

Record CreateHostedTopUpInput := mkCreateHostedTopUpInput {
  hosted_AccountID : string;
  hosted_Provider : string;
  hosted_IdempotencyKey : string;
  hosted_CorrelationID : string;
  hosted_AmountMinor : Z;
  hosted_Currency : Currency;
  hosted_Now : Time
}.

(** [random] is the hexadecimal text of the 13 bytes read from [crypto/rand]. *)
Definition createHostedTopUpTx (ctx : Ctx) (in_ : CreateHostedTopUpInput) (provider random : string)
    (now : Time) : M (Outcome (PaymentIntent * bool)) :=
  account ← require_topup_account ctx (hosted_AccountID in_) (hosted_Currency in_);
  existing ← try_err ErrNotFound (getIntentByIdempotency (hosted_AccountID in_) (hosted_IdempotencyKey in_));
  match existing with
  | Some existing =>
      _ ← requireCurrentIntentReplay ctx (intent_ID existing);
      _ ← require_that (negb (negb (intent_AmountMinor existing =? hosted_AmountMinor in_)
             || (intent_Currency existing != hosted_Currency in_)
             || (intent_Provider existing != provider)
             || (intent_PaymentMethodID existing != "")
             || (intent_Reason existing != PaymentIntentReasonManualTopUp))) ErrIdempotencyConflict;
      mret (Committed (existing, true))
  | None =>
      id ← fresh;
      intent ← scan (insert_intent (manual_intent id (hosted_AccountID in_) (hosted_AmountMinor in_)
                 (hosted_Currency in_) provider "" PaymentIntentStateProcessing
                 (TrimSpace (hosted_IdempotencyKey in_)) ("rtk_" +:+ random)
                 (TrimSpace (hosted_CorrelationID in_)) now));
      _ ← insert_job (intent_ID intent) ReconciliationReasonUnknown (Add now (5 * Minute));
      mret (Committed (intent, false))
  end.

Definition CreateHostedTopUp (ctx : Ctx) (in_ : CreateHostedTopUpInput) (random : string) :
    M (PaymentIntent * bool) :=
  let provider := NormalizeProvider (hosted_Provider in_) in
  _ ← require_that (required (hosted_AccountID in_) && required provider
        && required (hosted_IdempotencyKey in_) && required (hosted_CorrelationID in_)) ErrConflict;
  _ ← lift (ValidateChargeAmount (hosted_Currency in_) (hosted_AmountMinor in_));
  now ← default_now (hosted_Now in_);
  withTx (createHostedTopUpTx ctx in_ provider random now).

End customer.
