(* ===== verification/Reversals.v ===== *)
(** * Provider reversals: [internal/paymentstore/reversals.go]

    Refunds and chargebacks reported by a provider: deduplicated events, their
    attribution to the responsibility period of the original payment, and the debit of
    the current balance. The audit row each of them writes is not modelled. *)
From S2P Require Import Prelude GoStrings GoTime BillingTypes PaymentTypes Payment Database Tables.
From S2P Require Import Keeps Fixtures Accounts Ledger Intents Credits Attempts Evolution.

Record RecordProviderReversalInput := mkRecordProviderReversalInput {
  reversal_AccountID : string;
  reversal_Provider : string;
  reversal_EventReference : string;
  reversal_OriginalIntentID : string;
  reversal_AmountMinor : Z;
  reversal_Currency : Currency;
  reversal_Reason : LedgerReason;
  reversal_ProviderPayloadSHA256 : string;
  reversal_RequestID : string
}.

Record ProviderReversalResult := mkProviderReversalResult {
  reversed_EventID : string;
  reversed_Disposition : string;
  reversed_PeriodID : string;
  reversed_ReviewReason : string;
  reversed_Entry : option LedgerEntry;
  reversed_Account : CommercialAccount;
  reversed_Duplicate : bool
}.

Record reversalAllocation := mkReversalDecision {
  decided_periodID : string;
  decided_evidenceSHA : string;
  decided_disposition : string;
  decided_reviewReason : string
}.

Definition for_review (reason : string) : reversalAllocation := mkReversalDecision "" "" "" reason.

(** The event whose reversal an allocation is. *)
Definition allocated_to (db : Db) (accountID intentID : string) (e : ReversalEvent) : bool :=
  (event_AccountID e == accountID) && (event_OriginalIntentID e == intentID)
  && existsb (fun a => alloc_EventID a == event_ID e) (db_allocations db).

(** [COALESCE(sum(e.amount_minor), 0)] over the allocated events of the payment. *)
Definition reversed_total (db : Db) (accountID intentID exceptID : string) : Z :=
  sum_by event_AmountMinor
    (filter (fun e => allocated_to db accountID intentID e && (event_ID e != exceptID) = true)
       (db_reversals db)).

(** The binding of the payment with the period it names. *)
Definition payment_period (db : Db) (accountID intentID : string) :
    option (PeriodBinding * ResponsibilityPeriod) :=
  match find (fun b => (binding_RecordID b == intentID) && (binding_AccountID b == accountID))
          (db_intent_periods db) with
  | Some b => (fun p => (b, p)) <$> find (fun p => period_ID p == binding_PeriodID b) (db_periods db)
  | None => None
  end.

(** The ownership commit of the period has been decided. *)
Definition period_committed (db : Db) (b : PeriodBinding) : bool :=
  existsb (fun h => (handoff_AccountID h == binding_AccountID b)
    && (handoff_SourcePeriodID h == binding_PeriodID b)
    && existsb (fun d => decision_OperationID d == handoff_ID h) (db_committed_decisions db)) (db_handoffs db).

Definition normalize_reversal (in_ : RecordProviderReversalInput) : RecordProviderReversalInput :=
  mkRecordProviderReversalInput (reversal_AccountID in_) (NormalizeProvider (reversal_Provider in_))
    (TrimSpace (reversal_EventReference in_)) (reversal_OriginalIntentID in_)
    (reversal_AmountMinor in_) (reversal_Currency in_) (reversal_Reason in_)
    (reversal_ProviderPayloadSHA256 in_) (TrimSpace (reversal_RequestID in_)).

Record ResolveProviderReversalInput := mkResolveProviderReversalInput {
  resolve_AccountID : string;
  resolve_EventID : string;
  resolve_EvidenceSHA256 : string;
  resolve_RequestID : string
}.

(** The request of a recorded event, as its resolution reruns it. *)
Definition original_reversal (in_ : ResolveProviderReversalInput) (e : ReversalEvent) :
    RecordProviderReversalInput :=
  mkRecordProviderReversalInput (resolve_AccountID in_) (event_Provider e) (event_EventReference e)
    (event_OriginalIntentID e) (event_AmountMinor e) (event_Currency e) (event_Reason e)
    (event_ProviderPayloadSHA256 e) (resolve_RequestID in_).

Record BindHistoricalPaymentResponsibilityInput := mkBindHistoricalPaymentResponsibilityInput {
  bind_AccountID : string;
  bind_IntentID : string;
  bind_PeriodID : string;
  bind_EvidenceSHA256 : string;
  bind_ReviewerUserID : string;
  bind_RequestID : string
}.

(** The ledger entry of a reversal of the current balance. *)
Definition reversal_input (account : CommercialAccount) (in_ : RecordProviderReversalInput) (now : Time) :
    PostLedgerEntryInput :=
  {| post_AccountID := account_ID account; post_Direction := LedgerDirectionDebit;
     post_AmountMinor := reversal_AmountMinor in_; post_Currency := reversal_Currency in_;
     post_Reason := reversal_Reason in_;
     post_IdempotencyScope := "provider_reversal/" +:+ reversal_Provider in_;
     post_IdempotencyKey := reversal_EventReference in_; post_ExternalType := "payment_intent";
     post_ExternalID := reversal_OriginalIntentID in_; post_ActorType := "service";
     post_ActorID := "provider_reconciliation"; post_RequestID := reversal_RequestID in_;
     post_Now := now |}.

Section reversals.
Context {pg : Postgres} {dg : Digest}.

(** The digest of a request; the transport's correlation may change on a retry. *)
Definition reversal_digest (in_ : RecordProviderReversalInput) : string :=
  handoffDigest [("AccountID", JString (reversal_AccountID in_));
    ("Provider", JString (reversal_Provider in_));
    ("EventReference", JString (reversal_EventReference in_));
    ("OriginalIntentID", JString (reversal_OriginalIntentID in_));
    ("AmountMinor", JNumber (reversal_AmountMinor in_));
    ("Currency", JString (reversal_Currency in_)); ("Reason", JString (reversal_Reason in_));
    ("ProviderPayloadSHA256", JString (reversal_ProviderPayloadSHA256 in_));
    ("RequestID", JString "")].

Definition classifyProviderReversalTx (account : CommercialAccount) (eventID : string)
    (in_ : RecordProviderReversalInput) : M reversalAllocation :=
  found ← try_err ErrNoRows (select (fun i => (intent_ID i == reversal_OriginalIntentID in_)
                                             && (intent_AccountID i == account_ID account)));
  match found with
  | None => mret (for_review "original_payment_unresolved")
  | Some intent =>
  if (intent_Provider intent != reversal_Provider in_)
     || (intent_Currency intent != reversal_Currency in_)
  then mret (for_review "original_payment_mismatch") else
  settled ← try_err ErrNotFound (scan (select (fun e => (entry_AccountID e == account_ID account)
    && (entry_IdempotencyScope e == "payment_intent") && (entry_IdempotencyKey e == intent_ID intent))));
  match settled with
  | None => mret (for_review "original_payment_not_settled")
  | Some credit =>
  if (intent_State intent != PaymentIntentStateSucceeded)
     || (entry_AmountMinor credit != intent_AmountMinor intent)
     || (entry_Currency credit != reversal_Currency in_)
     || (entry_Direction credit != LedgerDirectionCredit)
     || (entry_Reason credit != LedgerReasonPaymentTopUpCredit)
     || (entry_ExternalType credit != "payment_intent") || (entry_ExternalID credit != intent_ID intent)
  then mret (for_review "original_payment_not_settled") else
  total ← gets (fun db => reversed_total db (account_ID account) (intent_ID intent) eventID);
  _ ← require_that (IsInt64 total) (ErrPg "22003" "");
  if (total >? intent_AmountMinor intent)
     || (reversal_AmountMinor in_ >? intent_AmountMinor intent - total)
  then mret (for_review "reversal_exceeds_original_credit") else
  bound ← gets (fun db => payment_period db (account_ID account) (intent_ID intent));
  match bound with
  | None => mret (for_review "payment_responsibility_unproven")
  | Some (b, p) =>
  committed ← gets (fun db => period_committed db b);
  if bool_decide (is_Some (period_EffectiveUntil p)) || committed
  then mret (mkReversalDecision (binding_PeriodID b) (binding_Evidence b) "predecessor_adjustment" "") else
  if account_State account == AccountStateClosed
  then mret (for_review "commercial_account_closed") else
  commitPending ← gets (fun db => commit_fenced db (account_ID account));
  if (commitPending : bool) then mret (for_review "ownership_commit_in_progress") else
  mret (mkReversalDecision (binding_PeriodID b) (binding_Evidence b) "current_balance" "")
  end end end.

Definition allocateProviderReversalTx (account : CommercialAccount) (eventID : string)
    (in_ : RecordProviderReversalInput) (resolutionSHA : string) : M ProviderReversalResult :=
  allocation ← classifyProviderReversalTx account eventID in_;
  if decided_reviewReason allocation != "" then
    _ ← require_that (resolutionSHA == "") ErrConflict;
    _ ← insert_row (mkReversalReview eventID (decided_reviewReason allocation));
    mret (mkProviderReversalResult eventID "review" (decided_periodID allocation)
            (decided_reviewReason allocation) None account false)
  else
    '(entry, updated) ←
      (if decided_disposition allocation == "current_balance" then
         clock ← gets db_clock;
         '(entry, updated) ← insertLedgerEntryTx account (reversal_input account in_ (UTC clock));
         account ← disarmAutoTopUpAfterSettlementReversalTx updated;
         mret (Some entry, account)
       else mret (None, account));
    let evidence := if resolutionSHA != "" then resolutionSHA else decided_evidenceSHA allocation in
    _ ← insert_row (mkReversalAllocation eventID (account_ID account) (decided_periodID allocation)
          (decided_disposition allocation)
          (match entry with Some e => entry_ID e | None => "" end) evidence);
    mret (mkProviderReversalResult eventID (decided_disposition allocation)
            (decided_periodID allocation) "" entry updated false).

Definition getProviderReversalResultTx (account : CommercialAccount) (eventID : string) :
    M ProviderReversalResult :=
  _ ← scan (select (fun e => (event_ID e == eventID) && (event_AccountID e == account_ID account)));
  allocated ← gets (fun db => find (fun a => alloc_EventID a == eventID) (db_allocations db));
  reviewed ← gets (fun db => find (fun r => review_EventID r == eventID) (db_reviews db));
  match allocated with
  | None =>
      mret (mkProviderReversalResult eventID "review" ""
              (match reviewed with Some r => review_ReasonCode r | None => "" end) None account false)
  | Some a =>
      entry ← (if alloc_LedgerEntryID a != "" then
                 e ← scan (select (fun e => (entry_ID e == alloc_LedgerEntryID a)
                                            && (entry_AccountID e == account_ID account)));
                 mret (Some e)
               else mret None);
      mret (mkProviderReversalResult eventID (alloc_Disposition a) (alloc_PeriodID a) "" entry account false)
  end.

Definition duplicate_reversal (r : ProviderReversalResult) : ProviderReversalResult :=
  mkProviderReversalResult (reversed_EventID r) (reversed_Disposition r) (reversed_PeriodID r)
    (reversed_ReviewReason r) (reversed_Entry r) (reversed_Account r) true.

Definition recordProviderReversalTx (ctx : Ctx) (in_ : RecordProviderReversalInput) (digest : string) :
    M (Outcome ProviderReversalResult) :=
  account ← getAccountForUpdate ctx (reversal_AccountID in_);
  previous ← try_err ErrNoRows (select (fun e => (event_Provider e == reversal_Provider in_)
                                   && (event_EventReference e == reversal_EventReference in_)));
  match previous with
  | Some e =>
      _ ← require_that (event_RequestSHA256 e == digest) ErrIdempotencyConflict;
      result ← getProviderReversalResultTx account (event_ID e);
      mret (RolledBack (duplicate_reversal result))
  | None =>
      eventID ← fresh;
      _ ← on_duplicate ErrIdempotencyConflict (insert_row (mkReversalEvent eventID
            (reversal_AccountID in_) (reversal_Provider in_) (reversal_EventReference in_)
            (reversal_OriginalIntentID in_) (reversal_AmountMinor in_) (reversal_Currency in_)
            (reversal_Reason in_) digest (reversal_ProviderPayloadSHA256 in_) (reversal_RequestID in_)));
      result ← allocateProviderReversalTx account eventID in_ "";
      mret (Committed result)
  end.

Definition RecordProviderReversal (ctx : Ctx) (in_ : RecordProviderReversalInput) :
    M ProviderReversalResult :=
  let in_ := normalize_reversal in_ in
  _ ← require_that (negb (negb (canonicalUUID (reversal_AccountID in_))
         || negb (canonicalUUID (reversal_OriginalIntentID in_)) || (reversal_Provider in_ == "")
         || (reversal_EventReference in_ == "") || (len (reversal_EventReference in_) >? 200)
         || (reversal_RequestID in_ == "") || negb (lower_sha256 (reversal_ProviderPayloadSHA256 in_))
         || negb (isSettlementReversal (reversal_Reason in_)))) ErrConflict;
  _ ← lift (ValidateChargeAmount (reversal_Currency in_) (reversal_AmountMinor in_));
  withTx (recordProviderReversalTx ctx in_ (reversal_digest in_)).

Definition resolveProviderReversalTx (ctx : Ctx) (in_ : ResolveProviderReversalInput) :
    M (Outcome ProviderReversalResult) :=
  account ← getAccountForUpdate ctx (resolve_AccountID in_);
  reviews ← gets db_reviews;
  event ← scan (select (fun e => existsb (fun r => review_EventID r == event_ID e) reviews
                && (event_ID e == resolve_EventID in_) && (event_AccountID e == resolve_AccountID in_)));
  previous ← try_err ErrNoRows (select (fun a => alloc_EventID a == resolve_EventID in_));
  match previous with
  | Some a =>
      _ ← require_that (alloc_Evidence a == resolve_EvidenceSHA256 in_) ErrIdempotencyConflict;
      result ← getProviderReversalResultTx account (resolve_EventID in_);
      mret (RolledBack (duplicate_reversal result))
  | None =>
      result ← allocateProviderReversalTx account (resolve_EventID in_) (original_reversal in_ event)
                 (resolve_EvidenceSHA256 in_);
      mret (Committed result)
  end.

Definition ResolveProviderReversal (ctx : Ctx) (in_ : ResolveProviderReversalInput) :
    M ProviderReversalResult :=
  _ ← require_that (negb (negb (canonicalUUID (resolve_AccountID in_))
         || negb (canonicalUUID (resolve_EventID in_)) || negb (lower_sha256 (resolve_EvidenceSHA256 in_))
         || negb (required (resolve_RequestID in_)))) ErrConflict;
  withTx (resolveProviderReversalTx ctx in_).

Definition add_binding (b : PeriodBinding) : M unit := fun db =>
  Ok (tt, db <| db_intent_periods ::= fun bs => bs ++ [b] |>).

(** The INSERT ... SELECT of a reviewed binding: no row when the payment or the period
    is not the account's. *)
Definition insert_reviewed_binding (in_ : BindHistoricalPaymentResponsibilityInput) : M unit :=
  intents ← gets (fun db => filter (fun i => (intent_ID i == bind_IntentID in_)
                                     && (intent_AccountID i == bind_AccountID in_) = true) (db_intents db));
  periods ← gets (fun db => filter (fun p => (period_ID p == bind_PeriodID in_)
                                     && (period_AccountID p == bind_AccountID in_) = true) (db_periods db));
  _ ← require_that ((length intents =? 1)%nat && (length periods =? 1)%nat) ErrNotFound;
  add_binding (mkPeriodBinding (bind_IntentID in_) (bind_AccountID in_) (bind_PeriodID in_)
                 (bind_EvidenceSHA256 in_)).

Definition BindHistoricalPaymentResponsibility (ctx : Ctx)
    (in_ : BindHistoricalPaymentResponsibilityInput) : M unit :=
  _ ← require_that (negb (negb (canonicalUUID (bind_AccountID in_))
         || negb (canonicalUUID (bind_IntentID in_)) || negb (canonicalUUID (bind_PeriodID in_))
         || negb (canonicalUUID (bind_ReviewerUserID in_)) || negb (lower_sha256 (bind_EvidenceSHA256 in_))
         || negb (required (bind_RequestID in_)))) ErrConflict;
  withTx (
    _ ← getAccountForUpdate ctx (bind_AccountID in_);
    existing ← gets (fun db => find (fun b => (binding_RecordID b == bind_IntentID in_)
                                     && (binding_AccountID b == bind_AccountID in_)) (db_intent_periods db));
    match existing with
    | Some b =>
        _ ← require_that (negb ((binding_PeriodID b != bind_PeriodID in_)
               || (binding_Evidence b != bind_EvidenceSHA256 in_))) ErrIdempotencyConflict;
        mret (RolledBack tt)
    | None =>
        _ ← insert_reviewed_binding in_;
        mret (Committed tt)
    end).
End reversals.

(** ** What a reversal does *)

(** The payment a reversal is attributed to: settled, and with enough credit left. *)
Record attributed (account : CommercialAccount) (eventID : string) (in_ : RecordProviderReversalInput)
    (db : Db) (i : PaymentIntent) (b : PeriodBinding) (p : ResponsibilityPeriod) : Prop := {
  at_intent : i ∈ db_intents db;
  at_id : intent_ID i = reversal_OriginalIntentID in_;
  at_account : intent_AccountID i = account_ID account;
  at_state : intent_State i = PaymentIntentStateSucceeded;
  at_room : reversed_total db (account_ID account) (intent_ID i) eventID + reversal_AmountMinor in_
              ≤ intent_AmountMinor i;
  at_period : payment_period db (account_ID account) (intent_ID i) = Some (b, p)
}.

(** What a reversal leaves of the tables of reversals. *)
Definition same_reversals (db db' : Db) : Prop :=
  db_reversals db' = db_reversals db ∧ db_allocations db' = db_allocations db.
#[export] Instance same_reversals_frame : Frame same_reversals.
Proof.
  unfold same_reversals. split; try done. split; [done|]. intros x y z [H1 H2] [H3 H4]. split; congruence.
Qed.
#[export] Hint Extern 1 (Skips same_reversals _) => by intros ?? : typeclass_instances.

Section reversal_theory.
Context {pg : Postgres} {dg : Digest}.

Lemma classify_ok account eventID in_ db d db' :
  classifyProviderReversalTx account eventID in_ db = Ok (d, db') →
  db' = db ∧
  ((decided_reviewReason d ≠ "" ∧ decided_periodID d = "") ∨
   ∃ i b p, attributed account eventID in_ db i b p ∧ decided_reviewReason d = "" ∧
     decided_periodID d = binding_PeriodID b ∧
     ((decided_disposition d = "predecessor_adjustment" ∧
         (is_Some (period_EffectiveUntil p) ∨ period_committed db b = true)) ∨
      (decided_disposition d = "current_balance" ∧ period_EffectiveUntil p = None ∧
         period_committed db b = false ∧ account_State account ≠ AccountStateClosed ∧
         commit_fenced db (account_ID account) = false))).
Proof.
  unfold classifyProviderReversalTx. intros H.
  apply bind_ok in H as (found & db1 & Hf & H).
  apply try_err_ok in Hf as [(i & -> & [Hf ->]%select_ok)|(-> & -> & _)].
  2: { apply ret_ok in H as [-> ->]. split; [done|by left]. }
  apply find_some_iff in Hf as [Hin Hi].
  destruct (_ || _) eqn:Hmatch in H. { apply ret_ok in H as [-> ->]. split; [done|by left]. }
  apply bind_ok in H as (settled & db1 & Hs & H).
  apply try_err_ok in Hs as [(credit & -> & Hs)|(-> & -> & _)].
  2: { apply ret_ok in H as [-> ->]. split; [done|by left]. }
  apply (proj1 (scan_ok _ _ _ _)) in Hs. apply select_ok in Hs as [_ ->].
  destruct (_ || _) eqn:Hset in H. { apply ret_ok in H as [-> ->]. split; [done|by left]. }
  apply bind_ok in H as (total & db1 & [-> ->]%gets_ok & H).
  apply bind_ok in H as (u & db1 & [_ ->]%require_ok & H).
  destruct (_ || _) eqn:Hroom in H. { apply ret_ok in H as [-> ->]. split; [done|by left]. }
  apply bind_ok in H as (bound & db1 & [-> ->]%gets_ok & H).
  destruct (payment_period _ _ _) as [[b p]|] eqn:Hp. 2: { apply ret_ok in H as [-> ->]. split; [done|by left]. }
  apply bind_ok in H as (committed & db1 & [-> ->]%gets_ok & H).
  assert (attributed account eventID in_ db i b p) as Hatt.
  { reflect_go. constructor; try done. lia. }
  destruct (_ || _) eqn:Hend in H.
  { apply ret_ok in H as [-> ->]. split; [done|]. right. exists i, b, p. split_and!; try done.
    left. split; [done|]. apply orb_true_iff in Hend as [He%bool_decide_eq_true|He]; auto. }
  destruct (decide (account_State account = AccountStateClosed)) as [Hc|Hc].
  { rewrite bool_decide_eq_true_2 in H by done. apply ret_ok in H as [-> ->]. split; [done|by left]. }
  rewrite bool_decide_eq_false_2 in H by done.
  apply bind_ok in H as (pending & db1 & [-> ->]%gets_ok & H).
  destruct (commit_fenced _ _) eqn:Hfence. { apply ret_ok in H as [-> ->]. split; [done|by left]. }
  apply ret_ok in H as [-> ->]. split; [done|]. right. exists i, b, p. split_and!; try done.
  right. apply orb_false_iff in Hend as [He%bool_decide_eq_false He'].
  split_and!; try done. by apply eq_None_not_Some.
Qed.

(** The two ways a reversal is allocated. *)
Inductive allocates (account : CommercialAccount) (eventID : string) (in_ : RecordProviderReversalInput)
    (db : Db) : ProviderReversalResult → Db → Prop :=
  | allocate_review reason db' :
      calm db db' → same_reversals db db' →
      allocates account eventID in_ db
        (mkProviderReversalResult eventID "review" "" reason None account false) db'
  | allocate_adjustment i b p a db' :
      attributed account eventID in_ db i b p →
      calm db db' → db_reversals db' = db_reversals db → db_allocations db' = db_allocations db ++ [a] →
      alloc_EventID a = eventID → alloc_LedgerEntryID a = "" → alloc_AccountID a = account_ID account →
      alloc_PeriodID a = binding_PeriodID b →
      allocates account eventID in_ db
        (mkProviderReversalResult eventID "predecessor_adjustment" (binding_PeriodID b) "" None account false) db'
  | allocate_debit i b p a entry account1 account2 now db1 db' :
      attributed account eventID in_ db i b p → commit_fenced db (account_ID account) = false →
      insertLedgerEntryTx account (reversal_input account in_ now) db = Ok ((entry, account1), db1) →
      calm db1 db' → db_reversals db' = db_reversals db → db_allocations db' = db_allocations db ++ [a] →
      alloc_EventID a = eventID → alloc_LedgerEntryID a = entry_ID entry →
      alloc_AccountID a = account_ID account → alloc_PeriodID a = binding_PeriodID b →
      allocates account eventID in_ db
        (mkProviderReversalResult eventID "current_balance" (binding_PeriodID b) "" (Some entry) account2 false)
        db'.

Lemma allocateProviderReversalTx_ok account eventID in_ sha db r db' :
  allocateProviderReversalTx account eventID in_ sha db = Ok (r, db') →
  allocates account eventID in_ db r db'.
Proof.
  unfold allocateProviderReversalTx. intros H.
  apply bind_ok in H as (d & db1 & [-> Hd]%classify_ok & H).
  destruct Hd as [[Hreason Hperiod]|(i & b & p & Hatt & Hreason & Hperiod & Hdisp)].
  - rewrite bool_decide_eq_false_2 in H by done. cbn [negb] in H.
    apply bind_ok in H as (u & db1 & [_ ->]%require_ok & H).
    apply bind_ok in H as (rv & db1 & (_ & _ & _ & ->)%insert_row_ok & [-> ->]%ret_ok).
    rewrite Hperiod. by constructor.
  - rewrite bool_decide_eq_true_2 in H by done. cbn [negb] in H.
    apply bind_ok in H as ([entry account2] & db1 & Hdebit & H).
    apply bind_ok in H as (a & db2 & (_ & _ & _ & ->)%insert_row_ok & [-> ->]%ret_ok).
    rewrite Hperiod. destruct Hdisp as [[Hdisp _]|(Hdisp & _ & _ & _ & Hfence)]; rewrite Hdisp in *.
    + rewrite bool_decide_eq_false_2 in Hdebit by done. apply ret_ok in Hdebit as [[= -> ->] ->].
      by eapply allocate_adjustment.
    + rewrite bool_decide_eq_true_2 in Hdebit by done.
      apply bind_ok in Hdebit as (clock & db2 & [_ ->]%gets_ok & Hdebit).
      apply bind_ok in Hdebit as ([e account1] & db2 & Hins & Hdebit).
      apply bind_ok in Hdebit as (account3 & db3 & Hdis & [[= -> ->] ->]%ret_ok).
      assert (calm db2 db3) as Hcalm by frame Hdis.
      assert (same_reversals db db3) as [Hr Ha].
      { transitivity db2; [frame Hins|frame Hdis]. }
      eapply (allocate_debit account eventID in_ db i b p _ e account1 account3 _ db2);
        [done|done|exact Hins|exact Hcalm|exact Hr|by cbn; rewrite Ha|done|done|done|done].
Qed.
End reversal_theory.

(** ** Reversals never exceed the payment *)

(** The amount of a payment already reversed. *)
Definition reversed (db : Db) (accountID intentID : string) : Z :=
  sum_by event_AmountMinor
    (filter (fun e => allocated_to db accountID intentID e = true) (db_reversals db)).

(** The payment an allocated event reverses. *)
Definition reverses (db : Db) (e : ReversalEvent) (i : PaymentIntent) : Prop :=
  i ∈ db_intents db ∧ intent_ID i = event_OriginalIntentID e ∧ intent_AccountID i = event_AccountID e ∧
  intent_State i = PaymentIntentStateSucceeded ∧
  reversed db (event_AccountID e) (event_OriginalIntentID e) ≤ intent_AmountMinor i.

(** The ledger entry of an allocation to the current balance. *)
Definition debited (db : Db) (a : ReversalAllocation) (e : ReversalEvent) : Prop :=
  alloc_LedgerEntryID a ≠ "" → ∃ entry, entry ∈ db_entries db ∧ entry_ID entry = alloc_LedgerEntryID a ∧
    entry_AccountID entry = event_AccountID e ∧ entry_Direction entry = LedgerDirectionDebit ∧
    entry_AmountMinor entry = event_AmountMinor e.

Record ReversalInv (db : Db) : Prop := {
  rv_events : NoDup (event_ID <$> db_reversals db);
  rv_positive : ∀ e, e ∈ db_reversals db → 0 < event_AmountMinor e;
  rv_allocations : NoDup (alloc_EventID <$> db_allocations db);
  rv_owner : ∀ a, a ∈ db_allocations db → ∃ e i, e ∈ db_reversals db ∧ event_ID e = alloc_EventID a ∧
    event_AccountID e = alloc_AccountID a ∧ reverses db e i ∧ debited db a e
}.

Lemma reversed_same db db' accountID intentID :
  same_reversals db db' → reversed db' accountID intentID = reversed db accountID intentID.
Proof. unfold reversed, allocated_to. by intros [-> ->]. Qed.

(** Everything but a reversal leaves the invariant alone. *)
Lemma ReversalInv_evolves db db' : evolves db db' → same_reversals db db' → ReversalInv db → ReversalInv db'.
Proof.
  intros Hev Hsame [Hn Hp Ha Ho]. pose proof Hsame as [Hr Hal].
  constructor; rewrite ?Hr, ?Hal; try done.
  intros a Hin. destruct (Ho a Hin) as (e & i & He & Hid & Hacc & (Hi & Hiid & Hiacc & Hst & Hle) & Hdeb).
  destruct (evolves_intent _ _ _ Hev Hi) as (j & Hj & [Hfr Hrun _ _ _]).
  exists e, j. split_and!; try done.
  - unfold reverses. rewrite (reversed_same _ _ _ _ Hsame).
    pose proof (f_equal intent_AccountID Hfr) as H1. pose proof (f_equal intent_AmountMinor Hfr) as H2.
    change (intent_AccountID j = intent_AccountID i) in H1.
    change (intent_AmountMinor j = intent_AmountMinor i) in H2.
    rewrite (frozen_id _ _ Hfr), H1, H2. split_and!; try done.
    rewrite (rtc_terminal _ _ (eq_trans (f_equal IntentStateTerminal Hst) eq_refl) Hrun). done.
  - intros Hne. destruct (Hdeb Hne) as (entry & Hent & ?). exists entry. split; [|done].
    destruct Hev as [[new ->] _]. apply elem_of_app. by left.
Qed.

Lemma allocated_to_event db accountID intentID e :
  allocated_to db accountID intentID e = true ↔
  event_AccountID e = accountID ∧ event_OriginalIntentID e = intentID ∧
  event_ID e ∈ alloc_EventID <$> db_allocations db.
Proof.
  unfold allocated_to. rewrite !andb_true_iff, !bool_decide_eq_true, existsb_true, list_elem_of_fmap.
  setoid_rewrite bool_decide_eq_true. naive_solver.
Qed.

(** An event that is not allocated does not count. *)
Lemma reversed_total_except db accountID intentID eventID :
  eventID ∉ alloc_EventID <$> db_allocations db →
  reversed_total db accountID intentID eventID = reversed db accountID intentID.
Proof.
  intros Hno. unfold reversed_total, reversed. f_equal. apply filter_ext_in. intros e He.
  rewrite andb_true_iff, negb_true_iff, bool_decide_eq_false. split; [by intros [? _]|].
  intros Hal. split; [done|]. intros Heq. apply Hno. rewrite <- Heq.
  by apply allocated_to_event in Hal as (_ & _ & ?).
Qed.

(** A new event counts for nothing before it is allocated. *)
Lemma fresh_unallocated db e :
  ReversalInv db → (∀ s, s ∈ db_reversals db → event_ID s ≠ event_ID e) →
  event_ID e ∉ alloc_EventID <$> db_allocations db.
Proof.
  intros [_ _ _ Ho] Hfresh (a & Heq & Hin)%list_elem_of_fmap.
  destruct (Ho a Hin) as (s & i & Hs & Hid & _). apply (Hfresh s Hs). by rewrite Hid.
Qed.
Lemma reversed_event db db' e accountID intentID :
  event_ID e ∉ alloc_EventID <$> db_allocations db → db_reversals db' = db_reversals db ++ [e] →
  db_allocations db' = db_allocations db → reversed db' accountID intentID = reversed db accountID intentID.
Proof.
  intros Hno Hr Hal. unfold reversed, allocated_to.
  rewrite Hr, Hal, filter_app, sum_by_app, filter_cons, filter_nil.
  rewrite decide_False; [simpl; lia|]. rewrite !andb_true_iff, existsb_true.
  intros [_ (a & Hin & Heq%bool_decide_eq_true)]. apply Hno. apply list_elem_of_fmap. eauto.
Qed.

Lemma ReversalInv_event db db' e :
  ReversalInv db → db_reversals db' = db_reversals db ++ [e] → db_allocations db' = db_allocations db →
  db_intents db' = db_intents db → db_entries db' = db_entries db →
  (∀ s, s ∈ db_reversals db → event_ID s ≠ event_ID e) → 0 < event_AmountMinor e →
  ReversalInv db' ∧ event_ID e ∉ alloc_EventID <$> db_allocations db.
Proof.
  intros Hinv Hr Hal Hi Hen Hfresh Hpos. pose proof (fresh_unallocated _ _ Hinv Hfresh) as Hno.
  pose proof (fun acc id => reversed_event db db' e acc id Hno Hr Hal) as Hrev.
  destruct Hinv as [Hn Hp Ha Ho].
  split; [|done]. constructor; rewrite ?Hr, ?Hal.
  - rewrite fmap_app. apply NoDup_app. split; [done|]. split; [|apply NoDup_singleton].
    intros x (s & -> & Hs)%list_elem_of_fmap Hx%list_elem_of_singleton. by apply (Hfresh s).
  - intros s [Hs| ->%list_elem_of_singleton]%elem_of_app; auto.
  - done.
  - intros a Hin. destruct (Ho a Hin) as (s & i & Hs & Hid & Hacc & Hrv & Hd).
    exists s, i. unfold reverses, debited. rewrite Hrev, Hi, Hen. split_and!; try done; try apply Hrv.
    apply elem_of_app. by left.
Qed.

(** What an allocation adds to the amounts reversed. *)
Lemma reversed_snoc db db' a e accountID intentID :
  NoDup (event_ID <$> db_reversals db) → e ∈ db_reversals db → event_ID e = alloc_EventID a →
  alloc_EventID a ∉ alloc_EventID <$> db_allocations db →
  db_reversals db' = db_reversals db → db_allocations db' = db_allocations db ++ [a] →
  reversed db' accountID intentID =
  reversed db accountID intentID +
  (if decide (event_AccountID e = accountID ∧ event_OriginalIntentID e = intentID)
   then event_AmountMinor e else 0).
Proof.
  intros Hnd He Hid Hno Hr Hal. unfold reversed. rewrite Hr.
  assert (∀ s, s ∈ db_reversals db → event_ID s ≠ event_ID e →
    allocated_to db' accountID intentID s = allocated_to db accountID intentID s) as Hsame.
  { intros s _ Hne. apply eq_true_iff_eq. rewrite !allocated_to_event, Hal, fmap_app, elem_of_app.
    change (alloc_EventID <$> [a]) with [alloc_EventID a]. rewrite list_elem_of_singleton, <- Hid. tauto. }
  case_decide as Hm.
  - apply (sum_filter_flip event_ID); try done.
    + apply not_true_iff_false. rewrite allocated_to_event, Hid. tauto.
    + apply allocated_to_event. rewrite Hal, fmap_app, elem_of_app, Hid. destruct Hm. split_and!; try done.
      right. by left.
  - rewrite Z.add_0_r. f_equal. apply filter_ext_in. intros s Hs.
    destruct (decide (event_ID s = event_ID e)) as [Heq|Hne]; [|by rewrite Hsame].
    rewrite (NoDup_fmap_inj_elem event_ID (db_reversals db) s e) by done.
    rewrite !allocated_to_event. tauto.
Qed.

(** An allocation, with the room its classification found. *)
Lemma ReversalInv_allocate account eventID in_ db i b p db' a e new :
  ReversalInv db → attributed account eventID in_ db i b p →
  e ∈ db_reversals db → event_ID e = eventID → event_AccountID e = account_ID account →
  event_OriginalIntentID e = reversal_OriginalIntentID in_ →
  event_AmountMinor e = reversal_AmountMinor in_ → eventID ∉ alloc_EventID <$> db_allocations db →
  db_reversals db' = db_reversals db → db_allocations db' = db_allocations db ++ [a] →
  alloc_EventID a = eventID → alloc_AccountID a = account_ID account →
  db_intents db' = db_intents db → db_entries db' = db_entries db ++ new → debited db' a e →
  ReversalInv db'.
Proof.
  intros [Hn Hp Ha Ho] [Hi Hiid Hiacc Hst Hroom _] He Heid Heacc Heint Heamt Hno Hr Hal Haid Haacc Hint Hent Hdeb.
  rewrite (reversed_total_except _ _ _ _ Hno) in Hroom.
  assert (∀ acc id, reversed db' acc id = reversed db acc id +
    (if decide (event_AccountID e = acc ∧ event_OriginalIntentID e = id) then event_AmountMinor e else 0))
    as Hrev by (intros; apply (reversed_snoc db db' a e); congruence).
  assert (reverses db' e i) as Hnew.
  { unfold reverses. rewrite Hint, Hrev, decide_True by done.
    rewrite Heacc, Heint, Heamt, <- Hiid. done. }
  constructor; rewrite ?Hr, ?Hal; try done.
  - rewrite fmap_app. apply NoDup_app. split; [done|]. split; [|apply NoDup_singleton].
    intros x Hx ->%list_elem_of_singleton. by rewrite Haid in Hx.
  - intros c [Hc| ->%list_elem_of_singleton]%elem_of_app.
    2: { exists e, i. split_and!; try done; congruence. }
    destruct (Ho c Hc) as (s & j & Hs & Hsid & Hsacc & (Hj & Hjid & Hjacc & Hjst & Hle) & Hd).
    assert (debited db' c s) as Hd'.
    { intros Hne. destruct (Hd Hne) as (entry & Hentry & ?). exists entry. split; [|done].
      rewrite Hent. apply elem_of_app. by left. }
    destruct (decide (event_AccountID e = event_AccountID s ∧
                      event_OriginalIntentID e = event_OriginalIntentID s)) as [[H1 H2]|Hne].
    + exists s, i. destruct Hnew as (Hni & Hnid & Hnacc & Hnst & Hnle).
      split_and!; try done. unfold reverses. rewrite <- H1, <- H2. done.
    + exists s, j. split_and!; try done. unfold reverses. rewrite Hint, Hrev, decide_False by done.
      split_and!; try done. lia.
Qed.

Section reversal_invariant.
Context {pg : Postgres} {dg : Digest}.

Lemma allocates_inv account eventID in_ db r db' e :
  allocates account eventID in_ db r db' → ReversalInv db →
  e ∈ db_reversals db → event_ID e = eventID → event_AccountID e = account_ID account →
  event_OriginalIntentID e = reversal_OriginalIntentID in_ →
  event_AmountMinor e = reversal_AmountMinor in_ → eventID ∉ alloc_EventID <$> db_allocations db →
  ReversalInv db'.
Proof.
  intros H Hinv He Heid Heacc Heint Heamt Hno.
  destruct H as [reason db' [[Hent _] Hint] Hsame|i b p a db' Hatt [[Hent _] Hint] Hr Hal Haid Hal0 Haacc _
    |i b p a entry account1 account2 now db1 db' Hatt _ Hins [[Hent _] Hint] Hr Hal Haid Hal0 Haacc _].
  - eapply ReversalInv_evolves; [by apply evolves_same|done|done].
  - eapply (ReversalInv_allocate account eventID in_ db i b p db' a e []); try done.
    + by rewrite app_nil_r.
    + intros Hne. by rewrite Hal0 in Hne.
  - apply insertLedgerEntryTx_ok in Hins as (bal & cur & _ & _ & _ & _ & Hentry & _ & _ & _ & Hdb1).
    assert (db_entries db1 = db_entries db ++ [entry] ∧ db_intents db1 = db_intents db) as [H1 H2]
      by by rewrite Hdb1.
    eapply (ReversalInv_allocate account eventID in_ db i b p db' a e [entry]); try done; try congruence.
    intros _. exists entry. rewrite Hent, H1, Hal0. split_and!; try done.
    + apply elem_of_app. right. by left.
    + by rewrite Hentry, Heacc.
    + by rewrite Hentry.
    + by rewrite Hentry, Heamt.
Qed.

(** ** The two operations *)

Lemma getProviderReversalResult_ok account eventID db r db' :
  getProviderReversalResultTx account eventID db = Ok (r, db') → db' = db.
Proof.
  intros H. assert (keeps eq (getProviderReversalResultTx account eventID)) as Hk.
  { unfold getProviderReversalResultTx. keeps. }
  by rewrite (Hk _ _ _ H).
Qed.

(** The event a request records. *)
Definition new_event (eventID : string) (in_ : RecordProviderReversalInput) (digest : string) : ReversalEvent :=
  mkReversalEvent eventID (reversal_AccountID in_) (reversal_Provider in_)
    (reversal_EventReference in_) (reversal_OriginalIntentID in_) (reversal_AmountMinor in_)
    (reversal_Currency in_) (reversal_Reason in_) digest
    (reversal_ProviderPayloadSHA256 in_) (reversal_RequestID in_).

(** The outcomes of [RecordProviderReversal]. *)
Inductive records (in_ : RecordProviderReversalInput) (digest : string) (db : Db) :
    ProviderReversalResult → Db → Prop :=
  | record_duplicate e r :
      e ∈ db_reversals db → event_Provider e = reversal_Provider in_ →
      event_EventReference e = reversal_EventReference in_ → event_RequestSHA256 e = digest →
      reversed_Duplicate r = true → records in_ digest db r db
  | record_new eventID account r db1 db' :
      find (fun a => account_ID a == account_ID account) (db_accounts db) = Some account →
      account_ID account = reversal_AccountID in_ → 0 < reversal_AmountMinor in_ →
      (∀ e, e ∈ db_reversals db → event_ID e ≠ eventID ∧
         ¬ (event_Provider e = reversal_Provider in_ ∧
            event_EventReference e = reversal_EventReference in_)) →
      db_reversals db1 = db_reversals db ++ [new_event eventID in_ digest] →
      db_allocations db1 = db_allocations db → calm db db1 → same_attempts db db1 →
      find (fun a => account_ID a == account_ID account) (db_accounts db1) = Some account →
      allocates account eventID in_ db1 r db' →
      records in_ digest db r db'.

Lemma RecordProviderReversal_ok ctx in_ db r db' :
  RecordProviderReversal ctx in_ db = Ok (r, db') →
  isSettlementReversal (reversal_Reason in_) = true ∧
  records (normalize_reversal in_) (reversal_digest (normalize_reversal in_)) db r db'.
Proof.
  unfold RecordProviderReversal. cbv zeta. set (n := normalize_reversal in_). intros H.
  apply bind_ok in H as (u & db1 & [Hg ->]%require_ok & H).
  apply bind_ok in H as (u1 & db1 & [Hv ->]%lift_ok & H).
  split. { change (isSettlementReversal (reversal_Reason n) = true). reflect_go. done. }
  assert (∃ o db1, recordProviderReversalTx ctx n (reversal_digest n) db = Ok (o, db1) ∧
    ((o = Committed r ∧ db1 = db') ∨ (o = RolledBack r ∧ db' = db))) as (o & db1 & Htx & Ho).
  { apply withTx_ok in H as [H|(-> & db1 & H)]; eauto 10. }
  clear H Hg. unfold recordProviderReversalTx in Htx.
  apply bind_ok in Htx as (account & db2 & [-> Hacc]%getAccountForUpdate_ok & Htx).
  destruct (find_account _ _ _ Hacc) as [_ Haid].
  apply bind_ok in Htx as (previous & db2 & Hprev & Htx).
  apply try_err_ok in Hprev as [(e & -> & [Hf ->]%select_ok)|(-> & -> & [Hf _]%select_err)].
  - apply bind_ok in Htx as (u2 & db2 & [Hd%bool_decide_eq_true ->]%require_ok & Htx).
    apply bind_ok in Htx as (res & db2 & ->%getProviderReversalResult_ok & [-> ->]%ret_ok).
    destruct Ho as [[? _]|[[= <-] ->]]; [done|].
    apply find_some_iff in Hf as [Hin Hf]. reflect_go. by eapply record_duplicate.
  - apply bind_ok in Htx as (eventID & db2 & [-> ->]%fresh_ok & Htx).
    apply bind_ok in Htx as (ev & db2 & Hev & Htx). apply on_duplicate_ok in Hev.
    apply insert_row_ok in Hev as (-> & _ & Hno & ->).
    apply bind_ok in Htx as (res & db2 & Hal%allocateProviderReversalTx_ok & [-> ->]%ret_ok).
    destruct Ho as [[[= <-] <-]|[? _]]; [|done].
    match type of Hal with allocates _ _ _ ?d _ _ =>
      eapply (record_new n _ db (pg_uuid (db_serial db)) account _ d) end;
      [by rewrite Haid|exact Haid|by destruct u1; apply ValidateChargeAmount_ok in Hv as [_ ?]|
       |done|done|done|done|by rewrite Haid|exact Hal].
    intros e He. specialize (Hno e He). cbn [t_conflict reversals_table] in Hno. reflect_go.
    split; [done|]. intros [H1 H2]. rewrite find_none_iff in Hf. specialize (Hf e He).
    by rewrite H1, H2, !bool_decide_eq_true_2 in Hf.
Qed.

Lemma RecordProviderReversal_reversals ctx in_ : keeps (preserves ReversalInv) (RecordProviderReversal ctx in_).
Proof.
  intros db r db' [_ H]%RecordProviderReversal_ok Hinv.
  destruct H as [|eventID account r db1 db' _ Hacc Hpos Hfresh Hr Hal [[Hent _] Hint] _ _ Ha]; [done|].
  set (e := new_event eventID (normalize_reversal in_) (reversal_digest (normalize_reversal in_))) in *.
  destruct (ReversalInv_event db db1 e) as [Hinv1 Hno]; try done.
  { intros s Hs. by apply Hfresh. }
  apply (allocates_inv _ _ _ _ _ _ e Ha); try done.
  - rewrite Hr. apply elem_of_app. right. by left.
  - by rewrite Hal.
Qed.
End reversal_invariant.

Section resolution.
Context {pg : Postgres} {dg : Digest}.

(** The outcomes of [ResolveProviderReversal]. *)
Inductive resolves (in_ : ResolveProviderReversalInput) (db : Db) : ProviderReversalResult → Db → Prop :=
  | resolve_duplicate a r :
      a ∈ db_allocations db → alloc_EventID a = resolve_EventID in_ →
      alloc_Evidence a = resolve_EvidenceSHA256 in_ → reversed_Duplicate r = true →
      resolves in_ db r db
  | resolve_new account e r db' :
      find (fun a => account_ID a == account_ID account) (db_accounts db) = Some account →
      account_ID account = resolve_AccountID in_ →
      e ∈ db_reversals db → event_ID e = resolve_EventID in_ → event_AccountID e = resolve_AccountID in_ →
      resolve_EventID in_ ∉ alloc_EventID <$> db_allocations db →
      allocates account (resolve_EventID in_) (original_reversal in_ e) db r db' →
      resolves in_ db r db'.

Lemma ResolveProviderReversal_ok ctx in_ db r db' :
  ResolveProviderReversal ctx in_ db = Ok (r, db') → resolves in_ db r db'.
Proof.
  unfold ResolveProviderReversal. intros H.
  apply bind_ok in H as (u & db1 & [_ ->]%require_ok & H).
  assert (∃ o db1, resolveProviderReversalTx ctx in_ db = Ok (o, db1) ∧
    ((o = Committed r ∧ db1 = db') ∨ (o = RolledBack r ∧ db' = db))) as (o & db1 & Htx & Ho).
  { apply withTx_ok in H as [H|(-> & db1 & H)]; eauto 10. }
  clear H. unfold resolveProviderReversalTx in Htx.
  apply bind_ok in Htx as (account & db2 & [-> Hacc]%getAccountForUpdate_ok & Htx).
  destruct (find_account _ _ _ Hacc) as [_ Haid].
  apply bind_ok in Htx as (reviews & db2 & [-> ->]%gets_ok & Htx).
  apply bind_ok in Htx as (e & db2 & He & Htx). apply (proj1 (scan_ok _ _ _ _)) in He.
  apply select_ok in He as [He ->]. apply find_some_iff in He as [Hin He]. reflect_go.
  apply bind_ok in Htx as (previous & db2 & Hprev & Htx).
  apply try_err_ok in Hprev as [(a & -> & [Hf ->]%select_ok)|(-> & -> & [Hf _]%select_err)].
  - apply bind_ok in Htx as (u2 & db2 & [Hd%bool_decide_eq_true ->]%require_ok & Htx).
    apply bind_ok in Htx as (res & db2 & ->%getProviderReversalResult_ok & [-> ->]%ret_ok).
    destruct Ho as [[? _]|[[= <-] ->]]; [done|].
    apply find_some_iff in Hf as [Ha Hf%bool_decide_eq_true]. by eapply resolve_duplicate.
  - apply bind_ok in Htx as (res & db2 & Hal%allocateProviderReversalTx_ok & [-> ->]%ret_ok).
    destruct Ho as [[[= <-] <-]|[? _]]; [|done].
    eapply resolve_new; [by rewrite Haid|exact Haid|exact Hin|done|done| |exact Hal].
    intros (a & Heq & Ha)%list_elem_of_fmap. rewrite find_none_iff in Hf. specialize (Hf a Ha).
    by rewrite bool_decide_eq_true_2 in Hf.
Qed.

Lemma ResolveProviderReversal_reversals ctx in_ : keeps (preserves ReversalInv) (ResolveProviderReversal ctx in_).
Proof.
  intros db r db' H%ResolveProviderReversal_ok Hinv.
  destruct H as [|account e r db' _ Haid He Heid Heacc Hno Ha]; [done|].
  apply (allocates_inv _ _ _ _ _ _ e Ha); try done. by rewrite Haid.
Qed.

(** ** The books, the intents and the attempts *)

(** The scope of a reversal's entry is never that of a payment's credit. *)
Lemma trim_left_rev_drop n l : (length l ≤ n)%nat → ∃ k, trim_left_rev l = drop k l.
Proof.
  revert l. induction n as [|n IH]; intros l Hl.
  { destruct l; [|simpl in Hl; lia]. by exists 0%nat. }
  destruct l as [|a l]; [by exists 0%nat|]. simpl in Hl. simpl.
  destruct (space1 a). { destruct (IH l) as [k ->]; [lia|]. by exists (S k). }
  destruct l as [|b l]; [by exists 0%nat|]. simpl in Hl.
  destruct (space2 b a). { destruct (IH l) as [k ->]; [lia|]. by exists (S (S k)). }
  destruct l as [|c l]; [by exists 0%nat|]. simpl in Hl.
  destruct (space3 c b a); [|by exists 0%nat]. destruct (IH l) as [k ->]; [lia|]. by exists (S (S (S k))).
Qed.

(** Trimming a text that starts with a letter leaves a prefix of it. *)
Lemma TrimSpace_prefix s a l : bytes_of s = a :: l → code_char a = true →
  ∃ k, TrimSpace s = of_bytes (take k (a :: l)).
Proof.
  intros Hb Ha. unfold TrimSpace. rewrite Hb, trim_left_safe by done.
  destruct (trim_left_rev_drop (length (rev (a :: l))) (rev (a :: l))) as [k Hk]; [lia|].
  exists (length (a :: l) - k)%nat. by rewrite Hk, skipn_rev, rev_involutive.
Qed.

Lemma reversal_scope provider : TrimSpace ("provider_reversal/" +:+ provider) ≠ "payment_intent".
Proof.
  set (s := "provider_reversal/" +:+ provider).
  assert (∃ l, bytes_of s = 112%N :: 114%N :: l) as [l Hl] by (by eexists).
  destruct (TrimSpace_prefix s 112%N (114%N :: l) Hl) as [k ->]; [done|]. by destruct k as [|[|k]].
Qed.

Lemma allocates_evolves account eventID in_ db r db' :
  allocates account eventID in_ db r db' → evolves db db'.
Proof.
  intros H. destruct H as [reason db' [[Hent _] Hint] _|i b p a db' _ [[Hent _] Hint] _ _ _ _ _ _
    |i b p a entry account1 account2 now db1 db' _ _ Hins [[Hent _] Hint] _ _ _ _ _ _].
  - by apply evolves_same.
  - by apply evolves_same.
  - transitivity db1; [by eapply keeps_evolves_insertLedgerEntryTx|by apply evolves_same].
Qed.

Lemma allocates_ledger account eventID in_ db r db' :
  find (fun a => account_ID a == account_ID account) (db_accounts db) = Some account →
  allocates account eventID in_ db r db' → LedgerInv db → LedgerInv db'.
Proof.
  intros Hacc H Hinv. destruct H as [reason db' [Hb _] _|i b p a db' _ [Hb _] _ _ _ _ _ _
    |i b p a entry account1 account2 now db1 db' _ _ Hins [Hb _] _ _ _ _ _ _].
  - by apply (same_books_inv db).
  - by apply (same_books_inv db).
  - apply (same_books_inv db1); [done|]. by eapply insertLedgerEntryTx_inv.
Qed.

Lemma allocates_credit account eventID in_ db r db' :
  allocates account eventID in_ db r db' → CreditInv db → CreditInv db'.
Proof.
  intros H Hinv. destruct H as [reason db' Hc _|i b p a db' _ Hc _ _ _ _ _ _
    |i b p a entry account1 account2 now db1 db' _ _ Hins Hc _ _ _ _ _ _].
  - by apply (CreditInv_calm db).
  - by apply (CreditInv_calm db).
  - apply (CreditInv_calm db1); [done|].
    apply insertLedgerEntryTx_ok in Hins as (bal & cur & _ & _ & _ & _ & Hentry & _ & _ & _ & Hdb1).
    apply (CreditInv_entry db db1 entry); [by rewrite Hdb1..| |done]. rewrite Hentry. apply reversal_scope.
Qed.
End resolution.

(** The bounds of what is reversed. *)
Lemma reversed_bounds db i :
  ReversalInv db → NoDup (intent_ID <$> db_intents db) → i ∈ db_intents db →
  let total := reversed db (intent_AccountID i) (intent_ID i) in
  0 ≤ total ∧ (0 < total → total ≤ intent_AmountMinor i ∧ intent_State i = PaymentIntentStateSucceeded).
Proof.
  intros [Hn Hp Ha Ho] Hnd Hi. cbv zeta. unfold reversed.
  remember (filter _ (db_reversals db)) as events eqn:Hevs.
  assert (∀ e, e ∈ events → allocated_to db (intent_AccountID i) (intent_ID i) e = true ∧ e ∈ db_reversals db)
    as Hev by (intros e He; rewrite Hevs in He; by apply list_elem_of_filter in He).
  assert (0 ≤ sum_by event_AmountMinor events) as Hge.
  { apply sum_by_nonneg. intros e He. destruct (Hev e He) as [_ Hin]. specialize (Hp e Hin). lia. }
  destruct events as [|e es]; [simpl; lia|].
  destruct (Hev e) as [Hal Hin]; [left|]. apply allocated_to_event in Hal as (Hacc & Hint & Hid).
  apply list_elem_of_fmap in Hid as (a & Hid & Hain).
  destruct (Ho a Hain) as (e' & j & He' & Heid & _ & (Hj & Hjid & _ & Hst & Hle) & _).
  assert (e' = e) as -> by (apply (NoDup_fmap_inj_elem event_ID (db_reversals db)); congruence).
  assert (j = i) as -> by (apply (NoDup_fmap_inj_elem intent_ID (db_intents db)); congruence).
  rewrite Hacc, Hint in Hle. unfold reversed in Hle. rewrite <- Hevs in Hle. done.
Qed.
