(* ===== verification/Setups.v ===== *)
(** * Set-up of payment methods: [internal/paymentstore/setups.go]

    A session in which the customer registers a payment method with a provider: its
    idempotent start, with the consent and the pending method, and its completion by the
    provider's result, which a handoff or a closure may have invalidated. *)
From S2P Require Import Prelude GoStrings GoTime BillingTypes PaymentTypes Payment Database Tables.
From S2P Require Import Keeps Fixtures Accounts Ledger Customer.

Definition validLowerSHA256 (value : string) : bool := lower_sha256 value.

Record BeginPaymentMethodSetupInput := mkBeginPaymentMethodSetupInput {
  beginsetup_AccountID : string;
  beginsetup_Provider : string;
  beginsetup_IdempotencyKey : string;
  beginsetup_RequestSHA256 : string;
  beginsetup_CorrelationID : string;
  beginsetup_Capabilities : ProviderCapabilities;
  beginsetup_Consent : CreateConsentInput;
  beginsetup_Now : Time
}.

Record BeginPaymentMethodSetupResult := mkBeginPaymentMethodSetupResult {
  begunsetup_Session : PaymentMethodSetupSession;
  begunsetup_Consent : PaymentConsent;
  begunsetup_Method : PaymentMethod;
  begunsetup_Duplicate : bool
}.

Record CompletePaymentMethodSetupInput := mkCompletePaymentMethodSetupInput {
  complete_AccountID : string;
  complete_SessionID : string;
  complete_State : PaymentIntentState;
  complete_ProviderCode : string;
  complete_HostedURLSHA256 : string;
  complete_ProviderCustomerRefCiphertext : string;
  complete_ProviderMethodRefCiphertext : string;
  complete_ProviderMethodRefSHA256 : string;
  complete_CardBrand : string;
  complete_LastFour : string;
  complete_ExpiryMonth : option Z;
  complete_ExpiryYear : option Z;
  complete_Now : Time
}.

(** [completed_Err] is the error the code returns beside a committed result. *)
Record CompletePaymentMethodSetupResult := mkCompletePaymentMethodSetupResult {
  completed_Session : PaymentMethodSetupSession;
  completed_Method : PaymentMethod;
  completed_Duplicate : bool;
  completed_Err : option GoError
}.

(** The input with its texts normalised. *)
Definition normalize_completion (in_ : CompletePaymentMethodSetupInput) : CompletePaymentMethodSetupInput :=
  mkCompletePaymentMethodSetupInput (complete_AccountID in_) (complete_SessionID in_) (complete_State in_)
    (NormalizeProviderCode (complete_ProviderCode in_))
    (ToLower (TrimSpace (complete_HostedURLSHA256 in_)))
    (complete_ProviderCustomerRefCiphertext in_) (complete_ProviderMethodRefCiphertext in_)
    (ToLower (TrimSpace (complete_ProviderMethodRefSHA256 in_))) (complete_CardBrand in_)
    (complete_LastFour in_) (complete_ExpiryMonth in_) (complete_ExpiryYear in_) (complete_Now in_).

(** The switch on the reported state: what may and must come with it. *)
Definition completion_valid (in_ : CompletePaymentMethodSetupInput) : bool :=
  if (complete_State in_ == PaymentIntentStateRequiresAction)
     || (complete_State in_ == PaymentIntentStateFailed) then
    negb ((complete_ProviderCustomerRefCiphertext in_ != "")
          || (complete_ProviderMethodRefCiphertext in_ != "")
          || (complete_ProviderMethodRefSHA256 in_ != ""))
  else if complete_State in_ == PaymentIntentStateSucceeded then
    negb ((complete_ProviderCustomerRefCiphertext in_ == "")
          || (complete_ProviderMethodRefCiphertext in_ == "")
          || negb (validLowerSHA256 (complete_ProviderMethodRefSHA256 in_)))
  else false.

(** The status the method gets. *)
Definition completed_status (state : PaymentIntentState) : PaymentMethodStatus :=
  if state == PaymentIntentStateSucceeded then PaymentMethodStatusActive
  else if state == PaymentIntentStateFailed then PaymentMethodStatusFailed
  else PaymentMethodStatusPending.

(** The UPDATE of the method. *)
Definition complete_method (in_ : CompletePaymentMethodSetupInput) (r : MethodRow) : MethodRow :=
  let m := mrow_method r in
  mkMethodRow
    (mkPaymentMethod (method_ID m) (method_AccountID m) (method_Provider m)
       (completed_status (complete_State in_)) (TrimSpace (complete_CardBrand in_))
       (TrimSpace (complete_LastFour in_)) (complete_ExpiryMonth in_) (complete_ExpiryYear in_)
       (method_Capabilities m) (method_ConsentID m) (method_CreatedAt m) (method_UpdatedAt m))
    (complete_ProviderCustomerRefCiphertext in_) (complete_ProviderMethodRefCiphertext in_)
    (complete_ProviderMethodRefSHA256 in_).

(** The UPDATE of the session. *)
Definition complete_session (in_ : CompletePaymentMethodSetupInput) (s : PaymentMethodSetupSession) :
    PaymentMethodSetupSession :=
  s <| setup_State := complete_State in_ |> <| setup_ProviderCode := complete_ProviderCode in_ |>
    <| setup_HostedURLSHA256 := complete_HostedURLSHA256 in_ |>.

(** The session already has the reported result. *)
Definition same_completion (session : PaymentMethodSetupSession) (methodSHA : string)
    (in_ : CompletePaymentMethodSetupInput) : bool :=
  (setup_State session == complete_State in_)
  && (setup_ProviderCode session == complete_ProviderCode in_)
  && (setup_HostedURLSHA256 session == complete_HostedURLSHA256 in_)
  && ((complete_State in_ != PaymentIntentStateSucceeded)
      || (methodSHA == complete_ProviderMethodRefSHA256 in_)).

(** A later result may only settle a session that awaited the customer's action. *)
Definition may_settle (session : PaymentMethodSetupSession) (in_ : CompletePaymentMethodSetupInput) : bool :=
  negb ((setup_State session != PaymentIntentStateRequiresAction)
        || ((complete_State in_ != PaymentIntentStateSucceeded)
            && (complete_State in_ != PaymentIntentStateFailed))
        || (setup_HostedURLSHA256 session != complete_HostedURLSHA256 in_)).

Definition setup_invalidated (session : PaymentMethodSetupSession) : bool :=
  (setup_InvalidatedByHandoff session != "") || (setup_InvalidatedByClosure session != "").

Section setups.
Context {pg : Postgres} {dg : Digest}.

Definition getPaymentMethodSetupByKey (accountID provider key : string) : M PaymentMethodSetupSession :=
  scan (select (fun s => (setup_AccountID s == accountID) && (setup_Provider s == provider)
                         && (setup_IdempotencyKey s == key))).

Definition getPaymentMethodSetupByID (id : string) : M PaymentMethodSetupSession :=
  scan (select (fun s => setup_ID s == id)).

(** The three INSERTs of a new session. *)
Definition insert_setup_records (in_ : BeginPaymentMethodSetupInput) (provider key digest correlation : string)
    (now : Time) : M BeginPaymentMethodSetupResult :=
  let c := beginsetup_Consent in_ in
  stamp ← gets db_now;
  consentID ← fresh;
  consent ← scan (insert_consent (mkPaymentConsent consentID (beginsetup_AccountID in_) "payment_method"
    (TrimSpace (consentin_TextVersion c)) (ToLower (consentin_TextSHA256 c))
    (TrimSpace (consentin_AcceptedActorType c)) (TrimSpace (consentin_AcceptedActorID c)) (pg_time now)
    (TrimSpace (consentin_Locale c)) (TrimSpace (consentin_Source c)) None "" stamp stamp));
  methodID ← fresh;
  method ← scan (insert_method (mkMethodRow
    (mkPaymentMethod methodID (beginsetup_AccountID in_) provider PaymentMethodStatusPending "" "" None None
       (beginsetup_Capabilities in_) (consent_ID consent) stamp stamp) "" "" ""));
  sessionID ← fresh;
  session ← scan (insert_setup (mkPaymentMethodSetupSession sessionID (beginsetup_AccountID in_) provider
    key digest correlation (method_ID (mrow_method method)) PaymentIntentStateCreated "" ""
    (pg_time now) (pg_time now) "" ""));
  mret (mkBeginPaymentMethodSetupResult session consent (mrow_method method) false).

Definition beginPaymentMethodSetupTx (ctx : Ctx) (in_ : BeginPaymentMethodSetupInput)
    (provider key digest correlation : string) (now : Time) : M (Outcome BeginPaymentMethodSetupResult) :=
  account ← getAccountForUpdate ctx (beginsetup_AccountID in_);
  _ ← require_that (account_State account != AccountStateClosed) ErrAccountClosed;
  _ ← requireNoHandoffTx (account_ID account);
  existing ← try_err ErrNotFound (getPaymentMethodSetupByKey (beginsetup_AccountID in_) provider key);
  match existing with
  | Some existing =>
      _ ← require_that (setup_RequestSHA256 existing == digest) ErrIdempotencyConflict;
      method ← getPaymentMethodForUpdate ctx (setup_PaymentMethodID existing);
      consent ← getConsentForUpdate (method_ConsentID method);
      mret (RolledBack (mkBeginPaymentMethodSetupResult existing consent method true))
  | None =>
      result ← insert_setup_records in_ provider key digest correlation now;
      mret (Committed result)
  end.

Definition BeginPaymentMethodSetup (ctx : Ctx) (in_ : BeginPaymentMethodSetupInput) :
    M BeginPaymentMethodSetupResult :=
  let provider := NormalizeProvider (beginsetup_Provider in_) in
  let key := TrimSpace (beginsetup_IdempotencyKey in_) in
  let digest := ToLower (TrimSpace (beginsetup_RequestSHA256 in_)) in
  let correlation := TrimSpace (beginsetup_CorrelationID in_) in
  let c := beginsetup_Consent in_ in
  _ ← require_that (negb (negb (required (beginsetup_AccountID in_)) || (provider == "")
         || negb (required key) || (len key >? 128) || negb (validLowerSHA256 digest)
         || negb (required correlation) || (consentin_AccountID c != beginsetup_AccountID in_)
         || (consentin_ConsentType c != "payment_method") || negb (required (consentin_TextVersion c))
         || negb (validLowerSHA256 (ToLower (consentin_TextSHA256 c)))
         || negb (required (consentin_AcceptedActorType c)) || negb (required (consentin_AcceptedActorID c))
         || negb (required (consentin_Locale c)) || negb (required (consentin_Source c)))) ErrConflict;
  now ← default_now (beginsetup_Now in_);
  withTx (beginPaymentMethodSetupTx ctx in_ provider key digest correlation now).

(** The digest of a result that came after the session had been invalidated. *)
Definition observation_digest (in_ : CompletePaymentMethodSetupInput) : string :=
  handoffDigest [("State", JString (complete_State in_)); ("Code", JString (complete_ProviderCode in_));
    ("HostedSHA", JString (complete_HostedURLSHA256 in_));
    ("MethodSHA", JString (complete_ProviderMethodRefSHA256 in_))].

Definition completePaymentMethodSetupTx (ctx : Ctx) (in_ : CompletePaymentMethodSetupInput) (now : Time) :
    M (Outcome CompletePaymentMethodSetupResult) :=
  _ ← getAccountForUpdate ctx (complete_AccountID in_);
  session ← getPaymentMethodSetupByID (complete_SessionID in_);
  _ ← require_that (setup_AccountID session == complete_AccountID in_) ErrNotFound;
  method ← getPaymentMethodForUpdate ctx (setup_PaymentMethodID session);
  if setup_invalidated session then
    observed ← try_err ErrNoRows (insert_or_nothing t_conflict
      (mkSetupObservation (setup_ID session) (observation_digest in_) (complete_State in_)));
    mret (Committed (mkCompletePaymentMethodSetupResult session method
            (bool_decide (observed = None)) (Some ErrSetupInvalidated)))
  else
  _ ← requireNoHandoffTx (complete_AccountID in_);
  methodSHA ← gets (fun db => default "" (mrow_ref_sha256 <$>
                find (fun r => method_ID (mrow_method r) == method_ID method) (db_methods db)));
  if (setup_State session != PaymentIntentStateCreated) && same_completion session methodSHA in_ then
    mret (RolledBack (mkCompletePaymentMethodSetupResult session method true None))
  else
  _ ← require_that ((setup_State session == PaymentIntentStateCreated) || may_settle session in_)
        ErrIdempotencyConflict;
  row ← scan (first_row (update_methods (fun r => method_ID (mrow_method r) == method_ID method)
                           (complete_method in_)));
  session ← scan (first_row (update_setups (fun s => setup_ID s == setup_ID session)
                               (complete_session in_)));
  mret (Committed (mkCompletePaymentMethodSetupResult session (mrow_method row) false None)).

Definition CompletePaymentMethodSetup (ctx : Ctx) (in_ : CompletePaymentMethodSetupInput) :
    M CompletePaymentMethodSetupResult :=
  let in_ := normalize_completion in_ in
  _ ← require_that (negb (negb (required (complete_AccountID in_)) || negb (required (complete_SessionID in_))
         || negb (validLowerSHA256 (complete_HostedURLSHA256 in_)))) ErrConflict;
  _ ← require_that (completion_valid in_) ErrConflict;
  _ ← require_that (negb ((complete_LastFour in_ != "")
         && (negb (len (complete_LastFour in_) =? 4) || negb (all_digits (complete_LastFour in_))))) ErrConflict;
  now ← default_now (complete_Now in_);
  withTx (completePaymentMethodSetupTx ctx in_ now).
End setups.
