(* ===== verification/Handoff.v ===== *)
(** * Ownership handoffs: [internal/paymentstore/handoff.go]

    The first responsibility period of an account, and the preparation of a handoff: the
    durable fence, and the permanent invalidation of the set-ups in flight. *)
From S2P Require Import Prelude GoStrings GoTime BillingTypes PaymentTypes Payment Database Tables.
From S2P Require Import Keeps Fixtures Accounts.

Record InitialResponsibilityInput := mkInitialResponsibilityInput {
  initial_AccountID : string;
  initial_OwnerUserID : string;
  initial_OwnershipVersion : Z;
  initial_EffectiveFrom : Time;
  initial_SourceEvidenceSHA256 : string
}.

Record PrepareOwnershipHandoffInput := mkPrepareOwnershipHandoffInput {
  prepare_OperationID : string;
  prepare_OrganizationID : string;
  prepare_SourceUserID : string;
  prepare_TargetUserID : string;
  prepare_OwnershipVersion : Z;
  prepare_Cutoff : Time
}.

(** [ORDER BY ownership_version LIMIT 1] *)
Definition first_period (db : Db) (accountID : string) : option ResponsibilityPeriod :=
  head (sort_stable (fun p q => period_OwnershipVersion p <? period_OwnershipVersion q)
    (filter (fun p => period_AccountID p = accountID) (db_periods db))).

(** A set-up that has not ended, and that no handoff has invalidated. *)
Definition setup_in_flight (accountID : string) (s : PaymentMethodSetupSession) : bool :=
  (setup_AccountID s == accountID) && one_of (setup_State s) ["created"; "requires_action"; "unknown"]
  && (setup_InvalidatedByHandoff s == "").

Definition invalidate_setup (operationID : string) (s : PaymentMethodSetupSession) :
    PaymentMethodSetupSession :=
  s <| setup_InvalidatedByHandoff := operationID |> <| setup_State := PaymentIntentStateFailed |>.

(** The method of a session the handoff has invalidated. *)
Definition invalidated_method (db : Db) (operationID methodID : string) : bool :=
  existsb (fun s => (setup_InvalidatedByHandoff s == operationID) && (setup_PaymentMethodID s == methodID))
    (db_setups db).

(** The consent of such a method. *)
Definition invalidated_consent (db : Db) (operationID consentID : string) : bool :=
  existsb (fun r => (method_ConsentID (mrow_method r) == consentID)
                    && invalidated_method db operationID (method_ID (mrow_method r))) (db_methods db).

Section handoff.
Context {pg : Postgres} {dg : Digest}.

(** Trigger [touch_billing_authority_guard]. *)
Definition touch_billing_authority_guard (accountID : string) : M unit :=
  _ ← update_rows (fun a => account_ID a == accountID) (fun a => a); mret tt.

(** Triggers [closed_cloud_responsibility] and [responsibility_authority_guard]. *)
Definition insert_period (p : ResponsibilityPeriod) : M ResponsibilityPeriod :=
  _ ← closure_barrier (fun db => closure_closed db (period_AccountID p));
  p ← insert_row p;
  _ ← touch_billing_authority_guard (period_AccountID p);
  mret p.

(** Triggers [handoff_closure_exclusion] and [handoff_authority_guard]. *)
Definition insert_handoff (h : OwnershipHandoff) : M OwnershipHandoff :=
  _ ← closure_barrier (fun db => closure_open db (handoff_AccountID h));
  h ← insert_row h;
  _ ← touch_billing_authority_guard (handoff_AccountID h);
  mret h.

Definition initializeResponsibilityTx (ctx : Ctx) (in_ : InitialResponsibilityInput) (from : Time) :
    M (Outcome unit) :=
  account ← getAccountForUpdate ctx (initial_AccountID in_);
  _ ← require_that (account_State account != AccountStateClosed) ErrAccountClosed;
  existing ← gets (fun db => first_period db (initial_AccountID in_));
  match existing with
  | Some p =>
      _ ← require_that (negb ((period_OwnerUserID p != initial_OwnerUserID in_)
             || (period_OwnershipVersion p != initial_OwnershipVersion in_)
             || negb (Equal (period_EffectiveFrom p) from)
             || (period_Evidence p != initial_SourceEvidenceSHA256 in_))) ErrIdempotencyConflict;
      mret (RolledBack tt)
  | None =>
      id ← fresh;
      _ ← insert_period (mkResponsibilityPeriod id (initial_AccountID in_) (initial_OwnerUserID in_)
            (initial_OwnershipVersion in_) (pg_time from) None (initial_SourceEvidenceSHA256 in_) None);
      mret (Committed tt)
  end.

Definition InitializeResponsibility (ctx : Ctx) (in_ : InitialResponsibilityInput) : M unit :=
  _ ← require_that (negb (negb (canonicalUUID (initial_AccountID in_))
         || negb (canonicalUUID (initial_OwnerUserID in_)) || (initial_OwnershipVersion in_ <? 1)
         || IsZero (initial_EffectiveFrom in_) || negb (lower_sha256 (initial_SourceEvidenceSHA256 in_))))
        ErrConflict;
  withTx (initializeResponsibilityTx ctx in_ (databaseTime (initial_EffectiveFrom in_))).

Definition handoff_request_digest (in_ : PrepareOwnershipHandoffInput) (cutoff : Time) : string :=
  handoffDigest [("OperationID", JString (prepare_OperationID in_));
    ("OrganizationID", JString (prepare_OrganizationID in_));
    ("SourceUserID", JString (prepare_SourceUserID in_));
    ("TargetUserID", JString (prepare_TargetUserID in_));
    ("OwnershipVersion", JNumber (prepare_OwnershipVersion in_)); ("Cutoff", JTime cutoff)].

(** The three UPDATEs that invalidate the set-ups in flight. *)
Definition invalidate_setups (accountID operationID : string) : M unit :=
  _ ← update_setups (setup_in_flight accountID) (invalidate_setup operationID);
  after ← gets (fun db => db);
  _ ← update_methods (fun r => invalidated_method after operationID (method_ID (mrow_method r)))
        (set_method_status PaymentMethodStatusRevoked None);
  _ ← update_consents (fun c => invalidated_consent after operationID (consent_ID c)) (fun c =>
        revoke_fields (Some (default (db_now after) (consent_RevokedAt c)))
          (if consent_RevocationReason c == "" then "ownership_handoff_setup_invalidated"
           else consent_RevocationReason c) c);
  mret tt.

Definition prepareOwnershipHandoffTx (in_ : PrepareOwnershipHandoffInput) (cutoff : Time) (digest : string) :
    M (Outcome OwnershipHandoff) :=
  account ← scan (select (by_organization (prepare_OrganizationID in_) Settlement));
  previous ← try_err ErrNotFound (scan (select (fun h => handoff_ID h == prepare_OperationID in_)));
  match previous with
  | Some h =>
      _ ← require_that (negb ((handoff_AccountID h != account_ID account)
             || (handoff_RequestSHA256 h != digest))) ErrIdempotencyConflict;
      mret (RolledBack h)
  | None =>
      _ ← require_that (account_State account != AccountStateClosed) ErrAccountClosed;
      _ ← requireNoHandoffTx (account_ID account);
      period ← gets (fun db => current_period db (account_ID account));
      match period with
      | None => throw ErrOwnershipEvidenceMissing
      | Some p =>
          _ ← require_that (negb ((period_OwnerUserID p != prepare_SourceUserID in_)
                 || (period_OwnershipVersion p != prepare_OwnershipVersion in_)
                 || Before cutoff (period_EffectiveFrom p))) ErrOwnershipVersionConflict;
          now ← gets db_now;
          op ← on_duplicate ErrIdempotencyConflict (scan (insert_handoff (mkOwnershipHandoff
                 (prepare_OperationID in_) (account_ID account) (period_ID p) (prepare_SourceUserID in_)
                 (prepare_TargetUserID in_) (prepare_OwnershipVersion in_) (pg_time cutoff) "preparing" 1
                 now digest)));
          _ ← invalidate_setups (account_ID account) (handoff_ID op);
          mret (Committed op)
      end
  end.

Definition PrepareOwnershipHandoff (in_ : PrepareOwnershipHandoffInput) : M OwnershipHandoff :=
  _ ← require_that (negb (negb (canonicalUUID (prepare_OperationID in_))
         || negb (canonicalUUID (prepare_OrganizationID in_)) || negb (canonicalUUID (prepare_SourceUserID in_))
         || negb (canonicalUUID (prepare_TargetUserID in_))
         || (prepare_SourceUserID in_ == prepare_TargetUserID in_)
         || (prepare_OwnershipVersion in_ <? 1) || IsZero (prepare_Cutoff in_))) ErrConflict;
  let cutoff := databaseTime (prepare_Cutoff in_) in
  withTx (prepareOwnershipHandoffTx in_ cutoff (handoff_request_digest in_ cutoff)).

(** An operation id alone never grants the status of another cloud's handoff. *)
Definition GetOwnershipHandoff (organizationID operationID : string) : M OwnershipHandoff :=
  _ ← require_that (canonicalUUID organizationID && canonicalUUID operationID) ErrConflict;
  accounts ← gets db_accounts;
  scan (select (fun h => (handoff_ID h == operationID)
    && existsb (fun a => (account_ID a == handoff_AccountID h)
                         && (account_OrganizationID a == organizationID)) accounts)).
End handoff.
