(* ===== verification/Protocols.v ===== *)
(** * Tables of the ownership and closure protocols

    What migrations 050 to 057 enforce on the evidence of ownership handoffs and cloud
    closures: unique keys and CHECK constraints, and the triggers on handoffs, closures,
    responsibility periods and access states.  Evidence rows are never updated. *)
From S2P Require Import Prelude GoStrings GoTime BillingTypes Evidence PaymentTypes Payment Database.
From S2P Require Import Tables Keeps Fixtures Accounts Handoff.

(** [x TEXT CHECK (x ~ '^[0-9a-f]{64}$')], NULL as the empty text. *)
Definition checkpoint_ok (s : string) : bool := (s == "") || lower_sha256 s.

(** ** Handoffs *)

#[export] Instance authorizations_table : Table HandoffCommitAuthorization := {|
  t_name := "billing_handoff_commit_authorizations"; t_rows := db_commit_authorizations;
  t_put := fun rows db => db <| db_commit_authorizations := rows |>;
  t_conflict a b := (auth_OperationID a == auth_OperationID b)
    || (auth_AuthorizationID a == auth_AuthorizationID b);
  t_check a := lower_sha256 (auth_RequestSHA256 a) && lower_sha256 (auth_StateSHA256 a);
  t_touch now a := a |}.

#[export] Instance decisions_table : Table HandoffDecision := {|
  t_name := "billing_handoff_committed_decisions"; t_rows := db_committed_decisions;
  t_put := fun rows db => db <| db_committed_decisions := rows |>;
  t_conflict a b := decision_OperationID a == decision_OperationID b;
  t_check d := lower_sha256 (decision_RequestSHA256 d) && lower_sha256 (decision_AMCommitSHA256 d)
    && (1 <? decision_OwnershipVersion d);
  t_touch now d := d |}.

#[export] Instance settlement_receipts_table : Table SettlementReceipt := {|
  t_name := "billing_handoff_settlement_receipts"; t_rows db := ht_receipts (db_handoff db);
  t_put rows db := db <| db_handoff ::= fun t => t <| ht_receipts := rows |> |>;
  t_conflict a b := (settle_ID a == settle_ID b)
    || ((settle_OperationID a == settle_OperationID b)
        && (settle_OperationVersion a =? settle_OperationVersion b));
  t_check r := (1 <? settle_OperationVersion r) && lower_sha256 (settle_RequestSHA256 r)
    && lower_sha256 (settle_StateSHA256 r) && checkpoint_ok (settle_UsageCheckpointSHA256 r)
    && checkpoint_ok (settle_InvoiceCheckpointSHA256 r)
    && checkpoint_ok (settle_ProviderCheckpointSHA256 r);
  t_touch now r := r |}.

#[export] Instance snapshots_table : Table BalanceSnapshot := {|
  t_name := "billing_handoff_balance_snapshots"; t_rows db := ht_snapshots (db_handoff db);
  t_put rows db := db <| db_handoff ::= fun t => t <| ht_snapshots := rows |> |>;
  t_conflict a b := (snap_OperationID a == snap_OperationID b) && (snap_Version a =? snap_Version b);
  t_check s := (0 <=? snap_BalanceMinor s) && (snap_Currency s == TWD);
  t_touch now s := s |}.

#[export] Instance confirmations_table : Table HandoffConfirmation := {|
  t_name := "billing_handoff_confirmations"; t_rows db := ht_confirmations (db_handoff db);
  t_put rows db := db <| db_handoff ::= fun t => t <| ht_confirmations := rows |> |>;
  t_conflict a b := (confirm_OperationID a == confirm_OperationID b)
    && (confirm_SnapshotVersion a =? confirm_SnapshotVersion b)
    && (confirm_UserID a == confirm_UserID b);
  t_check c := true;
  t_touch now c := c |}.

#[export] Instance finalizations_table : Table HandoffFinalization := {|
  t_name := "billing_handoff_finalizations"; t_rows db := ht_finalizations (db_handoff db);
  t_put rows db := db <| db_handoff ::= fun t => t <| ht_finalizations := rows |> |>;
  t_conflict a b := final_OperationID a == final_OperationID b;
  t_check f := lower_sha256 (final_RequestSHA256 f) && lower_sha256 (final_AMCommitSHA256 f)
    && (1 <? final_OwnershipVersion f);
  t_touch now f := f |}.

#[export] Instance handoff_cancellations_table : Table HandoffCancellation := {|
  t_name := "billing_handoff_cancellations"; t_rows db := ht_cancellations (db_handoff db);
  t_put rows db := db <| db_handoff ::= fun t => t <| ht_cancellations := rows |> |>;
  t_conflict a b := (hcancel_OperationID a == hcancel_OperationID b)
    || (hcancel_CancellationID a == hcancel_CancellationID b);
  t_check c := lower_sha256 (hcancel_RequestSHA256 c) && lower_sha256 (hcancel_AMCancellationSHA256 c);
  t_touch now c := c |}.

#[export] Instance abort_acks_table : Table HandoffAbortAck := {|
  t_name := "billing_handoff_abort_acknowledgments"; t_rows db := ht_abort_acks (db_handoff db);
  t_put rows db := db <| db_handoff ::= fun t => t <| ht_abort_acks := rows |> |>;
  t_conflict a b := abort_OperationID a == abort_OperationID b;
  t_check a := lower_sha256 (abort_HoldReleaseSHA256 a);
  t_touch now a := a |}.

#[export] Instance retired_profiles_table : Table RetiredProfile := {|
  t_name := "billing_retired_profiles"; t_rows db := ht_retired_profiles (db_handoff db);
  t_put rows db := db <| db_handoff ::= fun t => t <| ht_retired_profiles := rows |> |>;
  t_conflict a b := retired_OperationID a == retired_OperationID b;
  t_check r := true;
  t_touch now r := r |}.

(** [billing_profiles] with the constraints of migrations 044 and 051. *)
#[export] Instance profiles_table : Table BillingProfile := {|
  t_name := "billing_profiles"; t_rows := db_profiles;
  t_put := fun rows db => db <| db_profiles := rows |>;
  t_conflict a b := profile_OrganizationID a == profile_OrganizationID b;
  t_check p := (len (profile_TaxIdentifier p) <=? 64)
    && ((profile_ContactEmail p == "") || at_inside (profile_ContactEmail p))
    && not_blank (profile_Locale p) && not_blank (profile_Timezone p)
    && one_of (profile_DeliveryPreference p) ["portal"; "portal_and_email"]
    && (0 <? profile_Version p)
    && match profile_OwnershipVersion p with Some v => 0 <? v | None => true end
    && (if profile_RequiresConfiguration p then
          bool_decide (is_Some (profile_OwnershipVersion p)) && (profile_LegalName p == "")
          && (profile_TaxIdentifier p == "") && (profile_BillingAddress p == "")
          && (profile_ContactEmail p == "") && (profile_DeliveryPreference p == "portal")
        else not_blank (profile_LegalName p));
  t_touch now p := p |}.

(** ** Closures *)

Definition closure_phases : list string := ["preparing"; "closed"; "canceling"; "canceled"].

#[export] Instance closures_table : Table CloudClosure := {|
  t_name := "billing_cloud_closures"; t_rows := db_closures;
  t_put := fun rows db => db <| db_closures := rows |>;
  t_conflict a b := (closure_ID a == closure_ID b)
    || ((closure_AccountID a == closure_AccountID b)
        && (closure_Phase a != "canceled") && (closure_Phase b != "canceled"));
  t_check c := lower_sha256 (closure_AMRequestSHA256 c) && lower_sha256 (closure_RequestSHA256 c)
    && one_of (closure_Phase c) closure_phases && (0 <? closure_Version c);
  t_touch now c := c |}.

#[export] Instance closure_tasks_table : Table ClosureTask := {|
  t_name := "billing_cloud_closure_revocations"; t_rows := db_closure_revocations;
  t_put := fun rows db => db <| db_closure_revocations := rows |>;
  t_conflict a b := a == b;
  t_check t := one_of (task_SubjectType t) ["method"; "setup"];
  t_touch now t := t |}.

#[export] Instance closure_acks_table : Table ClosureAck := {|
  t_name := "billing_cloud_closure_revocation_acks"; t_rows db := ct_acks (db_closure db);
  t_put rows db := db <| db_closure ::= fun t => t <| ct_acks := rows |> |>;
  t_conflict a b := ack_Task a == ack_Task b;
  t_check a := lower_sha256 (ack_ReceiptSHA256 a);
  t_touch now a := a |}.

(** [observed + interval '5 minutes'] *)
Definition expiry_ok (observed expires : Time) : bool :=
  (observed <? expires) && (expires <=? observed + 5 * Minute).

#[export] Instance closure_settlements_table : Table ClosureSettlement := {|
  t_name := "billing_cloud_closure_settlements"; t_rows db := ct_settlements (db_closure db);
  t_put rows db := db <| db_closure ::= fun t => t <| ct_settlements := rows |> |>;
  t_conflict a b := csettle_ID a == csettle_ID b;
  t_check s := lower_sha256 (csettle_RequestSHA256 s) && lower_sha256 (csettle_StateSHA256 s)
    && checkpoint_ok (csettle_UsageCheckpointSHA256 s) && checkpoint_ok (csettle_InvoiceCheckpointSHA256 s)
    && checkpoint_ok (csettle_ProviderCheckpointSHA256 s)
    && (csettle_CoveredThrough s <=? csettle_ObservedAt s)
    && expiry_ok (csettle_ObservedAt s) (csettle_ExpiresAt s);
  t_touch now s := s |}.

#[export] Instance completions_table : Table ClosureCompletion := {|
  t_name := "billing_cloud_closure_completions"; t_rows db := ct_completions (db_closure db);
  t_put rows db := db <| db_closure ::= fun t => t <| ct_completions := rows |> |>;
  t_conflict a b := completion_OperationID a == completion_OperationID b;
  t_check c := lower_sha256 (completion_AMReadinessSHA256 c) && lower_sha256 (completion_RequestSHA256 c)
    && lower_sha256 (completion_ReceiptSHA256 c);
  t_touch now c := c |}.

#[export] Instance closure_cancellations_table : Table ClosureCancellation := {|
  t_name := "billing_cloud_closure_cancellations"; t_rows db := ct_cancellations (db_closure db);
  t_put rows db := db <| db_closure ::= fun t => t <| ct_cancellations := rows |> |>;
  t_conflict a b := (ccancel_OperationID a == ccancel_OperationID b)
    || (ccancel_CancellationID a == ccancel_CancellationID b);
  t_check c := lower_sha256 (ccancel_AMCancellationSHA256 c);
  t_touch now c := c |}.

#[export] Instance closure_releases_table : Table ClosureRelease := {|
  t_name := "billing_cloud_closure_release_acks"; t_rows db := ct_releases (db_closure db);
  t_put rows db := db <| db_closure ::= fun t => t <| ct_releases := rows |> |>;
  t_conflict a b := release_OperationID a == release_OperationID b;
  t_check r := lower_sha256 (release_ReceiptSHA256 r);
  t_touch now r := r |}.

#[export] Instance retired_commands_table : Table RetiredCommand := {|
  t_name := "billing_cloud_closure_retired_commands"; t_rows db := ct_retired (db_closure db);
  t_put rows db := db <| db_closure ::= fun t => t <| ct_retired := rows |> |>;
  t_conflict a b := (rcommand_OperationID a == rcommand_OperationID b)
    && (rcommand_RequestSHA256 a == rcommand_RequestSHA256 b);
  t_check r := lower_sha256 (rcommand_RequestSHA256 r) && lower_sha256 (rcommand_AMReadinessSHA256 r)
    && lower_sha256 (rcommand_ReceiptSHA256 r);
  t_touch now r := r |}.

#[export] Instance access_table : Table AccessState := {|
  t_name := "billing_access_states"; t_rows db := ct_access (db_closure db);
  t_put rows db := db <| db_closure ::= fun t => t <| ct_access := rows |> |>;
  t_conflict a b := access_OrganizationID a == access_OrganizationID b;
  t_check a := one_of (access_State a) ["active"; "read_only"; "suspended"; "closed"]
    && ((access_ReasonCode a == "") || not_blank (access_ReasonCode a)) && (0 <? access_Version a)
    && not_blank (access_UpdatedBy a);
  t_touch now a := a |}.

#[export] Instance creations_table : Table CreationReceipt := {|
  t_name := "billing_cloud_creation_receipts"; t_rows db := ct_creations (db_closure db);
  t_put rows db := db <| db_closure ::= fun t => t <| ct_creations := rows |> |>;
  t_conflict a b := (creation_EventID a == creation_EventID b)
    || (creation_OrganizationID a == creation_OrganizationID b)
    || (creation_AccountID a == creation_AccountID b);
  t_check c := (creation_OwnershipVersion c =? 1) && lower_sha256 (creation_EvidenceSHA256 c);
  t_touch now c := c |}.

#[export] Instance preflights_table : Table PreflightReceipt := {|
  t_name := "billing_cloud_preflight_receipts"; t_rows db := ct_preflights (db_closure db);
  t_put rows db := db <| db_closure ::= fun t => t <| ct_preflights := rows |> |>;
  t_conflict a b := preflight_ID a == preflight_ID b;
  t_check r := (0 <? preflight_OwnershipVersion r) && lower_sha256 (preflight_RequestSHA256 r)
    && lower_sha256 (preflight_StateSHA256 r) && checkpoint_ok (preflight_UsageCheckpointSHA256 r)
    && checkpoint_ok (preflight_InvoiceCheckpointSHA256 r)
    && checkpoint_ok (preflight_ProviderCheckpointSHA256 r)
    && expiry_ok (preflight_ObservedAt r) (preflight_ExpiresAt r);
  t_touch now r := r |}.

(** ** Triggers *)

(** [RAISE EXCEPTION ... USING ERRCODE='23514'] unless the condition holds. *)
Definition raise_unless (ok : Db → bool) : M unit := fun db =>
  if ok db then Ok (tt, db) else Err (ErrPg "23514" "").

(** [EXISTS(SELECT 1 FROM ... WHERE operation_id=...)], by projection. *)
Definition has_row {R} (op : R → string) (rows : list R) (operationID : string) : bool :=
  existsb (fun r => op r == operationID) rows.

(** A stored revocation task that no provider has acknowledged. *)
Definition task_pending (db : Db) (t : ClosureTask) : bool :=
  negb (existsb (fun a => ack_Task a == t) (ct_acks (db_closure db))).
Definition revocations_pending (db : Db) (operationID : string) : bool :=
  existsb (fun t => (task_OperationID t == operationID) && task_pending db t)
    (db_closure_revocations db).

(** The closing time of the closed cloud whose last period this is: trigger
    [closed_cloud_responsibility]. *)
Definition closing_time (db : Db) (periodID : string) : option Time :=
  match find (fun c => (closure_SourcePeriodID c == periodID) && (closure_Phase c == "closed")
                       && has_row completion_OperationID (ct_completions (db_closure db)) (closure_ID c))
          (db_closures db) with
  | Some c => completion_ClosedAt <$> find (fun d => completion_OperationID d == closure_ID c)
                                        (ct_completions (db_closure db))
  | None => None
  end.

Definition period_update_allowed (db : Db) (old new : ResponsibilityPeriod) : bool :=
  match closing_time db (period_ID old) with
  | Some t => bool_decide (period_EffectiveUntil new = Some t)
      && ((new <| period_EffectiveUntil := None |>) == (old <| period_EffectiveUntil := None |>))
  | None => true
  end.

Fixpoint touch_all (accounts : list string) : M unit :=
  match accounts with
  | [] => mret tt
  | a :: accounts => _ ← touch_billing_authority_guard a; touch_all accounts
  end.

(** Triggers [closed_cloud_responsibility] and [responsibility_authority_guard]. *)
Definition update_periods (p : ResponsibilityPeriod → bool)
    (f : ResponsibilityPeriod → ResponsibilityPeriod) : M (list ResponsibilityPeriod) :=
  _ ← closure_barrier (fun db => existsb (fun old => p old && negb (period_update_allowed db old (f old)))
                                   (db_periods db));
  rows ← update_rows p f;
  _ ← touch_all (period_AccountID <$> rows);
  mret rows.

(** Trigger [handoff_authority_guard]; the statement sets the phase of one handoff. *)
Definition update_handoff (operationID : string) (f : OwnershipHandoff → OwnershipHandoff) : M unit :=
  rows ← update_rows (fun h => handoff_ID h == operationID) f;
  touch_all (handoff_AccountID <$> rows).

(** Trigger [cloud_closure_transition] on INSERT, and [cloud_closure_authority_guard]. *)
Definition insert_closure (c : CloudClosure) : M CloudClosure :=
  _ ← raise_unless (fun db => (closure_Phase c == "preparing") && (closure_Version c =? 1)
        && negb (handoff_open db (closure_AccountID c))
        && existsb (fun p => (period_ID p == closure_SourcePeriodID c)
             && bool_decide (period_EffectiveUntil p = None)
             && (period_EffectiveFrom p <=? closure_Cutoff c)) (db_periods db)
        && existsb (fun a => (account_ID a == closure_AccountID c)
             && (account_State a == AccountStateActive)) (db_accounts db));
  c ← insert_row c;
  _ ← touch_billing_authority_guard (closure_AccountID c);
  mret c.

(** The edges of a closure's phase. *)
Definition closure_edge (old new : string) : bool :=
  ((old == "preparing") && one_of new ["closed"; "canceling"])
  || ((old == "canceling") && (new == "canceled")).

(** What [guard_billing_cloud_closure] asks of the new phase. *)
Definition closure_phase_evidence (db : Db) (operationID phase : string) : bool :=
  let completed := has_row completion_OperationID (ct_completions (db_closure db)) operationID in
  negb ((phase == "closed") && negb completed)
  && negb (one_of phase ["canceling"; "canceled"]
           && (completed || negb (has_row ccancel_OperationID (ct_cancellations (db_closure db)) operationID)))
  && negb ((phase == "canceled")
           && (negb (has_row release_OperationID (ct_releases (db_closure db)) operationID)
               || revocations_pending db operationID)).

(** [UPDATE billing_cloud_closures SET phase=..., version=version+1 ... RETURNING ...] *)
Definition set_closure_phase (operationID phase : string) : M CloudClosure :=
  old ← select (fun c => closure_ID c == operationID);
  _ ← raise_unless (fun db => closure_edge (closure_Phase old) phase
                              && closure_phase_evidence db operationID phase);
  c ← update_one (fun c => closure_ID c == operationID)
        (fun c => c <| closure_Phase := phase |> <| closure_Version ::= Z.succ |>);
  _ ← touch_billing_authority_guard (closure_AccountID c);
  mret c.

(** Trigger [retired_cloud_closure_completion]. *)
Definition insert_completion (c : ClosureCompletion) : M ClosureCompletion :=
  _ ← raise_unless (fun db => negb (existsb (fun r =>
        (rcommand_OperationID r == completion_OperationID c)
        && (rcommand_RequestSHA256 r == completion_RequestSHA256 c)) (ct_retired (db_closure db))));
  insert_row c.

(** Trigger [cloud_closure_retirement_guard]. *)
Definition insert_retired (r : RetiredCommand) : M RetiredCommand :=
  _ ← raise_unless (fun db =>
        negb (has_row completion_OperationID (ct_completions (db_closure db)) (rcommand_OperationID r))
        && existsb (fun c => (closure_ID c == rcommand_OperationID r) && (closure_Phase c == "preparing"))
             (db_closures db));
  insert_row r.

(** Trigger [closed_cloud_access]: once its cloud is closed, an access state stays so. *)
Definition access_barrier (organizationID state : string) : M unit :=
  closure_barrier (fun db =>
    match find (fun a => (account_OrganizationID a == organizationID) && (account_Currency a == TWD))
            (db_accounts db) with
    | Some a => closure_closed db (account_ID a) && (state != "closed")
    | None => false
    end).

(** The deferred trigger [cloud_closure_completion_consistency], run at COMMIT. *)
Definition completion_consistent (db : Db) (done : ClosureCompletion) : bool :=
  existsb (fun c => (closure_ID c == completion_OperationID done) && (closure_Phase c == "closed")
    && existsb (fun a => (account_ID a == closure_AccountID c) && (account_State a == "closed")
         && (account_AvailableBalanceMinor a =? 0)
         && existsb (fun p => (period_ID p == closure_SourcePeriodID c)
              && bool_decide (period_EffectiveUntil p = Some (completion_ClosedAt done))) (db_periods db)
         && existsb (fun b => (access_OrganizationID b == account_OrganizationID a)
              && (access_State b == "closed")) (ct_access (db_closure db))
         && negb (existsb (fun m => (method_AccountID (mrow_method m) == account_ID a)
              && (method_Status (mrow_method m) != "revoked")) (db_methods db))
         && negb (existsb (fun k => (consent_AccountID k == account_ID a)
              && bool_decide (consent_RevokedAt k = None)) (db_consents db))
         && negb (existsb (fun p => (policy_AccountID p == account_ID a)
              && (policy_Enabled p || policy_Armed p)) (db_policies db))
         && negb (revocations_pending db (closure_ID c))
         && negb (existsb (fun m => (method_AccountID (mrow_method m) == account_ID a)
              && negb (existsb (fun t => t == mkClosureTask (closure_ID c) "method" (method_ID (mrow_method m)))
                         (db_closure_revocations db))) (db_methods db))) (db_accounts db))
    (db_closures db).

(** ** What the statements leave alone *)
Class Touches (R : relation Db) := touches : ∀ accountID, keeps R (touch_billing_authority_guard accountID).
#[export] Instance Skips_touches R `{!Frame R, !Skips R CommercialAccount} : Touches R.
Proof. intros accountID. unfold touch_billing_authority_guard. keeps. Qed.
#[export] Existing Instance touches.

Section protocol_frames.
Context (R : relation Db) `{!Frame R, !Touches R}.

Lemma keeps_raise_unless ok : keeps R (raise_unless ok).
Proof. intros db u db' H. unfold raise_unless in H. destruct (ok db); [by injection H as _ <-|done]. Qed.
Lemma keeps_access_barrier o s : keeps R (access_barrier o s).
Proof. unfold access_barrier, closure_barrier. keeps. Qed.
Lemma keeps_touch_all accounts : keeps R (touch_all accounts).
Proof. induction accounts; simpl; keeps. Qed.
#[local] Existing Instances keeps_raise_unless keeps_touch_all.

Lemma keeps_insert_period p `{!Skips R ResponsibilityPeriod} : keeps R (insert_period p).
Proof. unfold insert_period, closure_barrier. keeps. Qed.
Lemma keeps_update_periods p f `{!Skips R ResponsibilityPeriod} : keeps R (update_periods p f).
Proof. unfold update_periods, closure_barrier. keeps. Qed.
Lemma keeps_insert_handoff h `{!Skips R OwnershipHandoff} : keeps R (insert_handoff h).
Proof. unfold insert_handoff, closure_barrier. keeps. Qed.
Lemma keeps_update_handoff id f `{!Skips R OwnershipHandoff} : keeps R (update_handoff id f).
Proof. unfold update_handoff. keeps. Qed.
Lemma keeps_insert_closure c `{!Skips R CloudClosure} : keeps R (insert_closure c).
Proof. unfold insert_closure. keeps. Qed.
Lemma keeps_set_closure_phase id phase `{!Skips R CloudClosure} : keeps R (set_closure_phase id phase).
Proof. unfold set_closure_phase. keeps. Qed.
Lemma keeps_insert_completion c `{!Skips R ClosureCompletion} : keeps R (insert_completion c).
Proof. unfold insert_completion. keeps. Qed.
Lemma keeps_insert_retired r `{!Skips R RetiredCommand} : keeps R (insert_retired r).
Proof. unfold insert_retired. keeps. Qed.
End protocol_frames.

#[export] Existing Instances keeps_raise_unless keeps_access_barrier keeps_touch_all keeps_insert_period
  keeps_update_periods keeps_insert_handoff keeps_update_handoff keeps_insert_closure
  keeps_set_closure_phase keeps_insert_completion keeps_insert_retired.
