(* ===== verification/Settlement.v ===== *)
(** * Settlement state and handoff settlement: [internal/paymentstore/handoff_settlement.go]

    The local financial state of an account and its digest; the receipts of the trusted
    collector, the balance snapshot that the two participants of a handoff confirm, and
    the live status every preview and confirmation is derived from. *)
From S2P Require Import Prelude GoStrings GoTime BillingTypes Evidence PaymentTypes Payment Database.
From S2P Require Import Tables Keeps Fixtures Accounts Setups Handoff Protocols.

Record HandoffScope := mkHandoffScope {
  hscope_OrganizationID : string;
  hscope_OperationID : string;
  hscope_OwnershipVersion : Z
}.

Record SettlementState := mkSettlementState {
  state_SHA256 : string;
  state_Financial : FinancialEvidence
}.

Record RecordSettlementInput := mkRecordSettlementInput {
  record_Scope : HandoffScope;
  record_ReceiptID : string;
  record_StateSHA256 : string;
  record_UsageCheckpointSHA256 : string;
  record_InvoiceCheckpointSHA256 : string;
  record_ProviderCheckpointSHA256 : string;
  record_Financial : FinancialEvidence
}.

Record HandoffBalanceSnapshot := mkHandoffBalanceSnapshot {
  hsnap_Version : Z;
  hsnap_BalanceMinor : Z;
  hsnap_Currency : Currency;
  hsnap_Cutoff : Time;
  hsnap_SourceConfirmed : bool;
  hsnap_TargetConfirmed : bool
}.
#[export] Instance HandoffBalanceSnapshot_eta : Eta HandoffBalanceSnapshot := fun s => {|
  hsnap_Version := hsnap_Version s; hsnap_BalanceMinor := hsnap_BalanceMinor s;
  hsnap_Currency := hsnap_Currency s; hsnap_Cutoff := hsnap_Cutoff s;
  hsnap_SourceConfirmed := hsnap_SourceConfirmed s; hsnap_TargetConfirmed := hsnap_TargetConfirmed s |}.

Record HandoffSettlementStatus := mkHandoffSettlementStatus {
  status_OperationID : string;
  status_Phase : string;
  status_Snapshot : option HandoffBalanceSnapshot;
  status_Blockers : list string
}.

(** ** The local financial state *)

(** [ORDER BY id], and by a second text. *)
Definition by_id {R} (id : R → string) (rows : list R) : list R :=
  sort_stable (fun a b => String.ltb (id a) (id b)) rows.

Section capture.
Context (db : Db) (accountID organizationID : string).

Definition own_usage : list UsageRow :=
  filter (fun u => fact_OrganizationID (urow_Fact u) = organizationID) (bt_usage (db_billing db)).
Definition own_periods : list BillingPeriod :=
  filter (fun p => bperiod_OrganizationID p = organizationID) (bt_periods (db_billing db)).
Definition own_invoices : list Invoice :=
  filter (fun i => inv_AccountID i = accountID) (bt_invoices (db_billing db)).
Definition own_links : list SettlementLink :=
  filter (fun l => existsb (fun i => inv_ID i == link_InvoiceID l) own_invoices = true)
    (bt_links (db_billing db)).
Definition own_intents : list PaymentIntent := filter (fun i => intent_AccountID i = accountID) (db_intents db).
Definition own_intent (intentID : string) : bool := existsb (fun i => intent_ID i == intentID) own_intents.
Definition own_jobs : list ReconciliationJob := filter (fun j => own_intent (job_IntentID j) = true) (db_jobs db).
Definition own_attempts : list PaymentAttempt :=
  filter (fun a => own_intent (attempt_IntentID a) = true) (db_attempts db).
Definition own_setups : list PaymentMethodSetupSession :=
  filter (fun s => setup_AccountID s = accountID) (db_setups db).
Definition own_observations : list SetupObservation :=
  filter (fun o => existsb (fun s => setup_ID s == observation_SessionID o) own_setups = true)
    (db_observations db).
Definition own_webhooks : list WebhookReceipt :=
  filter (fun w => own_intent (receipt_IntentID w) = true) (db_receipts db).

(** Events under review that have not been allocated. *)
Definition unresolved_reversals : list (string * string * string) :=
  e ← by_id event_ID (filter (fun e => event_AccountID e = accountID) (db_reversals db));
  r ← filter (fun r => review_EventID r = event_ID e) (db_reviews db);
  if existsb (fun a => alloc_EventID a == event_ID e) (db_allocations db) then []
  else [(event_ID e, event_RequestSHA256 e, review_ReasonCode r)].

(** The intents with work left: [open_payment_intents], a UNION without duplicates. *)
Definition open_payment_intents : list string :=
  remove_dups ((intent_ID <$> filter (fun i => intent_open i = true) own_intents)
    ++ (job_IntentID <$> filter (fun j => job_Status j ≠ ReconciliationStatusCompleted) own_jobs)
    ++ (attempt_IntentID <$> filter (fun a => attempt_CompletedAt a = None) own_attempts)
    ++ (receipt_IntentID <$> filter (fun w => receipt_ProcessingState w ≠ "processed") own_webhooks)).

(** An invoice that is neither void nor settled with its ledger entry. *)
Definition invoice_unpaid (i : Invoice) : bool :=
  (inv_State i != InvoiceStateVoid)
  && ((inv_State i != InvoiceStateSettled)
      || ((0 <? inv_TotalMinor i)
          && negb (existsb (fun l => (link_InvoiceID l == inv_ID i) && (link_State l == "posted")
                                     && (link_LedgerEntryID l != "")) own_links))).

Definition count {R} (p : R → bool) (rows : list R) : Z := Z.of_nat (length (filter (fun r => p r = true) rows)).
End capture.

Definition settlement_view (db : Db) (account : CommercialAccount) : SettlementView :=
  let a := account_ID account in
  let org := account_OrganizationID account in {|
  view_account := (a, account_AvailableBalanceMinor account, account_Version account,
                   account_Currency account, account_State account);
  view_usage := by_id (fun u => fact_ID (urow_Fact u)) (own_usage db org);
  view_periods := (fun p => (bperiod_ID p, bperiod_State p, bperiod_Version p, bperiod_Start p,
      bperiod_End p, bperiod_UsageLockedAt p, bperiod_ClosedAt p, bperiod_PricingVersionID p))
    <$> by_id bperiod_ID (own_periods db org);
  view_invoices := (fun i => (inv_ID i, inv_State i, inv_Version i, inv_TotalMinor i,
      inv_AmountDueMinor i, inv_AmountSettledMinor i, inv_PeriodID i)) <$> by_id inv_ID (own_invoices db a);
  view_settlements := (fun l => (link_InvoiceID l, link_LedgerEntryID l, link_State l, link_AttemptCount l))
    <$> by_id link_InvoiceID (own_links db a);
  view_intents := (fun i => (intent_ID i, intent_State i, intent_AmountMinor i, intent_Currency i,
      intent_UpdatedAt i)) <$> by_id intent_ID (own_intents db a);
  view_jobs := (fun j => (job_ID j, job_IntentID j, job_Reason j, job_Status j))
    <$> by_id job_ID (own_jobs db a);
  view_attempts := (fun t => (attempt_ID t, attempt_IntentID t, attempt_Operation t,
      attempt_NormalizedResult t, attempt_CompletedAt t)) <$> by_id attempt_ID (own_attempts db a);
  view_setups := (fun s => (setup_ID s, setup_State s, setup_InvalidatedByHandoff s, setup_UpdatedAt s))
    <$> by_id setup_ID (own_setups db a);
  view_observations := (fun o => (observation_SessionID o, observation_ResultSHA256 o))
    <$> by_id observation_SessionID (by_id observation_ResultSHA256 (own_observations db a));
  view_webhooks := (fun w => (receipt_ID w, receipt_IntentID w, receipt_ProcessingState w,
      receipt_PayloadSHA256 w)) <$> by_id receipt_ID (own_webhooks db a);
  view_unresolved := unresolved_reversals db a |}.

(** The counts of the same statement; [sum(amount_due_minor)::bigint] is checked apart. *)
Definition debt (db : Db) (accountID : string) : Z :=
  sum_by inv_AmountDueMinor (filter (fun i => inv_State i ≠ InvoiceStateVoid) (own_invoices db accountID)).

Definition local_evidence (db : Db) (account : CommercialAccount) : FinancialEvidence :=
  let a := account_ID account in {|
  ev_BalanceKnown := true; ev_Currency := account_Currency account;
  ev_BalanceMinor := account_AvailableBalanceMinor account;
  ev_UsageSettled := false; ev_InvoicesReconciled := false; ev_ProviderWorkReconciled := false;
  ev_UnpaidInvoiceCount := count (invoice_unpaid db a) (own_invoices db a);
  ev_DebtMinor := debt db a;
  ev_PendingPaymentCount := Z.of_nat (length (open_payment_intents db a));
  ev_PendingRefundCount := count (fun j => (job_Reason j == ReconciliationReasonRefund)
      && (job_Status j != ReconciliationStatusCompleted)) (own_jobs db a);
  ev_OpenDisputeCount := 0;
  ev_PendingSetupCount := count (fun s => one_of (setup_State s) ["created"; "requires_action"; "unknown"])
                            (own_setups db a);
  ev_UnresolvedProviderEventCount := Z.of_nat (length (unresolved_reversals db a)) |}.

Section settlement.
Context {pg : Postgres} {dg : Digest}.

Definition captureSettlementStateTx (account : CommercialAccount) : M SettlementState := fun db =>
  let d := debt db (account_ID account) in
  if (minInt64 <=? d) && (d <=? maxInt64) then
    Ok (mkSettlementState (settlement_sha256 (settlement_view db account)) (local_evidence db account), db)
  else Err (ErrPg "22003" "").

Definition mergeSettlementEvidence (external local : FinancialEvidence) : FinancialEvidence := {|
  ev_BalanceKnown := ev_BalanceKnown local; ev_Currency := ev_Currency local;
  ev_BalanceMinor := ev_BalanceMinor local; ev_UsageSettled := ev_UsageSettled external;
  ev_InvoicesReconciled := ev_InvoicesReconciled external;
  ev_ProviderWorkReconciled := ev_ProviderWorkReconciled external;
  ev_UnpaidInvoiceCount := Z.max (ev_UnpaidInvoiceCount external) (ev_UnpaidInvoiceCount local);
  ev_DebtMinor := Z.max (ev_DebtMinor external) (ev_DebtMinor local);
  ev_PendingPaymentCount := Z.max (ev_PendingPaymentCount external) (ev_PendingPaymentCount local);
  ev_PendingRefundCount := Z.max (ev_PendingRefundCount external) (ev_PendingRefundCount local);
  ev_OpenDisputeCount := ev_OpenDisputeCount external;
  ev_PendingSetupCount := Z.max (ev_PendingSetupCount external) (ev_PendingSetupCount local);
  ev_UnresolvedProviderEventCount :=
    Z.max (ev_UnresolvedProviderEventCount external) (ev_UnresolvedProviderEventCount local) |}.

(** The zero value of the struct, merged with when no receipt is found. *)
Definition zeroEvidence : FinancialEvidence := mkFinancialEvidence false "" 0 false false false 0 0 0 0 0 0 0.

Definition validCheckpoint (complete : bool) (digest : string) : bool :=
  if digest == "" then negb complete else validLowerSHA256 digest.

Definition evidence_values (f : FinancialEvidence) : list Z :=
  [ev_UnpaidInvoiceCount f; ev_DebtMinor f; ev_PendingPaymentCount f; ev_PendingRefundCount f;
   ev_OpenDisputeCount f; ev_PendingSetupCount f; ev_UnresolvedProviderEventCount f].

(** ** Scopes *)

Definition validHandoffScope (scope : HandoffScope) : bool :=
  canonicalUUID (hscope_OrganizationID scope) && canonicalUUID (hscope_OperationID scope)
  && (0 <? hscope_OwnershipVersion scope).

Definition lockHandoffOperationTx (scope : HandoffScope) : M (CommercialAccount * OwnershipHandoff) :=
  account ← scan (select (by_organization (hscope_OrganizationID scope) Settlement));
  op ← scan (select (fun h => (handoff_ID h == hscope_OperationID scope)
                              && (handoff_AccountID h == account_ID account)));
  _ ← require_that (handoff_OwnershipVersion op =? hscope_OwnershipVersion scope) ErrOwnershipVersionConflict;
  mret (account, op).

(** The source still holds the open period of the account, at the handoff's version. *)
Definition source_responsible (op : OwnershipHandoff) (accountID : string) (p : ResponsibilityPeriod) : bool :=
  (period_AccountID p == accountID) && (period_OwnerUserID p == handoff_SourceUserID op)
  && (period_OwnershipVersion p =? handoff_OwnershipVersion op)
  && bool_decide (period_EffectiveUntil p = None).

Definition requireSourceResponsibilityTx (account : CommercialAccount) (op : OwnershipHandoff) : M unit :=
  current ← exists_row (source_responsible op (account_ID account));
  require_that current ErrOwnershipVersionConflict.

Definition loadHandoffScopeTx (scope : HandoffScope) : M (CommercialAccount * OwnershipHandoff) :=
  '(account, op) ← lockHandoffOperationTx scope;
  _ ← requireSourceResponsibilityTx account op;
  mret (account, op).

Definition collecting (op : OwnershipHandoff) : bool := one_of (handoff_Phase op) ["preparing"; "prepared"].

Definition CaptureHandoffSettlementState (scope : HandoffScope) : M SettlementState :=
  _ ← require_that (validHandoffScope scope) ErrConflict;
  withTx ('(account, op) ← loadHandoffScopeTx scope;
          _ ← require_that (collecting op) ErrConflict;
          state ← captureSettlementStateTx account;
          mret (RolledBack state)).

(** ** The live status *)

Definition closed_blocker (account : CommercialAccount) : list string :=
  block_if (account_State account == AccountStateClosed) "account_closed".

(** The receipt of the operation's current version, if any. *)
Definition current_receipt (op : OwnershipHandoff) (r : SettlementReceipt) : bool :=
  (settle_OperationID r == handoff_ID op) && (settle_OperationVersion r =? handoff_Version op).

Definition status_blockers (account : CommercialAccount) (local : SettlementState)
    (receipt : option SettlementReceipt) : list string :=
  match receipt with
  | None => ["settlement_evidence_missing"]
  | Some r => block_if (settle_StateSHA256 r != state_SHA256 local) "settlement_evidence_stale"
  end
  ++ OwnershipTransferBlockers (mergeSettlementEvidence
       (default zeroEvidence (settle_Evidence <$> receipt)) (state_Financial local))
  ++ closed_blocker account.

Definition confirmed_by (db : Db) (operationID userID : string) (version : Z) : bool :=
  existsb (fun c => (confirm_OperationID c == operationID) && (confirm_SnapshotVersion c =? version)
                    && (confirm_UserID c == userID)) (ht_confirmations (db_handoff db)).

Definition handoffSettlementStatusTx (account : CommercialAccount) (op : OwnershipHandoff) :
    M HandoffSettlementStatus :=
  if negb (collecting op) then
    mret (mkHandoffSettlementStatus (handoff_ID op) (handoff_Phase op) None ["handoff_not_confirmable"])
  else
    local ← captureSettlementStateTx account;
    receipt ← gets (fun db => find (current_receipt op) (ht_receipts (db_handoff db)));
    match status_blockers account local receipt with
    | [] =>
        row ← scan (select (fun s => (snap_OperationID s == handoff_ID op)
                                     && (snap_Version s =? handoff_Version op)));
        source ← gets (fun db => confirmed_by db (handoff_ID op) (handoff_SourceUserID op) (handoff_Version op));
        target ← gets (fun db => confirmed_by db (handoff_ID op) (handoff_TargetUserID op) (handoff_Version op));
        mret (mkHandoffSettlementStatus (handoff_ID op) (handoff_Phase op)
          (Some (mkHandoffBalanceSnapshot (snap_Version row) (snap_BalanceMinor row) (snap_Currency row)
            (snap_Cutoff row) source target)) [])
    | blockers => mret (mkHandoffSettlementStatus (handoff_ID op) "preparing" None blockers)
    end.

Definition GetHandoffSettlementStatus (scope : HandoffScope) : M HandoffSettlementStatus :=
  _ ← require_that (validHandoffScope scope) ErrConflict;
  withTx ('(account, op) ← loadHandoffScopeTx scope;
          status ← handoffSettlementStatusTx account op;
          mret (RolledBack status)).

(** ** Recording collector evidence *)

Definition scope_json (scope : HandoffScope) : json_value :=
  JObject [("OrganizationID", JString (hscope_OrganizationID scope));
    ("OperationID", JString (hscope_OperationID scope));
    ("OwnershipVersion", JNumber (hscope_OwnershipVersion scope))].

Definition evidence_json (f : FinancialEvidence) : json_value :=
  JObject [("BalanceKnown", JBool (ev_BalanceKnown f)); ("Currency", JString (ev_Currency f));
    ("BalanceMinor", JNumber (ev_BalanceMinor f)); ("UsageSettled", JBool (ev_UsageSettled f));
    ("InvoicesReconciled", JBool (ev_InvoicesReconciled f));
    ("ProviderWorkReconciled", JBool (ev_ProviderWorkReconciled f));
    ("UnpaidInvoiceCount", JNumber (ev_UnpaidInvoiceCount f)); ("DebtMinor", JNumber (ev_DebtMinor f));
    ("PendingPaymentCount", JNumber (ev_PendingPaymentCount f));
    ("PendingRefundCount", JNumber (ev_PendingRefundCount f));
    ("OpenDisputeCount", JNumber (ev_OpenDisputeCount f));
    ("PendingSetupCount", JNumber (ev_PendingSetupCount f));
    ("UnresolvedProviderEventCount", JNumber (ev_UnresolvedProviderEventCount f))].

Definition settlement_request_digest (in_ : RecordSettlementInput) : string :=
  handoffDigest [("Scope", scope_json (record_Scope in_)); ("ReceiptID", JString (record_ReceiptID in_));
    ("StateSHA256", JString (record_StateSHA256 in_));
    ("UsageCheckpointSHA256", JString (record_UsageCheckpointSHA256 in_));
    ("InvoiceCheckpointSHA256", JString (record_InvoiceCheckpointSHA256 in_));
    ("ProviderCheckpointSHA256", JString (record_ProviderCheckpointSHA256 in_));
    ("Financial", evidence_json (record_Financial in_))].

(** The collector names this exact balance as well as the digest. *)
Definition same_balance (external local : FinancialEvidence) : bool :=
  ev_BalanceKnown external && (ev_BalanceMinor external =? ev_BalanceMinor local)
  && (ev_Currency external == ev_Currency local).

(** The operation at its next version, prepared if nothing blocks. *)
Definition next_settlement (op : OwnershipHandoff) (blockers : list string) : OwnershipHandoff :=
  op <| handoff_Version ::= Z.succ |>
     <| handoff_Phase := match blockers with [] => "prepared" | _ => "preparing" end |>.

Definition settlement_receipt (op : OwnershipHandoff) (in_ : RecordSettlementInput) (digest : string)
    (evidence : FinancialEvidence) : SettlementReceipt :=
  mkSettlementReceipt (record_ReceiptID in_) (handoff_ID op) (handoff_Version op) digest
    (record_StateSHA256 in_) (record_UsageCheckpointSHA256 in_) (record_InvoiceCheckpointSHA256 in_)
    (record_ProviderCheckpointSHA256 in_) evidence.

Definition recordHandoffSettlementTx (in_ : RecordSettlementInput) (digest : string) :
    M (Outcome HandoffSettlementStatus) :=
  '(account, op) ← loadHandoffScopeTx (record_Scope in_);
  existing ← try_err ErrNoRows (select (fun r => settle_ID r == record_ReceiptID in_));
  match existing with
  | Some r =>
      _ ← require_that (settle_RequestSHA256 r == digest) ErrIdempotencyConflict;
      status ← handoffSettlementStatusTx account op;
      mret (RolledBack status)
  | None =>
      _ ← require_that (collecting op) ErrConflict;
      state ← captureSettlementStateTx account;
      _ ← require_that (state_SHA256 state == record_StateSHA256 in_) ErrSettlementEvidenceStale;
      _ ← require_that (same_balance (record_Financial in_) (state_Financial state))
            ErrSettlementEvidenceStale;
      let evidence := mergeSettlementEvidence (record_Financial in_) (state_Financial state) in
      let blockers := OwnershipTransferBlockers evidence ++ closed_blocker account in
      let op := next_settlement op blockers in
      _ ← on_duplicate ErrIdempotencyConflict (insert_row (settlement_receipt op in_ digest evidence));
      _ ← update_handoff (handoff_ID op) (fun h => h <| handoff_Phase := handoff_Phase op |>
                                                    <| handoff_Version := handoff_Version op |>);
      _ ← match blockers with
          | [] => _ ← insert_row (mkBalanceSnapshot (handoff_ID op) (handoff_Version op)
                    (record_ReceiptID in_) (ev_BalanceMinor evidence) (ev_Currency evidence)
                    (handoff_Cutoff op)); mret tt
          | _ => mret tt
          end;
      status ← handoffSettlementStatusTx account op;
      mret (Committed status)
  end.

Definition RecordHandoffSettlement (in_ : RecordSettlementInput) : M HandoffSettlementStatus :=
  let f := record_Financial in_ in
  _ ← require_that (negb (negb (validHandoffScope (record_Scope in_))
         || negb (canonicalUUID (record_ReceiptID in_)) || negb (validLowerSHA256 (record_StateSHA256 in_))
         || negb (validCheckpoint (ev_UsageSettled f) (record_UsageCheckpointSHA256 in_))
         || negb (validCheckpoint (ev_InvoicesReconciled f) (record_InvoiceCheckpointSHA256 in_))
         || negb (validCheckpoint (ev_ProviderWorkReconciled f) (record_ProviderCheckpointSHA256 in_))))
        ErrConflict;
  _ ← require_that (forallb (Z.leb 0) (evidence_values f)) ErrConflict;
  withTx (recordHandoffSettlementTx in_ (settlement_request_digest in_)).

(** ** Confirming a snapshot *)

Record ConfirmHandoffSnapshotInput := mkConfirmHandoffSnapshotInput {
  confirmin_Scope : HandoffScope;
  confirmin_UserID : string;
  confirmin_SnapshotVersion : Z;
  confirmin_BalanceMinor : Z;
  confirmin_Currency : Currency
}.

Definition snapshot_matches (in_ : ConfirmHandoffSnapshotInput) (snapshot : option HandoffBalanceSnapshot) :
    bool :=
  match snapshot with
  | Some s => (hsnap_Version s =? confirmin_SnapshotVersion in_)
      && (hsnap_BalanceMinor s =? confirmin_BalanceMinor in_) && (hsnap_Currency s == confirmin_Currency in_)
  | None => false
  end.

(** [ON CONFLICT DO NOTHING] without a target: any unique index. *)
Definition insert_if_absent {R} `{!Table R} (r : R) : M unit :=
  _ ← try_err ErrNoRows (insert_or_nothing t_conflict r); mret tt.

Definition confirm_status (in_ : ConfirmHandoffSnapshotInput) (op : OwnershipHandoff)
    (status : HandoffSettlementStatus) : HandoffSettlementStatus :=
  mkHandoffSettlementStatus (status_OperationID status) (status_Phase status)
    ((fun s => s <| hsnap_SourceConfirmed ::= orb (confirmin_UserID in_ == handoff_SourceUserID op) |>
                 <| hsnap_TargetConfirmed ::= orb (confirmin_UserID in_ == handoff_TargetUserID op) |>)
       <$> status_Snapshot status) (status_Blockers status).

Definition ConfirmHandoffSnapshot (in_ : ConfirmHandoffSnapshotInput) : M HandoffSettlementStatus :=
  _ ← require_that (negb (negb (validHandoffScope (confirmin_Scope in_))
         || negb (canonicalUUID (confirmin_UserID in_)) || (confirmin_SnapshotVersion in_ <? 2)
         || (confirmin_BalanceMinor in_ <? 0) || negb (CanSettle (confirmin_Currency in_)))) ErrConflict;
  withTx (
    '(account, op) ← loadHandoffScopeTx (confirmin_Scope in_);
    _ ← require_that (negb ((confirmin_UserID in_ != handoff_SourceUserID op)
           && (confirmin_UserID in_ != handoff_TargetUserID op))) ErrHandoffParticipant;
    status ← handoffSettlementStatusTx account op;
    _ ← require_that (snapshot_matches in_ (status_Snapshot status)) ErrHandoffNotConfirmable;
    _ ← insert_if_absent (mkHandoffConfirmation (handoff_ID op) (confirmin_SnapshotVersion in_)
          (confirmin_UserID in_));
    mret (Committed (confirm_status in_ op status))).
End settlement.

(** ** What the operations leave alone *)
Section settlement_frames.
Context {pg : Postgres} {dg : Digest} (R : relation Db) `{!Frame R}.

Lemma keeps_captureSettlementStateTx account : keeps R (captureSettlementStateTx account).
Proof.
  intros db s db' H. unfold captureSettlementStateTx in H. cbv zeta in H.
  case_match; [by injection H as _ <-|done].
Qed.
Lemma keeps_loadHandoffScopeTx scope : keeps R (loadHandoffScopeTx scope).
Proof. unfold loadHandoffScopeTx, lockHandoffOperationTx, requireSourceResponsibilityTx. keeps. Qed.
Lemma keeps_lockHandoffOperationTx scope : keeps R (lockHandoffOperationTx scope).
Proof. unfold lockHandoffOperationTx. keeps. Qed.
Lemma keeps_requireSourceResponsibilityTx account op : keeps R (requireSourceResponsibilityTx account op).
Proof. unfold requireSourceResponsibilityTx. keeps. Qed.
#[local] Existing Instances keeps_captureSettlementStateTx keeps_loadHandoffScopeTx.
Lemma keeps_handoffSettlementStatusTx account op : keeps R (handoffSettlementStatusTx account op).
Proof. unfold handoffSettlementStatusTx. keeps. Qed.
#[local] Existing Instance keeps_handoffSettlementStatusTx.

Lemma keeps_RecordHandoffSettlement in_
    `{!Touches R, !Skips R OwnershipHandoff, !Skips R SettlementReceipt, !Skips R BalanceSnapshot} :
  keeps R (RecordHandoffSettlement in_).
Proof. unfold RecordHandoffSettlement, recordHandoffSettlementTx. keeps. Qed.
Lemma keeps_ConfirmHandoffSnapshot in_ `{!Skips R HandoffConfirmation} : keeps R (ConfirmHandoffSnapshot in_).
Proof. unfold ConfirmHandoffSnapshot, insert_if_absent. keeps. Qed.
End settlement_frames.

#[export] Existing Instances keeps_captureSettlementStateTx keeps_loadHandoffScopeTx
  keeps_lockHandoffOperationTx keeps_requireSourceResponsibilityTx keeps_handoffSettlementStatusTx
  keeps_RecordHandoffSettlement keeps_ConfirmHandoffSnapshot.
