(* ===== verification/HandoffCommit.v ===== *)
(** * The commit protocol of a handoff: [internal/paymentstore/handoff_commit.go]

    The grant to commit an ownership, the recorded decision of the Account Manager, the
    switch of the responsibility period, and the abort of a handoff that was not
    committed.  The audit row each of them writes is not modelled. *)
From S2P Require Import Prelude GoStrings GoTime BillingTypes Evidence PaymentTypes Payment Database.
From S2P Require Import Tables Keeps Fixtures Accounts Customer Setups Handoff Protocols Settlement.

Record AuthorizeHandoffCommitInput := mkAuthorizeHandoffCommitInput {
  authin_Scope : HandoffScope;
  authin_AuthorizationID : string;
  authin_SnapshotVersion : Z
}.

Record FinalizeHandoffInput := mkFinalizeHandoffInput {
  finalin_Scope : HandoffScope;
  finalin_AuthorizationID : string;
  finalin_CommittedOwnerUserID : string;
  finalin_CommittedOwnershipVersion : Z;
  finalin_CommittedAt : Time;
  finalin_AMCommitSHA256 : string
}.

Record HandoffProtocolAck := mkHandoffProtocolAck {
  hack_OperationID : string;
  hack_Phase : string
}.

Record BeginHandoffAbortInput := mkBeginHandoffAbortInput {
  abortin_Scope : HandoffScope;
  abortin_CancellationID : string;
  abortin_AMCancellationSHA256 : string;
  abortin_AuthorizationID : string
}.

Record CompleteHandoffAbortInput := mkCompleteHandoffAbortInput {
  completein_Scope : HandoffScope;
  completein_CancellationID : string;
  completein_HoldReleaseSHA256 : string
}.

(** [SET phase=..., version=version+1] *)
Definition advance (phase : string) (h : OwnershipHandoff) : OwnershipHandoff :=
  h <| handoff_Phase := phase |> <| handoff_Version ::= Z.succ |>.

Section commit.
Context {pg : Postgres} {dg : Digest}.

Definition getCommitAuthorization (operationID : string) : M HandoffCommitAuthorization :=
  scan (select (fun a => auth_OperationID a == operationID)).

(** ** Authorization *)

Definition authorize_digest (in_ : AuthorizeHandoffCommitInput) : string :=
  handoffDigest [("Scope", scope_json (authin_Scope in_));
    ("AuthorizationID", JString (authin_AuthorizationID in_));
    ("SnapshotVersion", JNumber (authin_SnapshotVersion in_))].

(** Both participants have confirmed the snapshot of this version. *)
Definition confirmed_snapshot (version : Z) (snapshot : option HandoffBalanceSnapshot) : bool :=
  match snapshot with
  | Some s => (hsnap_Version s =? version) && hsnap_SourceConfirmed s && hsnap_TargetConfirmed s
  | None => false
  end.

Definition authorizeHandoffCommitTx (in_ : AuthorizeHandoffCommitInput) (digest : string) :
    M (Outcome HandoffCommitAuthorization) :=
  '(account, op) ← loadHandoffScopeTx (authin_Scope in_);
  prior ← try_err ErrNotFound (getCommitAuthorization (handoff_ID op));
  match prior with
  | Some grant =>
      _ ← require_that (auth_RequestSHA256 grant == digest) ErrIdempotencyConflict;
      _ ← require_that (handoff_Phase op == "commit_authorized") ErrConflict;
      state ← captureSettlementStateTx account;
      _ ← require_that (state_SHA256 state == auth_StateSHA256 grant) ErrSettlementEvidenceStale;
      mret (RolledBack grant)
  | None =>
      status ← handoffSettlementStatusTx account op;
      _ ← require_that (confirmed_snapshot (authin_SnapshotVersion in_) (status_Snapshot status))
            ErrHandoffNotConfirmable;
      receipt ← select (fun r => (settle_OperationID r == handoff_ID op)
                                 && (settle_OperationVersion r =? authin_SnapshotVersion in_));
      now ← gets db_now;
      grant ← scan (insert_row (mkHandoffCommitAuthorization (handoff_ID op) (authin_AuthorizationID in_)
                (authin_SnapshotVersion in_) now digest (settle_StateSHA256 receipt)));
      _ ← update_handoff (handoff_ID op) (advance "commit_authorized");
      mret (Committed grant)
  end.

Definition AuthorizeHandoffCommit (in_ : AuthorizeHandoffCommitInput) : M HandoffCommitAuthorization :=
  _ ← require_that (negb (negb (validHandoffScope (authin_Scope in_))
         || negb (canonicalUUID (authin_AuthorizationID in_)) || (authin_SnapshotVersion in_ <? 2)))
        ErrConflict;
  withTx (authorizeHandoffCommitTx in_ (authorize_digest in_)).

(** ** Finalization *)

Definition finalize_digest (in_ : FinalizeHandoffInput) : string :=
  handoffDigest [("Scope", scope_json (finalin_Scope in_));
    ("AuthorizationID", JString (finalin_AuthorizationID in_));
    ("CommittedOwnerUserID", JString (finalin_CommittedOwnerUserID in_));
    ("CommittedOwnershipVersion", JNumber (finalin_CommittedOwnershipVersion in_));
    ("CommittedAt", JTime (finalin_CommittedAt in_));
    ("AMCommitSHA256", JString (finalin_AMCommitSHA256 in_))].

(** [in.CommittedAt = databaseTime(in.CommittedAt)] *)
Definition normalize_finalize (in_ : FinalizeHandoffInput) : FinalizeHandoffInput :=
  mkFinalizeHandoffInput (finalin_Scope in_) (finalin_AuthorizationID in_)
    (finalin_CommittedOwnerUserID in_) (finalin_CommittedOwnershipVersion in_)
    (databaseTime (finalin_CommittedAt in_)) (finalin_AMCommitSHA256 in_).

Definition valid_finalize (in_ : FinalizeHandoffInput) : bool :=
  negb (negb (validHandoffScope (finalin_Scope in_)) || negb (canonicalUUID (finalin_AuthorizationID in_))
        || negb (canonicalUUID (finalin_CommittedOwnerUserID in_))
        || (hscope_OwnershipVersion (finalin_Scope in_) =? maxInt64)
        || negb (finalin_CommittedOwnershipVersion in_ =? hscope_OwnershipVersion (finalin_Scope in_) + 1)
        || IsZero (finalin_CommittedAt in_) || negb (validLowerSHA256 (finalin_AMCommitSHA256 in_))).

(** The decision names the target, and is not before the cutoff. *)
Definition decision_fits (in_ : FinalizeHandoffInput) (op : OwnershipHandoff) (phase : string) : bool :=
  negb ((handoff_Phase op != phase) || (finalin_CommittedOwnerUserID in_ != handoff_TargetUserID op)
        || Before (finalin_CommittedAt in_) (handoff_Cutoff op)).

(** The first transaction: the irreversible decision, before any local effect. *)
Definition recordCommittedHandoffDecisionTx (in_ : FinalizeHandoffInput) (digest : string) :
    M (Outcome unit) :=
  '(account, op) ← lockHandoffOperationTx (finalin_Scope in_);
  prior ← try_err ErrNoRows (select (fun d => decision_OperationID d == handoff_ID op));
  match prior with
  | Some d =>
      _ ← require_that (decision_RequestSHA256 d == digest) ErrIdempotencyConflict;
      mret (RolledBack tt)
  | None =>
      _ ← require_that (decision_fits in_ op "commit_authorized") ErrConflict;
      _ ← requireSourceResponsibilityTx account op;
      grant ← getCommitAuthorization (handoff_ID op);
      _ ← require_that (auth_AuthorizationID grant == finalin_AuthorizationID in_) ErrConflict;
      _ ← insert_row (mkHandoffDecision (handoff_ID op) digest (finalin_AMCommitSHA256 in_)
            (finalin_CommittedOwnershipVersion in_) (pg_time (finalin_CommittedAt in_)));
      _ ← update_handoff (handoff_ID op) (advance "finalizing");
      mret (Committed tt)
  end.

(** The blank profile of a new owner. *)
Definition blank_profile (organizationID : string) (version : Z) (now : Time) : BillingProfile :=
  mkBillingProfile (Some version) true organizationID "" "" "" "" "zh-TW" "Asia/Taipei" "portal" 1 now now.

(** [ON CONFLICT (organization_id) DO UPDATE SET ...] *)
Definition reset_profile (ownershipVersion : Z) (now : Time) (p : BillingProfile) : BillingProfile :=
  mkBillingProfile (Some ownershipVersion) true (profile_OrganizationID p) "" "" "" "" "zh-TW" "Asia/Taipei"
    "portal" (profile_Version p + 1) (profile_CreatedAt p) now.

Definition put_blank_profile (organizationID : string) (version : Z) : M unit :=
  now ← gets db_now;
  exists_ ← exists_row (fun p => profile_OrganizationID p == organizationID);
  if exists_ : bool then
    _ ← update_rows (fun p => profile_OrganizationID p == organizationID) (reset_profile version now); mret tt
  else _ ← insert_row (blank_profile organizationID version now); mret tt.

(** The source's profile, kept as evidence. *)
Definition archive_profile (operationID periodID organizationID : string) : M unit :=
  profile ← gets (fun db => find (fun p => profile_OrganizationID p == organizationID) (db_profiles db));
  match profile with
  | Some p => _ ← insert_row (mkRetiredProfile operationID periodID p); mret tt
  | None => mret tt
  end.

(** The payment authority of the source: consents, methods and the policy. *)
Definition revoke_authority (accountID : string) : M unit :=
  now ← gets db_now;
  _ ← update_consents (fun c => consent_AccountID c == accountID) (fun c =>
        revoke_fields (Some (default now (consent_RevokedAt c)))
          (if consent_RevocationReason c == "" then "ownership_transferred" else consent_RevocationReason c) c);
  _ ← update_methods (fun r => (method_AccountID (mrow_method r) == accountID)
                               && (method_Status (mrow_method r) != PaymentMethodStatusRevoked))
        (set_method_status PaymentMethodStatusRevoked None);
  _ ← update_policies (fun p => policy_AccountID p == accountID) (fun p =>
        p <| policy_Enabled := false |> <| policy_Armed := false |>
          <| policy_Version ::= Z.succ |> <| policy_Generation ::= Z.succ |>);
  mret tt.

(** The period that ends at the decision, and the one that starts there. *)
Definition switch_period (account : CommercialAccount) (op : OwnershipHandoff) (in_ : FinalizeHandoffInput) :
    M string :=
  let at_ := pg_time (finalin_CommittedAt in_) in
  source ← scan (first_row (update_periods
    (fun p => source_responsible op (account_ID account) p && (period_EffectiveFrom p <? at_))
    (fun p => p <| period_EffectiveUntil := Some at_ |>)));
  id ← fresh;
  _ ← insert_period (mkResponsibilityPeriod id (account_ID account) (handoff_TargetUserID op)
        (finalin_CommittedOwnershipVersion in_) at_ None (finalin_AMCommitSHA256 in_)
        (Some (handoff_ID op, account_AvailableBalanceMinor account)));
  mret (period_ID source).

(** The second transaction: the local effects of the decision. *)
Definition finalizeOwnershipHandoffTx (in_ : FinalizeHandoffInput) (digest : string) :
    M (Outcome HandoffProtocolAck) :=
  '(account, op) ← lockHandoffOperationTx (finalin_Scope in_);
  let ack := mkHandoffProtocolAck (handoff_ID op) "finalized" in
  prior ← try_err ErrNoRows (select (fun f => final_OperationID f == handoff_ID op));
  match prior with
  | Some f =>
      _ ← require_that (final_RequestSHA256 f == digest) ErrIdempotencyConflict;
      mret (RolledBack ack)
  | None =>
      _ ← require_that (decision_fits in_ op "finalizing") ErrConflict;
      _ ← requireSourceResponsibilityTx account op;
      grant ← getCommitAuthorization (handoff_ID op);
      _ ← require_that (auth_AuthorizationID grant == finalin_AuthorizationID in_) ErrConflict;
      state ← captureSettlementStateTx account;
      _ ← require_that (negb ((state_SHA256 state != auth_StateSHA256 grant)
             || (account_AvailableBalanceMinor account <? 0))) ErrSettlementEvidenceStale;
      _ ← insert_row (mkHandoffFinalization (handoff_ID op) digest (finalin_AMCommitSHA256 in_)
            (finalin_CommittedOwnershipVersion in_) (pg_time (finalin_CommittedAt in_)));
      source ← switch_period account op in_;
      _ ← archive_profile (handoff_ID op) source (account_OrganizationID account);
      _ ← put_blank_profile (account_OrganizationID account) (finalin_CommittedOwnershipVersion in_);
      _ ← revoke_authority (account_ID account);
      _ ← update_handoff (handoff_ID op) (advance "finalized");
      mret (Committed ack)
  end.

Definition recordCommittedHandoffDecision (in_ : FinalizeHandoffInput) : M unit :=
  withTx (recordCommittedHandoffDecisionTx in_ (finalize_digest in_)).
Definition finalizeOwnershipHandoff (in_ : FinalizeHandoffInput) : M HandoffProtocolAck :=
  withTx (finalizeOwnershipHandoffTx in_ (finalize_digest in_)).

(** Two transactions: what the first has committed stays when the second fails. *)
Definition FinalizeOwnershipHandoff (in_ : FinalizeHandoffInput) (db : Db) : Result HandoffProtocolAck * Db :=
  if negb (valid_finalize in_) then (Err ErrConflict, db) else
  let in_ := normalize_finalize in_ in
  match run (recordCommittedHandoffDecision in_) db with
  | (Err e, db) => (Err e, db)
  | (Ok _, db) => run (finalizeOwnershipHandoff in_) db
  end.

(** ** Abort *)

Definition abort_digest (in_ : BeginHandoffAbortInput) : string :=
  handoffDigest [("Scope", scope_json (abortin_Scope in_));
    ("CancellationID", JString (abortin_CancellationID in_));
    ("AMCancellationSHA256", JString (abortin_AMCancellationSHA256 in_));
    ("AuthorizationID", JString (abortin_AuthorizationID in_))].

(** The grant that has been issued for the operation, [""] if none. *)
Definition issued_grant (db : Db) (operationID : string) : string :=
  match find (fun a => auth_OperationID a == operationID) (db_commit_authorizations db) with
  | Some a => auth_AuthorizationID a
  | None => ""
  end.

Definition beginOwnershipHandoffAbortTx (in_ : BeginHandoffAbortInput) (digest : string) :
    M (Outcome HandoffProtocolAck) :=
  '(account, op) ← lockHandoffOperationTx (abortin_Scope in_);
  prior ← try_err ErrNoRows (select (fun c => hcancel_OperationID c == handoff_ID op));
  match prior with
  | Some c =>
      _ ← require_that (hcancel_RequestSHA256 c == digest) ErrIdempotencyConflict;
      mret (RolledBack (mkHandoffProtocolAck (handoff_ID op) (handoff_Phase op)))
  | None =>
      _ ← require_that (one_of (handoff_Phase op) ["preparing"; "prepared"; "commit_authorized"]) ErrConflict;
      _ ← requireSourceResponsibilityTx account op;
      grantID ← gets (fun db => issued_grant db (handoff_ID op));
      _ ← require_that (negb ((grantID != "") && (grantID != abortin_AuthorizationID in_))) ErrConflict;
      _ ← insert_row (mkHandoffCancellation (handoff_ID op) (abortin_CancellationID in_) digest
            (abortin_AMCancellationSHA256 in_));
      _ ← update_handoff (handoff_ID op) (advance "abort_pending");
      mret (Committed (mkHandoffProtocolAck (handoff_ID op) "abort_pending"))
  end.

Definition BeginOwnershipHandoffAbort (in_ : BeginHandoffAbortInput) : M HandoffProtocolAck :=
  _ ← require_that (negb (negb (validHandoffScope (abortin_Scope in_))
         || negb (canonicalUUID (abortin_CancellationID in_))
         || negb (validLowerSHA256 (abortin_AMCancellationSHA256 in_))
         || ((abortin_AuthorizationID in_ != "") && negb (canonicalUUID (abortin_AuthorizationID in_)))))
        ErrConflict;
  withTx (beginOwnershipHandoffAbortTx in_ (abort_digest in_)).

Definition completeOwnershipHandoffAbortTx (in_ : CompleteHandoffAbortInput) : M (Outcome HandoffProtocolAck) :=
  '(account, op) ← lockHandoffOperationTx (completein_Scope in_);
  let ack := mkHandoffProtocolAck (handoff_ID op) "aborted" in
  cancellation ← scan (select (fun c => hcancel_OperationID c == handoff_ID op));
  _ ← require_that (hcancel_CancellationID cancellation == completein_CancellationID in_)
        ErrIdempotencyConflict;
  prior ← try_err ErrNoRows (select (fun a => abort_OperationID a == handoff_ID op));
  match prior with
  | Some a =>
      _ ← require_that (abort_HoldReleaseSHA256 a == completein_HoldReleaseSHA256 in_)
            ErrIdempotencyConflict;
      mret (RolledBack ack)
  | None =>
      _ ← require_that (handoff_Phase op == "abort_pending") ErrConflict;
      _ ← requireSourceResponsibilityTx account op;
      _ ← insert_row (mkHandoffAbortAck (handoff_ID op) (completein_HoldReleaseSHA256 in_));
      _ ← update_handoff (handoff_ID op) (advance "aborted");
      mret (Committed ack)
  end.

Definition CompleteOwnershipHandoffAbort (in_ : CompleteHandoffAbortInput) : M HandoffProtocolAck :=
  _ ← require_that (negb (negb (validHandoffScope (completein_Scope in_))
         || negb (canonicalUUID (completein_CancellationID in_))
         || negb (validLowerSHA256 (completein_HoldReleaseSHA256 in_)))) ErrConflict;
  withTx (completeOwnershipHandoffAbortTx in_).
End commit.

(** ** What the operations leave alone *)
Section commit_frames.
Context {pg : Postgres} {dg : Digest} (R : relation Db) `{!Frame R, !Touches R, !Skips R OwnershipHandoff}.

Lemma keeps_AuthorizeHandoffCommit in_ `{!Skips R HandoffCommitAuthorization} :
  keeps R (AuthorizeHandoffCommit in_).
Proof. unfold AuthorizeHandoffCommit, authorizeHandoffCommitTx, getCommitAuthorization. keeps. Qed.
Lemma keeps_recordCommittedHandoffDecision in_ `{!Skips R HandoffDecision} :
  keeps R (recordCommittedHandoffDecision in_).
Proof.
  unfold recordCommittedHandoffDecision, recordCommittedHandoffDecisionTx, getCommitAuthorization. keeps.
Qed.
Lemma keeps_finalizeOwnershipHandoff in_
    `{!Skips R HandoffFinalization, !Skips R ResponsibilityPeriod, !Skips R RetiredProfile,
      !Skips R BillingProfile, !Skips R PaymentConsent, !Skips R MethodRow, !Skips R AutoTopUpPolicy} :
  keeps R (finalizeOwnershipHandoff in_).
Proof.
  unfold finalizeOwnershipHandoff, finalizeOwnershipHandoffTx, getCommitAuthorization, switch_period,
    archive_profile, put_blank_profile, revoke_authority. keeps.
Qed.
Lemma keeps_BeginOwnershipHandoffAbort in_ `{!Skips R HandoffCancellation} :
  keeps R (BeginOwnershipHandoffAbort in_).
Proof. unfold BeginOwnershipHandoffAbort, beginOwnershipHandoffAbortTx. keeps. Qed.
Lemma keeps_CompleteOwnershipHandoffAbort in_ `{!Skips R HandoffAbortAck} :
  keeps R (CompleteOwnershipHandoffAbort in_).
Proof. unfold CompleteOwnershipHandoffAbort, completeOwnershipHandoffAbortTx. keeps. Qed.
Lemma keeps_PrepareOwnershipHandoff in_
    `{!Skips R PaymentMethodSetupSession, !Skips R MethodRow, !Skips R PaymentConsent} :
  keeps R (PrepareOwnershipHandoff in_).
Proof. unfold PrepareOwnershipHandoff, prepareOwnershipHandoffTx, invalidate_setups. keeps. Qed.
Lemma keeps_InitializeResponsibility ctx in_ `{!Skips R ResponsibilityPeriod} :
  keeps R (InitializeResponsibility ctx in_).
Proof. unfold InitializeResponsibility, initializeResponsibilityTx. keeps. Qed.
End commit_frames.

#[export] Existing Instances keeps_AuthorizeHandoffCommit keeps_recordCommittedHandoffDecision
  keeps_finalizeOwnershipHandoff keeps_BeginOwnershipHandoffAbort keeps_CompleteOwnershipHandoffAbort
  keeps_PrepareOwnershipHandoff keeps_InitializeResponsibility.
