(* ===== verification/Closure.v ===== *)
(** * Cloud closures: [cloud_closure.go], [cloud_closure_retirement.go]

    The financial fence of a cloud to be deleted, the revocations its providers must
    acknowledge, the collector's settlement evidence, and the closing: retirement of a
    delayed command, cancellation and its release.  Audit rows are not modelled. *)
From S2P Require Import Prelude GoStrings GoTime BillingTypes Evidence PaymentTypes Payment Database.
From S2P Require Import Tables Keeps Fixtures Accounts Customer Setups Handoff Protocols Settlement.

Record CloudPreflightScope := mkCloudPreflightScope {
  pscope_OrganizationID : string;
  pscope_OwnerUserID : string;
  pscope_OwnershipVersion : Z
}.

Record CloudClosureScope := mkCloudClosureScope {
  cscope_Preflight : CloudPreflightScope;
  cscope_OperationID : string
}.
Definition cscope_OrganizationID (s : CloudClosureScope) : string := pscope_OrganizationID (cscope_Preflight s).
Definition cscope_OwnerUserID (s : CloudClosureScope) : string := pscope_OwnerUserID (cscope_Preflight s).
Definition cscope_OwnershipVersion (s : CloudClosureScope) : Z := pscope_OwnershipVersion (cscope_Preflight s).

Record PrepareCloudClosureInput := mkPrepareCloudClosureInput {
  cprepare_Scope : CloudClosureScope;
  cprepare_Cutoff : Time;
  cprepare_AMRequestSHA256 : string
}.

Record CloudClosureState := mkCloudClosureState {
  cstate_Scope : CloudClosureScope;
  cstate_SHA256 : string;
  cstate_Financial : FinancialEvidence;
  cstate_Cutoff : Time;
  cstate_ObservedAt : Time
}.

Record RecordCloudClosureSettlementInput := mkRecordCloudClosureSettlementInput {
  crecord_State : CloudClosureState;
  crecord_ReceiptID : string;
  crecord_CoveredThrough : Time;
  crecord_ExpiresAt : Time;
  crecord_UsageCheckpointSHA256 : string;
  crecord_InvoiceCheckpointSHA256 : string;
  crecord_ProviderCheckpointSHA256 : string
}.

Record CloudClosureStatus := mkCloudClosureStatus {
  cstatus_Operation : CloudClosure;
  cstatus_Ready : bool;
  cstatus_ReceiptID : string;
  cstatus_Blockers : list string
}.

Record CloseCloudInput := mkCloseCloudInput {
  close_Scope : CloudClosureScope;
  close_SettlementID : string;
  close_AMReadinessSHA256 : string
}.

Record CloudClosureAck := mkCloudClosureAck {
  cack_OperationID : string;
  cack_Phase : string;
  cack_ClosedAt : Time;
  cack_ReceiptSHA256 : string
}.

Record CloudCloseResolution := mkCloudCloseResolution {
  resolution_OperationID : string;
  resolution_SettlementID : string;
  resolution_AMReadinessSHA256 : string;
  resolution_Outcome : string;
  resolution_ReceiptSHA256 : string;
  resolution_RetiredAt : option Time;
  resolution_Acknowledgment : option CloudClosureAck
}.

(** The provider work a closure asks for: every method, and every set-up in flight. *)
Definition setup_open (accountID : string) (s : PaymentMethodSetupSession) : bool :=
  (setup_AccountID s == accountID) && one_of (setup_State s) ["created"; "requires_action"; "unknown"].
Definition closure_tasks (db : Db) (operationID accountID : string) : list ClosureTask :=
  ((fun r => mkClosureTask operationID "method" (method_ID (mrow_method r)))
     <$> filter (fun r => method_AccountID (mrow_method r) = accountID) (db_methods db))
  ++ ((fun s => mkClosureTask operationID "setup" (setup_ID s))
     <$> filter (fun s => setup_open accountID s = true) (db_setups db)).

(** [INSERT ... SELECT] *)
Fixpoint insert_rows {R} `{!Table R} (rows : list R) : M unit :=
  match rows with
  | [] => mret tt
  | r :: rows => _ ← insert_row r; insert_rows rows
  end.

(** [slices.Compact] *)
Fixpoint compact (l : list string) : list string :=
  match l with
  | x :: (y :: _) as rest => if x == y then compact rest else x :: compact rest
  | _ => l
  end.

(** [ORDER BY observed_at DESC, created_at DESC, id DESC LIMIT 1] *)
Definition later_settlement (a b : ClosureSettlement) : bool :=
  (csettle_ObservedAt b <? csettle_ObservedAt a)
  || ((csettle_ObservedAt b =? csettle_ObservedAt a)
      && ((csettle_CreatedAt b <? csettle_CreatedAt a)
          || ((csettle_CreatedAt b =? csettle_CreatedAt a) && String.ltb (csettle_ID b) (csettle_ID a)))).
Definition latest_settlement (db : Db) (operationID : string) : option ClosureSettlement :=
  head (sort_stable later_settlement
    (filter (fun s => csettle_OperationID s = operationID) (ct_settlements (db_closure db)))).

(** The stored tasks of an operation with their acknowledgments, in order. *)
Definition revocation_manifest (db : Db) (operationID : string) : json_value :=
  JArray ((fun t => JArray [JString (task_SubjectType t); JString (task_SubjectID t);
      match find (fun a => ack_Task a == t) (ct_acks (db_closure db)) with
      | Some a => JString (ack_ReceiptSHA256 a)
      | None => JNull
      end])
  <$> by_id task_SubjectType (by_id task_SubjectID
        (filter (fun t => task_OperationID t = operationID) (db_closure_revocations db)))).

Section closure.
Context {pg : Postgres} {dg : Digest}.

Definition valid_preflight_scope (s : CloudPreflightScope) : bool :=
  canonicalUUID (pscope_OrganizationID s) && canonicalUUID (pscope_OwnerUserID s)
  && (0 <? pscope_OwnershipVersion s).
Definition valid_closure_scope (s : CloudClosureScope) : bool :=
  valid_preflight_scope (cscope_Preflight s) && canonicalUUID (cscope_OperationID s).

Definition closure_scope_json (s : CloudClosureScope) : json_value :=
  JObject [("cloud_id", JString (cscope_OrganizationID s)); ("owner_user_id", JString (cscope_OwnerUserID s));
    ("ownership_version", JNumber (cscope_OwnershipVersion s));
    ("operation_id", JString (cscope_OperationID s))].

(** ** Preparation *)

Definition prepare_closure_digest (in_ : PrepareCloudClosureInput) (cutoff : Time) : string :=
  handoffDigest [("Scope", closure_scope_json (cprepare_Scope in_)); ("Cutoff", JTime cutoff);
    ("AMRequestSHA256", JString (cprepare_AMRequestSHA256 in_))].

(** The local authority of the owner, taken away at once. *)
Definition revoke_for_closure (accountID operationID : string) : M unit :=
  _ ← update_setups (setup_open accountID) (fun s =>
        s <| setup_State := PaymentIntentStateFailed |> <| setup_InvalidatedByClosure := operationID |>);
  _ ← update_methods (fun r => (method_AccountID (mrow_method r) == accountID)
                               && (method_Status (mrow_method r) != PaymentMethodStatusRevoked))
        (set_method_status PaymentMethodStatusRevoked None);
  now ← gets db_now;
  _ ← update_consents (fun c => (consent_AccountID c == accountID) && bool_decide (consent_RevokedAt c = None))
        (revoke_fields (Some now) "cloud_closure");
  _ ← update_policies (fun p => (policy_AccountID p == accountID) && (policy_Enabled p || policy_Armed p))
        (fun p => p <| policy_Enabled := false |> <| policy_Armed := false |> <| policy_Version ::= Z.succ |>);
  mret tt.

Definition prepareCloudClosureTx (in_ : PrepareCloudClosureInput) (cutoff : Time) (digest : string) :
    M (Outcome CloudClosure) :=
  let scope := cprepare_Scope in_ in
  account ← scan (select (by_organization (cscope_OrganizationID scope) Settlement));
  prior ← try_err ErrNotFound (scan (select (fun c => closure_ID c == cscope_OperationID scope)));
  match prior with
  | Some c =>
      _ ← require_that (negb ((closure_AccountID c != account_ID account)
             || (closure_RequestSHA256 c != digest))) ErrIdempotencyConflict;
      mret (RolledBack c)
  | None =>
      _ ← requireNoHandoffTx (account_ID account);
      _ ← require_that (account_State account == AccountStateActive) ErrConflict;
      period ← gets (fun db => find (fun p => (period_AccountID p == account_ID account)
          && (period_OwnerUserID p == cscope_OwnerUserID scope)
          && (period_OwnershipVersion p =? cscope_OwnershipVersion scope)
          && bool_decide (period_EffectiveUntil p = None)) (db_periods db));
      clock ← clock_timestamp;
      match period with
      | None => throw ErrOwnershipVersionConflict
      | Some p =>
          _ ← require_that ((period_EffectiveFrom p <=? cutoff) && (cutoff <=? clock))
                ErrOwnershipVersionConflict;
          now ← gets db_now;
          op ← scan (insert_closure (mkCloudClosure (cscope_OperationID scope) (account_ID account)
                 (cscope_OwnerUserID scope) (cscope_OwnershipVersion scope) (pg_time cutoff) "preparing" 1
                 now (period_ID p) digest (cprepare_AMRequestSHA256 in_)));
          tasks ← gets (fun db => closure_tasks db (closure_ID op) (account_ID account));
          _ ← insert_rows tasks;
          _ ← revoke_for_closure (account_ID account) (closure_ID op);
          mret (Committed op)
      end
  end.

Definition PrepareCloudClosure (in_ : PrepareCloudClosureInput) : M CloudClosure :=
  _ ← require_that (negb (negb (valid_closure_scope (cprepare_Scope in_)) || IsZero (cprepare_Cutoff in_)
         || negb (validLowerSHA256 (cprepare_AMRequestSHA256 in_)))) ErrConflict;
  let cutoff := databaseTime (cprepare_Cutoff in_) in
  withTx (prepareCloudClosureTx in_ cutoff (prepare_closure_digest in_ cutoff)).

Definition loadCloudClosureTx (scope : CloudClosureScope) : M (CommercialAccount * CloudClosure) :=
  account ← scan (select (by_organization (cscope_OrganizationID scope) Settlement));
  op ← scan (select (fun c => (closure_ID c == cscope_OperationID scope)
                              && (closure_AccountID c == account_ID account)));
  _ ← require_that (negb ((closure_OwnerUserID op != cscope_OwnerUserID scope)
         || negb (closure_OwnershipVersion op =? cscope_OwnershipVersion scope))) ErrOwnershipVersionConflict;
  mret (account, op).

Definition requireClosureOwnerTx (op : CloudClosure) : M unit :=
  valid ← exists_row (fun p => (period_ID p == closure_SourcePeriodID op)
    && (period_AccountID p == closure_AccountID op) && (period_OwnerUserID p == closure_OwnerUserID op)
    && (period_OwnershipVersion p =? closure_OwnershipVersion op)
    && bool_decide (period_EffectiveUntil p = None));
  require_that valid ErrOwnershipVersionConflict.

(** ** Revocations *)

Definition PendingCloudClosureRevocations (scope : CloudClosureScope) : M (list (string * string)) :=
  _ ← require_that (valid_closure_scope scope) ErrConflict;
  withTx ('(_, op) ← loadCloudClosureTx scope;
          tasks ← gets (fun db => (fun t => (task_SubjectType t, task_SubjectID t))
            <$> by_id task_SubjectType (by_id task_SubjectID (filter (fun t =>
                  task_OperationID t = closure_ID op ∧ task_pending db t = true) (db_closure_revocations db))));
          mret (Committed tasks)).

Definition recordCloudClosureRevocationTx (scope : CloudClosureScope) (subjectType subjectID receiptSHA : string) :
    M (Outcome unit) :=
  '(_, op) ← loadCloudClosureTx scope;
  let task := mkClosureTask (closure_ID op) subjectType subjectID in
  prior ← try_err ErrNoRows (select (fun a => ack_Task a == task));
  match prior with
  | Some a =>
      _ ← require_that (ack_ReceiptSHA256 a == receiptSHA) ErrIdempotencyConflict;
      mret (RolledBack tt)
  | None =>
      _ ← require_that (one_of (closure_Phase op) ["preparing"; "canceling"]) ErrConflict;
      stored ← exists_row (fun t => t == task);
      _ ← require_that stored ErrNotFound;
      _ ← insert_row (mkClosureAck task receiptSHA);
      mret (Committed tt)
  end.

Definition RecordCloudClosureRevocation (scope : CloudClosureScope) (subjectType subjectID receiptSHA : string) :
    M unit :=
  _ ← require_that (negb (negb (valid_closure_scope scope) || negb (canonicalUUID subjectID)
         || ((subjectType != "method") && (subjectType != "setup")) || negb (validLowerSHA256 receiptSHA)))
        ErrConflict;
  withTx (recordCloudClosureRevocationTx scope subjectType subjectID receiptSHA).

(** ** Settlement evidence *)

Definition captureCloudClosureStateTx (account : CommercialAccount) (op : CloudClosure)
    (scope : CloudClosureScope) : M CloudClosureState :=
  state ← captureSettlementStateTx account;
  manifest ← gets (fun db => revocation_manifest db (closure_ID op));
  observed ← clock_timestamp;
  let digest := handoffDigest [("Financial", JString (state_SHA256 state));
    ("Manifest", JString (jsonb_text manifest)); ("Request", JString (closure_RequestSHA256 op))] in
  mret (mkCloudClosureState scope digest (state_Financial state) (closure_Cutoff op) observed).

Definition CaptureCloudClosureState (scope : CloudClosureScope) : M CloudClosureState :=
  _ ← require_that (valid_closure_scope scope) ErrConflict;
  withTx ('(account, op) ← loadCloudClosureTx scope;
          _ ← require_that (closure_Phase op == "preparing") ErrConflict;
          _ ← requireClosureOwnerTx op;
          state ← captureCloudClosureStateTx account op scope;
          mret (Committed state)).

Definition normalize_closure_record (in_ : RecordCloudClosureSettlementInput) :
    RecordCloudClosureSettlementInput :=
  let s := crecord_State in_ in
  mkRecordCloudClosureSettlementInput
    (mkCloudClosureState (cstate_Scope s) (cstate_SHA256 s) (cstate_Financial s)
       (databaseTime (cstate_Cutoff s)) (databaseTime (cstate_ObservedAt s)))
    (crecord_ReceiptID in_) (databaseTime (crecord_CoveredThrough in_)) (databaseTime (crecord_ExpiresAt in_))
    (crecord_UsageCheckpointSHA256 in_) (crecord_InvoiceCheckpointSHA256 in_)
    (crecord_ProviderCheckpointSHA256 in_).

Definition closure_record_digest (in_ : RecordCloudClosureSettlementInput) : string :=
  let s := crecord_State in_ in
  handoffDigest [("State", JObject [("Scope", closure_scope_json (cstate_Scope s));
      ("SHA256", JString (cstate_SHA256 s)); ("Financial", evidence_json (cstate_Financial s));
      ("Cutoff", JTime (cstate_Cutoff s)); ("ObservedAt", JTime (cstate_ObservedAt s))]);
    ("ReceiptID", JString (crecord_ReceiptID in_)); ("CoveredThrough", JTime (crecord_CoveredThrough in_));
    ("ExpiresAt", JTime (crecord_ExpiresAt in_));
    ("UsageCheckpointSHA256", JString (crecord_UsageCheckpointSHA256 in_));
    ("InvoiceCheckpointSHA256", JString (crecord_InvoiceCheckpointSHA256 in_));
    ("ProviderCheckpointSHA256", JString (crecord_ProviderCheckpointSHA256 in_))].

(** The state that is recorded is the current one, and it has not expired. *)
Definition closure_evidence_fresh (in_ : RecordCloudClosureSettlementInput) (current : CloudClosureState) : bool :=
  let s := crecord_State in_ in
  negb ((cstate_SHA256 current != cstate_SHA256 s)
        || After (cstate_ObservedAt s) (cstate_ObservedAt current)
        || negb (After (crecord_ExpiresAt in_) (cstate_ObservedAt current))
        || negb (ev_BalanceKnown (cstate_Financial s))
        || (ev_Currency (cstate_Financial s) != ev_Currency (cstate_Financial current))
        || negb (ev_BalanceMinor (cstate_Financial s) =? ev_BalanceMinor (cstate_Financial current))).

Definition recordCloudClosureSettlementTx (in_ : RecordCloudClosureSettlementInput) (digest : string) :
    M (Outcome unit) :=
  let s := crecord_State in_ in
  '(account, op) ← loadCloudClosureTx (cstate_Scope s);
  prior ← try_err ErrNoRows (select (fun r => csettle_ID r == crecord_ReceiptID in_));
  match prior with
  | Some r =>
      _ ← require_that (csettle_RequestSHA256 r == digest) ErrIdempotencyConflict;
      mret (RolledBack tt)
  | None =>
      _ ← require_that (negb ((closure_Phase op != "preparing")
             || negb (Equal (closure_Cutoff op) (cstate_Cutoff s)))) ErrConflict;
      _ ← requireClosureOwnerTx op;
      current ← captureCloudClosureStateTx account op (cstate_Scope s);
      _ ← require_that (closure_evidence_fresh in_ current) ErrSettlementEvidenceStale;
      now ← gets db_now;
      _ ← insert_row (mkClosureSettlement (crecord_ReceiptID in_) (closure_ID op) digest
            (cstate_SHA256 current)
            (mergeSettlementEvidence (cstate_Financial s) (cstate_Financial current))
            (crecord_UsageCheckpointSHA256 in_) (crecord_InvoiceCheckpointSHA256 in_)
            (crecord_ProviderCheckpointSHA256 in_) (pg_time (crecord_CoveredThrough in_))
            (pg_time (cstate_ObservedAt s)) (pg_time (crecord_ExpiresAt in_)) now);
      mret (Committed tt)
  end.

Definition RecordCloudClosureSettlement (in_ : RecordCloudClosureSettlementInput) : M unit :=
  let s := crecord_State in_ in
  let f := cstate_Financial s in
  _ ← require_that (negb (negb (valid_closure_scope (cstate_Scope s))
         || negb (canonicalUUID (crecord_ReceiptID in_)) || negb (validLowerSHA256 (cstate_SHA256 s))
         || negb (validCheckpoint (ev_UsageSettled f) (crecord_UsageCheckpointSHA256 in_))
         || negb (validCheckpoint (ev_InvoicesReconciled f) (crecord_InvoiceCheckpointSHA256 in_))
         || negb (validCheckpoint (ev_ProviderWorkReconciled f) (crecord_ProviderCheckpointSHA256 in_))
         || Before (crecord_CoveredThrough in_) (cstate_Cutoff s)
         || After (crecord_CoveredThrough in_) (cstate_ObservedAt s)
         || IsZero (cstate_ObservedAt s) || negb (After (crecord_ExpiresAt in_) (cstate_ObservedAt s))
         || After (crecord_ExpiresAt in_) (Add (cstate_ObservedAt s) (5 * Minute)))) ErrConflict;
  _ ← require_that (forallb (Z.leb 0) (evidence_values f)) ErrConflict;
  let in_ := normalize_closure_record in_ in
  withTx (recordCloudClosureSettlementTx in_ (closure_record_digest in_)).

(** ** Status *)

(** The latest receipt still proves the current state. *)
Definition settlement_current (op : CloudClosure) (state : CloudClosureState) (s : ClosureSettlement) : bool :=
  (csettle_StateSHA256 s == cstate_SHA256 state)
  && negb (After (csettle_ObservedAt s) (cstate_ObservedAt state))
  && After (csettle_ExpiresAt s) (cstate_ObservedAt state)
  && negb (Before (csettle_CoveredThrough s) (closure_Cutoff op)).

Definition closure_blockers (account : CommercialAccount) (financial : FinancialEvidence)
    (current pending : bool) : list string :=
  compact (sort_Strings (block_if (negb current) "evidence_unavailable" ++ CloudClosureBlockers financial
    ++ block_if pending "provider_revocations_pending"
    ++ block_if (account_State account != AccountStateActive) "account_not_active")).

Definition cloudClosureStatusTx (account : CommercialAccount) (op : CloudClosure) (scope : CloudClosureScope) :
    M CloudClosureStatus :=
  if closure_Phase op != "preparing" then mret (mkCloudClosureStatus op false "" []) else
  _ ← requireClosureOwnerTx op;
  state ← captureCloudClosureStateTx account op scope;
  latest ← gets (fun db => latest_settlement db (closure_ID op));
  let good := match latest with
              | Some s => if settlement_current op state s then Some s else None
              | None => None
              end in
  let financial := match good with
                   | Some s => mergeSettlementEvidence (csettle_Evidence s) (cstate_Financial state)
                   | None => cstate_Financial state
                   end in
  pending ← gets (fun db => revocations_pending db (closure_ID op));
  let blockers := closure_blockers account financial (bool_decide (is_Some good)) pending in
  mret (mkCloudClosureStatus op (match blockers with [] => true | _ => false end)
          (match good with Some s => csettle_ID s | None => "" end) blockers).

Definition GetCloudClosureStatus (scope : CloudClosureScope) : M CloudClosureStatus :=
  _ ← require_that (valid_closure_scope scope) ErrConflict;
  withTx ('(account, op) ← loadCloudClosureTx scope;
          status ← cloudClosureStatusTx account op scope;
          mret (Committed status)).
(** ** Closing *)

Definition close_digest (in_ : CloseCloudInput) : string :=
  handoffDigest [("Scope", closure_scope_json (close_Scope in_));
    ("SettlementID", JString (close_SettlementID in_));
    ("AMReadinessSHA256", JString (close_AMReadinessSHA256 in_))].

Definition valid_close (in_ : CloseCloudInput) : bool :=
  negb (negb (valid_closure_scope (close_Scope in_)) || negb (canonicalUUID (close_SettlementID in_))
        || negb (validLowerSHA256 (close_AMReadinessSHA256 in_))).

Definition is_retired (operationID digest : string) (r : RetiredCommand) : bool :=
  (rcommand_OperationID r == operationID) && (rcommand_RequestSHA256 r == digest).

(** [ON CONFLICT(organization_id) DO UPDATE SET state='closed',...] *)
Definition close_access (organizationID : string) : M unit :=
  _ ← access_barrier organizationID "closed";
  exists_ ← exists_row (fun a => access_OrganizationID a == organizationID);
  if exists_ : bool then
    _ ← update_rows (fun a => access_OrganizationID a == organizationID) (fun a =>
          mkAccessState (access_OrganizationID a) "closed" "cloud_deleted" (access_Version a + 1)
            "cloud_closure"); mret tt
  else _ ← insert_row (mkAccessState organizationID "closed" "cloud_deleted" 1 "cloud_closure"); mret tt.

Definition close_account (a : CommercialAccount) : CommercialAccount :=
  a <| account_State := AccountStateClosed |> <| account_Version ::= Z.succ |>.

(** What closing writes, its completion checked at COMMIT. *)
Definition close_effects (account : CommercialAccount) (op : CloudClosure) (in_ : CloseCloudInput)
    (digest : string) : M CloudClosureAck :=
  closedAt ← clock_timestamp;
  let receipt := handoffDigest [("Request", JString digest); ("ClosedAt", JTime closedAt)] in
  done ← insert_completion (mkClosureCompletion (closure_ID op) (close_SettlementID in_)
           (close_AMReadinessSHA256 in_) digest receipt closedAt);
  _ ← set_closure_phase (closure_ID op) "closed";
  _ ← update_account (account_ID account) close_account;
  _ ← update_periods (fun p => (period_ID p == closure_SourcePeriodID op)
                               && bool_decide (period_EffectiveUntil p = None))
        (fun p => p <| period_EffectiveUntil := Some closedAt |>);
  _ ← close_access (cscope_OrganizationID (close_Scope in_));
  _ ← raise_unless (fun db => completion_consistent db done);
  mret (mkCloudClosureAck (closure_ID op) "closed" closedAt receipt).

Definition closeCloudTx (in_ : CloseCloudInput) (digest : string) : M (Outcome CloudClosureAck) :=
  '(account, op) ← loadCloudClosureTx (close_Scope in_);
  retired ← exists_row (is_retired (closure_ID op) digest);
  _ ← require_that (negb retired) ErrCloudClosureCommandRetired;
  prior ← try_err ErrNoRows (select (fun c => completion_OperationID c == closure_ID op));
  match prior with
  | Some c =>
      _ ← require_that (completion_RequestSHA256 c == digest) ErrIdempotencyConflict;
      mret (RolledBack (mkCloudClosureAck (closure_ID op) "closed" (completion_ClosedAt c)
                          (completion_ReceiptSHA256 c)))
  | None =>
      status ← cloudClosureStatusTx account op (close_Scope in_);
      _ ← require_that (cstatus_Ready status && (cstatus_ReceiptID status == close_SettlementID in_))
            ErrCloudClosureNotReady;
      ack ← close_effects account op in_ digest;
      mret (Committed ack)
  end.

Definition CloseCloud (in_ : CloseCloudInput) : M CloudClosureAck :=
  _ ← require_that (valid_close in_) ErrConflict;
  withTx (closeCloudTx in_ (close_digest in_)).

(** ** Cancellation *)

Definition cancelCloudClosureTx (scope : CloudClosureScope) (cancellationID decisionSHA : string) :
    M (Outcome CloudClosure) :=
  '(_, op) ← loadCloudClosureTx scope;
  prior ← try_err ErrNoRows (select (fun c => ccancel_OperationID c == closure_ID op));
  match prior with
  | Some c =>
      _ ← require_that (negb ((ccancel_CancellationID c != cancellationID)
             || (ccancel_AMCancellationSHA256 c != decisionSHA))) ErrIdempotencyConflict;
      mret (RolledBack op)
  | None =>
      _ ← require_that (closure_Phase op == "preparing") ErrConflict;
      _ ← insert_row (mkClosureCancellation (closure_ID op) cancellationID decisionSHA);
      op ← scan (set_closure_phase (closure_ID op) "canceling");
      mret (Committed op)
  end.

Definition CancelCloudClosure (scope : CloudClosureScope) (cancellationID decisionSHA : string) :
    M CloudClosure :=
  _ ← require_that (valid_closure_scope scope && canonicalUUID cancellationID
                    && validLowerSHA256 decisionSHA) ErrConflict;
  withTx (cancelCloudClosureTx scope cancellationID decisionSHA).

Definition completeCloudClosureCancellationTx (scope : CloudClosureScope)
    (cancellationID releaseSHA : string) : M (Outcome CloudClosure) :=
  '(_, op) ← loadCloudClosureTx scope;
  cancellation ← scan (select (fun c => ccancel_OperationID c == closure_ID op));
  _ ← require_that (ccancel_CancellationID cancellation == cancellationID) ErrIdempotencyConflict;
  prior ← try_err ErrNoRows (select (fun r => release_OperationID r == closure_ID op));
  match prior with
  | Some r =>
      _ ← require_that (release_ReceiptSHA256 r == releaseSHA) ErrIdempotencyConflict;
      mret (RolledBack op)
  | None =>
      _ ← require_that (closure_Phase op == "canceling") ErrConflict;
      _ ← insert_row (mkClosureRelease (closure_ID op) releaseSHA);
      op ← scan (set_closure_phase (closure_ID op) "canceled");
      mret (Committed op)
  end.

Definition CompleteCloudClosureCancellation (scope : CloudClosureScope)
    (cancellationID releaseSHA : string) : M CloudClosure :=
  _ ← require_that (valid_closure_scope scope && canonicalUUID cancellationID
                    && validLowerSHA256 releaseSHA) ErrConflict;
  withTx (completeCloudClosureCancellationTx scope cancellationID releaseSHA).

(** ** Retirement of a delayed command *)

Definition resolution (in_ : CloseCloudInput) (operationID outcome receipt : string)
    (retiredAt : option Time) (ack : option CloudClosureAck) : CloudCloseResolution :=
  mkCloudCloseResolution operationID (close_SettlementID in_) (close_AMReadinessSHA256 in_) outcome
    receipt retiredAt ack.

Definition retireCloudCloseTx (in_ : CloseCloudInput) (digest : string) : M (Outcome CloudCloseResolution) :=
  '(_, op) ← loadCloudClosureTx (close_Scope in_);
  let id := closure_ID op in
  retired ← try_err ErrNoRows (select (is_retired id digest));
  match retired with
  | Some r => mret (RolledBack (resolution in_ id "retired" (rcommand_ReceiptSHA256 r)
                                  (Some (rcommand_RetiredAt r)) None))
  | None =>
      prior ← try_err ErrNoRows (select (fun c => completion_OperationID c == id));
      match prior with
      | Some c =>
          _ ← require_that (completion_RequestSHA256 c == digest) ErrIdempotencyConflict;
          mret (RolledBack (resolution in_ id "closed" "" None
            (Some (mkCloudClosureAck id "closed" (completion_ClosedAt c) (completion_ReceiptSHA256 c)))))
      | None =>
          _ ← require_that (closure_Phase op == "preparing") ErrConflict;
          now ← clock_timestamp;
          let receipt := handoffDigest [("Request", JString digest); ("RetiredAt", JTime now)] in
          _ ← insert_retired (mkRetiredCommand id digest (close_SettlementID in_)
                (close_AMReadinessSHA256 in_) receipt now);
          mret (Committed (resolution in_ id "retired" receipt (Some now) None))
      end
  end.

Definition RetireCloudClose (in_ : CloseCloudInput) : M CloudCloseResolution :=
  _ ← require_that (valid_close in_) ErrConflict;
  withTx (retireCloudCloseTx in_ (close_digest in_)).
End closure.

(** ** What the operations leave alone *)
Section closure_frames.
Context {pg : Postgres} {dg : Digest} (R : relation Db) `{!Frame R, !Touches R}.

Lemma keeps_insert_rows {T} `{!Table T, !Skips R T} (rows : list T) : keeps R (insert_rows rows).
Proof. induction rows; simpl; keeps. Qed.
Lemma keeps_loadCloudClosureTx scope : keeps R (loadCloudClosureTx scope).
Proof. unfold loadCloudClosureTx. keeps. Qed.
#[local] Existing Instances keeps_insert_rows keeps_loadCloudClosureTx.
Lemma keeps_captureCloudClosureStateTx account op scope : keeps R (captureCloudClosureStateTx account op scope).
Proof. unfold captureCloudClosureStateTx. keeps. Qed.
#[local] Existing Instance keeps_captureCloudClosureStateTx.
Lemma keeps_cloudClosureStatusTx account op scope : keeps R (cloudClosureStatusTx account op scope).
Proof. unfold cloudClosureStatusTx, requireClosureOwnerTx. keeps. Qed.
#[local] Existing Instance keeps_cloudClosureStatusTx.

Lemma keeps_PrepareCloudClosure in_
    `{!Skips R CloudClosure, !Skips R ClosureTask, !Skips R PaymentMethodSetupSession,
      !Skips R MethodRow, !Skips R PaymentConsent, !Skips R AutoTopUpPolicy} :
  keeps R (PrepareCloudClosure in_).
Proof. unfold PrepareCloudClosure, prepareCloudClosureTx, revoke_for_closure. keeps. Qed.
Lemma keeps_RecordCloudClosureRevocation scope ty id sha `{!Skips R ClosureAck} :
  keeps R (RecordCloudClosureRevocation scope ty id sha).
Proof. unfold RecordCloudClosureRevocation, recordCloudClosureRevocationTx. keeps. Qed.
Lemma keeps_RecordCloudClosureSettlement in_ `{!Skips R ClosureSettlement} :
  keeps R (RecordCloudClosureSettlement in_).
Proof. unfold RecordCloudClosureSettlement, recordCloudClosureSettlementTx, requireClosureOwnerTx. keeps. Qed.

(** Closing keeps what the UPDATE of the account to [closed] keeps. *)
Lemma keeps_CloseCloud in_
    `{!Skips R ClosureCompletion, !Skips R CloudClosure, !Skips R ResponsibilityPeriod, !Skips R AccessState} :
  (∀ accountID, keeps R (update_account accountID close_account)) → keeps R (CloseCloud in_).
Proof. intros Hclose. unfold CloseCloud, closeCloudTx, close_effects, close_access. keeps. Qed.
Lemma keeps_CancelCloudClosure scope id sha `{!Skips R ClosureCancellation, !Skips R CloudClosure} :
  keeps R (CancelCloudClosure scope id sha).
Proof. unfold CancelCloudClosure, cancelCloudClosureTx. keeps. Qed.
Lemma keeps_CompleteCloudClosureCancellation scope id sha `{!Skips R ClosureRelease, !Skips R CloudClosure} :
  keeps R (CompleteCloudClosureCancellation scope id sha).
Proof. unfold CompleteCloudClosureCancellation, completeCloudClosureCancellationTx. keeps. Qed.
Lemma keeps_RetireCloudClose in_ `{!Skips R RetiredCommand} : keeps R (RetireCloudClose in_).
Proof. unfold RetireCloudClose, retireCloudCloseTx. keeps. Qed.
End closure_frames.

#[export] Existing Instances keeps_insert_rows keeps_loadCloudClosureTx keeps_captureCloudClosureStateTx
  keeps_cloudClosureStatusTx keeps_PrepareCloudClosure keeps_RecordCloudClosureRevocation
  keeps_RecordCloudClosureSettlement keeps_CloseCloud keeps_CancelCloudClosure
  keeps_CompleteCloudClosureCancellation keeps_RetireCloudClose.
