(* ===== verification/Preflight.v ===== *)
(** * Preflight and eligibility: [cloud_preflight.go], [ownership_eligibility.go],
      [collector_evidence.go], [cloud_creation.go]

    The collector's advisory evidence on the current owner's account, the answers derived
    from it, the reconciliation of Billing's own records, and the bootstrap of a new
    cloud's account.  Read-only transactions see one snapshot. *)
From S2P Require Import Prelude GoStrings GoTime BillingTypes Evidence PaymentTypes Payment Database.
From S2P Require Import Tables Keeps Fixtures Accounts Customer Setups Handoff Protocols Settlement.
From S2P Require Import Closure.

Record CloudPreflightState := mkCloudPreflightState {
  pstate_Scope : CloudPreflightScope;
  pstate_Settlement : SettlementState;
  pstate_ObservedAt : Time
}.

Record RecordCloudPreflightInput := mkRecordCloudPreflightInput {
  precord_State : CloudPreflightState;
  precord_ReceiptID : string;
  precord_UsageCheckpointSHA256 : string;
  precord_InvoiceCheckpointSHA256 : string;
  precord_ProviderCheckpointSHA256 : string;
  precord_ExpiresAt : Time
}.

Record CloudDeletionPreflight := mkCloudDeletionPreflight {
  deletion_Scope : CloudPreflightScope;
  deletion_Eligible : bool;
  deletion_Blockers : list string;
  deletion_BalanceMinor : Z;
  deletion_Currency : Currency;
  deletion_ObservedAt : Time;
  deletion_ExpiresAt : Time;
  deletion_receiptID : string;
  deletion_receiptSHA256 : string;
  deletion_complete : bool
}.

Record OwnershipEligibilityRequest := mkOwnershipEligibilityRequest {
  elig_CloudID : string;
  elig_SourceUserID : string;
  elig_TargetUserID : string;
  elig_TransferID : string;
  elig_Action : string;
  elig_OwnershipVersion : Z
}.

Record OwnershipEligibility := mkOwnershipEligibility {
  eligibility_Request : OwnershipEligibilityRequest;
  eligibility_ReceiptID : string;
  eligibility_EvidenceSHA256 : string;
  eligibility_Currency : Currency;
  eligibility_BalanceMinor : Z;
  eligibility_Complete : bool;
  eligibility_Blockers : list string;
  eligibility_ObservedAt : Time;
  eligibility_ExpiresAt : Time
}.

(** [ORDER BY observed_at DESC,created_at DESC,id DESC LIMIT 1] *)
Definition later_preflight (a b : PreflightReceipt) : bool :=
  (preflight_ObservedAt b <? preflight_ObservedAt a)
  || ((preflight_ObservedAt b =? preflight_ObservedAt a)
      && ((preflight_CreatedAt b <? preflight_CreatedAt a)
          || ((preflight_CreatedAt b =? preflight_CreatedAt a)
              && String.ltb (preflight_ID b) (preflight_ID a)))).
Definition latest_preflight (db : Db) (accountID : string) (scope : CloudPreflightScope) :
    option PreflightReceipt :=
  head (sort_stable later_preflight (filter (fun r => preflight_AccountID r = accountID
    ∧ preflight_OwnerUserID r = pscope_OwnerUserID scope
    ∧ preflight_OwnershipVersion r = pscope_OwnershipVersion scope) (ct_preflights (db_closure db)))).

(** The public code of a blocker, without naming what stands behind it. *)
Definition public_blocker (transfer : bool) (code : string) : string :=
  if one_of code ["balance_negative"; "balance_positive"] then
    if transfer then "balance_negative" else "balance_nonzero"
  else if code == "usage_unsettled" then code
  else if one_of code ["unpaid_invoices"; "outstanding_debt"] then "debt_outstanding"
  else if one_of code ["payments_pending"; "payment_setups_pending"] then "payment_pending"
  else if code == "refunds_pending" then "refund_pending"
  else if code == "disputes_open" then "dispute_pending"
  else "evidence_unavailable".

(** [add]: append unless it is there. *)
Definition add_blocker (blockers : list string) (code : string) : list string :=
  if one_of code blockers then blockers else blockers ++ [code].

Section preflight.
Context {pg : Postgres} {dg : Digest}.

Definition loadCloudPreflightAccountTx (scope : CloudPreflightScope) : M CommercialAccount :=
  account ← scan (select (by_organization (pscope_OrganizationID scope) Settlement));
  period ← gets (fun db => current_period db (account_ID account));
  match period with
  | None => throw ErrOwnershipEvidenceMissing
  | Some p =>
      _ ← require_that (negb ((period_OwnerUserID p != pscope_OwnerUserID scope)
             || negb (period_OwnershipVersion p =? pscope_OwnershipVersion scope))) ErrOwnershipVersionConflict;
      mret account
  end.

Definition CaptureCloudPreflightState (scope : CloudPreflightScope) : M CloudPreflightState :=
  _ ← require_that (valid_preflight_scope scope) ErrConflict;
  withTx (account ← loadCloudPreflightAccountTx scope;
          observed ← gets db_now;
          state ← captureSettlementStateTx account;
          mret (Committed (mkCloudPreflightState scope state observed))).

Definition normalize_preflight (in_ : RecordCloudPreflightInput) : RecordCloudPreflightInput :=
  let s := precord_State in_ in
  mkRecordCloudPreflightInput
    (mkCloudPreflightState (pstate_Scope s) (pstate_Settlement s) (databaseTime (pstate_ObservedAt s)))
    (precord_ReceiptID in_) (precord_UsageCheckpointSHA256 in_) (precord_InvoiceCheckpointSHA256 in_)
    (precord_ProviderCheckpointSHA256 in_) (databaseTime (precord_ExpiresAt in_)).

Definition preflight_scope_json (s : CloudPreflightScope) : json_value :=
  JObject [("cloud_id", JString (pscope_OrganizationID s)); ("owner_user_id", JString (pscope_OwnerUserID s));
    ("ownership_version", JNumber (pscope_OwnershipVersion s))].

Definition preflight_digest (in_ : RecordCloudPreflightInput) : string :=
  let s := precord_State in_ in
  handoffDigest [("State", JObject [("Scope", preflight_scope_json (pstate_Scope s));
      ("SHA256", JString (state_SHA256 (pstate_Settlement s)));
      ("Financial", evidence_json (state_Financial (pstate_Settlement s)));
      ("ObservedAt", JTime (pstate_ObservedAt s))]);
    ("ReceiptID", JString (precord_ReceiptID in_));
    ("UsageCheckpointSHA256", JString (precord_UsageCheckpointSHA256 in_));
    ("InvoiceCheckpointSHA256", JString (precord_InvoiceCheckpointSHA256 in_));
    ("ProviderCheckpointSHA256", JString (precord_ProviderCheckpointSHA256 in_));
    ("ExpiresAt", JTime (precord_ExpiresAt in_))].

Definition recordCloudPreflightTx (in_ : RecordCloudPreflightInput) (digest : string) : M (Outcome unit) :=
  let s := precord_State in_ in
  let f := state_Financial (pstate_Settlement s) in
  account ← loadCloudPreflightAccountTx (pstate_Scope s);
  previous ← try_err ErrNoRows (select (fun r => preflight_ID r == precord_ReceiptID in_));
  match previous with
  | Some r =>
      _ ← require_that (preflight_RequestSHA256 r == digest) ErrIdempotencyConflict;
      mret (RolledBack tt)
  | None =>
      now ← clock_timestamp;
      _ ← require_that (negb (After (pstate_ObservedAt s) now || negb (After (precord_ExpiresAt in_) now)))
            ErrSettlementEvidenceStale;
      local ← captureSettlementStateTx account;
      _ ← require_that ((state_SHA256 local == state_SHA256 (pstate_Settlement s))
             && same_balance f (state_Financial local)) ErrSettlementEvidenceStale;
      created ← gets db_now;
      _ ← insert_row (mkPreflightReceipt (precord_ReceiptID in_) (account_ID account)
            (pscope_OwnerUserID (pstate_Scope s)) (pscope_OwnershipVersion (pstate_Scope s)) digest
            (state_SHA256 (pstate_Settlement s)) (precord_UsageCheckpointSHA256 in_)
            (precord_InvoiceCheckpointSHA256 in_) (precord_ProviderCheckpointSHA256 in_)
            (mergeSettlementEvidence f (state_Financial local)) (pg_time (pstate_ObservedAt s))
            (pg_time (precord_ExpiresAt in_)) created);
      mret (Committed tt)
  end.

Definition RecordCloudPreflightEvidence (in_ : RecordCloudPreflightInput) : M unit :=
  let s := precord_State in_ in
  let f := state_Financial (pstate_Settlement s) in
  _ ← require_that (negb (negb (valid_preflight_scope (pstate_Scope s))
         || negb (canonicalUUID (precord_ReceiptID in_))
         || negb (validLowerSHA256 (state_SHA256 (pstate_Settlement s)))
         || negb (validCheckpoint (ev_UsageSettled f) (precord_UsageCheckpointSHA256 in_))
         || negb (validCheckpoint (ev_InvoicesReconciled f) (precord_InvoiceCheckpointSHA256 in_))
         || negb (validCheckpoint (ev_ProviderWorkReconciled f) (precord_ProviderCheckpointSHA256 in_))
         || IsZero (pstate_ObservedAt s) || negb (After (precord_ExpiresAt in_) (pstate_ObservedAt s))
         || After (precord_ExpiresAt in_) (Add (pstate_ObservedAt s) (5 * Minute)))) ErrConflict;
  _ ← require_that (forallb (Z.leb 0) (evidence_values f)) ErrConflict;
  let in_ := normalize_preflight in_ in
  withTx (recordCloudPreflightTx in_ (preflight_digest in_)).

(** The receipt still proves the current state of the account. *)
Definition preflight_current (state : SettlementState) (now : Time) (r : PreflightReceipt) : bool :=
  (preflight_StateSHA256 r == state_SHA256 state) && negb (After (preflight_ObservedAt r) now)
  && After (preflight_ExpiresAt r) now && After (preflight_ObservedAt r) (Add now (- (5 * Minute))).

Definition lifecycle_active (db : Db) (accountID : string) : bool :=
  handoff_open db accountID || closure_open db accountID.

Definition getCloudFinancialPreflight (scope : CloudPreflightScope) (transfer : bool) :
    M CloudDeletionPreflight :=
  _ ← require_that (valid_preflight_scope scope) ErrConflict;
  withTx (
    account ← loadCloudPreflightAccountTx scope;
    state ← captureSettlementStateTx account;
    now ← clock_timestamp;
    latest ← gets (fun db => latest_preflight db (account_ID account) scope);
    let local := state_Financial state in
    let good := match latest with
                | Some r => if preflight_current state now r then Some r else None
                | None => None
                end in
    let financial := match good with
                     | Some r => mergeSettlementEvidence (preflight_Evidence r) local
                     | None => local
                     end in
    let missing := match good with Some _ => [] | None => ["evidence_unavailable"] end in
    let blockers := if transfer then OwnershipTransferBlockers financial else CloudClosureBlockers financial in
    let public := foldl add_blocker missing (public_blocker transfer <$> blockers) in
    active ← gets (fun db => lifecycle_active db (account_ID account));
    let public := if active || (account_State account != AccountStateActive)
                  then add_blocker public "lifecycle_conflict" else public in
    let expires := Add now (30 * Second) in
    mret (Committed (mkCloudDeletionPreflight scope (match public with [] => true | _ => false end) public
      (ev_BalanceMinor local) (ev_Currency local) now
      (match good with
       | Some r => if Before (preflight_ExpiresAt r) expires then preflight_ExpiresAt r else expires
       | None => expires
       end)
      (match good with Some r => preflight_ID r | None => "" end)
      (match good with Some r => preflight_RequestSHA256 r | None => "" end)
      (match good with
       | Some _ => ev_BalanceKnown financial && ev_UsageSettled financial
                   && ev_InvoicesReconciled financial && ev_ProviderWorkReconciled financial
       | None => false
       end)))).

Definition GetCloudDeletionPreflight (scope : CloudPreflightScope) : M CloudDeletionPreflight :=
  getCloudFinancialPreflight scope false.

(** ** [ownership_eligibility.go] *)

Definition valid_eligibility (in_ : OwnershipEligibilityRequest) : bool :=
  canonicalUUID (elig_CloudID in_) && canonicalUUID (elig_SourceUserID in_)
  && canonicalUUID (elig_TargetUserID in_) && (elig_SourceUserID in_ != elig_TargetUserID in_)
  && (0 <? elig_OwnershipVersion in_)
  && (((elig_Action in_ == "request") && (elig_TransferID in_ == ""))
      || ((elig_Action in_ == "accept") && canonicalUUID (elig_TransferID in_))).

Definition eligibility_json (in_ : OwnershipEligibilityRequest) : json_value :=
  JObject [("cloud_id", JString (elig_CloudID in_)); ("source_user_id", JString (elig_SourceUserID in_));
    ("target_user_id", JString (elig_TargetUserID in_)); ("transfer_id", JString (elig_TransferID in_));
    ("action", JString (elig_Action in_)); ("ownership_version", JNumber (elig_OwnershipVersion in_))].

Definition CheckOwnershipEligibility (in_ : OwnershipEligibilityRequest) : M OwnershipEligibility :=
  _ ← require_that (valid_eligibility in_) ErrConflict;
  view ← getCloudFinancialPreflight
           (mkCloudPreflightScope (elig_CloudID in_) (elig_SourceUserID in_) (elig_OwnershipVersion in_)) true;
  mret (mkOwnershipEligibility in_ (deletion_receiptID view)
    (if deletion_receiptID view != "" then
       handoffDigest [("Request", eligibility_json in_); ("ReceiptID", JString (deletion_receiptID view));
         ("ReceiptSHA256", JString (deletion_receiptSHA256 view))]
     else "")
    (deletion_Currency view) (deletion_BalanceMinor view) (deletion_complete view)
    (deletion_Blockers view) (deletion_ObservedAt view) (deletion_ExpiresAt view)).
End preflight.

Lemma keeps_RecordCloudPreflightEvidence {pg : Postgres} {dg : Digest} (R : relation Db) in_
    `{!Frame R, !Skips R PreflightReceipt} : keeps R (RecordCloudPreflightEvidence in_).
Proof.
  unfold RecordCloudPreflightEvidence, recordCloudPreflightTx, loadCloudPreflightAccountTx. keeps.
Qed.
#[export] Existing Instance keeps_RecordCloudPreflightEvidence.
