(* ===== verification/Collector.v ===== *)
(** * Collector evidence: [internal/paymentstore/collector_evidence.go]

    What Billing's own records show once a producer has proved that all usage up to a
    horizon was delivered: one statement reads the usage, invoice and provider records,
    decides the three completeness flags and renders the texts the checkpoints hash. *)
From S2P Require Import Prelude GoStrings GoTime BillingTypes Evidence PaymentTypes Payment Database.
From S2P Require Import Tables Keeps Accounts Setups Handoff Protocols Settlement Closure.

Record ReconcileSettlementInput := mkReconcileSettlementInput {
  reconcile_OrganizationID : string;
  reconcile_State : SettlementState;
  reconcile_CoveredThrough : Time;
  reconcile_ProducerCheckpointSHA256 : string
}.

Record ReconciledSettlementEvidence := mkReconciledSettlementEvidence {
  reconciled_Financial : FinancialEvidence;
  reconciled_UsageCheckpointSHA256 : string;
  reconciled_InvoiceCheckpointSHA256 : string;
  reconciled_ProviderCheckpointSHA256 : string
}.

Record HandoffCollectorTarget := mkHandoffCollectorTarget {
  target_Scope : HandoffScope;
  target_SourceUserID : string;
  target_Cutoff : Time
}.

(** ** The values of [to_jsonb] *)
Definition jtext (s : string) : json_value := if s == "" then JNull else JString s.
Definition jtime (t : option Time) : json_value := match t with Some t => JTime t | None => JNull end.
(** [jsonb_agg], NULL of no row. *)
Definition jagg {R} (f : R → json_value) (rows : list R) : json_value :=
  match rows with [] => JNull | _ => JArray (f <$> rows) end.

Definition usage_jsonb (u : UsageRow) : json_value :=
  let f := urow_Fact u in
  JObject [("usage_id", JString (fact_UsageID f)); ("service_code", JString (fact_ServiceCode f));
    ("metric_code", JString (fact_MetricCode f)); ("quantity", JNumber (fact_Quantity f));
    ("quantity_scale", JNumber (fact_QuantityScale f)); ("unit", JString (fact_Unit f));
    ("window_start", JTime (fact_WindowStart f)); ("window_end", JTime (fact_WindowEnd f));
    ("source", JString (fact_Source f)); ("source_sha256", JString (fact_SourceSHA256 f))].

Definition period_jsonb (p : BillingPeriod) : json_value :=
  JObject [("id", JString (bperiod_ID p)); ("state", JString (bperiod_State p));
    ("version", JNumber (bperiod_Version p)); ("period_start", JTime (bperiod_Start p));
    ("period_end", JTime (bperiod_End p)); ("usage_locked_at", jtime (bperiod_UsageLockedAt p));
    ("closed_at", jtime (bperiod_ClosedAt p)); ("pricing_version_id", jtext (bperiod_PricingVersionID p))].

Definition invoice_jsonb (i : Invoice) : json_value :=
  JObject [("id", JString (inv_ID i)); ("state", JString (inv_State i));
    ("version", JNumber (inv_Version i)); ("total_minor", JNumber (inv_TotalMinor i));
    ("amount_due_minor", JNumber (inv_AmountDueMinor i));
    ("amount_settled_minor", JNumber (inv_AmountSettledMinor i)); ("period_id", JString (inv_PeriodID i));
    ("period_start", JTime (inv_PeriodStart i)); ("period_end", JTime (inv_PeriodEnd i))].

Definition link_jsonb (l : SettlementLink) : json_value :=
  JObject [("invoice_id", JString (link_InvoiceID l)); ("ledger_entry_id", jtext (link_LedgerEntryID l));
    ("state", JString (link_State l)); ("attempt_count", JNumber (link_AttemptCount l))].

Definition usage_link_jsonb (l : Invoice * LineRow) : json_value :=
  JObject [("invoice_id", JString (inv_ID l.1)); ("state", JString (inv_State l.1));
    ("usage_fact_refs", JArray (JString <$> line_UsageFactRefs (lrow_Line l.2)))].

Definition intent_jsonb (i : PaymentIntent) : json_value :=
  JObject [("id", JString (intent_ID i)); ("state", JString (intent_State i));
    ("amount_minor", JNumber (intent_AmountMinor i)); ("currency", JString (intent_Currency i));
    ("provider", JString (intent_Provider i)); ("updated_at", JTime (intent_UpdatedAt i));
    ("completed_at", jtime (intent_CompletedAt i))].

Definition job_jsonb (j : ReconciliationJob) : json_value :=
  JObject [("id", JString (job_ID j)); ("intent_id", JString (job_IntentID j));
    ("reason", JString (job_Reason j)); ("status", JString (job_Status j));
    ("updated_at", JTime (job_UpdatedAt j))].

Definition attempt_jsonb (a : PaymentAttempt) : json_value :=
  JObject [("id", JString (attempt_ID a)); ("intent_id", JString (attempt_IntentID a));
    ("operation", JString (attempt_Operation a)); ("normalized_result", JString (attempt_NormalizedResult a));
    ("completed_at", jtime (attempt_CompletedAt a))].

Definition setup_jsonb (s : PaymentMethodSetupSession) : json_value :=
  JObject [("id", JString (setup_ID s)); ("state", JString (setup_State s));
    ("invalidated_by_handoff", jtext (setup_InvalidatedByHandoff s));
    ("invalidated_by_closure", jtext (setup_InvalidatedByClosure s));
    ("updated_at", JTime (setup_UpdatedAt s))].

Definition webhook_jsonb (w : WebhookReceipt) : json_value :=
  JObject [("id", JString (receipt_ID w)); ("intent_id", JString (receipt_IntentID w));
    ("processing_state", JString (receipt_ProcessingState w));
    ("payload_sha256", JString (receipt_PayloadSHA256 w))].

(** ** The common table expressions, for an account and a horizon *)
Section reconcile.
Context (db : Db) (accountID organizationID : string) (through : Time).

Definition covered_usage : list UsageRow :=
  filter (fun u => (fact_WindowStart (urow_Fact u) <? through) = true) (own_usage db organizationID).
Definition covered_periods : list BillingPeriod :=
  filter (fun p => (bperiod_Start p <? through) = true) (own_periods db organizationID).
Definition covered_invoices : list Invoice :=
  filter (fun i => (inv_PeriodStart i <? through) = true) (own_invoices db accountID).
Definition covered_links : list SettlementLink :=
  filter (fun l => existsb (fun i => inv_ID i == link_InvoiceID l) covered_invoices = true)
    (bt_links (db_billing db)).
Definition usage_links : list (Invoice * LineRow) :=
  i ← by_id inv_ID covered_invoices;
  l ← filter (fun l => lrow_InvoiceID l = inv_ID i) (bt_lines (db_billing db));
  [(i, l)].
Definition reversal_allocated (e : ReversalEvent) : bool :=
  existsb (fun a => alloc_EventID a == event_ID e) (db_allocations db).
Definition own_reversals : list ReversalEvent :=
  filter (fun e => event_AccountID e = accountID) (db_reversals db).

Definition usage_state : json_value :=
  JObject [("covered_through", JTime through);
    ("usage", jagg usage_jsonb (by_id (fun u => fact_UsageID (urow_Fact u)) covered_usage));
    ("links", jagg usage_link_jsonb usage_links)].
Definition invoice_state : json_value :=
  JObject [("covered_through", JTime through);
    ("periods", jagg period_jsonb (by_id bperiod_ID covered_periods));
    ("invoices", jagg invoice_jsonb (by_id inv_ID covered_invoices));
    ("settlements", jagg link_jsonb (by_id link_InvoiceID covered_links))].
Definition provider_state : json_value :=
  JObject [("intents", jagg intent_jsonb (by_id intent_ID (own_intents db accountID)));
    ("jobs", jagg job_jsonb (by_id job_ID (own_jobs db accountID)));
    ("attempts", jagg attempt_jsonb (by_id attempt_ID (own_attempts db accountID)));
    ("setups", jagg setup_jsonb (by_id setup_ID (own_setups db accountID)));
    ("webhooks", jagg webhook_jsonb (by_id receipt_ID (own_webhooks db accountID)));
    ("reversals", jagg (fun e => JObject [("id", JString (event_ID e));
        ("request_sha256", JString (event_RequestSHA256 e)); ("allocated", JBool (reversal_allocated e))])
      (by_id event_ID own_reversals))].

(** No fact that ends after the horizon, or that no settled invoice refers to. *)
Definition usage_settled : bool :=
  negb (existsb (fun u => (through <? fact_WindowEnd (urow_Fact u))
      || negb (existsb (fun l => (inv_State l.1 == InvoiceStateSettled)
                 && one_of (fact_UsageID (urow_Fact u)) (line_UsageFactRefs (lrow_Line l.2))) usage_links))
    covered_usage).

Definition invoice_open (i : Invoice) : bool :=
  negb (one_of (inv_State i) [InvoiceStateSettled; InvoiceStateVoid]) || (inv_AmountDueMinor i != 0)
  || ((0 <? inv_TotalMinor i)
      && negb (existsb (fun l => (link_InvoiceID l == inv_ID i) && (link_State l == "posted")
                 && (link_LedgerEntryID l != "")) covered_links)).
Definition invoices_reconciled : bool :=
  negb (existsb (fun p => bperiod_State p != "closed") covered_periods)
  && negb (existsb invoice_open covered_invoices).

Definition provider_work_reconciled : bool :=
  negb (existsb intent_open (own_intents db accountID))
  && negb (existsb (fun j => job_Status j != ReconciliationStatusCompleted) (own_jobs db accountID))
  && negb (existsb (fun a => bool_decide (attempt_CompletedAt a = None)) (own_attempts db accountID))
  && negb (existsb (fun s => one_of (setup_State s) ["created"; "requires_action"; "unknown"])
             (own_setups db accountID))
  && negb (existsb (fun w => receipt_ProcessingState w != "processed") (own_webhooks db accountID))
  && negb (existsb (fun e => negb (reversal_allocated e)) own_reversals).
End reconcile.

Section collector.
Context {pg : Postgres} {dg : Digest}.

(** The evidence with the flags the records support, and a checkpoint for each of them. *)
Definition reconciled (in_ : ReconcileSettlementInput) (financial : FinancialEvidence) (db : Db)
    (account : CommercialAccount) : ReconciledSettlementEvidence :=
  let through := pg_time (reconcile_CoveredThrough in_) in
  let a := account_ID account in
  let org := reconcile_OrganizationID in_ in
  let digest := state_SHA256 (reconcile_State in_) in
  let invoices := invoices_reconciled db a org through in
  let usage := usage_settled db a org through && invoices in
  let provider := provider_work_reconciled db a in
  mkReconciledSettlementEvidence
    (mkFinancialEvidence (ev_BalanceKnown financial) (ev_Currency financial) (ev_BalanceMinor financial)
       usage invoices provider (ev_UnpaidInvoiceCount financial) (ev_DebtMinor financial)
       (ev_PendingPaymentCount financial) (ev_PendingRefundCount financial)
       (ev_OpenDisputeCount financial) (ev_PendingSetupCount financial)
       (ev_UnresolvedProviderEventCount financial))
    (if usage then collectorCheckpoint "billing-settled-usage-v1"
                     [reconcile_ProducerCheckpointSHA256 in_; jsonb_text (usage_state db a org through); digest]
     else "")
    (if invoices then collectorCheckpoint "billing-reconciled-invoices-v1"
                        [jsonb_text (invoice_state db a org through); digest]
     else "")
    (if provider then collectorCheckpoint "billing-reconciled-provider-work-v1"
                        [jsonb_text (provider_state db a); digest]
     else "").

Definition ReconcileSettlementEvidence (in_ : ReconcileSettlementInput) : M ReconciledSettlementEvidence :=
  _ ← require_that (negb (negb (canonicalUUID (reconcile_OrganizationID in_))
         || negb (validLowerSHA256 (state_SHA256 (reconcile_State in_)))
         || negb (validLowerSHA256 (reconcile_ProducerCheckpointSHA256 in_))
         || IsZero (reconcile_CoveredThrough in_)
         || negb (Equal (reconcile_CoveredThrough in_) (databaseTime (reconcile_CoveredThrough in_)))))
        ErrConflict;
  withTx (
    account ← scan (select (by_organization (reconcile_OrganizationID in_) Settlement));
    state ← captureSettlementStateTx account;
    _ ← require_that (state_SHA256 state == state_SHA256 (reconcile_State in_)) ErrSettlementEvidenceStale;
    out ← gets (fun db => reconciled in_ (state_Financial state) db account);
    mret (Committed out)).

(** [... WHERE a.state<>'closed' AND ($1='' OR a.organization_id::text>$1) ORDER BY
    a.organization_id LIMIT $2] *)
Definition ListCloudPreflightScopes (afterOrganizationID : string) (limit : Z) : M (list CloudPreflightScope) :=
  _ ← require_that (negb ((limit <? 1) || (500 <? limit)
         || ((afterOrganizationID != "") && negb (canonicalUUID afterOrganizationID)))) ErrConflict;
  gets (fun db =>
    take (Z.to_nat limit) (
      a ← by_id account_OrganizationID (filter (fun a => account_State a ≠ AccountStateClosed
            ∧ (afterOrganizationID = "" ∨ String.ltb afterOrganizationID (account_OrganizationID a) = true))
            (db_accounts db));
      r ← filter (fun r => period_AccountID r = account_ID a ∧ period_EffectiveUntil r = None) (db_periods db);
      [mkCloudPreflightScope (account_OrganizationID a) (period_OwnerUserID r) (period_OwnershipVersion r)])).

Definition IsCollectorRetryable (err : option GoError) : bool :=
  match err with
  | Some e => (e == ErrSettlementEvidenceStale) || (e == ErrOwnershipVersionConflict) || (e == ErrConflict)
  | None => false
  end.
End collector.
