(* ===== verification/Creation.v ===== *)
(** * Creation of a cloud: [internal/paymentstore/cloud_creation.go]

    The account and the first responsibility period of a new cloud, from the immutable
    event of the account manager, exactly once. *)
From S2P Require Import Prelude GoStrings GoTime BillingTypes Evidence PaymentTypes Payment Database.
From S2P Require Import Tables Keeps Accounts Handoff Protocols.

Record CloudCreation := mkCloudCreation {
  create_EventID : string;
  create_OrganizationID : string;
  create_OwnerUserID : string;
  create_OwnershipVersion : Z;
  create_OccurredAt : Time;
  create_EvidenceSHA256 : string
}.

Record CloudCreationReceipt := mkCloudCreationReceipt {
  created_CloudCreation : CloudCreation;
  created_AccountID : string
}.

(** [n] digits of a number, zero-padded. *)
Definition padded (n : nat) (z : Z) : string :=
  let s := pretty z in String.concat "" (replicate (n - String.length s) "0") +:+ s.

(** [t.UTC().Format("2006-01-02T15:04:05.000000Z")] *)
Definition format_micros (t : Time) : string :=
  let within := t mod Day in
  padded 4 (Year t 0) +:+ "-" +:+ padded 2 (Month t 0) +:+ "-" +:+ padded 2 (MonthDay t 0)
  +:+ "T" +:+ padded 2 (within / Hour) +:+ ":" +:+ padded 2 (within mod Hour / Minute)
  +:+ ":" +:+ padded 2 (within mod Minute / Second)
  +:+ "." +:+ padded 6 (within mod Second / Microsecond) +:+ "Z".

Example format_epoch : format_micros (Date 2024 2 29 0 + 3 * Hour + 7 * Minute + 5 * Second + 42 * Microsecond)
  = "2024-02-29T03:07:05.000042Z".
Proof. by vm_compute. Qed.

Section creation.
Context {pg : Postgres} {dg : Digest}.

Definition EvidenceDigest (in_ : CloudCreation) : string :=
  sha256_hex (String.concat newline ["brand-cloud-created-v1"; create_EventID in_; create_OrganizationID in_;
    create_OwnerUserID in_; "1"; format_micros (create_OccurredAt in_)]).

Definition Valid (in_ : CloudCreation) : bool :=
  canonicalUUID (create_EventID in_) && canonicalUUID (create_OrganizationID in_)
  && canonicalUUID (create_OwnerUserID in_) && (create_OwnershipVersion in_ =? 1)
  && negb (IsZero (create_OccurredAt in_))
  && Equal (create_OccurredAt in_) (databaseTime (create_OccurredAt in_))
  && (create_EvidenceSHA256 in_ == EvidenceDigest in_).

Definition receipt_matches (in_ : CloudCreation) (r : CreationReceipt) : bool :=
  negb ((creation_EventID r != create_EventID in_) || (creation_OrganizationID r != create_OrganizationID in_)
    || (creation_OwnerUserID r != create_OwnerUserID in_)
    || (creation_OwnershipVersion r != create_OwnershipVersion in_)
    || negb (Equal (creation_OccurredAt r) (create_OccurredAt in_))
    || (creation_EvidenceSHA256 r != create_EvidenceSHA256 in_)).

Definition receipt_of (r : CreationReceipt) : CloudCreationReceipt :=
  mkCloudCreationReceipt (mkCloudCreation (creation_EventID r) (creation_OrganizationID r)
    (creation_OwnerUserID r) (creation_OwnershipVersion r) (creation_OccurredAt r)
    (creation_EvidenceSHA256 r)) (creation_AccountID r).

Definition bootstrapTx (in_ : CloudCreation) : M (Outcome CloudCreationReceipt) :=
  existing ← try_err ErrNoRows (select (fun r => (creation_OrganizationID r == create_OrganizationID in_)
                                                 || (creation_EventID r == create_EventID in_)));
  match existing with
  | Some r =>
      _ ← require_that (receipt_matches in_ r) ErrIdempotencyConflict;
      mret (RolledBack (receipt_of r))
  | None =>
      wall ← clock_timestamp;
      _ ← require_that (pg_time (create_OccurredAt in_) <=? wall) ErrConflict;
      id ← fresh;
      now ← gets db_now;
      created ← try_err ErrNoRows (insert_or_nothing
        (fun a b => by_organization (account_OrganizationID b) (account_Currency b) a)
        (mkCommercialAccount id (create_OrganizationID in_) Settlement 0 AccountStateActive 0 now now));
      match created with
      | None => throw ErrOwnershipEvidenceMissing
      | Some account =>
          periodID ← fresh;
          _ ← insert_period (mkResponsibilityPeriod periodID (account_ID account) (create_OwnerUserID in_) 1
                (pg_time (create_OccurredAt in_)) None (create_EvidenceSHA256 in_) None);
          _ ← insert_row (mkCreationReceipt (create_EventID in_) (create_OrganizationID in_)
                (account_ID account) (create_OwnerUserID in_) 1 (pg_time (create_OccurredAt in_))
                (create_EvidenceSHA256 in_));
          mret (Committed (mkCloudCreationReceipt in_ (account_ID account)))
      end
  end.

Definition BootstrapBrandCloud (in_ : CloudCreation) : M CloudCreationReceipt :=
  _ ← require_that (Valid in_) ErrConflict;
  withTx (bootstrapTx in_).
End creation.

(** The bootstrap keeps what a new account keeps. *)
Lemma keeps_BootstrapBrandCloud {pg : Postgres} {dg : Digest} (R : relation Db) in_
    `{!Frame R, !Touches R, !Skips R ResponsibilityPeriod, !Skips R CreationReceipt} :
  (∀ target a, account_AvailableBalanceMinor a = 0 → keeps R (insert_or_nothing target a)) →
  keeps R (BootstrapBrandCloud in_).
Proof. intros Hnew. unfold BootstrapBrandCloud, bootstrapTx. keeps. by apply Hnew. Qed.
