(* ===== verification/Operations.v ===== *)
(** * The operations of the store

    All operations of the payment store as one type, and any sequence of them from any
    database: an operation that fails leaves the database as it was ([run]), and clocks
    may show anything.  [FinalizeOwnershipHandoff] is two transactions, hence two
    operations. *)
From S2P Require Import Prelude GoStrings GoTime BillingTypes Evidence PaymentTypes Payment Database.
From S2P Require Import Tables Keeps Accounts Ledger AutoTopUp Intents Credits Jobs Attempts.
From S2P Require Import Webhooks Customer Reversals Setups Handoff Protocols Settlement HandoffCommit.
From S2P Require Import Closure Preflight Creation.

Inductive operation :=
  | OpClock (now clock : Time) (wall : list Time)
  | OpEnsureAccount (ctx : Ctx) (organizationID : string) (code : Currency)
  | OpPost (ctx : Ctx) (in_ : PostLedgerEntryInput)
  | OpTransition (ctx : Ctx) (in_ : TransitionIntentInput)
  | OpClaimJobs (now staleBefore : Time) (leaseOwner : string) (limit : Z)
  | OpBeginAttempt (ctx : Ctx) (in_ : BeginProviderAttemptInput)
  | OpSetDigest (attemptID sha256 : string)
  | OpFinalizeAttempt (ctx : Ctx) (in_ : FinalizeProviderAttemptInput)
  | OpCompleteJob (jobID leaseOwner : string)
  | OpRetryJob (jobID leaseOwner : string) (dueAt : Time) (safeError : string)
  | OpWebhook (ctx : Ctx) (in_ : RecordWebhookInput)
  | OpClaimEmails (now : Time) (limit : Z)
  | OpEmailSent (intentID : string) (attempt : Z) (now : Time)
  | OpEmailRetry (intentID : string) (attempt : Z) (now : Time)
  | OpConsent (ctx : Ctx) (in_ : CreateConsentInput)
  | OpMethod (ctx : Ctx) (in_ : CreatePaymentMethodInput)
  | OpPutPolicy (ctx : Ctx) (in_ : PutAutoTopUpPolicyInput)
  | OpDisablePolicy (ctx : Ctx) (accountID actorID : string) (expectedVersion : Z)
  | OpRevokeMethod (ctx : Ctx) (in_ : RevokePaymentMethodInput)
  | OpManualTopUp (ctx : Ctx) (in_ : CreateManualTopUpInput)
  | OpHostedTopUp (ctx : Ctx) (in_ : CreateHostedTopUpInput) (random : string)
  | OpBeginSetup (ctx : Ctx) (in_ : BeginPaymentMethodSetupInput)
  | OpCompleteSetup (ctx : Ctx) (in_ : CompletePaymentMethodSetupInput)
  | OpReversal (ctx : Ctx) (in_ : RecordProviderReversalInput)
  | OpResolveReversal (ctx : Ctx) (in_ : ResolveProviderReversalInput)
  | OpBindPayment (ctx : Ctx) (in_ : BindHistoricalPaymentResponsibilityInput)
  | OpResponsibility (ctx : Ctx) (in_ : InitialResponsibilityInput)
  | OpBootstrap (in_ : CloudCreation)
  | OpPreflight (in_ : RecordCloudPreflightInput)
  | OpHandoff (in_ : PrepareOwnershipHandoffInput)
  | OpSettlement (in_ : RecordSettlementInput)
  | OpConfirm (in_ : ConfirmHandoffSnapshotInput)
  | OpAuthorize (in_ : AuthorizeHandoffCommitInput)
  | OpDecision (in_ : FinalizeHandoffInput)
  | OpFinalize (in_ : FinalizeHandoffInput)
  | OpBeginAbort (in_ : BeginHandoffAbortInput)
  | OpCompleteAbort (in_ : CompleteHandoffAbortInput)
  | OpClosure (in_ : PrepareCloudClosureInput)
  | OpRevocation (scope : CloudClosureScope) (subjectType subjectID receiptSHA : string)
  | OpClosureSettlement (in_ : RecordCloudClosureSettlementInput)
  | OpCloseCloud (in_ : CloseCloudInput)
  | OpCancelClosure (scope : CloudClosureScope) (cancellationID decisionSHA : string)
  | OpReleaseClosure (scope : CloudClosureScope) (cancellationID releaseSHA : string)
  | OpRetireClose (in_ : CloseCloudInput).

(** The handoff operations, and those of closures. *)
Definition on_handoff (op : operation) : bool :=
  match op with
  | OpHandoff _ | OpSettlement _ | OpConfirm _ | OpAuthorize _ | OpDecision _ | OpFinalize _
  | OpBeginAbort _ | OpCompleteAbort _ => true
  | _ => false
  end.
Definition on_closure (op : operation) : bool :=
  match op with
  | OpClosure _ | OpRevocation _ _ _ _ | OpClosureSettlement _ | OpCloseCloud _ | OpCancelClosure _ _ _
  | OpReleaseClosure _ _ _ | OpRetireClose _ => true
  | _ => false
  end.
(** The operations that start a responsibility. *)
Definition on_creation (op : operation) : bool :=
  match op with OpResponsibility _ _ | OpBootstrap _ | OpPreflight _ => true | _ => false end.

Section operations.
Context {pg : Postgres} {dg : Digest}.

Definition ignore {A} (m : M A) : M unit := _ ← m; mret tt.

Definition set_clock (now clock : Time) (wall : list Time) (db : Db) : Db :=
  db <| db_now := now |> <| db_clock := clock |> <| db_wall := wall |>.

Definition exec (op : operation) : M unit :=
  match op with
  | OpClock now clock wall => fun db => Ok (tt, set_clock now clock wall db)
  | OpEnsureAccount ctx organizationID code => ignore (EnsureCommercialAccount ctx organizationID code)
  | OpPost ctx in_ => ignore (PostLedgerEntry ctx in_)
  | OpTransition ctx in_ => ignore (TransitionIntent ctx in_)
  | OpClaimJobs now stale owner limit => ignore (ClaimPaymentJobs now stale owner limit)
  | OpBeginAttempt ctx in_ => ignore (BeginProviderAttempt ctx in_)
  | OpSetDigest attemptID sha256 => SetAttemptRequestDigest attemptID sha256
  | OpFinalizeAttempt ctx in_ => ignore (FinalizeProviderAttempt ctx in_)
  | OpCompleteJob jobID owner => CompletePaymentJob jobID owner
  | OpRetryJob jobID owner dueAt e => RetryPaymentJob jobID owner dueAt e
  | OpWebhook ctx in_ => ignore (RecordWebhook ctx in_)
  | OpClaimEmails now limit => ignore (ClaimTopUpEmails now limit)
  | OpEmailSent id attempt now => ignore (MarkTopUpEmailSent id attempt now)
  | OpEmailRetry id attempt now => ignore (RetryTopUpEmail id attempt now)
  | OpConsent ctx in_ => ignore (CreateConsent ctx in_)
  | OpMethod ctx in_ => ignore (CreatePaymentMethod ctx in_)
  | OpPutPolicy ctx in_ => ignore (PutAutoTopUpPolicy ctx in_)
  | OpDisablePolicy ctx a actor v => ignore (DisableAutoTopUpPolicy ctx a actor v)
  | OpRevokeMethod ctx in_ => ignore (RevokePaymentMethod ctx in_)
  | OpManualTopUp ctx in_ => ignore (CreateManualTopUp ctx in_)
  | OpHostedTopUp ctx in_ random => ignore (CreateHostedTopUp ctx in_ random)
  | OpBeginSetup ctx in_ => ignore (BeginPaymentMethodSetup ctx in_)
  | OpCompleteSetup ctx in_ => ignore (CompletePaymentMethodSetup ctx in_)
  | OpReversal ctx in_ => ignore (RecordProviderReversal ctx in_)
  | OpResolveReversal ctx in_ => ignore (ResolveProviderReversal ctx in_)
  | OpBindPayment ctx in_ => BindHistoricalPaymentResponsibility ctx in_
  | OpResponsibility ctx in_ => InitializeResponsibility ctx in_
  | OpBootstrap in_ => ignore (BootstrapBrandCloud in_)
  | OpPreflight in_ => RecordCloudPreflightEvidence in_
  | OpHandoff in_ => ignore (PrepareOwnershipHandoff in_)
  | OpSettlement in_ => ignore (RecordHandoffSettlement in_)
  | OpConfirm in_ => ignore (ConfirmHandoffSnapshot in_)
  | OpAuthorize in_ => ignore (AuthorizeHandoffCommit in_)
  | OpDecision in_ => recordCommittedHandoffDecision in_
  | OpFinalize in_ => ignore (finalizeOwnershipHandoff in_)
  | OpBeginAbort in_ => ignore (BeginOwnershipHandoffAbort in_)
  | OpCompleteAbort in_ => ignore (CompleteOwnershipHandoffAbort in_)
  | OpClosure in_ => ignore (PrepareCloudClosure in_)
  | OpRevocation scope ty id sha => RecordCloudClosureRevocation scope ty id sha
  | OpClosureSettlement in_ => RecordCloudClosureSettlement in_
  | OpCloseCloud in_ => ignore (CloseCloud in_)
  | OpCancelClosure scope id sha => ignore (CancelCloudClosure scope id sha)
  | OpReleaseClosure scope id sha => ignore (CompleteCloudClosureCancellation scope id sha)
  | OpRetireClose in_ => ignore (RetireCloudClose in_)
  end.

Definition run_op (db : Db) (op : operation) : Db := (run (exec op) db).2.
Definition run_all : list operation → Db → Db := flip (foldl run_op).

Lemma run_op_keeps (R : relation Db) `{!PreOrder R} op db : keeps R (exec op) → R db (run_op db op).
Proof.
  intros H. unfold run_op, run. destruct (exec op db) as [[u db']|e] eqn:E; [|done]. by eapply H.
Qed.

Lemma run_all_keeps (R : relation Db) `{!PreOrder R} ops db :
  Forall (fun op => keeps R (exec op)) ops → R db (run_all ops db).
Proof.
  unfold run_all. intros Hops. revert db.
  induction Hops as [|op ops Hop _ IH]; intros db; [done|]. simpl.
  transitivity (run_op db op); [by apply run_op_keeps|apply IH].
Qed.

Lemma keeps_ignore (R : relation Db) `{!PreOrder R} {A} (m : M A) : keeps R m → keeps R (ignore m).
Proof. intros Hm. unfold ignore. apply keeps_bind; [apply _|done|intros; apply _]. Qed.

(** ** What the ordinary operations leave alone

    A relation that ignores the tables the payment store works on day by day, and that
    an UPDATE of an account and a new account keep; [Apart] also ignores the ledger. *)
Class NearlyApart (R : relation Db) := {
  nearly_frame :: Frame R;
  nearly_clock : ∀ db now clock wall, R db (set_clock now clock wall db);
  nearly_account :: KeepsAccount R;
  nearly_touch :: Touches R;
  nearly_new_account : ∀ target a, account_AvailableBalanceMinor a = 0 → keeps R (insert_or_nothing target a);
  nearly_consents :: Skips R PaymentConsent;
  nearly_methods :: Skips R MethodRow;
  nearly_policies :: Skips R AutoTopUpPolicy;
  nearly_intents :: Skips R PaymentIntent;
  nearly_attempts :: Skips R PaymentAttempt;
  nearly_jobs :: Skips R ReconciliationJob;
  nearly_receipts :: Skips R WebhookReceipt;
  nearly_emails :: Skips R TopUpEmailRow;
  nearly_setups :: Skips R PaymentMethodSetupSession;
  nearly_observations :: Skips R SetupObservation;
  nearly_reversals :: Skips R ReversalEvent;
  nearly_allocations :: Skips R ReversalAllocation;
  nearly_reviews :: Skips R ReversalReview
}.

(** The entries of payments and of their reversals. *)
Class KeepsPaymentEntries (R : relation Db) := {
  keeps_credit :: ∀ account a intent now, keeps R (insertLedgerEntryTx account (credit_input a intent now));
  keeps_reversal_entry :: ∀ account a in_ now, keeps R (insertLedgerEntryTx account (reversal_input a in_ now))
}.

Class Apart (R : relation Db) := {
  apart_frame :: Frame R;
  apart_clock : ∀ db now clock wall, R db (set_clock now clock wall db);
  apart_account :: KeepsAccount R;
  apart_touch :: Touches R;
  apart_new_account : ∀ target a, account_AvailableBalanceMinor a = 0 → keeps R (insert_or_nothing target a);
  apart_entries :: KeepsEntry R;
  apart_consents :: Skips R PaymentConsent;
  apart_methods :: Skips R MethodRow;
  apart_policies :: Skips R AutoTopUpPolicy;
  apart_intents :: Skips R PaymentIntent;
  apart_attempts :: Skips R PaymentAttempt;
  apart_jobs :: Skips R ReconciliationJob;
  apart_receipts :: Skips R WebhookReceipt;
  apart_emails :: Skips R TopUpEmailRow;
  apart_setups :: Skips R PaymentMethodSetupSession;
  apart_observations :: Skips R SetupObservation;
  apart_reversals :: Skips R ReversalEvent;
  apart_allocations :: Skips R ReversalAllocation;
  apart_reviews :: Skips R ReversalReview
}.

#[export] Instance Apart_nearly (R : relation Db) `{!Apart R} : NearlyApart R | 50.
Proof. split; try apply _; [apply apart_clock|apply apart_new_account]. Qed.
#[export] Instance Apart_payments (R : relation Db) `{!Apart R} : KeepsPaymentEntries R | 50.
Proof. split; apply _. Qed.

Section apart.
Context (R : relation Db) `{!NearlyApart R, !KeepsPaymentEntries R}.

Lemma keeps_EnsureCommercialAccount ctx organizationID code : keeps R (EnsureCommercialAccount ctx organizationID code).
Proof.
  unfold EnsureCommercialAccount, GetCommercialAccount. keeps. by apply nearly_new_account.
Qed.
#[local] Instance keeps_findWebhookDuplicate p r d : keeps R (findWebhookDuplicate p r d).
Proof.
  intros db a db' H. unfold findWebhookDuplicate in H. destruct (sort_stable _ _); [done|].
  by injection H as _ <-.
Qed.
#[local] Instance keeps_add_binding b : keeps R (add_binding b).
Proof. intros db u db' [= _ <-]. apply frame_intent_periods. Qed.
#[local] Existing Instances keeps_ignore keeps_EnsureCommercialAccount.

Ltac walk := try (apply keeps_ignore; [apply _|]); keeps.

Lemma keeps_transition ctx in_ : keeps R (TransitionIntent ctx in_).
Proof. unfold TransitionIntent, transitionIntentTx. keeps. Qed.
Lemma keeps_begin_attempt ctx in_ : keeps R (BeginProviderAttempt ctx in_).
Proof. unfold BeginProviderAttempt, beginProviderAttemptTx, prepare_operation. keeps. Qed.
Lemma keeps_finalize_attempt ctx in_ : keeps R (FinalizeProviderAttempt ctx in_).
Proof. unfold FinalizeProviderAttempt, finalizeProviderAttemptTx, transitionIntentTx. keeps. Qed.
Lemma keeps_webhook ctx in_ : keeps R (RecordWebhook ctx in_).
Proof. unfold RecordWebhook, recordWebhookTx, match_event. keeps. Qed.
Lemma keeps_reversal ctx in_ : keeps R (RecordProviderReversal ctx in_).
Proof.
  unfold RecordProviderReversal, recordProviderReversalTx, allocateProviderReversalTx,
    classifyProviderReversalTx, getProviderReversalResultTx. keeps.
Qed.
Lemma keeps_resolve ctx in_ : keeps R (ResolveProviderReversal ctx in_).
Proof.
  unfold ResolveProviderReversal, resolveProviderReversalTx, allocateProviderReversalTx,
    classifyProviderReversalTx, getProviderReversalResultTx. keeps.
Qed.
Lemma keeps_setup_ops ctx in_ : keeps R (BeginPaymentMethodSetup ctx in_).
Proof.
  unfold BeginPaymentMethodSetup, beginPaymentMethodSetupTx, insert_setup_records,
    getPaymentMethodSetupByKey. keeps.
Qed.
Lemma keeps_complete_setup ctx in_ : keeps R (CompletePaymentMethodSetup ctx in_).
Proof.
  unfold CompletePaymentMethodSetup, completePaymentMethodSetupTx, getPaymentMethodSetupByID. keeps.
Qed.
#[local] Existing Instances keeps_transition keeps_begin_attempt keeps_finalize_attempt
  keeps_webhook keeps_reversal keeps_resolve keeps_setup_ops keeps_complete_setup.

Lemma keeps_customer_ops ctx :
  (∀ in_, keeps R (CreateConsent ctx in_)) ∧ (∀ in_, keeps R (CreatePaymentMethod ctx in_)) ∧
  (∀ in_, keeps R (PutAutoTopUpPolicy ctx in_)) ∧ (∀ in_, keeps R (RevokePaymentMethod ctx in_)) ∧
  (∀ a b v, keeps R (DisableAutoTopUpPolicy ctx a b v)) ∧ (∀ in_, keeps R (CreateManualTopUp ctx in_)) ∧
  (∀ in_ r, keeps R (CreateHostedTopUp ctx in_ r)).
Proof.
  unfold CreateConsent, CreatePaymentMethod, PutAutoTopUpPolicy, putAutoTopUpPolicyTx,
    next_policy_version, check_replaced_policy, RevokePaymentMethod, revokePaymentMethodTx,
    DisableAutoTopUpPolicy, disableAutoTopUpPolicyTx, CreateManualTopUp, createManualTopUpTx,
    CreateHostedTopUp, createHostedTopUpTx, require_topup_account, getIntentByIdempotency,
    getConsentForUpdate.
  split_and!; keeps.
Qed.

(** The operations of neither protocol keep such a relation. *)
Lemma exec_nearly op :
  (∀ ctx in_ account now, op = OpPost ctx in_ → keeps R (insertLedgerEntryTx account (with_now now in_))) →
  on_handoff op = false → on_closure op = false → on_creation op = false → keeps R (exec op).
Proof.
  intros Hpost. destruct op; try done; intros _ _ _; cbn [exec]; try (apply keeps_ignore; [apply _|]);
    try (match goal with ctx : Ctx |- _ => destruct (keeps_customer_ops ctx) as (?&?&?&?&?&?&?); done end);
    try apply _.
  - intros db u db' [= _ <-]. apply nearly_clock.
  - apply keeps_PostLedgerEntry; [apply _..|]. intros. by eapply Hpost.
  - unfold ClaimPaymentJobs. keeps.
  - unfold SetAttemptRequestDigest. keeps.
  - unfold CompletePaymentJob. keeps.
  - unfold RetryPaymentJob. keeps.
  - unfold ClaimTopUpEmails. keeps.
  - unfold MarkTopUpEmailSent. keeps.
  - unfold RetryTopUpEmail. keeps.
  - unfold BindHistoricalPaymentResponsibility, insert_reviewed_binding. keeps.
Qed.
End apart.

Lemma exec_apart (R : relation Db) `{!Apart R} op :
  on_handoff op = false → on_closure op = false → on_creation op = false → keeps R (exec op).
Proof. apply exec_nearly; try apply _. Qed.
End operations.
