(* ===== verification/Responsibility.v ===== *)
(** * Responsibility periods

    What the statements on [billing_responsibility_periods] do, and the timeline of an
    account: at any time at most one owner is responsible for it.  Every operation of
    the store keeps the timeline. *)
From S2P Require Import Prelude GoStrings GoTime BillingTypes Evidence PaymentTypes Payment Database.
From S2P Require Import Tables Keeps Accounts Ledger Credits Setups Handoff Protocols Settlement HandoffCommit.
From S2P Require Import Closure Preflight Creation Operations.

Definition same_periods (db db' : Db) : Prop := db_periods db' = db_periods db.
#[export] Instance same_periods_preorder : PreOrder same_periods.
Proof. unfold same_periods. split; [done|]. intros x y z. congruence. Qed.
#[export] Instance same_periods_frame : Frame same_periods.
Proof. split; [apply _|done..]. Qed.
#[export] Hint Extern 1 (Skips same_periods _) => by intros ?? : typeclass_instances.
#[export] Instance same_periods_apart : Apart same_periods.
Proof. split; try apply _; done. Qed.

(** The identities and balances of the accounts. *)
Definition same_keys (db db' : Db) : Prop := account_key <$> db_accounts db' = account_key <$> db_accounts db.
#[export] Instance same_keys_preorder : PreOrder same_keys.
Proof. unfold same_keys. split; [done|]. intros x y z. congruence. Qed.
#[export] Instance same_keys_frame : Frame same_keys.
Proof. split; [apply _|done..]. Qed.
#[export] Hint Extern 1 (Skips same_keys _) => by intros ?? : typeclass_instances.
#[export] Instance same_keys_touches : Touches same_keys.
Proof.
  intros accountID db u db' H. unfold touch_billing_authority_guard in H.
  apply bind_ok in H as (rows & db1 & (_ & _ & _ & ->)%update_rows_ok & [_ ->]%ret_ok).
  change (account_key <$> ((fun r => if account_ID r == accountID
    then r <| account_UpdatedAt := db_now db |> else r) <$> db_accounts db) = account_key <$> db_accounts db).
  rewrite <- list_fmap_compose. apply list_fmap_ext. intros n r _. simpl. by case_match.
Qed.

(** ** Statements *)
Section statements.
Context {pg : Postgres} {dg : Digest}.

Lemma insert_period_ok p db p' db' :
  insert_period p db = Ok (p', db') →
  p' = p ∧ t_check p = true ∧ (∀ q, q ∈ db_periods db → t_conflict q p = false) ∧
  closure_closed db (period_AccountID p) = false ∧ db_periods db' = db_periods db ++ [p].
Proof.
  unfold insert_period. intros (u & db1 & [Hc ->]%barrier_ok & H)%bind_ok.
  apply bind_ok in H as (q & db1 & (-> & Hck & Hno & ->)%insert_row_ok & H).
  apply bind_ok in H as (u2 & db2 & Ht & [-> ->]%ret_ok).
  split_and!; try done. by apply (touches (R := same_periods)) in Ht.
Qed.

Lemma update_periods_ok p f db rows db' :
  update_periods p f db = Ok (rows, db') →
  rows = f <$> filter (fun q => p q = true) (db_periods db) ∧ forallb t_check rows = true ∧
  db_periods db' = (fun q => if p q then f q else q) <$> db_periods db.
Proof.
  unfold update_periods. intros (u & db1 & [_ ->]%barrier_ok & H)%bind_ok.
  apply bind_ok in H as (r & db1 & (-> & Hck & _ & ->)%update_rows_ok & H).
  apply bind_ok in H as (u2 & db2 & Ht & [-> ->]%ret_ok).
  split_and!; try done. by apply (keeps_touch_all same_periods) in Ht.
Qed.

(** The period of the source that a switch ends, and the one of the target. *)
Definition ends (op : OwnershipHandoff) (accountID : string) (at_ : Time) (p : ResponsibilityPeriod) : bool :=
  source_responsible op accountID p && (period_EffectiveFrom p <? at_).
Definition target_period (id : string) (account : CommercialAccount) (op : OwnershipHandoff)
    (in_ : FinalizeHandoffInput) : ResponsibilityPeriod :=
  mkResponsibilityPeriod id (account_ID account) (handoff_TargetUserID op) (finalin_CommittedOwnershipVersion in_)
    (pg_time (finalin_CommittedAt in_)) None (finalin_AMCommitSHA256 in_)
    (Some (handoff_ID op, account_AvailableBalanceMinor account)).
Definition ended (at_ : Time) (p : ResponsibilityPeriod) : ResponsibilityPeriod :=
  p <| period_EffectiveUntil := Some at_ |>.

Record switches (account : CommercialAccount) (op : OwnershipHandoff) (in_ : FinalizeHandoffInput)
    (db db' : Db) (source : ResponsibilityPeriod) (id : string) : Prop := {
  sw_source : source ∈ db_periods db;
  sw_ends : ends op (account_ID account) (pg_time (finalin_CommittedAt in_)) source = true;
  sw_fresh : ∀ q, q ∈ db_periods db → t_conflict (if ends op (account_ID account) (pg_time (finalin_CommittedAt in_)) q
     then ended (pg_time (finalin_CommittedAt in_)) q else q) (target_period id account op in_) = false;
  sw_periods : db_periods db' =
    ((fun q => if ends op (account_ID account) (pg_time (finalin_CommittedAt in_)) q
               then ended (pg_time (finalin_CommittedAt in_)) q else q) <$> db_periods db)
    ++ [target_period id account op in_]
}.

Lemma switch_period_ok account op in_ db src db' :
  switch_period account op in_ db = Ok (src, db') → ∃ source id, switches account op in_ db db' source id.
Proof.
  unfold switch_period. cbv zeta. intros (p & db1 & Hs & H)%bind_ok. apply (proj1 (scan_ok _ _ _ _)) in Hs.
  apply first_row_ok in Hs as (rest & (Hrows & Hck & Hp)%update_periods_ok).
  apply bind_ok in H as (id & db2 & [-> ->]%fresh_ok & H).
  apply bind_ok in H as (q & db3 & (-> & _ & Hno & _ & Hp')%insert_period_ok & [_ ->]%ret_ok).
  destruct (filter _ (db_periods db)) as [|source l] eqn:Hf; [done|].
  assert (source ∈ source :: l) as Hin by left. rewrite <- Hf in Hin. apply list_elem_of_filter in Hin as [Hends Hin].
  exists source, (pg_uuid (db_serial db1)). constructor.
  - done.
  - done.
  - intros q Hq. apply Hno. change (db_periods (db1 <| db_serial ::= S |>)) with (db_periods db1). rewrite Hp.
    apply list_elem_of_fmap. by exists q.
  - rewrite Hp'. change (db_periods (db1 <| db_serial ::= S |>)) with (db_periods db1). by rewrite Hp.
Qed.
End statements.
