(* ===== verification/HandoffSteps.v ===== *)
(** * The steps of a handoff

    What each operation of the handoff protocol writes, as an inductive step relation on
    the protocol's data: the handoffs, the grants, the decisions and the evidence
    tables.  Every operation of the store is such a step or leaves the data alone. *)
From S2P Require Import Prelude GoStrings GoTime BillingTypes Evidence PaymentTypes Payment Database.
From S2P Require Import Tables Keeps Accounts Ledger Setups Handoff Protocols Settlement HandoffCommit.
From S2P Require Import Closure Preflight Creation Operations Responsibility.

Record HandoffData := mkHandoffData {
  hd_handoffs : list OwnershipHandoff;
  hd_grants : list HandoffCommitAuthorization;
  hd_decisions : list HandoffDecision;
  hd_tables : HandoffTables
}.
#[export] Instance HandoffData_eta : Eta HandoffData := fun d => {|
  hd_handoffs := hd_handoffs d; hd_grants := hd_grants d; hd_decisions := hd_decisions d;
  hd_tables := hd_tables d |}.

Definition hdata (db : Db) : HandoffData :=
  mkHandoffData (db_handoffs db) (db_commit_authorizations db) (db_committed_decisions db) (db_handoff db).

(** ** What leaves the data alone *)
Definition same_handoffs (db db' : Db) : Prop := hdata db' = hdata db.
#[export] Instance same_handoffs_preorder : PreOrder same_handoffs.
Proof. unfold same_handoffs. split; [done|]. intros x y z. congruence. Qed.
#[export] Instance same_handoffs_frame : Frame same_handoffs.
Proof. split; [apply _|done..]. Qed.
#[export] Hint Extern 1 (Skips same_handoffs _) => by intros ?? : typeclass_instances.
#[export] Instance same_handoffs_apart : Apart same_handoffs.
Proof. split; try apply _; done. Qed.

(** ** Writes to one handoff *)
Definition set_handoff (id : string) (f : OwnershipHandoff → OwnershipHandoff) (d : HandoffData) : HandoffData :=
  d <| hd_handoffs ::= fmap (fun h => if handoff_ID h == id then f h else h) |>.

Lemma touch_all_handoffs accounts db u db' : touch_all accounts db = Ok (u, db') → same_handoffs db db'.
Proof. apply keeps_touch_all; apply _. Qed.

Lemma update_handoff_ok id f db u db' :
  update_handoff id f db = Ok (u, db') →
  hdata db' = set_handoff id f (hdata db) ∧ pairwise_ok t_conflict (hd_handoffs (hdata db')) = true.
Proof.
  unfold update_handoff. intros (rows & db1 & (_ & _ & Hp & ->)%update_rows_ok & Ht)%bind_ok.
  apply touch_all_handoffs in Ht. unfold same_handoffs in Ht. by rewrite Ht.
Qed.

Definition add_receipt (r : SettlementReceipt) (d : HandoffData) : HandoffData :=
  d <| hd_tables ::= fun t => t <| ht_receipts ::= fun l => l ++ [r] |> |>.
Definition add_snapshots (s : list BalanceSnapshot) (d : HandoffData) : HandoffData :=
  d <| hd_tables ::= fun t => t <| ht_snapshots ::= fun l => l ++ s |> |>.
Definition add_confirmation (c : HandoffConfirmation) (d : HandoffData) : HandoffData :=
  d <| hd_tables ::= fun t => t <| ht_confirmations ::= fun l => l ++ [c] |> |>.
Definition add_grant (g : HandoffCommitAuthorization) (d : HandoffData) : HandoffData :=
  d <| hd_grants ::= fun l => l ++ [g] |>.
Definition add_decision (x : HandoffDecision) (d : HandoffData) : HandoffData :=
  d <| hd_decisions ::= fun l => l ++ [x] |>.
Definition add_finalization (f : HandoffFinalization) (d : HandoffData) : HandoffData :=
  d <| hd_tables ::= fun t => t <| ht_finalizations ::= fun l => l ++ [f] |> |>.
Definition add_cancellation (c : HandoffCancellation) (d : HandoffData) : HandoffData :=
  d <| hd_tables ::= fun t => t <| ht_cancellations ::= fun l => l ++ [c] |> |>.
Definition add_abort (a : HandoffAbortAck) (d : HandoffData) : HandoffData :=
  d <| hd_tables ::= fun t => t <| ht_abort_acks ::= fun l => l ++ [a] |> |>.

(** What a new receipt makes of the operation, and the snapshot to confirm. *)
Definition take_settlement (op : OwnershipHandoff) (blockers : list string) (h : OwnershipHandoff) :
    OwnershipHandoff :=
  h <| handoff_Phase := match blockers with [] => "prepared" | _ => "preparing" end |>
    <| handoff_Version := handoff_Version op + 1 |>.
Definition receipt_snapshot (op : OwnershipHandoff) (blockers : list string) (r : SettlementReceipt) :
    list BalanceSnapshot :=
  match blockers with
  | [] => [mkBalanceSnapshot (handoff_ID op) (handoff_Version op + 1) (settle_ID r)
             (ev_BalanceMinor (settle_Evidence r)) (ev_Currency (settle_Evidence r)) (handoff_Cutoff op)]
  | _ => []
  end.

(** ** The step relation *)
Inductive handoff_step (d d' : HandoffData) : Prop :=
  | step_none : d' = d → handoff_step d d'
  | step_prepare h :
      handoff_Phase h = "preparing" → handoff_Version h = 1 →
      (∀ g, g ∈ hd_handoffs d → t_conflict g h = false) →
      d' = d <| hd_handoffs ::= fun l => l ++ [h] |> → handoff_step d d'
  | step_record op r blockers snapshots :
      op ∈ hd_handoffs d → collecting op = true → settle_OperationID r = handoff_ID op →
      settle_OperationVersion r = handoff_Version op + 1 → (∀ g, g ∈ ht_receipts (hd_tables d) → t_conflict g r = false) →
      snapshots = receipt_snapshot op blockers r →
      d' = add_snapshots snapshots (set_handoff (handoff_ID op) (take_settlement op blockers) (add_receipt r d)) →
      handoff_step d d'
  | step_confirm c : d' = add_confirmation c d → handoff_step d d'
  | step_authorize op g :
      op ∈ hd_handoffs d → collecting op = true → auth_OperationID g = handoff_ID op →
      d' = set_handoff (handoff_ID op) (advance "commit_authorized") (add_grant g d) → handoff_step d d'
  | step_decide op x :
      op ∈ hd_handoffs d → handoff_Phase op = "commit_authorized" → decision_OperationID x = handoff_ID op →
      d' = set_handoff (handoff_ID op) (advance "finalizing") (add_decision x d) → handoff_step d d'
  | step_finalize op f retired :
      op ∈ hd_handoffs d → handoff_Phase op = "finalizing" → final_OperationID f = handoff_ID op →
      d' = set_handoff (handoff_ID op) (advance "finalized")
             (add_finalization f d <| hd_tables ::= fun t => t <| ht_retired_profiles := retired |> |>) →
      handoff_step d d'
  | step_cancel op c :
      op ∈ hd_handoffs d → one_of (handoff_Phase op) ["preparing"; "prepared"; "commit_authorized"] = true →
      hcancel_OperationID c = handoff_ID op →
      d' = set_handoff (handoff_ID op) (advance "abort_pending") (add_cancellation c d) → handoff_step d d'
  | step_abort op a :
      op ∈ hd_handoffs d → handoff_Phase op = "abort_pending" → abort_OperationID a = handoff_ID op →
      d' = set_handoff (handoff_ID op) (advance "aborted") (add_abort a d) → handoff_step d d'.

(** ** Reads *)
Section reads.
Context {pg : Postgres} {dg : Digest}.

Lemma select_elem {R} `{!Table R} (p : R → bool) db r db' :
  select p db = Ok (r, db') → db' = db ∧ r ∈ t_rows db ∧ p r = true.
Proof. by intros [[? ?]%find_some_iff ->]%select_ok. Qed.

Lemma lockHandoffOperationTx_ok scope db account op db' :
  lockHandoffOperationTx scope db = Ok ((account, op), db') →
  db' = db ∧ find (by_organization (hscope_OrganizationID scope) Settlement) (db_accounts db) = Some account ∧
  op ∈ db_handoffs db ∧ handoff_ID op = hscope_OperationID scope ∧
  handoff_AccountID op = account_ID account ∧ handoff_OwnershipVersion op = hscope_OwnershipVersion scope.
Proof.
  unfold lockHandoffOperationTx. intros (a & db1 & Ha & H)%bind_ok.
  apply (proj1 (scan_ok _ _ _ _)), select_ok in Ha as [Ha ->].
  apply bind_ok in H as (o & db1 & Ho & H). apply (proj1 (scan_ok _ _ _ _)), select_elem in Ho as (-> & Ho & Hp).
  apply bind_ok in H as (u & db1 & [Hv ->]%require_ok & [[= -> ->] ->]%ret_ok). reflect_go.
  destruct_and?. by split_and!.
Qed.

Lemma requireSource_ok account op db u db' :
  requireSourceResponsibilityTx account op db = Ok (u, db') →
  db' = db ∧ ∃ p, p ∈ db_periods db ∧ source_responsible op (account_ID account) p = true.
Proof.
  unfold requireSourceResponsibilityTx. intros (b & db1 & [-> ->]%gets_ok & [Hb ->]%require_ok)%bind_ok.
  by apply existsb_true in Hb.
Qed.

Lemma loadHandoffScopeTx_ok scope db account op db' :
  loadHandoffScopeTx scope db = Ok ((account, op), db') →
  db' = db ∧ find (by_organization (hscope_OrganizationID scope) Settlement) (db_accounts db) = Some account ∧
  op ∈ db_handoffs db ∧ handoff_ID op = hscope_OperationID scope ∧
  handoff_AccountID op = account_ID account ∧ handoff_OwnershipVersion op = hscope_OwnershipVersion scope.
Proof.
  unfold loadHandoffScopeTx. intros ([a o] & db1 & H1 & H)%bind_ok.
  apply lockHandoffOperationTx_ok in H1 as (-> & ?).
  by apply bind_ok in H as (u & db1 & [-> _]%requireSource_ok & [[= -> ->] ->]%ret_ok).
Qed.

Lemma capture_ok account db s db' :
  captureSettlementStateTx account db = Ok (s, db') →
  db' = db ∧ s = mkSettlementState (settlement_sha256 (settlement_view db account)) (local_evidence db account).
Proof. unfold captureSettlementStateTx. cbv zeta. case_match; [by intros [= <- <-]|done]. Qed.

(** A status with a snapshot: collected evidence of this version that still matches. *)
Record confirmable (db : Db) (account : CommercialAccount) (op : OwnershipHandoff)
    (r : SettlementReceipt) (row : BalanceSnapshot) : Prop := {
  cf_collecting : collecting op = true;
  cf_receipt : find (current_receipt op) (ht_receipts (db_handoff db)) = Some r;
  cf_digest : settle_StateSHA256 r = settlement_sha256 (settlement_view db account);
  cf_transferable : transferable (mergeSettlementEvidence (settle_Evidence r) (local_evidence db account));
  cf_open : account_State account ≠ AccountStateClosed;
  cf_row : row ∈ ht_snapshots (db_handoff db);
  cf_row_op : snap_OperationID row = handoff_ID op;
  cf_row_version : snap_Version row = handoff_Version op
}.

Definition status_snapshot (db : Db) (op : OwnershipHandoff) (row : BalanceSnapshot) : HandoffBalanceSnapshot :=
  mkHandoffBalanceSnapshot (snap_Version row) (snap_BalanceMinor row) (snap_Currency row) (snap_Cutoff row)
    (confirmed_by db (handoff_ID op) (handoff_SourceUserID op) (handoff_Version op))
    (confirmed_by db (handoff_ID op) (handoff_TargetUserID op) (handoff_Version op)).

Lemma status_ok account op db st db' :
  handoffSettlementStatusTx account op db = Ok (st, db') →
  db' = db ∧ (∀ snap, status_Snapshot st = Some snap →
    ∃ r row, confirmable db account op r row ∧ snap = status_snapshot db op row).
Proof.
  unfold handoffSettlementStatusTx. destruct (collecting op) eqn:Hc; simpl; [|by intros [-> ->]%ret_ok].
  intros (local & db1 & [-> ->]%capture_ok & H)%bind_ok.
  apply bind_ok in H as (receipt & db1 & [-> ->]%gets_ok & H).
  destruct (status_blockers _ _ _) as [|b bs] eqn:Hb; [|by apply ret_ok in H as [-> ->]].
  apply bind_ok in H as (row & db1 & Hrow & H). apply (proj1 (scan_ok _ _ _ _)), select_elem in Hrow as (-> & Hrow & Hp).
  apply bind_ok in H as (src & db1 & [-> ->]%gets_ok & H). apply bind_ok in H as (tgt & db1 & [-> ->]%gets_ok & H).
  apply ret_ok in H as [-> ->]. split; [done|]. intros snap [= <-].
  destruct (find _ _) as [r|] eqn:Hr; [|by unfold status_blockers in Hb].
  unfold status_blockers in Hb. apply app_nil in Hb as [Hd Hb]. apply app_nil in Hb as [Ht Ho].
  apply transfer_blockers_nil in Ht. apply block_if_nil in Hd, Ho.
  reflect_go. destruct_and?. exists r, row. split; [|done]. constructor; try done; lia || congruence.
Qed.
End reads.

(** ** What each operation writes *)
Section writes.
Context {pg : Postgres} {dg : Digest}.

Lemma add_snapshots_nil d : add_snapshots [] d = d.
Proof. destruct d as [? ? ? [? l]]. pose proof (app_nil_r l) as H. cbv -[app] in *. by rewrite H. Qed.

(** A settlement that is recorded, and what it was recorded on. *)
Record records (in_ : RecordSettlementInput) (db : Db) (st : HandoffSettlementStatus) (db' : Db)
    (account : CommercialAccount) (op : OwnershipHandoff) (r : SettlementReceipt) (blockers : list string) :
    Prop := {
  rc_account : find (by_organization (hscope_OrganizationID (record_Scope in_)) Settlement) (db_accounts db) = Some account;
  rc_op : op ∈ db_handoffs db;
  rc_id : handoff_ID op = hscope_OperationID (record_Scope in_);
  rc_op_account : handoff_AccountID op = account_ID account;
  rc_collecting : collecting op = true;
  rc_receipt : settle_OperationID r = handoff_ID op ∧ settle_OperationVersion r = handoff_Version op + 1;
  rc_digest : settle_StateSHA256 r = settlement_sha256 (settlement_view db account);
  rc_balance : ev_BalanceMinor (settle_Evidence r) = account_AvailableBalanceMinor account;
  rc_new : ∀ g, g ∈ ht_receipts (db_handoff db) → t_conflict g r = false;
  rc_data : hdata db' = add_snapshots (receipt_snapshot op blockers r)
              (set_handoff (handoff_ID op) (take_settlement op blockers) (add_receipt r (hdata db)));
  rc_status : ∀ snap, status_Snapshot st = Some snap →
    ∃ r' row, confirmable db' account (take_settlement op blockers op) r' row ∧
              snap = status_snapshot db' (take_settlement op blockers op) row
}.

Lemma RecordHandoffSettlement_ok in_ db st db' :
  RecordHandoffSettlement in_ db = Ok (st, db') →
  (db' = db ∧ ∃ r, r ∈ ht_receipts (db_handoff db) ∧ settle_ID r = record_ReceiptID in_) ∨ ∃ account op r blockers, records in_ db st db' account op r blockers.
Proof.
  unfold RecordHandoffSettlement. cbv zeta. intros (u & db1 & [_ ->]%require_ok & H)%bind_ok.
  apply bind_ok in H as (u' & db1 & [_ ->]%require_ok & H).
  apply withTx_ok in H as [H|[-> (db1 & H)]]; [right|left; split; [done|]]; unfold recordHandoffSettlementTx in H.
  2: { apply bind_ok in H as ([account op] & db2 & (-> & _)%loadHandoffScopeTx_ok & H).
    apply bind_ok in H as (existing & db2 & He & H). apply try_err_ok in He as [(r0 & -> & He)|(-> & -> & _)].
    - apply select_elem in He as (-> & Hr0 & Hp). reflect_go. by exists r0.
    - do 7 apply bind_ok in H as (? & ? & _ & H). by apply bind_ok in H as (? & ? & _ & [? _]%ret_ok). }
  apply bind_ok in H as ([account op] & db1 & (-> & Ha & Hop & Hid & Hacc & _)%loadHandoffScopeTx_ok & H).
  apply bind_ok in H as (existing & db1 & He & H).
  apply try_err_ok in He as [(r0 & -> & [_ ->]%select_ok)|(-> & -> & _)].
  { apply bind_ok in H as (? & ? & _ & H). by apply bind_ok in H as (? & ? & _ & [? _]%ret_ok). }
  apply bind_ok in H as (? & db1 & [Hc ->]%require_ok & H).
  apply bind_ok in H as (? & db1 & [-> ->]%capture_ok & H).
  apply bind_ok in H as (? & db1 & [Hd ->]%require_ok & H).
  apply bind_ok in H as (? & db1 & [Hb ->]%require_ok & H). cbv zeta in H. cbn [state_SHA256 state_Financial] in *.
  set (blockers := _ ++ closed_blocker account) in H. set (evidence := mergeSettlementEvidence _ _) in H.
  apply bind_ok in H as (r & db1 & Hins & H). apply on_duplicate_ok, insert_row_ok in Hins as (-> & _ & Hno & ->).
  apply bind_ok in H as (u2 & db2 & [Hu _]%update_handoff_ok & H).
  apply bind_ok in H as (u3 & db3 & Hs & H). apply bind_ok in H as (st' & db4 & [-> Hst]%status_ok & [[= <-] ->]%ret_ok).
  reflect_go.
  exists account, op, (settlement_receipt (next_settlement op blockers) in_ (settlement_request_digest in_) evidence), blockers.
  constructor; try done.
  assert (hdata db3 = add_snapshots (receipt_snapshot op blockers (settlement_receipt (next_settlement op blockers) in_
    (settlement_request_digest in_) evidence)) (hdata db2)) as ->.
  { destruct blockers; [|by apply ret_ok in Hs as [_ ->]; rewrite add_snapshots_nil].
    by apply bind_ok in Hs as (s & db4 & (-> & _ & _ & ->)%insert_row_ok & [_ ->]%ret_ok). }
  by rewrite Hu.
Qed.

(** A grant that is issued. *)
Record authorizes (in_ : AuthorizeHandoffCommitInput) (db : Db) (grant : HandoffCommitAuthorization) (db' : Db)
    (account : CommercialAccount) (op : OwnershipHandoff) (r : SettlementReceipt) (row : BalanceSnapshot) :
    Prop := {
  az_account : find (by_organization (hscope_OrganizationID (authin_Scope in_)) Settlement) (db_accounts db) = Some account;
  az_op : op ∈ db_handoffs db;
  az_id : handoff_ID op = hscope_OperationID (authin_Scope in_);
  az_op_account : handoff_AccountID op = account_ID account;
  az_new : ∀ g, g ∈ db_commit_authorizations db → auth_OperationID g ≠ handoff_ID op;
  az_confirmable : confirmable db account op r row;
  az_version : handoff_Version op = authin_SnapshotVersion in_;
  az_source : confirmed_by db (handoff_ID op) (handoff_SourceUserID op) (handoff_Version op) = true;
  az_target : confirmed_by db (handoff_ID op) (handoff_TargetUserID op) (handoff_Version op) = true;
  az_grant : auth_OperationID grant = handoff_ID op;
  az_digest : auth_StateSHA256 grant = settle_StateSHA256 r;
  az_accounts : account_key <$> db_accounts db' = account_key <$> db_accounts db;
  az_data : hdata db' = set_handoff (handoff_ID op) (advance "commit_authorized") (add_grant grant (hdata db))
}.

Lemma AuthorizeHandoffCommit_ok in_ db grant db' :
  AuthorizeHandoffCommit in_ db = Ok (grant, db') →
  (db' = db ∧ ∃ g, g ∈ db_commit_authorizations db ∧ auth_OperationID g = hscope_OperationID (authin_Scope in_)) ∨
  ∃ account op r row, authorizes in_ db grant db' account op r row.
Proof.
  unfold AuthorizeHandoffCommit. intros (u & db1 & [_ ->]%require_ok & H)%bind_ok.
  apply withTx_ok in H as [H|[-> (db1 & H)]].
  2: { left. split; [done|]. unfold authorizeHandoffCommitTx in H.
    apply bind_ok in H as ([account op] & db2 & (-> & Ha & Hop & Hid & _)%loadHandoffScopeTx_ok & H).
    apply bind_ok in H as (prior & db2 & Hp & H).
    apply try_err_ok in Hp as [(g & -> & Hg)|(-> & -> & _)].
    - unfold getCommitAuthorization in Hg. apply (proj1 (scan_ok _ _ _ _)), select_elem in Hg as (-> & Hg & Hgo).
      reflect_go. exists g. split; [done|congruence].
    - apply bind_ok in H as (? & ? & _ & H). apply bind_ok in H as (? & ? & _ & H).
      apply bind_ok in H as (? & ? & _ & H). apply bind_ok in H as (? & ? & _ & H).
      apply bind_ok in H as (? & ? & _ & H). by apply bind_ok in H as (? & ? & _ & [? _]%ret_ok). }
  right. unfold authorizeHandoffCommitTx in H.
  apply bind_ok in H as ([account op] & db1 & (-> & Ha & Hop & Hid & Hacc & _)%loadHandoffScopeTx_ok & H).
  apply bind_ok in H as (prior & db1 & Hp & H).
  apply try_err_ok in Hp as [(g & -> & Hg)|(-> & -> & Hno)].
  { apply bind_ok in H as (? & ? & _ & H). apply bind_ok in H as (? & ? & _ & H).
    apply bind_ok in H as (? & ? & _ & H). by apply bind_ok in H as (? & ? & _ & [? _]%ret_ok). }
  unfold getCommitAuthorization in Hno. apply scan_select_err in Hno as [Hno _].
  apply bind_ok in H as (st & db1 & [-> Hst]%status_ok & H).
  apply bind_ok in H as (u2 & db1 & [Hc ->]%require_ok & H).
  destruct (status_Snapshot st) as [snap|] eqn:Hsnap; [|done]. destruct (Hst snap eq_refl) as (r & row & Hcf & ->).
  cbn [confirmed_snapshot status_snapshot hsnap_Version hsnap_SourceConfirmed hsnap_TargetConfirmed] in Hc.
  reflect_go. destruct_and?. assert (handoff_Version op = authin_SnapshotVersion in_) as Hv
    by (pose proof (cf_row_version _ _ _ _ _ Hcf); lia).
  apply bind_ok in H as (r2 & db1 & [Hr2 ->]%select_ok & H).
  assert (r2 = r) as ->.
  { cbn [t_rows settlement_receipts_table] in Hr2. rewrite <- Hv in Hr2.
    pose proof (cf_receipt _ _ _ _ _ Hcf) as Hr. unfold current_receipt in Hr. rewrite Hr in Hr2. by injection Hr2. }
  apply bind_ok in H as (now & db1 & [_ ->]%gets_ok & H).
  apply bind_ok in H as (g & db1 & Hg & H). apply (proj1 (scan_ok _ _ _ _)), insert_row_ok in Hg as (-> & _ & _ & ->).
  apply bind_ok in H as (u3 & db2 & Hup & [[= ->] ->]%ret_ok).
  exists account, op, r, row. constructor; try done.
  - intros g Hg. rewrite find_none_iff in Hno. specialize (Hno g Hg). by reflect_go.
  - by apply (keeps_update_handoff same_keys _ _ _ _ _ Hup).
  - by apply update_handoff_ok in Hup as [-> _].
Qed.

Lemma AuthorizeHandoffCommit_step in_ db grant db' :
  AuthorizeHandoffCommit in_ db = Ok (grant, db') → handoff_step (hdata db) (hdata db').
Proof.
  intros [[-> _]|(account & op & r & row & H)]%AuthorizeHandoffCommit_ok; [by apply step_none|]. destruct H.
  eapply step_authorize; [done|by eapply cf_collecting|done|done].
Qed.

Lemma RecordHandoffSettlement_step in_ db st db' :
  RecordHandoffSettlement in_ db = Ok (st, db') → handoff_step (hdata db) (hdata db').
Proof.
  intros [[-> _]|(account & op & r & blockers & [])]%RecordHandoffSettlement_ok; [by apply step_none|].
  destruct_and?. by eapply step_record.
Qed.

Lemma ConfirmHandoffSnapshot_step in_ db st db' :
  ConfirmHandoffSnapshot in_ db = Ok (st, db') → handoff_step (hdata db) (hdata db').
Proof.
  unfold ConfirmHandoffSnapshot. intros (u & db1 & [_ ->]%require_ok & H)%bind_ok.
  apply withTx_ok in H as [H|[-> _]]; [|by apply step_none].
  apply bind_ok in H as ([account op] & db1 & (-> & _)%loadHandoffScopeTx_ok & H).
  apply bind_ok in H as (u2 & db1 & [_ ->]%require_ok & H). apply bind_ok in H as (st' & db1 & [-> _]%status_ok & H).
  apply bind_ok in H as (u3 & db1 & [_ ->]%require_ok & H). apply bind_ok in H as (u4 & db1 & Hi & [_ ->]%ret_ok).
  unfold insert_if_absent in Hi. apply bind_ok in Hi as (o & db2 & Hi & [_ ->]%ret_ok).
  apply try_err_ok in Hi as [(c & -> & (-> & _ & _ & ->)%insert_or_nothing_ok%insert_row_ok)|(-> & -> & _)];
    [by eapply step_confirm|by apply step_none].
Qed.

Lemma PrepareOwnershipHandoff_step in_ db h db' :
  PrepareOwnershipHandoff in_ db = Ok (h, db') → handoff_step (hdata db) (hdata db').
Proof.
  unfold PrepareOwnershipHandoff. cbv zeta. intros (u & db1 & [_ ->]%require_ok & H)%bind_ok.
  apply withTx_ok in H as [H|[-> _]]; [|by apply step_none]. unfold prepareOwnershipHandoffTx in H.
  apply bind_ok in H as (account & db1 & Ha & H). apply (proj1 (scan_ok _ _ _ _)), select_ok in Ha as [_ ->].
  apply bind_ok in H as (prior & db1 & Hp & H). apply try_err_ok in Hp as [(g & -> & Hg)|(-> & -> & _)].
  { by apply bind_ok in H as (? & ? & _ & [? _]%ret_ok). }
  apply bind_ok in H as (u1 & db1 & [_ ->]%require_ok & H).
  apply bind_ok in H as (u2 & db1 & (-> & _)%requireNoHandoffTx_ok & H).
  apply bind_ok in H as (period & db1 & [_ ->]%gets_ok & H). destruct period as [p|]; [|done].
  apply bind_ok in H as (u3 & db1 & [_ ->]%require_ok & H). apply bind_ok in H as (now & db1 & [_ ->]%gets_ok & H).
  apply bind_ok in H as (op & db2 & Ho & H). apply on_duplicate_ok in Ho. apply (proj1 (scan_ok _ _ _ _)) in Ho.
  apply bind_ok in H as (u4 & db3 & Hi & [_ ->]%ret_ok). unfold insert_handoff in Ho.
  apply bind_ok in Ho as (u5 & db4 & [_ ->]%barrier_ok & Ho). apply bind_ok in Ho as (r & db4 & Hr & Ho).
  apply insert_row_ok in Hr as (-> & _ & Hno & ->). apply bind_ok in Ho as (u6 & db4 & Ht & [-> ->]%ret_ok).
  assert (same_handoffs db4 db3) as H1 by (revert Hi; unfold invalidate_setups;
    match goal with |- ?m db4 = _ → _ => intros Hi; assert (keeps same_handoffs m) as Hk by keeps; by eapply Hk end).
  apply (touches (R := same_handoffs)) in Ht. unfold same_handoffs in *.
  rewrite H1, Ht. by eapply step_prepare; [| |exact Hno|reflexivity].
Qed.

Lemma recordCommittedHandoffDecision_step in_ db u db' :
  recordCommittedHandoffDecision in_ db = Ok (u, db') → handoff_step (hdata db) (hdata db').
Proof.
  unfold recordCommittedHandoffDecision. intros [H|[-> _]]%withTx_ok; [|by apply step_none].
  unfold recordCommittedHandoffDecisionTx in H.
  apply bind_ok in H as ([account op] & db1 & (-> & Ha & Hop & Hid & _)%lockHandoffOperationTx_ok & H).
  apply bind_ok in H as (prior & db1 & Hp & H). apply try_err_ok in Hp as [(d & -> & _)|(-> & -> & _)].
  { by apply bind_ok in H as (? & ? & _ & [? _]%ret_ok). }
  apply bind_ok in H as (u1 & db1 & [Hfit ->]%require_ok & H).
  apply bind_ok in H as (u2 & db1 & [-> _]%requireSource_ok & H). apply bind_ok in H as (grant & db1 & Hg & H).
  unfold getCommitAuthorization in Hg. apply (proj1 (scan_ok _ _ _ _)), select_ok in Hg as [_ ->].
  apply bind_ok in H as (u3 & db1 & [_ ->]%require_ok & H).
  apply bind_ok in H as (d & db1 & Hd & H). apply insert_row_ok in Hd as (-> & _ & _ & ->).
  apply bind_ok in H as (u4 & db2 & [Hu _]%update_handoff_ok & [_ ->]%ret_ok).
  unfold decision_fits in Hfit. reflect_go. destruct_and?. rewrite Hu. by eapply step_decide; [| | |reflexivity].
Qed.

Lemma BeginOwnershipHandoffAbort_step in_ db a db' :
  BeginOwnershipHandoffAbort in_ db = Ok (a, db') → handoff_step (hdata db) (hdata db').
Proof.
  unfold BeginOwnershipHandoffAbort. intros (u & db1 & [_ ->]%require_ok & H)%bind_ok.
  apply withTx_ok in H as [H|[-> _]]; [|by apply step_none]. unfold beginOwnershipHandoffAbortTx in H.
  apply bind_ok in H as ([account op] & db1 & (-> & Ha & Hop & Hid & _)%lockHandoffOperationTx_ok & H).
  apply bind_ok in H as (prior & db1 & Hp & H). apply try_err_ok in Hp as [(d & -> & _)|(-> & -> & _)].
  { by apply bind_ok in H as (? & ? & _ & [? _]%ret_ok). }
  apply bind_ok in H as (u1 & db1 & [Hph ->]%require_ok & H).
  apply bind_ok in H as (u2 & db1 & [-> _]%requireSource_ok & H).
  apply bind_ok in H as (g & db1 & [_ ->]%gets_ok & H). apply bind_ok in H as (u3 & db1 & [_ ->]%require_ok & H).
  apply bind_ok in H as (d & db1 & Hd & H). apply insert_row_ok in Hd as (-> & _ & _ & ->).
  apply bind_ok in H as (u4 & db2 & [Hu _]%update_handoff_ok & [_ ->]%ret_ok).
  rewrite Hu. by eapply step_cancel; [| | |reflexivity].
Qed.

Lemma CompleteOwnershipHandoffAbort_step in_ db a db' :
  CompleteOwnershipHandoffAbort in_ db = Ok (a, db') → handoff_step (hdata db) (hdata db').
Proof.
  unfold CompleteOwnershipHandoffAbort. intros (u & db1 & [_ ->]%require_ok & H)%bind_ok.
  apply withTx_ok in H as [H|[-> _]]; [|by apply step_none]. unfold completeOwnershipHandoffAbortTx in H.
  apply bind_ok in H as ([account op] & db1 & (-> & Ha & Hop & Hid & _)%lockHandoffOperationTx_ok & H). cbv zeta in H.
  apply bind_ok in H as (c & db1 & Hc & H). apply (proj1 (scan_ok _ _ _ _)), select_ok in Hc as [_ ->].
  apply bind_ok in H as (u1 & db1 & [_ ->]%require_ok & H).
  apply bind_ok in H as (prior & db1 & Hp & H). apply try_err_ok in Hp as [(d & -> & _)|(-> & -> & _)].
  { by apply bind_ok in H as (? & ? & _ & [? _]%ret_ok). }
  apply bind_ok in H as (u2 & db1 & [Hph ->]%require_ok & H).
  apply bind_ok in H as (u3 & db1 & [-> _]%requireSource_ok & H).
  apply bind_ok in H as (d & db1 & Hd & H). apply insert_row_ok in Hd as (-> & _ & _ & ->).
  apply bind_ok in H as (u4 & db2 & [Hu _]%update_handoff_ok & [_ ->]%ret_ok).
  reflect_go. rewrite Hu. by eapply step_abort; [| | |reflexivity].
Qed.

(** A finalization that is carried out. *)
Record finalizes (in_ : FinalizeHandoffInput) (db : Db) (ack : HandoffProtocolAck) (db' : Db)
    (account : CommercialAccount) (op : OwnershipHandoff) (grant : HandoffCommitAuthorization)
    (source : ResponsibilityPeriod) (id : string) : Prop := {
  fz_account : find (by_organization (hscope_OrganizationID (finalin_Scope in_)) Settlement) (db_accounts db) = Some account;
  fz_op : op ∈ db_handoffs db;
  fz_id : handoff_ID op = hscope_OperationID (finalin_Scope in_);
  fz_op_account : handoff_AccountID op = account_ID account;
  fz_phase : handoff_Phase op = "finalizing";
  fz_target : finalin_CommittedOwnerUserID in_ = handoff_TargetUserID op;
  fz_cutoff : handoff_Cutoff op ≤ finalin_CommittedAt in_;
  fz_grant : grant ∈ db_commit_authorizations db ∧ auth_OperationID grant = handoff_ID op;
  fz_digest : settlement_sha256 (settlement_view db account) = auth_StateSHA256 grant;
  fz_balance : 0 ≤ account_AvailableBalanceMinor account;
  fz_new : ∀ f, f ∈ ht_finalizations (db_handoff db) → final_OperationID f ≠ handoff_ID op;
  fz_switch : switches account op in_ db db' source id;
  fz_keys : same_keys db db';
  fz_step : handoff_step (hdata db) (hdata db');
  fz_ack : ack = mkHandoffProtocolAck (handoff_ID op) "finalized"
}.

(** The archive of profiles is the one table of the protocol the effects write. *)
Definition with_retired (l : list RetiredProfile) (d : HandoffData) : HandoffData :=
  d <| hd_tables ::= fun t => t <| ht_retired_profiles := l |> |>.
Lemma archive_profile_ok op period org db u db' :
  archive_profile op period org db = Ok (u, db') →
  hdata db' = with_retired (ht_retired_profiles (db_handoff db')) (hdata db) ∧ same_periods db db' ∧ same_keys db db'.
Proof.
  unfold archive_profile. intros (o & db1 & [-> ->]%gets_ok & H)%bind_ok. destruct (find _ _).
  - apply bind_ok in H as (r & db1 & (-> & _ & _ & ->)%insert_row_ok & [_ ->]%ret_ok). done.
  - apply ret_ok in H as [_ ->]. split; [|done]. by destruct db as [? ? ? ? ? ? ? ? ? ? ? ? ? ? ? ? ? ? ? ? ? ? ? ? []].
Qed.

Lemma finalizeOwnershipHandoff_ok in_ db ack db' :
  finalizeOwnershipHandoff in_ db = Ok (ack, db') →
  (db' = db ∧ ∃ f, f ∈ ht_finalizations (db_handoff db) ∧ final_OperationID f = hscope_OperationID (finalin_Scope in_)) ∨
  ∃ account op grant source id, finalizes in_ db ack db' account op grant source id.
Proof.
  unfold finalizeOwnershipHandoff. intros [H|[-> (db1 & H)]]%withTx_ok; unfold finalizeOwnershipHandoffTx in H.
  2: { left. split; [done|].
    apply bind_ok in H as ([account op] & db2 & (-> & Ha & Hop & Hid & _)%lockHandoffOperationTx_ok & H). cbv zeta in H.
    apply bind_ok in H as (prior & db2 & Hp & H). apply try_err_ok in Hp as [(g & -> & Hg)|(-> & -> & _)].
    - apply select_elem in Hg as (-> & Hg & Hgo). reflect_go. exists g. split; [done|congruence].
    - do 12 apply bind_ok in H as (? & ? & _ & H). by apply ret_ok in H as [? _]. }
  right.
  apply bind_ok in H as ([account op] & db1 & (-> & Ha & Hop & Hid & Hacc & _)%lockHandoffOperationTx_ok & H). cbv zeta in H.
  apply bind_ok in H as (prior & db1 & Hp & H). apply try_err_ok in Hp as [(d & -> & _)|(-> & -> & Hno)].
  { by apply bind_ok in H as (? & ? & _ & [? _]%ret_ok). }
  apply select_err in Hno as [Hno _].
  apply bind_ok in H as (u1 & db1 & [Hfit ->]%require_ok & H). apply bind_ok in H as (u2 & db1 & [-> _]%requireSource_ok & H).
  apply bind_ok in H as (grant & db1 & Hg & H).
  unfold getCommitAuthorization in Hg. apply (proj1 (scan_ok _ _ _ _)), select_elem in Hg as (-> & Hg & Hgo).
  apply bind_ok in H as (u3 & db1 & [_ ->]%require_ok & H). apply bind_ok in H as (st & db1 & [-> ->]%capture_ok & H).
  apply bind_ok in H as (u4 & db1 & [Hst ->]%require_ok & H). cbn [state_SHA256] in Hst.
  apply bind_ok in H as (f & db1 & Hf & H). apply insert_row_ok in Hf as (-> & _ & _ & ->).
  apply bind_ok in H as (src & db2 & Hsw & H). apply bind_ok in H as (u5 & db3 & Har & H).
  apply bind_ok in H as (u6 & db4 & Hpb & H). apply bind_ok in H as (u7 & db5 & Hrv & H).
  apply bind_ok in H as (u8 & db6 & Hup & [[= ->] ->]%ret_ok).
  unfold decision_fits in Hfit. unfold Before in Hfit. reflect_go.
  assert (∀ R : relation Db, Frame R → Touches R → Skips R ResponsibilityPeriod → keeps R (switch_period account op in_))
    as Ksw by (intros R ? ? ?; unfold switch_period; keeps).
  assert (∀ R : relation Db, Frame R → Skips R BillingProfile →
    keeps R (put_blank_profile (account_OrganizationID account) (finalin_CommittedOwnershipVersion in_)))
    as Kpb by (intros R ? ?; unfold put_blank_profile; keeps).
  assert (∀ R : relation Db, Frame R → Skips R PaymentConsent → Skips R MethodRow → Skips R AutoTopUpPolicy →
    keeps R (revoke_authority (account_ID account))) as Krv by (intros R ? ? ? ?; unfold revoke_authority; keeps).
  pose proof (archive_profile_ok _ _ _ _ _ _ Har) as (Hard & Harp & Hark).
  destruct (switch_period_ok _ _ _ _ _ _ Hsw) as (source & id & Hs).
  exists account, op, grant, source, id. constructor; try done; try lia.
  - intros f Hf. rewrite find_none_iff in Hno. specialize (Hno f Hf). by reflect_go.
  - destruct Hs as [S1 S2 S3 S4]. constructor; try done.
    assert (same_periods db2 db6) as ->; [|done]. transitivity db3; [done|].
    transitivity db4; [exact (Kpb same_periods _ _ _ _ _ Hpb)|].
    transitivity db5; [exact (Krv same_periods _ _ _ _ _ _ _ Hrv)|exact (keeps_update_handoff same_periods _ _ _ _ _ Hup)].
  - transitivity db2; [exact (Ksw same_keys _ _ _ _ _ _ Hsw)|]. transitivity db3; [done|].
    transitivity db4; [exact (Kpb same_keys _ _ _ _ _ Hpb)|].
    transitivity db5; [exact (Krv same_keys _ _ _ _ _ _ _ Hrv)|exact (keeps_update_handoff same_keys _ _ _ _ _ Hup)].
  - apply update_handoff_ok in Hup as [Hup _].
    assert (hdata db5 = hdata db3) as Hd5.
    { transitivity (hdata db4); [exact (Krv same_handoffs _ _ _ _ _ _ _ Hrv)|exact (Kpb same_handoffs _ _ _ _ _ Hpb)]. }
    pose proof (Ksw same_handoffs _ _ _ _ _ _ Hsw) as Hd2. unfold same_handoffs in Hd2.
    eapply (step_finalize _ _ op (mkHandoffFinalization (handoff_ID op) (finalize_digest in_) (finalin_AMCommitSHA256 in_)
       (finalin_CommittedOwnershipVersion in_) (pg_time (finalin_CommittedAt in_)))); [done|done|done|].
    rewrite Hup, Hd5, Hard, Hd2. reflexivity.
Qed.
End writes.
