(* ===== verification/HandoffSafety.v ===== *)
(** * Safety of ownership handoffs

    Every run of the store is a run of the handoff protocol ([handoff_step]); by rule
    induction, the phase of a handoff and the evidence recorded for it always agree, so
    that a handoff is never both decided and cancelled; its phases move along the
    protocol; while its commit is fenced the account's balance does not move; and the
    balance the new owner starts with is the one both participants have confirmed. *)
From S2P Require Import Prelude GoStrings GoTime BillingTypes Evidence PaymentTypes Payment Database.
From S2P Require Import Tables Keeps Fixtures Accounts Ledger Setups Handoff Protocols Settlement HandoffCommit.
From S2P Require Import Closure Preflight Creation Operations Responsibility HandoffSteps.

(** ** Runs of the store are runs of the protocol *)
Section runs.
Context {pg : Postgres} {dg : Digest}.

Lemma ignore_ok {A} (m : M A) db u db' : ignore m db = Ok (u, db') → ∃ a, m db = Ok (a, db').
Proof. unfold ignore. intros (a & db1 & H & [_ ->]%ret_ok)%bind_ok. by exists a. Qed.

Lemma exec_same_handoffs op : on_handoff op = false → keeps same_handoffs (exec op).
Proof.
  intros Hop. destruct (on_closure op) eqn:Hc.
  { destruct op; try done; cbn [exec]; try apply keeps_ignore; apply _. }
  destruct (on_creation op) eqn:Hr; [|by apply (exec_apart _)].
  destruct op; try done; cbn [exec]; try apply keeps_ignore; try apply _.
  apply keeps_BootstrapBrandCloud; apply _.
Qed.

Lemma exec_handoff_step op db u db' : exec op db = Ok (u, db') → handoff_step (hdata db) (hdata db').
Proof.
  intros H. destruct (on_handoff op) eqn:Hop; [|by apply step_none, (exec_same_handoffs op Hop _ _ _ H)].
  destruct op; try done; cbn [exec] in H; try apply ignore_ok in H as [? H].
  - by eapply PrepareOwnershipHandoff_step.
  - by eapply RecordHandoffSettlement_step.
  - by eapply ConfirmHandoffSnapshot_step.
  - by eapply AuthorizeHandoffCommit_step.
  - by eapply recordCommittedHandoffDecision_step.
  - apply finalizeOwnershipHandoff_ok in H as [[-> _]|(? & ? & ? & ? & ? & [])]; [by apply step_none|done].
  - by eapply BeginOwnershipHandoffAbort_step.
  - by eapply CompleteOwnershipHandoffAbort_step.
Qed.

Lemma run_op_handoff_step op db : handoff_step (hdata db) (hdata (run_op db op)).
Proof.
  unfold run_op, run. destruct (exec op db) as [[u db']|e] eqn:E; [by eapply exec_handoff_step|by apply step_none].
Qed.

Lemma run_all_handoff_steps ops db : rtc handoff_step (hdata db) (hdata (run_all ops db)).
Proof.
  unfold run_all. revert db. induction ops as [|op ops IH]; intros db; [done|]. simpl.
  eapply rtc_l; [apply run_op_handoff_step|apply IH].
Qed.
End runs.

(** ** Evidence and phase *)

Lemma one_of_elem s names : one_of s names = true ↔ s ∈ names.
Proof.
  unfold one_of. rewrite existsb_true. setoid_rewrite bool_decide_eq_true. naive_solver.
Qed.

Definition granted (d : HandoffData) (id : string) : bool := has_row auth_OperationID (hd_grants d) id.
Definition decided (d : HandoffData) (id : string) : bool := has_row decision_OperationID (hd_decisions d) id.
Definition finalized (d : HandoffData) (id : string) : bool :=
  has_row final_OperationID (ht_finalizations (hd_tables d)) id.
Definition cancelled (d : HandoffData) (id : string) : bool :=
  has_row hcancel_OperationID (ht_cancellations (hd_tables d)) id.
Definition aborted (d : HandoffData) (id : string) : bool :=
  has_row abort_OperationID (ht_abort_acks (hd_tables d)) id.

(** The evidence a phase stands for: granted, decided, finalized, cancelled, aborted. *)
Definition phase_evidence (phase : string) (g dc f c a : bool) : bool :=
  if one_of phase ["preparing"; "prepared"] then negb (g || dc || f || c || a)
  else if phase == "commit_authorized" then g && negb (dc || f || c || a)
  else if phase == "finalizing" then g && dc && negb (f || c || a)
  else if phase == "finalized" then g && dc && f && negb (c || a)
  else if phase == "abort_pending" then c && negb (dc || f || a)
  else if phase == "aborted" then c && a && negb (dc || f)
  else false.
Definition phase_ok (d : HandoffData) (h : OwnershipHandoff) : bool :=
  let id := handoff_ID h in
  phase_evidence (handoff_Phase h) (granted d id) (decided d id) (finalized d id) (cancelled d id) (aborted d id).
Definition has_evidence (d : HandoffData) (id : string) : bool :=
  granted d id || decided d id || finalized d id || cancelled d id || aborted d id.

Record HandoffInv (d : HandoffData) : Prop := {
  hi_ids : NoDup (handoff_ID <$> hd_handoffs d);
  hi_phase : ∀ h, h ∈ hd_handoffs d → phase_ok d h = true;
  hi_known : ∀ id, has_evidence d id = true → id ∈ handoff_ID <$> hd_handoffs d;
  hi_receipts : ∀ r, r ∈ ht_receipts (hd_tables d) →
    ∃ h, h ∈ hd_handoffs d ∧ handoff_ID h = settle_OperationID r ∧ settle_OperationVersion r ≤ handoff_Version h;
  hi_receipt_unique : pairwise_ok t_conflict (ht_receipts (hd_tables d)) = true;
  hi_snapshots : ∀ s, s ∈ ht_snapshots (hd_tables d) →
    ∃ r, r ∈ ht_receipts (hd_tables d) ∧ settle_OperationID r = snap_OperationID s ∧
      settle_OperationVersion r = snap_Version s ∧ ev_BalanceMinor (settle_Evidence r) = snap_BalanceMinor s
}.

Lemma has_row_app {R} (op : R → string) rows r id :
  has_row op (rows ++ [r]) id = has_row op rows id || (op r == id).
Proof. unfold has_row. rewrite existsb_app. simpl. by rewrite orb_false_r. Qed.

Lemma set_handoff_ids id f d : (∀ h, handoff_ID (f h) = handoff_ID h) →
  handoff_ID <$> hd_handoffs (set_handoff id f d) = handoff_ID <$> hd_handoffs d.
Proof.
  intros Hf. unfold set_handoff. get_upd. rewrite <- list_fmap_compose. apply list_fmap_ext.
  intros n h _. simpl. case_match; [apply Hf|done].
Qed.

Lemma elem_set_handoff id f d h :
  h ∈ hd_handoffs (set_handoff id f d) ↔
  ∃ g, g ∈ hd_handoffs d ∧ h = if handoff_ID g == id then f g else g.
Proof. unfold set_handoff. get_upd. rewrite list_elem_of_fmap. naive_solver. Qed.

(** The evidence of an operation, together. *)
Definition evidence_of (d : HandoffData) (id : string) : bool * bool * bool * bool * bool :=
  (granted d id, decided d id, finalized d id, cancelled d id, aborted d id).
Lemma phase_ok_evidence d d' h h' :
  handoff_ID h' = handoff_ID h → handoff_Phase h' = handoff_Phase h →
  evidence_of d' (handoff_ID h) = evidence_of d (handoff_ID h) → phase_ok d' h' = phase_ok d h.
Proof. unfold phase_ok. intros -> -> [= -> -> -> -> ->]. done. Qed.
Lemma has_evidence_of d d' id : evidence_of d' id = evidence_of d id → has_evidence d' id = has_evidence d id.
Proof. unfold has_evidence. by intros [= -> -> -> -> ->]. Qed.

(** A write to one handoff and to its evidence alone. *)
Lemma HandoffInv_write d d1 op f :
  HandoffInv d → op ∈ hd_handoffs d → hd_handoffs d1 = hd_handoffs d →
  ht_receipts (hd_tables d1) = ht_receipts (hd_tables d) → ht_snapshots (hd_tables d1) = ht_snapshots (hd_tables d) →
  (∀ id, id ≠ handoff_ID op → evidence_of d1 id = evidence_of d id) →
  (∀ g, handoff_ID (f g) = handoff_ID g ∧ handoff_Version g ≤ handoff_Version (f g)) →
  phase_ok d1 (f op) = true → HandoffInv (set_handoff (handoff_ID op) f d1).
Proof.
  intros [Hnd Hph Hkn Hrc Hru Hsn] Hop Hh Hr Hs Hev Hf Hnew. constructor.
  - rewrite set_handoff_ids by apply Hf. by rewrite Hh.
  - intros h (g & Hg & ->)%elem_set_handoff. rewrite Hh in Hg. case_bool_decide as E.
    + by rewrite (NoDup_fmap_inj_elem handoff_ID (hd_handoffs d) g op).
    + rewrite (phase_ok_evidence d _ g g); [by apply Hph|done|done|by apply Hev].
  - intros id Hid. rewrite set_handoff_ids by apply Hf. rewrite Hh.
    destruct (decide (id = handoff_ID op)) as [->|Hne]; [apply list_elem_of_fmap; by exists op|].
    apply Hkn. rewrite <- (has_evidence_of d d1) by by apply Hev. exact Hid.
  - intros r Hin. change (r ∈ ht_receipts (hd_tables d1)) in Hin. rewrite Hr in Hin.
    destruct (Hrc r Hin) as (g & Hg & Hid & Hv). exists (if handoff_ID g == handoff_ID op then f g else g).
    split; [apply elem_set_handoff; exists g; by rewrite Hh|].
    destruct (Hf g) as [H1 H2]. case_bool_decide; [|done]. split; [congruence|lia].
  - change (pairwise_ok t_conflict (ht_receipts (hd_tables d1)) = true). by rewrite Hr.
  - intros s Hin. change (s ∈ ht_snapshots (hd_tables d1)) in Hin. rewrite Hs in Hin.
    change (ht_receipts (hd_tables (set_handoff (handoff_ID op) f d1))) with (ht_receipts (hd_tables d1)).
    rewrite Hr. by apply Hsn.
Qed.

Lemma pairwise_snoc {R} (conflict : R → R → bool) l r :
  pairwise_ok conflict l = true → (∀ s, s ∈ l → conflict s r = false) → pairwise_ok conflict (l ++ [r]) = true.
Proof.
  induction l as [|x l IH]; intros Hp Hno; [done|]. simpl in *. apply andb_true_iff in Hp as [H1 H2].
  apply andb_true_iff. split; [|apply IH; [done|]; intros s Hs; apply Hno; by right].
  rewrite forallb_app, H1. simpl. by rewrite Hno by left.
Qed.

Lemma HandoffInv_prepare d h :
  HandoffInv d → handoff_Phase h = "preparing" → (∀ g, g ∈ hd_handoffs d → t_conflict g h = false) →
  HandoffInv (d <| hd_handoffs ::= fun l => l ++ [h] |>).
Proof.
  intros [Hnd Hph Hkn Hrc Hru Hsn] Hp Hno.
  assert (handoff_ID h ∉ handoff_ID <$> hd_handoffs d) as Hnew.
  { intros (g & Heq & Hg)%list_elem_of_fmap. specialize (Hno g Hg). cbn [t_conflict handoffs_table] in Hno.
    by rewrite bool_decide_eq_true_2 in Hno. }
  constructor; get_upd; try done.
  - rewrite fmap_app. apply NoDup_app. split; [done|]. split; [|apply NoDup_singleton].
    by intros x Hx ->%list_elem_of_singleton.
  - intros g [Hg| ->%list_elem_of_singleton]%elem_of_app; [by apply Hph|].
    change (phase_ok d h = true). unfold phase_ok. rewrite Hp. unfold phase_evidence. simpl.
    apply negb_true_iff, not_true_iff_false. intros Hev. by apply Hnew, Hkn.
  - intros id Hid. rewrite fmap_app. apply elem_of_app. left. by apply Hkn.
  - intros r Hr. destruct (Hrc r Hr) as (g & Hg & ?). exists g. split; [|done]. apply elem_of_app. by left.
Qed.

Lemma HandoffInv_record d op r blockers :
  HandoffInv d → op ∈ hd_handoffs d → collecting op = true → settle_OperationID r = handoff_ID op →
  settle_OperationVersion r = handoff_Version op + 1 → (∀ g, g ∈ ht_receipts (hd_tables d) → t_conflict g r = false) →
  HandoffInv (add_snapshots (receipt_snapshot op blockers r)
    (set_handoff (handoff_ID op) (take_settlement op blockers) (add_receipt r d))).
Proof.
  intros Hinv Hop Hc Hid Hv Hno. pose proof Hinv as [Hnd Hph Hkn Hrc Hru Hsn].
  assert (∀ g, g ∈ hd_handoffs (set_handoff (handoff_ID op) (take_settlement op blockers) d) → phase_ok d g = true) as Hph'.
  { intros g (x & Hx & ->)%elem_set_handoff. case_bool_decide as E; [|by apply Hph].
    assert (x = op) as -> by by apply (NoDup_fmap_inj_elem handoff_ID (hd_handoffs d)).
    specialize (Hph op Hx). unfold phase_ok, phase_evidence in Hph. unfold collecting in Hc. rewrite Hc in Hph.
    change (handoff_ID (take_settlement op blockers op)) with (handoff_ID op). by destruct blockers. }
  constructor.
  - change (NoDup (handoff_ID <$> hd_handoffs (set_handoff (handoff_ID op) (take_settlement op blockers) d))).
    by rewrite set_handoff_ids.
  - exact Hph'.
  - intros id Hin. change (id ∈ handoff_ID <$> hd_handoffs (set_handoff (handoff_ID op) (take_settlement op blockers) d)).
    rewrite set_handoff_ids by done. by apply Hkn.
  - intros x Hx. change (x ∈ ht_receipts (hd_tables d) ++ [r]) in Hx.
    change (∃ h, h ∈ hd_handoffs (set_handoff (handoff_ID op) (take_settlement op blockers) d) ∧
      handoff_ID h = settle_OperationID x ∧ settle_OperationVersion x ≤ handoff_Version h).
    apply elem_of_app in Hx as [Hx| ->%list_elem_of_singleton].
    + destruct (Hrc x Hx) as (g & Hg & H1 & H2).
      exists (if handoff_ID g == handoff_ID op then take_settlement op blockers g else g).
      split; [apply elem_set_handoff; by exists g|]. case_bool_decide as E; [|done].
      assert (g = op) as -> by by apply (NoDup_fmap_inj_elem handoff_ID (hd_handoffs d)).
      split; [done|]. unfold take_settlement. get_upd. lia.
    + exists (take_settlement op blockers op). split; [|unfold take_settlement; get_upd; split; [done|lia]].
      apply elem_set_handoff. exists op. split; [done|]. by rewrite bool_decide_eq_true_2.
  - change (pairwise_ok t_conflict (ht_receipts (hd_tables d) ++ [r]) = true). by apply pairwise_snoc.
  - intros s Hs. change (s ∈ ht_snapshots (hd_tables d) ++ receipt_snapshot op blockers r) in Hs.
    change (∃ x, x ∈ ht_receipts (hd_tables d) ++ [r] ∧ settle_OperationID x = snap_OperationID s ∧
      settle_OperationVersion x = snap_Version s ∧ ev_BalanceMinor (settle_Evidence x) = snap_BalanceMinor s).
    apply elem_of_app in Hs as [Hs|Hs].
    + destruct (Hsn s Hs) as (x & Hx & ?). exists x. split; [apply elem_of_app; by left|done].
    + destruct blockers; [|by apply elem_of_nil in Hs]. apply list_elem_of_singleton in Hs as ->.
      exists r. split; [apply elem_of_app; right; by left|done].
Qed.

(** The evidence after a write, computed. *)
Ltac new_evidence Hid :=
  unfold phase_ok, evidence_of, granted, decided, finalized, cancelled, aborted, add_grant, add_decision,
    add_finalization, add_cancellation, add_abort, advance in *; get_upd; get_upd; rewrite ?has_row_app, ?Hid.

(** Rule induction: the invariant holds after every step. *)
Lemma handoff_step_inv d d' : handoff_step d d' → HandoffInv d → HandoffInv d'.
Proof.
  intros Hstep Hinv. pose proof Hinv as [Hnd Hph Hkn Hrc Hru Hsn].
  destruct Hstep as [->|h Hp _ Hno ->|op r bl sn Hop Hc Hid Hv Hno -> ->|c ->|op g Hop Hc Hid ->|op x Hop Hp Hid ->
    |op f ret Hop Hp Hid ->|op c Hop Hp Hid ->|op a Hop Hp Hid ->]; [done|by apply HandoffInv_prepare|
    by apply HandoffInv_record|by destruct Hinv| | | | |];
    (eapply (HandoffInv_write d); [done|done|done|done|done| |intros g'; unfold advance; get_upd; split; [done|lia]|];
     [intros id Hne; new_evidence Hid;
      rewrite ?(bool_decide_eq_false_2 (handoff_ID op = id)), ?orb_false_r by done; done|]);
    specialize (Hph op Hop); new_evidence Hid; rewrite bool_decide_eq_true_2, ?orb_true_r by done; revert Hph;
    try (unfold collecting in Hc; apply one_of_elem in Hc; set_unfold in Hc; destruct_or? Hc; rewrite ?Hc; try done);
    try (apply one_of_elem in Hp; set_unfold in Hp; destruct_or? Hp; rewrite ?Hp; try done);
    rewrite ?Hp; repeat (match goal with |- context [has_row ?a ?b ?c] => destruct (has_row a b c) end); done.
Qed.

Lemma handoff_steps_inv d d' : rtc handoff_step d d' → HandoffInv d → HandoffInv d'.
Proof. intros Hrun. induction Hrun; [done|]. intros Hinv. apply IHHrun. by eapply handoff_step_inv. Qed.

(** The evidence that excludes other evidence. *)
Lemma HandoffInv_exclusive d id :
  HandoffInv d → ¬ (decided d id = true ∧ cancelled d id = true) ∧
  (decided d id = true → granted d id = true) ∧ (finalized d id = true → decided d id = true) ∧
  (aborted d id = true → cancelled d id = true).
Proof.
  intros [_ Hph Hkn _ _ _]. destruct (has_evidence d id) eqn:He.
  - specialize (Hkn id He). apply list_elem_of_fmap in Hkn as (h & -> & Hh). specialize (Hph h Hh).
    unfold phase_ok, phase_evidence in Hph. revert Hph.
    destruct (granted d _), (decided d _), (finalized d _), (cancelled d _), (aborted d _);
      repeat case_match; simpl; (done || (intros _; split_and!; naive_solver)).
  - unfold has_evidence in He. reflect_go. split_and!; [intros [? ?]|..]; congruence.
Qed.

(** ** History *)

(** The edges of the protocol. *)
Definition phase_edge (old new : string) : Prop :=
  (old ∈ ["preparing"; "prepared"] ∧ new ∈ ["preparing"; "prepared"; "commit_authorized"; "abort_pending"]) ∨
  (old = "commit_authorized" ∧ new ∈ ["finalizing"; "abort_pending"]) ∨
  (old = "finalizing" ∧ new = "finalized") ∨ (old = "abort_pending" ∧ new = "aborted").

(** What a handoff is about, which no step changes. *)
Definition handoff_identity (h : OwnershipHandoff) : OwnershipHandoff :=
  h <| handoff_Phase := "" |> <| handoff_Version := 0 |>.

Record handoff_moves (h h' : OwnershipHandoff) : Prop := {
  hm_identity : handoff_identity h' = handoff_identity h;
  hm_phase : rtc phase_edge (handoff_Phase h) (handoff_Phase h');
  hm_version : handoff_Version h ≤ handoff_Version h'
}.
Lemma handoff_identity_fields h h' :
  handoff_identity h' = handoff_identity h → handoff_ID h' = handoff_ID h ∧
  handoff_AccountID h' = handoff_AccountID h ∧ handoff_SourceUserID h' = handoff_SourceUserID h ∧
  handoff_TargetUserID h' = handoff_TargetUserID h ∧ handoff_OwnershipVersion h' = handoff_OwnershipVersion h ∧
  handoff_Cutoff h' = handoff_Cutoff h.
Proof. destruct h, h'. by intros [= -> -> -> -> -> -> -> ->]. Qed.
#[export] Instance handoff_moves_preorder : PreOrder handoff_moves.
Proof.
  split; [by split|]. intros x y z [I1 P1 V1] [I2 P2 V2]. split; [congruence|by etransitivity|lia].
Qed.

(** Handoffs stay and move; evidence is only added, at the end. *)
Record handoff_evolves (d d' : HandoffData) : Prop := {
  he_handoffs : ∀ h, h ∈ hd_handoffs d → ∃ h', h' ∈ hd_handoffs d' ∧ handoff_moves h h';
  he_grants : hd_grants d `prefix_of` hd_grants d';
  he_decisions : hd_decisions d `prefix_of` hd_decisions d';
  he_receipts : ht_receipts (hd_tables d) `prefix_of` ht_receipts (hd_tables d');
  he_snapshots : ht_snapshots (hd_tables d) `prefix_of` ht_snapshots (hd_tables d');
  he_confirmations : ht_confirmations (hd_tables d) `prefix_of` ht_confirmations (hd_tables d');
  he_finalizations : ht_finalizations (hd_tables d) `prefix_of` ht_finalizations (hd_tables d');
  he_cancellations : ht_cancellations (hd_tables d) `prefix_of` ht_cancellations (hd_tables d');
  he_aborts : ht_abort_acks (hd_tables d) `prefix_of` ht_abort_acks (hd_tables d')
}.
#[export] Instance handoff_evolves_preorder : PreOrder handoff_evolves.
Proof.
  split.
  - intros d. split; try done. intros h Hh. by exists h.
  - intros x y z H1 H2. destruct H1, H2. split; try (by etransitivity).
    intros h (h1 & Hh1 & Hm1)%he_handoffs0. destruct (he_handoffs1 h1 Hh1) as (h2 & ? & ?).
    exists h2. split; [done|by etransitivity].
Qed.

(** A write to one handoff moves it along an edge. *)
Lemma set_handoff_moves id f d h :
  (∀ g, g ∈ hd_handoffs d → handoff_ID g = id → handoff_moves g (f g)) → h ∈ hd_handoffs d →
  ∃ h', h' ∈ hd_handoffs (set_handoff id f d) ∧ handoff_moves h h'.
Proof.
  intros Hf Hh. exists (if handoff_ID h == id then f h else h).
  split; [apply elem_set_handoff; by exists h|]. case_bool_decide; [by apply Hf|done].
Qed.

Lemma advance_moves phase h : phase_edge (handoff_Phase h) phase → handoff_moves h (advance phase h).
Proof. intros He. split; [by destruct h|by apply rtc_once|unfold advance; get_upd; lia]. Qed.

Lemma handoff_step_evolves d d' : HandoffInv d → handoff_step d d' → handoff_evolves d d'.
Proof.
  intros [Hnd _ _ _ _ _] Hstep.
  assert (∀ op g, op ∈ hd_handoffs d → g ∈ hd_handoffs d → handoff_ID g = handoff_ID op → g = op) as Heq
    by (intros op g ???; by apply (NoDup_fmap_inj_elem handoff_ID (hd_handoffs d))).
  destruct Hstep as [->|h Hp _ Hno ->|op r bl sn Hop Hc Hid Hv Hno -> ->|c ->|op g Hop Hc Hid ->|op x Hop Hp Hid ->
    |op f ret Hop Hp Hid ->|op c Hop Hp Hid ->|op a Hop Hp Hid ->]; [done|..];
    (split; [|try done; try (by eexists); try (by apply prefix_app_r)..]).
  - intros h0 Hh0. exists h0. split; [apply elem_of_app; by left|done].
  - intros h0 Hh0. apply (set_handoff_moves (handoff_ID op) (take_settlement op bl) d); [|done].
    intros g Hg ->%Heq; [|done..]. unfold collecting in Hc. apply one_of_elem in Hc.
    split; [by destruct op| |unfold take_settlement; get_upd; lia]. apply rtc_once. left. split; [done|].
    destruct bl; set_solver.
  - intros h0 Hh0. by exists h0.
  - intros h0 Hh0. apply (set_handoff_moves (handoff_ID op) (advance "commit_authorized") d); [|done].
    intros g' Hg ->%Heq; [|done..]. apply advance_moves. left. unfold collecting in Hc. apply one_of_elem in Hc.
    set_solver.
  - intros h0 Hh0. apply (set_handoff_moves (handoff_ID op) (advance "finalizing") d); [|done].
    intros g' Hg ->%Heq; [|done..]. apply advance_moves. right. left. set_solver.
  - intros h0 Hh0. apply (set_handoff_moves (handoff_ID op) (advance "finalized") d); [|done].
    intros g' Hg ->%Heq; [|done..]. apply advance_moves. right. right. by left.
  - intros h0 Hh0. apply (set_handoff_moves (handoff_ID op) (advance "abort_pending") d); [|done].
    intros g' Hg ->%Heq; [|done..]. apply advance_moves. apply one_of_elem in Hp.
    assert (handoff_Phase op ∈ ["preparing"; "prepared"] ∨ handoff_Phase op = "commit_authorized") as [?| ->] by set_solver;
      [left; set_solver|right; left; set_solver].
  - intros h0 Hh0. apply (set_handoff_moves (handoff_ID op) (advance "aborted") d); [|done].
    intros g' Hg ->%Heq; [|done..]. apply advance_moves. right. right. by right.
Qed.
