(* ===== verification/HandoffFixtures.v ===== *)
(** * A concrete handoff

    The store of [Fixtures] at rest, and the sequence of operations that hands its account
    over from [user-1] to [user-2]: prepared, settled, confirmed by both, authorized,
    decided and finalized. *)
From S2P Require Import Prelude GoStrings GoTime BillingTypes Evidence PaymentTypes Payment Database.
From S2P Require Import Tables Keeps Fixtures Settlement HandoffCommit Handoff Operations HandoffSteps HandoffSafety.

#[local] Existing Instances demo_pg demo_dg.

Definition demo_quiet : Db :=
  demo_db <| db_intents := [demo_intent demo_paid_id PaymentIntentStateSucceeded (Some 0)] |> <| db_jobs := [] |>.

Definition demo_scope : HandoffScope := mkHandoffScope "org" "handoff" 1.
Definition demo_prepare : operation :=
  OpHandoff (mkPrepareOwnershipHandoffInput "handoff" "org" "user-1" "user-2" 1 (900 * Second)).

(** The state the collector captures after the preparation. *)
Definition demo_prepared : Db := Eval vm_compute in run_op demo_quiet demo_prepare.
Definition demo_state : string := Eval vm_compute in settlement_sha256 (settlement_view demo_prepared demo_account).

Definition demo_settle : RecordSettlementInput :=
  mkRecordSettlementInput demo_scope "receipt" demo_state demo_digest demo_digest demo_digest
    (mkFinancialEvidence true TWD 1000 true true true 0 0 0 0 0 0 0).
Definition demo_confirm (user : string) : operation :=
  OpConfirm (mkConfirmHandoffSnapshotInput demo_scope user 2 1000 TWD).
Definition demo_authorize : AuthorizeHandoffCommitInput := mkAuthorizeHandoffCommitInput demo_scope "grant" 2.
Definition demo_finalize : FinalizeHandoffInput :=
  mkFinalizeHandoffInput demo_scope "grant" "user-2" 2 (950 * Second) demo_digest.

Definition demo_confirms : list operation := [demo_confirm "user-1"; demo_confirm "user-2"].
Definition demo_handoff_ops : list operation :=
  [demo_prepare; OpSettlement demo_settle] ++ demo_confirms
  ++ [OpAuthorize demo_authorize; OpDecision demo_finalize; OpFinalize demo_finalize].

(** The store with the snapshot, when both have confirmed, with the grant, and at the end. *)
Definition demo_settled : Db := Eval vm_compute in run_all (take 2 demo_handoff_ops) demo_quiet.
Definition demo_confirmed : Db := Eval vm_compute in run_all (take 4 demo_handoff_ops) demo_quiet.
Definition demo_granted : Db := Eval vm_compute in run_all (take 5 demo_handoff_ops) demo_quiet.
Definition demo_decided : Db := Eval vm_compute in run_all (take 6 demo_handoff_ops) demo_quiet.
Definition demo_handed_over : Db := Eval vm_compute in run_all demo_handoff_ops demo_quiet.

Definition demo_snapshot : HandoffBalanceSnapshot :=
  mkHandoffBalanceSnapshot 2 1000 TWD (900 * Second) false false.
Definition demo_status : HandoffSettlementStatus :=
  mkHandoffSettlementStatus "handoff" "prepared" (Some demo_snapshot) [].
Definition demo_grant : HandoffCommitAuthorization :=
  Eval vm_compute in default (mkHandoffCommitAuthorization "" "" 0 0 "" "") (head (db_commit_authorizations demo_granted)).

(** A store without any handoff satisfies the invariant. *)
Lemma HandoffInv_empty db :
  hdata db = hdata demo_db → HandoffInv (hdata db).
Proof.
  intros ->. constructor; simpl; try by intros ? ?%elem_of_nil.
  - constructor.
  - intros id. unfold has_evidence. by vm_compute.
  - done.
Qed.
