(* ===== verification/Handover.v ===== *)
(** * The handover of an account

    What any run of the store keeps while a handoff is committed: the fenced account's
    balance and ledger, until the new owner's period opens with exactly that balance;
    and the answer to a retried finalization. *)
From S2P Require Import Prelude GoStrings GoTime BillingTypes Evidence PaymentTypes Payment Database.
From S2P Require Import Tables Keeps Fixtures Accounts Ledger Credits Setups Handoff Protocols Settlement.
From S2P Require Import HandoffCommit Closure Preflight Creation Operations Responsibility HandoffSteps HandoffSafety HandoffFixtures.

(** ** The identities of the accounts *)
Definition account_ids (db : Db) : list (string * (string * Currency)) :=
  (fun a => (account_key a).1) <$> db_accounts db.
Definition accounts_stay (db db' : Db) : Prop := account_ids db `prefix_of` account_ids db'.
#[export] Instance accounts_stay_preorder : PreOrder accounts_stay.
Proof. unfold accounts_stay. split; [by intros x; exists []; rewrite app_nil_r|]. intros x y z ??. by etransitivity. Qed.
#[export] Instance accounts_stay_frame : Frame accounts_stay.
Proof. split; [apply _|intros; apply (reflexivity (R := prefix))..]. Qed.
#[export] Hint Extern 1 (Skips accounts_stay _) => intros ??; apply (reflexivity (R := prefix)) : typeclass_instances.

Lemma account_ids_same db db' : account_ids db' = account_ids db → accounts_stay db db'.
Proof. unfold accounts_stay. by intros ->. Qed.
Lemma same_keys_ids db db' : same_keys db db' → account_ids db' = account_ids db.
Proof.
  unfold same_keys, account_ids. intros H. apply (f_equal (fmap fst)) in H. by rewrite <- !list_fmap_compose in H.
Qed.

(** The account of an organization is always found under the same ID. *)
Lemma find_account_stays db db' org a :
  accounts_stay db db' → find (by_organization org Settlement) (db_accounts db) = Some a →
  ∃ a', find (by_organization org Settlement) (db_accounts db') = Some a' ∧ account_ID a' = account_ID a.
Proof.
  set (p := fun k : string * (string * Currency) => (k.2.1 == org) && (k.2.2 == Settlement)).
  assert (∀ x, find p (account_ids x) = (fun a => (account_key a).1) <$> find (by_organization org Settlement) (db_accounts x))
    as Hv by (intros x; apply (find_view (fun a => (account_key a).1) p)).
  intros [l Hl] Ha. pose proof (Hv db') as H. rewrite Hl, find_app, (Hv db), Ha in H. simpl in H.
  destruct (find _ (db_accounts db')) as [a'|]; [|done]. exists a'. split; [done|]. injection H. done.
Qed.

(** Operations that create no account. *)
Definition same_ids (db db' : Db) : Prop := account_ids db' = account_ids db.
#[export] Instance same_ids_frame : Frame same_ids.
Proof. split; [split; unfold same_ids; [done|intros x y z; congruence]|done..]. Qed.
#[export] Hint Extern 1 (Skips same_ids _) => by intros ?? : typeclass_instances.
#[export] Instance same_ids_touches : Touches same_ids.
Proof. intros accountID db u db' H. apply same_keys_ids. by apply (touches (R := same_keys)) in H. Qed.

(** The accounts after an UPDATE of one of them. *)
Definition updated_account (accountID : string) (f : CommercialAccount → CommercialAccount) (now : Time)
    (r : CommercialAccount) : CommercialAccount :=
  if account_ID r == accountID then (f r) <| account_UpdatedAt := now |> else r.
Lemma updated_account_key accountID f now r `{!SameAccount f} :
  (account_key (updated_account accountID f now r)).1 = (account_key r).1.
Proof.
  unfold updated_account, account_key. case_match; [|done]. get_upd. simpl.
  by destruct (same_account (f := f) r) as (-> & -> & ->).
Qed.
Lemma updated_account_id accountID f now r `{!SameAccount f} :
  account_ID (updated_account accountID f now r) = account_ID r.
Proof. exact (f_equal fst (updated_account_key accountID f now r)). Qed.

#[export] Instance same_ids_account : KeepsAccount same_ids.
Proof.
  intros accountID f Hf db a db' (old & _ & _ & _ & ->)%update_account_ok. unfold same_ids, account_ids. get_upd.
  rewrite <- list_fmap_compose. apply list_fmap_ext. intros n r _. apply (updated_account_key accountID f (db_now db) r).
Qed.

#[export] Instance accounts_stay_apart : Apart accounts_stay.
Proof.
  split; try apply _.
  - intros. apply account_ids_same. done.
  - intros accountID f Hf db a db' H. apply account_ids_same. by eapply (keeps_account (R := same_ids)).
  - intros accountID db u db' H. apply account_ids_same. by eapply (touches (R := same_ids)).
  - intros target a _ db r db' (-> & _ & _ & ->)%insert_or_nothing_ok%insert_row_ok.
    change (((fun a => (account_key a).1) <$> db_accounts db) `prefix_of`
      ((fun a => (account_key a).1) <$> (db_accounts db ++ [a]))). rewrite fmap_app. by eexists.
Qed.

(** ** The fence *)

Definition entries_of (db : Db) (accountID : string) : list LedgerEntry :=
  filter (fun e => entry_AccountID e = accountID) (db_entries db).

(** The money of the fenced accounts does not move. *)
Definition money_stays (db db' : Db) : Prop := ∀ a, commit_fenced db a = true →
  (∀ b, balance_of db a = Some b → balance_of db' a = Some b) ∧ entries_of db' a = entries_of db a.
Definition stays_fenced (db db' : Db) : Prop := same_handoffs db db' ∧ money_stays db db'.

Lemma commit_fenced_same db db' a : same_handoffs db db' → commit_fenced db' a = commit_fenced db a.
Proof. unfold same_handoffs, hdata, commit_fenced. by intros [= -> -> _ _]. Qed.

#[export] Instance stays_fenced_preorder : PreOrder stays_fenced.
Proof.
  split; [by split|]. intros x y z [H1 M1] [H2 M2]. split; [by etransitivity|]. intros a Ha.
  destruct (M1 a Ha) as [B1 E1]. destruct (M2 a) as [B2 E2]; [by rewrite (commit_fenced_same x)|].
  split; [auto|congruence].
Qed.
#[export] Instance stays_fenced_frame : Frame stays_fenced.
Proof. split; [apply _|by split..]. Qed.
#[export] Hint Extern 1 (Skips stays_fenced _) => by intros ??; split : typeclass_instances.

Lemma money_same db db' : same_keys db db' → db_entries db' = db_entries db → money_stays db db'.
Proof.
  intros Hk He a _. unfold same_keys in Hk. split; [intros b; by rewrite !balance_of_key, Hk|].
  unfold entries_of. by rewrite He.
Qed.

Lemma update_account_money accountID f db a db' `{!SameAccount f} :
  update_account accountID f db = Ok (a, db') → money_stays db db'.
Proof.
  intros (old & Hold & Hmove & _ & ->)%update_account_ok x Hx. split; [|done]. intros b.
  unfold balance_of. get_upd.
  change ((fun r => if account_ID r == accountID then f r <| account_UpdatedAt := db_now db |> else r)
    <$> db_accounts db) with (updated_account accountID f (db_now db) <$> db_accounts db).
  rewrite (find_fmap_same (fun a => account_ID a == x)) by (intros r; by rewrite (updated_account_id accountID f)).
  destruct (find (fun a => account_ID a == x) _) as [r|] eqn:Hr; [|done]. simpl. intros [= <-]. f_equal. unfold updated_account.
  apply find_account in Hr as Hid. destruct Hid as [_ Hid]. case_bool_decide as E; [|done]. get_upd.
  assert (x = accountID) as -> by congruence. assert (r = old) as -> by congruence.
  destruct Hmove as [?|[_ Hf]]; [done|congruence].
Qed.

#[export] Instance stays_fenced_apart : Apart stays_fenced.
Proof.
  split; try apply _; try done.
  - intros accountID f Hf db a db' H. split; [|by eapply update_account_money].
    by eapply (apart_account (R := same_handoffs)).
  - intros accountID db u db' H. split; [by eapply (touches (R := same_handoffs))|].
    unfold touch_billing_authority_guard in H.
    apply money_same; [by eapply (touches (R := same_keys))|].
    by apply bind_ok in H as (rows & db1 & (_ & _ & _ & ->)%update_rows_ok & [_ ->]%ret_ok).
  - intros target a _ db r db' (-> & _ & _ & ->)%insert_or_nothing_ok%insert_row_ok. split; [done|].
    intros x _. split; [|done]. intros b. unfold balance_of.
    change (db_accounts (t_put (t_rows db ++ [a]) db)) with (db_accounts db ++ [a]). rewrite find_app.
    by destruct (find _ (db_accounts db)).
  - intros e db r db' (-> & _ & _ & _ & Hf & ->)%insert_entry_ok. split; [done|]. intros x Hx. split; [done|].
    unfold entries_of. get_upd. rewrite filter_app, filter_cons_False, filter_nil, app_nil_r; [done|]. congruence.
Qed.

Section fence.
Context {pg : Postgres} {dg : Digest}.

(** What handoff operations do to accounts and entries: nothing. *)
Definition same_money (db db' : Db) : Prop := same_keys db db' ∧ db_entries db' = db_entries db.
#[local] Instance same_money_frame : Frame same_money.
Proof.
  split; [split; [by split|]|by split..]. intros x y z [H1 E1] [H2 E2]. split; [by transitivity y|congruence].
Qed.
#[local] Hint Extern 1 (Skips same_money _) => by intros ??; split : typeclass_instances.
#[local] Instance same_money_touches : Touches same_money.
Proof.
  intros accountID db u db' H. split; [by eapply (touches (R := same_keys))|].
  unfold touch_billing_authority_guard in H.
  by apply bind_ok in H as (rows & db1 & (_ & _ & _ & ->)%update_rows_ok & [_ ->]%ret_ok).
Qed.
Lemma exec_same_money op : on_handoff op = true → keeps same_money (exec op).
Proof. intros Hop. destruct op; try done; cbn [exec]; try apply keeps_ignore; apply _. Qed.

Lemma exec_stays_fenced op : on_handoff op = false → keeps stays_fenced (exec op).
Proof.
  intros Hop. destruct (on_closure op) eqn:Hc.
  { destruct op; try done; cbn [exec]; try apply keeps_ignore; try apply _. }
  destruct (on_creation op) eqn:Hr; [|by apply (exec_apart _)].
  destruct op; try done; cbn [exec]; try apply keeps_ignore; try apply _.
  apply keeps_BootstrapBrandCloud; [apply _..|]. apply apart_new_account.
Qed.

Lemma run_op_money op db : money_stays db (run_op db op).
Proof.
  unfold run_op, run. destruct (exec op db) as [[u db']|e] eqn:E; [|by intros a _].
  destruct (on_handoff op) eqn:Hop; [|by apply (exec_stays_fenced op Hop) in E as [_ ?]].
  apply (exec_same_money op Hop) in E as [??]. by apply money_same.
Qed.

Lemma run_all_snoc ops op db : run_all (ops ++ [op]) db = run_op (run_all ops db) op.
Proof. unfold run_all, flip. by rewrite foldl_app. Qed.

(** The balance and the entries of an account that stays fenced, through a run. *)
Lemma run_all_money ops db a b :
  (∀ k, (k < length ops)%nat → commit_fenced (run_all (take k ops) db) a = true) →
  balance_of db a = Some b →
  balance_of (run_all ops db) a = Some b ∧ entries_of (run_all ops db) a = entries_of db a.
Proof.
  induction ops as [|op ops IH] using rev_ind; intros Hf Hb; [done|]. rewrite run_all_snoc.
  rewrite length_app in Hf. simpl in Hf. destruct IH as [IHb IHe]; [|done|].
  - intros k Hk. specialize (Hf k). rewrite take_app_le in Hf by lia. apply Hf. lia.
  - destruct (run_op_money op (run_all ops db) a) as [H1 H2].
    + specialize (Hf (length ops)). rewrite take_app_length in Hf. apply Hf. lia.
    + split; [by apply H1|congruence].
Qed.

Lemma exec_accounts_stay op : keeps accounts_stay (exec op).
Proof.
  destruct (on_handoff op) eqn:Hh; [|destruct (on_closure op) eqn:Hc; [|destruct (on_creation op) eqn:Hr;
    [|by apply (exec_apart _)]]]; destruct op; try done; cbn [exec]; try apply keeps_ignore; try apply _.
  - apply keeps_BootstrapBrandCloud; try apply _. apply apart_new_account.
Qed.
Lemma run_all_accounts ops db : accounts_stay db (run_all ops db).
Proof. apply run_all_keeps; [apply _|]. apply Forall_forall. intros op _. apply exec_accounts_stay. Qed.
End fence.

(** ** Distinct accounts *)
Definition distinct_accounts (db : Db) : Prop := NoDup (account_ID <$> db_accounts db).
Lemma distinct_ids db db' : account_ids db' = account_ids db → preserves distinct_accounts db db'.
Proof.
  unfold account_ids, preserves, distinct_accounts. intros H. apply (f_equal (fmap fst)) in H.
  rewrite <- !list_fmap_compose in H. change (account_ID <$> db_accounts db' = account_ID <$> db_accounts db) in H.
  by rewrite H.
Qed.
#[export] Instance distinct_frame : Frame (preserves distinct_accounts).
Proof. split; [apply _|by unfold preserves..]. Qed.
#[export] Hint Extern 1 (Skips (preserves distinct_accounts) _) => by intros rows db Hd : typeclass_instances.
#[export] Instance distinct_touches : Touches (preserves distinct_accounts).
Proof. intros accountID db u db' H. apply distinct_ids, same_keys_ids. by apply (touches (R := same_keys)) in H. Qed.
#[export] Instance distinct_apart : Apart (preserves distinct_accounts).
Proof.
  split; try apply _.
  - by intros ?????.
  - intros accountID f Hf db a db' (old & _ & _ & _ & ->)%update_account_ok. apply distinct_ids.
    unfold account_ids. get_upd. rewrite <- list_fmap_compose. apply list_fmap_ext. intros n r _.
    apply (updated_account_key accountID f (db_now db) r).
  - intros target a _ db r db' (-> & _ & Hno & ->)%insert_or_nothing_ok%insert_row_ok Hnd.
    unfold distinct_accounts. change (NoDup (account_ID <$> (db_accounts db ++ [a]))).
    rewrite fmap_app. apply NoDup_app. split; [done|]. split; [|apply NoDup_singleton].
    intros x (s & -> & Hs)%list_elem_of_fmap Hx%list_elem_of_singleton. specialize (Hno s Hs).
    cbn [t_conflict accounts_table] in Hno. by rewrite bool_decide_eq_true_2 in Hno.
Qed.

(** ** The phases between a grant and a finalization *)

Definition granted_phases : list string :=
  ["commit_authorized"; "finalizing"; "finalized"; "abort_pending"; "aborted"].
Lemma rtc_from_granted from p : from ∈ granted_phases → rtc phase_edge from p → p ∈ granted_phases.
Proof.
  intros Hin Hrun. induction Hrun as [|x y z He _ IH]; [done|]. apply IH.
  unfold phase_edge, granted_phases in *. set_solver.
Qed.
Lemma rtc_into_finalizing p :
  rtc phase_edge p "finalizing" → p ∈ ["preparing"; "prepared"; "commit_authorized"; "finalizing"].
Proof.
  set (to := "finalizing") at 1. intros Hrun. assert (to = "finalizing") as Hto by done. clearbody to.
  induction Hrun as [|x y z He _ IH]; [set_solver|]. specialize (IH Hto). unfold phase_edge in He. set_solver.
Qed.

Section theorems.
Context {pg : Postgres} {dg : Digest}.

Lemma exec_distinct op : keeps (preserves distinct_accounts) (exec op).
Proof.
  destruct (on_handoff op) eqn:Hh; [|destruct (on_closure op) eqn:Hc; [|destruct (on_creation op) eqn:Hr;
    [|by apply (exec_apart _)]]]; destruct op; try done; cbn [exec]; try apply keeps_ignore; try apply _.
  apply keeps_BootstrapBrandCloud; [apply _..|]. apply apart_new_account.
Qed.
Lemma run_all_distinct ops db : distinct_accounts db → distinct_accounts (run_all ops db).
Proof.
  apply (run_all_keeps (preserves distinct_accounts)). apply Forall_forall. intros op _. apply exec_distinct.
Qed.

Lemma run_all_evolves ops db : HandoffInv (hdata db) → handoff_evolves (hdata db) (hdata (run_all ops db)).
Proof.
  intros Hinv. pose proof (run_all_handoff_steps ops db) as Hrun. revert Hinv. induction Hrun as [|x y z Hs _ IH]; [done|].
  intros Hinv. etransitivity; [by apply handoff_step_evolves|]. apply IH. by eapply handoff_step_inv.
Qed.
Lemma run_all_inv ops db : HandoffInv (hdata db) → HandoffInv (hdata (run_all ops db)).
Proof. apply handoff_steps_inv, run_all_handoff_steps. Qed.

(** Between a grant and the finalization the account is fenced all the time. *)
Lemma fenced_between ops db h h' a k :
  HandoffInv (hdata db) → h ∈ db_handoffs db → handoff_Phase h = "commit_authorized" → handoff_AccountID h = a →
  h' ∈ db_handoffs (run_all ops db) → handoff_ID h' = handoff_ID h → handoff_Phase h' = "finalizing" →
  commit_fenced (run_all (take k ops) db) a = true.
Proof.
  intros Hinv Hh Hp Ha Hh' Hid Hp'.
  destruct (he_handoffs _ _ (run_all_evolves (take k ops) db Hinv) h Hh) as (g & Hg & [Hi Hrtc _]).
  assert (run_all ops db = run_all (drop k ops) (run_all (take k ops) db)) as Hsplit.
  { unfold run_all, flip. by rewrite <- foldl_app, take_drop. }
  rewrite Hsplit in Hh'.
  destruct (he_handoffs _ _ (run_all_evolves (drop k ops) _ (run_all_inv (take k ops) db Hinv)) g Hg)
    as (g' & Hg' & [Hi' Hrtc' _]).
  assert (g' = h') as ->.
  { eapply (NoDup_fmap_inj_elem handoff_ID); [apply (hi_ids _ (run_all_inv (drop k ops) _ (run_all_inv (take k ops) db Hinv)))|
      done|done|]. apply handoff_identity_fields in Hi as [? _], Hi' as [? _]. congruence. }
  rewrite Hp' in Hrtc'. apply rtc_from_granted in Hrtc; [|rewrite Hp; left]. unfold granted_phases in Hrtc. apply rtc_into_finalizing in Hrtc'.
  apply handoff_identity_fields in Hi as (_ & Hi & _). apply existsb_true. exists g. split; [done|]. cbv beta.
  assert (handoff_Phase g ∈ ["commit_authorized"; "finalizing"]) as Hin%one_of_elem
    by (rewrite !elem_of_cons, elem_of_nil in *; intuition congruence).
  by rewrite Hin, bool_decide_eq_true_2 by congruence.
Qed.

(** The balance of a handed-over account is that of the row found by its organization. *)
Lemma balance_found db org account :
  distinct_accounts db → find (by_organization org Settlement) (db_accounts db) = Some account →
  balance_of db (account_ID account) = Some (account_AvailableBalanceMinor account).
Proof.
  intros Hnd [Hin _]%find_some_iff. unfold balance_of.
  by rewrite (find_unique account_ID (db_accounts db) account).
Qed.

(** The receipt and the snapshot of one version of an operation. *)
Lemma receipt_unique d r r' :
  HandoffInv d → r ∈ ht_receipts (hd_tables d) → r' ∈ ht_receipts (hd_tables d) →
  settle_OperationID r = settle_OperationID r' → settle_OperationVersion r = settle_OperationVersion r' → r = r'.
Proof.
  intros [_ _ _ _ Hru _]. induction (ht_receipts (hd_tables d)) as [|x l IH]; [by intros ?%elem_of_nil|].
  simpl in Hru. apply andb_true_iff in Hru as [Hx Hl]. rewrite forallb_true in Hx.
  assert (∀ y, y ∈ l → settle_OperationID x = settle_OperationID y → settle_OperationVersion x ≠ settle_OperationVersion y)
    as Hne.
  { intros y Hy Hid Hv. specialize (Hx y Hy). cbn [t_conflict settlement_receipts_table] in Hx.
    rewrite (bool_decide_eq_true_2 (settle_OperationID x = settle_OperationID y)), Hv, Z.eqb_refl in Hx by done.
    by rewrite orb_true_r in Hx. }
  intros [->|Hr]%elem_of_cons [->|Hr']%elem_of_cons Hid Hv; [done|destruct (Hne r' Hr' Hid Hv)|
    destruct (Hne r Hr (eq_sym Hid) (eq_sym Hv))|by apply IH].
Qed.

Lemma snapshot_balance d r s :
  HandoffInv d → r ∈ ht_receipts (hd_tables d) → s ∈ ht_snapshots (hd_tables d) →
  settle_OperationID r = snap_OperationID s → settle_OperationVersion r = snap_Version s →
  snap_BalanceMinor s = ev_BalanceMinor (settle_Evidence r).
Proof.
  intros Hinv Hr Hs Hid Hv. destruct (hi_snapshots _ Hinv s Hs) as (r' & Hr' & Hid' & Hv' & Hb).
  by rewrite (receipt_unique d r r') by congruence.
Qed.

(** A new settlement whose status shows a snapshot: it has the balance of the account. *)
Lemma recorded_snapshot in_ db st db' account op r blockers snap :
  HandoffInv (hdata db) → records in_ db st db' account op r blockers → status_Snapshot st = Some snap →
  HandoffInv (hdata db') ∧ hsnap_BalanceMinor snap = account_AvailableBalanceMinor account ∧
  r ∈ ht_receipts (db_handoff db') ∧ settle_OperationVersion r = hsnap_Version snap.
Proof.
  intros Hinv [Ha Hop Hid Hacc Hc [Hro Hrv] Hdig Hbal Hno Hdata Hst] Hsnap.
  assert (HandoffInv (hdata db')) as Hinv' by (rewrite Hdata; by apply HandoffInv_record).
  destruct (Hst snap Hsnap) as (r' & row & Hcf & ->).
  assert (r ∈ ht_receipts (hd_tables (hdata db'))) as Hr.
  { rewrite Hdata. change (r ∈ ht_receipts (db_handoff db) ++ [r]). apply elem_of_app. right. by left. }
  pose proof (cf_row_version _ _ _ _ _ Hcf) as Hv.
  change (handoff_Version (take_settlement op blockers op)) with (handoff_Version op + 1) in Hv.
  split; [done|]. split; [|split; [done|simpl; lia]]. simpl. rewrite <- Hbal.
  eapply snapshot_balance; [done|done|exact (cf_row _ _ _ _ _ Hcf)| |lia].
  rewrite (cf_row_op _ _ _ _ _ Hcf). exact Hro.
Qed.

End theorems.

(** ** What the protocol promises *)
Section promises.
Context {pg : Postgres} {dg : Digest}.

(** C6: In every run of the store, phase and evidence of each handoff agree: an ownership
    that was decided is never cancelled and one that was cancelled is never decided, a
    decision has its grant and a finalization its decision; handoffs stay, keep their
    account, participants, version and cutoff, and move along the protocol's phases; and
    receipts, snapshots, confirmations, grants and decisions are only ever added. *)
Theorem handoff_safe ops db : HandoffInv (hdata db) →
  let d := hdata db in let d' := hdata (run_all ops db) in
  HandoffInv d' ∧ handoff_evolves d d' ∧
  ∀ id, ¬ (decided d' id = true ∧ cancelled d' id = true) ∧ (decided d' id = true → granted d' id = true) ∧
        (finalized d' id = true → decided d' id = true) ∧ (aborted d' id = true → cancelled d' id = true).
Proof.
  intros Hinv. simpl. split; [by apply run_all_inv|]. split; [by apply run_all_evolves|].
  intros id. by apply HandoffInv_exclusive, run_all_inv.
Qed.

(** C7: While the commit of a handoff is authorized for an account (until it is finalized
    or its abort acknowledged), no operation whatever moves the account's balance or adds
    a ledger entry to it. *)
Theorem fence_freezes_balance ops db a b :
  (∀ k, (k < length ops)%nat → commit_fenced (run_all (take k ops) db) a = true) →
  balance_of db a = Some b →
  balance_of (run_all ops db) a = Some b ∧ entries_of (run_all ops db) a = entries_of db a.
Proof. apply run_all_money. Qed.

(** C8: A grant to commit is only issued for the current snapshot version, which both
    participants have confirmed; at that moment the collector's receipt still digests the
    account's state, and the transfer is not blocked: the balance is known and not
    negative, usage, invoices and provider work are settled, and nothing is pending.
    From then on the account is fenced. *)
Theorem AuthorizeHandoffCommit_spec in_ db grant db' :
  AuthorizeHandoffCommit in_ db = Ok (grant, db') →
  (∀ g, g ∈ db_commit_authorizations db → auth_OperationID g ≠ hscope_OperationID (authin_Scope in_)) →
  ∃ account op r,
    find (by_organization (hscope_OrganizationID (authin_Scope in_)) Settlement) (db_accounts db) = Some account ∧
    op ∈ db_handoffs db ∧ handoff_ID op = hscope_OperationID (authin_Scope in_) ∧
    handoff_Version op = authin_SnapshotVersion in_ ∧
    confirmed_by db (handoff_ID op) (handoff_SourceUserID op) (authin_SnapshotVersion in_) = true ∧
    confirmed_by db (handoff_ID op) (handoff_TargetUserID op) (authin_SnapshotVersion in_) = true ∧
    find (current_receipt op) (ht_receipts (db_handoff db)) = Some r ∧
    settle_StateSHA256 r = settlement_sha256 (settlement_view db account) ∧
    auth_StateSHA256 grant = settlement_sha256 (settlement_view db account) ∧
    transferable (mergeSettlementEvidence (settle_Evidence r) (local_evidence db account)) ∧
    0 ≤ account_AvailableBalanceMinor account ∧ commit_fenced db' (account_ID account) = true.
Proof.
  intros [[_ (g & Hg & Hid)]|(account & op & r & row & [])]%AuthorizeHandoffCommit_ok Hnew; [by destruct (Hnew g Hg)|].
  destruct az_confirmable. exists account, op, r. rewrite <- az_version. split_and!; try done; try congruence.
  - exact (tr_balance _ cf_transferable).
  - apply existsb_true. exists (advance "commit_authorized" op). split.
    + change (advance "commit_authorized" op ∈ hd_handoffs (hdata db')). rewrite az_data. apply elem_set_handoff.
      exists op. split; [done|]. by rewrite bool_decide_eq_true_2.
    + unfold advance. get_upd. rewrite az_op_account. by rewrite (bool_decide_eq_true_2 (account_ID account = _)).
Qed.

(** The authorization is for the recorded receipt, if no digests collide: same balance. *)
Lemma authorized_balance in0 db0 st db1 a0 op0 r bl ops1 in1 grant db2 a1 op1 r1 row :
  HandoffInv (hdata db1) → records in0 db0 st db1 a0 op0 r bl → r ∈ ht_receipts (db_handoff db1) →
  authorizes in1 (run_all ops1 db1) grant db2 a1 op1 r1 row →
  authin_Scope in1 = record_Scope in0 → authin_SnapshotVersion in1 = settle_OperationVersion r →
  (settlement_sha256 (settlement_view db0 a0) = settlement_sha256 (settlement_view (run_all ops1 db1) a1) →
   settlement_view db0 a0 = settlement_view (run_all ops1 db1) a1) →
  account_AvailableBalanceMinor a1 = account_AvailableBalanceMinor a0.
Proof.
  intros Hinv [Ha0 Hop0 Hid0 Hacc0 _ [Hro Hrv] Hdig0 _ _ _ _] Hr [Ha1 Hop1 Hid1 Hacc1 _ Hcf Hv1 _ _ _ _ _ _] Hsc Hver Hnc.
  assert (r ∈ ht_receipts (hd_tables (hdata (run_all ops1 db1)))) as Hr'.
  { eapply elem_of_prefix; [exact Hr|]. exact (he_receipts _ _ (run_all_evolves ops1 db1 Hinv)). }
  pose proof (cf_receipt _ _ _ _ _ Hcf) as Hf. apply find_some_iff in Hf as [Hr1 Hcur].
  unfold current_receipt in Hcur. reflect_go.
  assert (r1 = r) as -> 
    by (apply (receipt_unique (hdata (run_all ops1 db1))); [by apply run_all_inv|done|done|congruence|congruence]).
  pose proof (cf_digest _ _ _ _ _ Hcf) as Hdig1. rewrite Hdig0 in Hdig1.
  specialize (Hnc Hdig1). apply (f_equal (fun v => (view_account v).1.1.1.2)) in Hnc. by symmetry.
Qed.

(** From the grant to the finalization of the same operation the balance stays. *)
Lemma balance_until_finalized ops in1 db grant db1 a1 op1 r row in2 ack db2 a2 op2 g2 src pid :
  HandoffInv (hdata db) → distinct_accounts db → authorizes in1 db grant db1 a1 op1 r row →
  finalizes in2 (run_all ops db1) ack db2 a2 op2 g2 src pid → finalin_Scope in2 = authin_Scope in1 →
  balance_of (run_all ops db1) (account_ID a2) = Some (account_AvailableBalanceMinor a1).
Proof.
  intros Hinv Hd [Ha1 Hop1 Hid1 Hacc1 _ Hcf _ _ _ Hgrant _ Hkeys Hdata] [_ Hop2 Hid2 Hacc2 Hph2 _ _ _ _ _ _ _ _ _ _] Hsc.
  assert (HandoffInv (hdata db1)) as Hinv1.
  { eapply handoff_step_inv; [|exact Hinv]. eapply step_authorize; [done|exact (cf_collecting _ _ _ _ _ Hcf)|done|done]. }
  assert (advance "commit_authorized" op1 ∈ hd_handoffs (hdata db1)) as Hop1'.
  { rewrite Hdata. apply elem_set_handoff. exists op1. split; [done|]. by rewrite bool_decide_eq_true_2. }
  assert (handoff_ID op2 = handoff_ID (advance "commit_authorized" op1)) as Hid by (simpl; congruence).
  destruct (he_handoffs _ _ (run_all_evolves ops db1 Hinv1) _ Hop1') as (h' & Hh' & [Hi _ _]).
  apply handoff_identity_fields in Hi as (Hi1 & Hi2 & _).
  assert (h' = op2) as -> by (apply (NoDup_fmap_inj_elem handoff_ID (hd_handoffs (hdata (run_all ops db1))));
    [by apply run_all_inv|done|done|congruence]).
  assert (account_ID a2 = account_ID a1) as -> by (change (handoff_AccountID (advance _ op1)) with (handoff_AccountID op1) in Hi2; congruence).
  apply run_all_money.
  - intros k _. eapply (fenced_between ops db1 (advance "commit_authorized" op1) op2); done.
  - rewrite balance_of_key, Hkeys, <- balance_of_key. by eapply balance_found.
Qed.

(** C5: The balance the new owner starts with is the balance both participants confirmed:
    from the snapshot of a settlement, through its authorization, to the finalization,
    whatever other operations run in between, unless the digests of the two captured
    states collide. *)
Theorem handoff_opening_balance in0 db0 st db1 snap ops1 in1 grant db2 ops2 in2 ack db3 :
  HandoffInv (hdata db0) → distinct_accounts db0 →
  RecordHandoffSettlement in0 db0 = Ok (st, db1) → status_Snapshot st = Some snap →
  (∀ r, r ∈ ht_receipts (db_handoff db0) → settle_ID r ≠ record_ReceiptID in0) →
  AuthorizeHandoffCommit in1 (run_all ops1 db1) = Ok (grant, db2) →
  authin_Scope in1 = record_Scope in0 → authin_SnapshotVersion in1 = hsnap_Version snap →
  granted (hdata (run_all ops1 db1)) (hscope_OperationID (record_Scope in0)) = false →
  (∀ a a', find (by_organization (hscope_OrganizationID (record_Scope in0)) Settlement) (db_accounts db0) = Some a →
     find (by_organization (hscope_OrganizationID (record_Scope in0)) Settlement) (db_accounts (run_all ops1 db1)) = Some a' →
     settlement_sha256 (settlement_view db0 a) = settlement_sha256 (settlement_view (run_all ops1 db1) a') →
     settlement_view db0 a = settlement_view (run_all ops1 db1) a') →
  finalizeOwnershipHandoff in2 (run_all ops2 db2) = Ok (ack, db3) → finalin_Scope in2 = record_Scope in0 →
  finalized (hdata (run_all ops2 db2)) (hscope_OperationID (record_Scope in0)) = false →
  ∃ p, p ∈ db_periods db3 ∧ period_OwnerUserID p = finalin_CommittedOwnerUserID in2 ∧
       period_EffectiveUntil p = None ∧
       period_Opening p = Some (hscope_OperationID (record_Scope in0), hsnap_BalanceMinor snap).
Proof.
  intros Hinv0 Hd0 Hrec Hsnap Hnew Hauth Hsc1 Hver Hng Hnc Hfin Hsc2 Hnf.
  assert (distinct_accounts db1) as Hd1
    by exact (keeps_RecordHandoffSettlement (preserves distinct_accounts) _ _ _ _ Hrec Hd0).
  assert (distinct_accounts db2) as Hd2
    by exact (keeps_AuthorizeHandoffCommit (preserves distinct_accounts) _ _ _ _ Hauth (run_all_distinct ops1 db1 Hd1)).
  apply RecordHandoffSettlement_ok in Hrec as [[_ (r & Hr & Hid)]|(a0 & op0 & r & bl & Hrec)]; [by destruct (Hnew r Hr)|].
  apply AuthorizeHandoffCommit_ok in Hauth as [[_ (g & Hg & Hid)]|(a1 & op1 & r1 & row & Hauth)].
  { unfold granted, has_row in Hng. rewrite existsb_false in Hng. specialize (Hng g Hg).
    by rewrite bool_decide_eq_true_2 in Hng by congruence. }
  apply finalizeOwnershipHandoff_ok in Hfin as [[_ (f & Hf & Hid)]|(a2 & op2 & g2 & src & pid & Hfin)].
  { unfold finalized, has_row in Hnf. rewrite existsb_false in Hnf. specialize (Hnf f Hf).
    by rewrite bool_decide_eq_true_2 in Hnf by congruence. }
  destruct (recorded_snapshot _ _ _ _ _ _ _ _ _ Hinv0 Hrec Hsnap) as (Hinv1 & Hb0 & Hr0 & Hv0).
  pose proof (run_all_inv ops1 db1 Hinv1) as Hinv1'.
  assert (account_AvailableBalanceMinor a1 = account_AvailableBalanceMinor a0) as Hb1.
  { eapply (authorized_balance in0 db0 st db1 a0 op0 r bl ops1); try done; [congruence|]. apply Hnc; [apply Hrec|].
    rewrite <- Hsc1. apply Hauth. }
  assert (balance_of (run_all ops2 db2) (account_ID a2) = Some (account_AvailableBalanceMinor a1)) as Hb2.
  { eapply (balance_until_finalized ops2 in1 (run_all ops1 db1) grant db2); try done; [|congruence].
    by apply run_all_distinct. }
  destruct Hfin as [Ha2 Hop2 Hid2 Hacc2 _ Htgt _ _ _ _ _ Hsw _ _ _].
  rewrite (balance_found _ _ _ (run_all_distinct ops2 db2 Hd2) Ha2) in Hb2. injection Hb2 as Hb2.
  exists (target_period pid a2 op2 in2). split.
  - rewrite (sw_periods _ _ _ _ _ _ _ Hsw). apply elem_of_app. right. by left.
  - simpl. split_and!; [by rewrite Htgt|done|]. rewrite Hid2, Hsc2, Hb2, Hb1, Hb0. done.
Qed.
End promises.

(** ** The concrete handoff *)
#[local] Existing Instances demo_pg demo_dg.

Lemma handoff_safe_witness :
  decided (hdata demo_handed_over) "handoff" = true ∧ cancelled (hdata demo_handed_over) "handoff" = false.
Proof.
  split; [by vm_compute|].
  destruct (handoff_safe demo_handoff_ops demo_quiet (HandoffInv_empty demo_quiet eq_refl)) as (_ & _ & H).
  specialize (H "handoff") as (H & _). destruct (cancelled (hdata demo_handed_over) "handoff") eqn:E; [|done].
  exfalso. apply H. change (run_all demo_handoff_ops demo_quiet) with demo_handed_over.
  split; [by vm_compute|exact E].
Defined.

(** A credit posted to the fenced account fails, and changes nothing. *)
Definition demo_late_credit : operation :=
  OpPost None (mkPostLedgerEntryInput "acc" LedgerDirectionCredit 5 TWD LedgerReasonManualAdjustmentCredit
    "manual" "x" "late" "x" "user" "user-1" "corr" demo_now).

Lemma fence_freezes_balance_witness :
  balance_of (run_all [demo_late_credit; OpDecision demo_finalize; demo_late_credit] demo_granted) "acc" = Some 1000.
Proof.
  refine (proj1 (fence_freezes_balance [demo_late_credit; OpDecision demo_finalize; demo_late_credit]
    demo_granted "acc" 1000 _ eq_refl)).
  intros k Hk. simpl in Hk. destruct k as [|[|[|k]]]; [by vm_compute..|lia].
Defined.

Lemma AuthorizeHandoffCommit_spec_witness :
  ∃ account, find (by_organization "org" Settlement) (db_accounts demo_confirmed) = Some account ∧
    0 ≤ account_AvailableBalanceMinor account ∧ commit_fenced demo_granted (account_ID account) = true.
Proof.
  destruct (AuthorizeHandoffCommit demo_authorize demo_confirmed) as [[grant db']|] eqn:E; [|by vm_compute in E].
  assert (db' = demo_granted) as Hdb by (vm_compute in E; by injection E as _ <-).
  assert (∀ g, g ∈ db_commit_authorizations demo_confirmed → auth_OperationID g ≠ hscope_OperationID (authin_Scope demo_authorize))
    as Hno by (intros g Hg; by apply elem_of_nil in Hg).
  destruct (AuthorizeHandoffCommit_spec demo_authorize demo_confirmed grant db' E Hno)
    as (a & op & r & Ha & _ & _ & _ & _ & _ & _ & _ & _ & _ & Hb & Hf).
  exists a. rewrite <- Hdb. exact (conj Ha (conj Hb Hf)).
Defined.

Lemma handoff_opening_balance_witness :
  ∃ p, p ∈ db_periods demo_handed_over ∧ period_OwnerUserID p = "user-2" ∧ period_EffectiveUntil p = None ∧
       period_Opening p = Some ("handoff", 1000).
Proof.
  assert (HandoffInv (hdata demo_prepared)) as Hinv
    by exact (run_all_inv [demo_prepare] demo_quiet (HandoffInv_empty demo_quiet eq_refl)).
  assert (distinct_accounts demo_prepared) as Hd by (apply (bool_decide_unpack _); by vm_compute).
  refine (handoff_opening_balance demo_settle demo_prepared demo_status demo_settled demo_snapshot demo_confirms
    demo_authorize demo_grant demo_granted [OpDecision demo_finalize] demo_finalize
    (mkHandoffProtocolAck "handoff" "finalized") demo_handed_over
    Hinv Hd _ eq_refl _ _ eq_refl eq_refl _ _ _ eq_refl _); try (by vm_compute); try exact eq_refl.
  - intros r Hr. by apply elem_of_nil in Hr.
  - intros a a' Ha Ha' _. vm_compute in Ha, Ha'. injection Ha as <-. injection Ha' as <-. by vm_compute.
Defined.
