(* ===== verification/ClosureSteps.v ===== *)
(** * The steps of a cloud closure

    What each operation of the closure protocol writes, as an inductive step relation on
    the protocol's data, and what a successful [CloseCloud] certifies.  Every operation
    of the store is such a step or leaves the data alone. *)
From S2P Require Import Prelude GoStrings GoTime BillingTypes Evidence PaymentTypes Payment Database.
From S2P Require Import Tables Keeps Fixtures Accounts Ledger Credits Setups Handoff Protocols Settlement.
From S2P Require Import HandoffCommit Closure Preflight Creation Operations Responsibility HandoffSteps.
From S2P Require Import HandoffSafety Handover.

Record ClosureData := mkClosureData {
  cd_closures : list CloudClosure;
  cd_completions : list ClosureCompletion;
  cd_cancellations : list ClosureCancellation;
  cd_releases : list ClosureRelease;
  cd_retired : list RetiredCommand
}.
#[export] Instance ClosureData_eta : Eta ClosureData := fun d => {|
  cd_closures := cd_closures d; cd_completions := cd_completions d; cd_cancellations := cd_cancellations d;
  cd_releases := cd_releases d; cd_retired := cd_retired d |}.
Definition cdata (db : Db) : ClosureData :=
  let t := db_closure db in
  mkClosureData (db_closures db) (ct_completions t) (ct_cancellations t) (ct_releases t) (ct_retired t).

Definition same_closures (db db' : Db) : Prop := cdata db' = cdata db.
#[export] Instance same_closures_preorder : PreOrder same_closures.
Proof. unfold same_closures. split; [done|]. intros x y z. congruence. Qed.
#[export] Instance same_closures_frame : Frame same_closures.
Proof. split; [apply _|done..]. Qed.
#[export] Hint Extern 1 (Skips same_closures _) => by intros ?? : typeclass_instances.
#[export] Instance same_closures_apart : Apart same_closures.
Proof. split; try apply _; done. Qed.

(** ** Steps *)
Definition set_phase (id phase : string) (d : ClosureData) : ClosureData :=
  d <| cd_closures ::= fmap (fun c => if closure_ID c == id
         then c <| closure_Phase := phase |> <| closure_Version ::= Z.succ |> else c) |>.

Inductive closure_step (d d' : ClosureData) : Prop :=
  | cstep_none : d' = d → closure_step d d'
  | cstep_prepare c :
      closure_Phase c = "preparing" → (∀ o, o ∈ cd_closures d → t_conflict o c = false) →
      d' = d <| cd_closures ::= fun l => l ++ [c] |> → closure_step d d'
  | cstep_close op x :
      op ∈ cd_closures d → closure_Phase op = "preparing" → completion_OperationID x = closure_ID op →
      (∀ r, r ∈ cd_retired d → rcommand_OperationID r = completion_OperationID x →
            rcommand_RequestSHA256 r ≠ completion_RequestSHA256 x) →
      d' = set_phase (closure_ID op) "closed" (d <| cd_completions ::= fun l => l ++ [x] |>) → closure_step d d'
  | cstep_cancel op x :
      op ∈ cd_closures d → closure_Phase op = "preparing" → ccancel_OperationID x = closure_ID op →
      d' = set_phase (closure_ID op) "canceling" (d <| cd_cancellations ::= fun l => l ++ [x] |>) → closure_step d d'
  | cstep_release op x :
      op ∈ cd_closures d → closure_Phase op = "canceling" → release_OperationID x = closure_ID op →
      d' = set_phase (closure_ID op) "canceled" (d <| cd_releases ::= fun l => l ++ [x] |>) → closure_step d d'
  | cstep_retire x :
      has_row completion_OperationID (cd_completions d) (rcommand_OperationID x) = false →
      (∃ op, op ∈ cd_closures d ∧ closure_ID op = rcommand_OperationID x ∧ closure_Phase op = "preparing") →
      d' = d <| cd_retired ::= fun l => l ++ [x] |> → closure_step d d'.

Section writes.
Context {pg : Postgres} {dg : Digest}.

Lemma raise_ok ok db u db' : raise_unless ok db = Ok (u, db') → ok db = true ∧ db' = db.
Proof. unfold raise_unless. destruct (ok db) eqn:E; [by intros [= <- <-]|done]. Qed.

Lemma set_closure_phase_ok id phase db c db' :
  set_closure_phase id phase db = Ok (c, db') →
  ∃ old, old ∈ db_closures db ∧ closure_ID old = id ∧ closure_edge (closure_Phase old) phase = true ∧
    closure_phase_evidence db id phase = true ∧ cdata db' = set_phase id phase (cdata db).
Proof.
  unfold set_closure_phase. intros (old & db1 & Ho & H)%bind_ok. apply select_elem in Ho as (-> & Hin & Hid).
  apply bind_ok in H as (u & db1 & [Hr ->]%raise_ok & H).
  apply bind_ok in H as (c' & db2 & Hu & H). apply bind_ok in H as (u2 & db3 & Ht & [_ ->]%ret_ok).
  apply update_one_ok in Hu as (rest & (_ & _ & _ & ->)%update_rows_ok).
  apply (touches (R := same_closures)) in Ht. reflect_go. exists old. split_and!; done.
Qed.

Lemma loadCloudClosureTx_ok scope db account op db' :
  loadCloudClosureTx scope db = Ok ((account, op), db') →
  db' = db ∧ find (by_organization (cscope_OrganizationID scope) Settlement) (db_accounts db) = Some account ∧
  op ∈ db_closures db ∧ closure_ID op = cscope_OperationID scope ∧ closure_AccountID op = account_ID account.
Proof.
  unfold loadCloudClosureTx. intros (a & db1 & Ha & H)%bind_ok.
  apply (proj1 (scan_ok _ _ _ _)), select_ok in Ha as [Ha ->].
  apply bind_ok in H as (o & db1 & Ho & H). apply (proj1 (scan_ok _ _ _ _)), select_elem in Ho as (-> & Ho & Hp).
  apply bind_ok in H as (u & db1 & [_ ->]%require_ok & [[= -> ->] ->]%ret_ok). reflect_go. by split_and!.
Qed.

Lemma PrepareCloudClosure_step in_ db c db' :
  PrepareCloudClosure in_ db = Ok (c, db') → closure_step (cdata db) (cdata db').
Proof.
  unfold PrepareCloudClosure. cbv zeta. intros (u & db1 & [_ ->]%require_ok & H)%bind_ok.
  apply withTx_ok in H as [H|[-> _]]; [|by apply cstep_none]. unfold prepareCloudClosureTx in H. cbv zeta in H.
  apply bind_ok in H as (account & db1 & Ha & H). apply (proj1 (scan_ok _ _ _ _)), select_ok in Ha as [_ ->].
  apply bind_ok in H as (prior & db1 & Hp & H). apply try_err_ok in Hp as [(g & -> & Hg)|(-> & -> & _)].
  { by apply bind_ok in H as (? & ? & _ & [? _]%ret_ok). }
  apply bind_ok in H as (u2 & db1 & (-> & _)%requireNoHandoffTx_ok & H).
  apply bind_ok in H as (u1 & db1 & [_ ->]%require_ok & H).
  apply bind_ok in H as (period & db1 & [_ ->]%gets_ok & H). apply bind_ok in H as (clock & db1 & Hck & H).
  apply (keeps_clock_timestamp same_closures) in Hck. destruct period as [p|]; [|done].
  apply bind_ok in H as (u3 & db2 & [_ ->]%require_ok & H). apply bind_ok in H as (now & db2 & [_ ->]%gets_ok & H).
  apply bind_ok in H as (op & db2 & Ho & H). apply (proj1 (scan_ok _ _ _ _)) in Ho.
  apply bind_ok in H as (tasks & db3 & [_ ->]%gets_ok & H). apply bind_ok in H as (u4 & db3 & Ht & H).
  apply bind_ok in H as (u5 & db4 & Hv & [_ ->]%ret_ok).
  apply (keeps_insert_rows same_closures) in Ht.
  assert (same_closures db3 db4) as Hv' by (revert Hv; unfold revoke_for_closure;
    match goal with |- ?m db3 = _ → _ => intros Hv; assert (keeps same_closures m) as Hk by keeps; by eapply Hk end).
  unfold insert_closure in Ho. apply bind_ok in Ho as (u6 & db5 & [_ ->]%raise_ok & Ho).
  apply bind_ok in Ho as (r & db5 & Hr & Ho). apply insert_row_ok in Hr as (-> & _ & Hno & ->).
  apply bind_ok in Ho as (u7 & db5 & Htt & [-> ->]%ret_ok). apply (touches (R := same_closures)) in Htt.
  unfold same_closures in *. rewrite Hv', Ht, Htt. 
  eapply cstep_prepare; [| |rewrite <- Hck; reflexivity]; [done|]. intros o Hin. apply Hno. rewrite <- Hck in Hin. exact Hin.
Qed.

(** ** Closing *)

Lemma compact_nil l : compact l = [] ↔ l = [].
Proof.
  induction l as [|x [|y l] IH]; [done|done|]. split; [|done]. intros Hc.
  change ((if x == y then compact (y :: l) else x :: compact (y :: l)) = []) in Hc. case_match; [|done].
  by apply IH in Hc.
Qed.
Lemma sort_Strings_nil l : sort_Strings l = [] → l = [].
Proof. intros H. apply Permutation_nil_r. rewrite <- H. symmetry. apply sort_Strings_Permutation. Qed.

Lemma closure_blockers_none account financial current pending :
  closure_blockers account financial current pending = [] →
  current = true ∧ pending = false ∧ account_State account = AccountStateActive ∧
  transferable financial ∧ ev_BalanceMinor financial = 0.
Proof.
  unfold closure_blockers. intros H%compact_nil%sort_Strings_nil.
  apply app_nil in H as [H1%block_if_nil H]. apply app_nil in H as [H2 H].
  apply app_nil in H as [H3%block_if_nil H4%block_if_nil]. apply closure_blockers_nil in H2 as [? ?].
  apply negb_false_iff in H1. reflect_go. by split_and!.
Qed.

(** The state's digest when the cloud is ready, computed from the database. *)
Definition closure_state_sha256 (db : Db) (account : CommercialAccount) (op : CloudClosure) : string :=
  handoffDigest [("Financial", JString (settlement_sha256 (settlement_view db account)));
    ("Manifest", JString (jsonb_text (revocation_manifest db (closure_ID op))));
    ("Request", JString (closure_RequestSHA256 op))].

(** Only the readings of the clock are used up. *)
Definition reads_clock (db db' : Db) : Prop := ∃ wall, db' = db <| db_wall := wall |>.

Lemma clock_timestamp_reads db t db' : clock_timestamp db = Ok (t, db') → reads_clock db db'.
Proof.
  unfold clock_timestamp. destruct (db_wall db) eqn:E; intros [= _ <-]; [exists []|by eexists].
  destruct db. simpl in *. by rewrite E.
Qed.

(** What the readiness of a closure certifies. *)
Record ready (db : Db) (account : CommercialAccount) (op : CloudClosure) (s : ClosureSettlement) : Prop := {
  rd_phase : closure_Phase op = "preparing";
  rd_active : account_State account = AccountStateActive;
  rd_receipt : s ∈ ct_settlements (db_closure db) ∧ csettle_OperationID s = closure_ID op;
  rd_state : csettle_StateSHA256 s = closure_state_sha256 db account op;
  rd_cutoff : closure_Cutoff op ≤ csettle_CoveredThrough s;
  rd_settled : transferable (mergeSettlementEvidence (csettle_Evidence s) (local_evidence db account));
  rd_zero : account_AvailableBalanceMinor account = 0;
  rd_revoked : revocations_pending db (closure_ID op) = false;
  rd_owner : ∃ p, p ∈ db_periods db ∧ period_ID p = closure_SourcePeriodID op ∧
             period_AccountID p = closure_AccountID op ∧ period_EffectiveUntil p = None
}.

Lemma cloudClosureStatusTx_ready account op scope db st db' :
  cloudClosureStatusTx account op scope db = Ok (st, db') → cstatus_Ready st = true →
  reads_clock db db' ∧ ∃ s, csettle_ID s = cstatus_ReceiptID st ∧ ready db account op s.
Proof.
  unfold cloudClosureStatusTx. case_match eqn:Hph; [by intros [-> _]%ret_ok|]. cbv zeta.
  intros (u & db1 & Hu & H)%bind_ok. unfold requireClosureOwnerTx in Hu.
  apply bind_ok in Hu as (v & db2 & [-> ->]%gets_ok & [Hown ->]%require_ok).
  apply existsb_true in Hown as (p & Hp0 & Hown).
  apply bind_ok in H as (state & db1 & Hs & H). unfold captureCloudClosureStateTx in Hs.
  apply bind_ok in Hs as (ss & db2 & Hc & Hs). apply capture_ok in Hc as [-> ->].
  apply bind_ok in Hs as (m & db2 & [-> ->]%gets_ok & Hs). apply bind_ok in Hs as (t & db2 & Ht & [-> ->]%ret_ok).
  apply clock_timestamp_reads in Ht. apply bind_ok in H as (latest & db3 & [Hl ->]%gets_ok & H).
  apply bind_ok in H as (pending & db3 & [Hp ->]%gets_ok & [-> ->]%ret_ok).
  destruct Ht as [wall ->]. intros Hready.
  change (latest_settlement (db <| db_wall := wall |>)) with (latest_settlement db) in Hl.
  change (revocations_pending (db <| db_wall := wall |>)) with (revocations_pending db) in Hp.
  split; [by exists wall|]. simpl in Hready |- *.
  destruct (closure_blockers _ _ _ _) as [|b bs] eqn:Hb; [|done].
  apply closure_blockers_none in Hb as (Hcur & Hpend & Hact & Htr & Hz).
  destruct latest as [s|]; [|done]. destruct (settlement_current op _ s) eqn:Hsc; [|done].
  exists s. split; [done|]. unfold settlement_current in Hsc. simpl in *. reflect_go.
  unfold latest_settlement in Hl. symmetry in Hl. apply head_Some_elem_of in Hl.
  rewrite sort_stable_Permutation in Hl. apply list_elem_of_filter in Hl as [? ?].
  constructor; try done; [congruence|]. exists p. by split_and!.
Qed.

(** What closing writes, with the source's last period ended at the completion. *)
Definition close_period (op : CloudClosure) (at_ : Time) (p : ResponsibilityPeriod) : ResponsibilityPeriod :=
  if (period_ID p == closure_SourcePeriodID op) && bool_decide (period_EffectiveUntil p = None)
  then ended at_ p else p.

Record closing (in_ : CloseCloudInput) (op : CloudClosure) (ack : CloudClosureAck) (db db' : Db)
    (x : ClosureCompletion) : Prop := {
  cg_completion : completion_OperationID x = closure_ID op ∧ completion_SettlementID x = close_SettlementID in_ ∧
                  completion_RequestSHA256 x = close_digest in_;
  cg_ack : ack = mkCloudClosureAck (closure_ID op) "closed" (completion_ClosedAt x) (completion_ReceiptSHA256 x);
  cg_alive : ∀ r, r ∈ ct_retired (db_closure db) → rcommand_OperationID r = completion_OperationID x →
             rcommand_RequestSHA256 r ≠ completion_RequestSHA256 x;
  cg_data : cdata db' = set_phase (closure_ID op) "closed" (cdata db <| cd_completions ::= fun l => l ++ [x] |>);
  cg_periods : db_periods db' = close_period op (completion_ClosedAt x) <$> db_periods db;
  cg_consistent : completion_consistent db' x = true
}.

(** A close that is not a replay. *)
Record closes (in_ : CloseCloudInput) (db : Db) (account : CommercialAccount) (op : CloudClosure)
    (s : ClosureSettlement) : Prop := {
  cl_account : find (by_organization (cscope_OrganizationID (close_Scope in_)) Settlement) (db_accounts db) = Some account;
  cl_op : op ∈ db_closures db ∧ closure_ID op = cscope_OperationID (close_Scope in_) ∧
          closure_AccountID op = account_ID account;
  cl_ready : ready db account op s;
  cl_receipt : csettle_ID s = close_SettlementID in_
}.

Lemma insert_completion_ok x db x' db' :
  insert_completion x db = Ok (x', db') → x' = x ∧
  (∀ r, r ∈ ct_retired (db_closure db) → rcommand_OperationID r = completion_OperationID x →
        rcommand_RequestSHA256 r ≠ completion_RequestSHA256 x) ∧
  cdata db' = cdata db <| cd_completions ::= fun l => l ++ [x] |>.
Proof.
  unfold insert_completion. intros (u & db1 & [Hr ->]%raise_ok & (-> & _ & _ & ->)%insert_row_ok)%bind_ok.
  split_and!; try done. intros r Hin Hid Hsha. apply negb_true_iff in Hr.
  rewrite existsb_false in Hr.  specialize (Hr r Hin). by rewrite !bool_decide_eq_true_2 in Hr.
Qed.

Lemma close_effects_ok account op in_ db ack db' :
  close_effects account op in_ (close_digest in_) db = Ok (ack, db') → ∃ x, closing in_ op ack db db' x.
Proof.
  unfold close_effects. intros (at_ & db1 & Hw & H)%bind_ok. cbv zeta in H.
  apply bind_ok in H as (done_ & db2 & Hd & H). apply insert_completion_ok in Hd as Hok. destruct Hok as (-> & Hal & Hd').
  apply bind_ok in H as (c & db3 & Hc & H). apply set_closure_phase_ok in Hc as Hok. destruct Hok as (_ & _ & _ & _ & _ & Hc').
  apply bind_ok in H as (a & db4 & Ha & H). apply bind_ok in H as (rows & db5 & Hp & H).
  apply bind_ok in H as (u & db6 & Hacc & H). apply bind_ok in H as (u2 & db7 & [Hcon ->]%raise_ok & [-> ->]%ret_ok).
  pose proof (keeps_account (R := same_closures) _ _ _ _ _ _ Ha) as Ha'.
  pose proof (keeps_update_periods same_closures _ _ _ _ _ Hp) as Hp'.
  assert (same_closures db5 db6 ∧ same_periods db5 db6) as [Ha6 Hs6].
  { unfold close_access in Hacc. split;
      match type of Hacc with ?m _ = _ => match goal with |- ?R _ _ => assert (keeps R m) as Hk by keeps; exact (Hk _ _ _ Hacc) end end. }
  assert (same_periods db db4) as Hs4.
  { transitivity db1; [exact (keeps_clock_timestamp _ _ _ _ Hw)|]. transitivity db2; [exact (keeps_insert_completion same_periods _ _ _ _ Hd)|].
    transitivity db3; [exact (keeps_set_closure_phase same_periods _ _ _ _ _ Hc)|].
    exact (keeps_account (R := same_periods) _ _ _ _ _ _ Ha). }
  apply clock_timestamp_reads in Hw as [wall ->]. apply update_periods_ok in Hp as (_ & _ & Hps).
  unfold same_closures, same_periods in *. eexists. constructor; [..|exact Hcon]; try done.
  - by rewrite Ha6, Hp', Ha', Hc', Hd'.
  - rewrite Hs6, Hps, Hs4. apply list_fmap_ext. done.
Qed.

Lemma CloseCloud_ok in_ db ack db' :
  CloseCloud in_ db = Ok (ack, db') →
  (db' = db ∧ ∃ c, c ∈ ct_completions (db_closure db) ∧
     completion_OperationID c = cscope_OperationID (close_Scope in_) ∧ completion_RequestSHA256 c = close_digest in_) ∨
  ∃ account op s x db1, closes in_ db account op s ∧ reads_clock db db1 ∧ closing in_ op ack db1 db' x.
Proof.
  unfold CloseCloud. intros (u & db1 & [_ ->]%require_ok & H)%bind_ok. unfold closeCloudTx in H.
  apply withTx_ok in H as [H|[-> [db1 H]]].
  - apply bind_ok in H as ([account op] & db1 & (-> & Ha & Hop & Hid & Hacc)%loadCloudClosureTx_ok & H).
    apply bind_ok in H as (b & db1 & [_ ->]%gets_ok & H). apply bind_ok in H as (u1 & db1 & [_ ->]%require_ok & H).
    apply bind_ok in H as (prior & db1 & Hp & H). apply try_err_ok in Hp as [(c & -> & _)|(-> & -> & _)].
    { by apply bind_ok in H as (? & ? & _ & [? _]%ret_ok). }
    apply bind_ok in H as (st & db9 & Hst & H). apply bind_ok in H as (u2 & db3 & [Hr ->]%require_ok & H).
    apply bind_ok in H as (ack' & db4 & He & [[= ->] ->]%ret_ok). reflect_go. destruct_and?.
    apply cloudClosureStatusTx_ready in Hst as (Hclock & s & Hs & Hready); [|done].
    apply close_effects_ok in He as [x He]. right. exists account, op, s, x, db9.
    split_and!; [|done|done]. constructor; try done. congruence.
  - apply bind_ok in H as ([account op] & db9 & (-> & _ & _ & Hid & _)%loadCloudClosureTx_ok & H).
    apply bind_ok in H as (b & db9 & [_ ->]%gets_ok & H). apply bind_ok in H as (u1 & db9 & [_ ->]%require_ok & H).
    apply bind_ok in H as (prior & db9 & Hp & H). apply try_err_ok in Hp as [(c & -> & Hc)|(-> & -> & _)].
    2: { apply bind_ok in H as (st & db3 & _ & H). apply bind_ok in H as (u2 & db4 & _ & H).
         by apply bind_ok in H as (? & ? & _ & [? _]%ret_ok). }
    apply select_elem in Hc as (-> & Hin & Hop). apply bind_ok in H as (u3 & db3 & [Hd _]%require_ok & _).
    reflect_go. left. split; [done|]. exists c. split_and!; [done|congruence|done].
Qed.

Lemma CloseCloud_step in_ db ack db' : CloseCloud in_ db = Ok (ack, db') → closure_step (cdata db) (cdata db').
Proof.
  intros [[-> _]|(account & op & s & x & db1 & [_ [Hop _] Hr _] & [wall ->] & [[Hid _] _ Hal Hd _ _])]%CloseCloud_ok;
    [by apply cstep_none|]. eapply (cstep_close _ _ op x); [done|apply Hr|done|exact Hal|exact Hd].
Qed.

(** Writing the next phase after its evidence. *)
Lemma phase_after_evidence {R} `{!Table R} (r : R) id phase db db1 r' c db' d :
  insert_row r db = Ok (r', db1) → cdata (t_put (t_rows db ++ [r]) db) = d →
  scan (set_closure_phase id phase) db1 = Ok (c, db') → cdata db' = set_phase id phase d.
Proof.
  intros (-> & _ & _ & ->)%insert_row_ok <- (old & _ & _ & _ & _ & H)%(proj1 (scan_ok _ _ _ _))%set_closure_phase_ok.
  done.
Qed.

Lemma CancelCloudClosure_step scope id sha db c db' :
  CancelCloudClosure scope id sha db = Ok (c, db') → closure_step (cdata db) (cdata db').
Proof.
  unfold CancelCloudClosure. intros (u & db1 & [_ ->]%require_ok & H)%bind_ok.
  apply withTx_ok in H as [H|[-> _]]; [|by apply cstep_none]. unfold cancelCloudClosureTx in H.
  apply bind_ok in H as ([account op] & db1 & (-> & _ & Hop & _)%loadCloudClosureTx_ok & H).
  apply bind_ok in H as (prior & db1 & Hp & H). apply try_err_ok in Hp as [(x & -> & _)|(-> & -> & _)].
  { by apply bind_ok in H as (? & ? & _ & [? _]%ret_ok). }
  apply bind_ok in H as (u1 & db1 & [Hph ->]%require_ok & H). apply bind_ok in H as (x & db1 & Hx & H).
  apply bind_ok in H as (op' & db2 & Hs & [_ ->]%ret_ok). reflect_go.
  apply (cstep_cancel _ _ op (mkClosureCancellation (closure_ID op) id sha)); [done..|].
  exact (phase_after_evidence _ _ _ _ _ _ _ _ _ Hx eq_refl Hs).
Qed.

Lemma CompleteCloudClosureCancellation_step scope id sha db c db' :
  CompleteCloudClosureCancellation scope id sha db = Ok (c, db') → closure_step (cdata db) (cdata db').
Proof.
  unfold CompleteCloudClosureCancellation. intros (u & db1 & [_ ->]%require_ok & H)%bind_ok.
  apply withTx_ok in H as [H|[-> _]]; [|by apply cstep_none]. unfold completeCloudClosureCancellationTx in H.
  apply bind_ok in H as ([account op] & db1 & (-> & _ & Hop & _)%loadCloudClosureTx_ok & H).
  apply bind_ok in H as (cancellation & db1 & Hc & H). apply (proj1 (scan_ok _ _ _ _)), select_elem in Hc as (-> & _).
  apply bind_ok in H as (u1 & db1 & [_ ->]%require_ok & H).
  apply bind_ok in H as (prior & db1 & Hp & H). apply try_err_ok in Hp as [(x & -> & _)|(-> & -> & _)].
  { by apply bind_ok in H as (? & ? & _ & [? _]%ret_ok). }
  apply bind_ok in H as (u2 & db1 & [Hph ->]%require_ok & H). apply bind_ok in H as (x & db1 & Hx & H).
  apply bind_ok in H as (op' & db2 & Hs & [_ ->]%ret_ok). reflect_go.
  apply (cstep_release _ _ op (mkClosureRelease (closure_ID op) sha)); [done..|].
  exact (phase_after_evidence _ _ _ _ _ _ _ _ _ Hx eq_refl Hs).
Qed.

Lemma RetireCloudClose_step in_ db r db' :
  RetireCloudClose in_ db = Ok (r, db') → closure_step (cdata db) (cdata db').
Proof.
  unfold RetireCloudClose. intros (u & db1 & [_ ->]%require_ok & H)%bind_ok.
  apply withTx_ok in H as [H|[-> _]]; [|by apply cstep_none]. unfold retireCloudCloseTx in H. cbv zeta in H.
  apply bind_ok in H as ([account op] & db1 & (-> & _ & Hop & _)%loadCloudClosureTx_ok & H).
  apply bind_ok in H as (retired & db1 & Hr & H). apply try_err_ok in Hr as [(x & -> & _)|(-> & -> & _)].
  { by apply ret_ok in H as [? _]. }
  apply bind_ok in H as (prior & db1 & Hp & H). apply try_err_ok in Hp as [(x & -> & _)|(-> & -> & _)].
  { by apply bind_ok in H as (? & ? & _ & [? _]%ret_ok). }
  apply bind_ok in H as (u2 & db1 & [Hph ->]%require_ok & H). apply bind_ok in H as (t & db1 & Ht & H).
  apply bind_ok in H as (x & db2 & Hx & [_ ->]%ret_ok). unfold insert_retired in Hx.
  apply bind_ok in Hx as (u3 & db3 & [Hg ->]%raise_ok & (-> & _ & _ & ->)%insert_row_ok).
  apply clock_timestamp_reads in Ht as [wall ->]. reflect_go. destruct_and?. eapply cstep_retire; [| |done].
  - done.
  - exists op. split_and!; done.
Qed.

(** ** Runs of the store are runs of the closure protocol *)
Lemma exec_same_closures op : on_closure op = false → keeps same_closures (exec op).
Proof.
  intros Hop. destruct (on_handoff op) eqn:Hc.
  { destruct op; try done; cbn [exec]; try apply keeps_ignore; apply _. }
  destruct (on_creation op) eqn:Hr; [|by apply (exec_apart _)].
  destruct op; try done; cbn [exec]; try apply keeps_ignore; try apply _.
  apply keeps_BootstrapBrandCloud; apply _.
Qed.

Lemma exec_closure_step op db u db' : exec op db = Ok (u, db') → closure_step (cdata db) (cdata db').
Proof.
  intros H. destruct (on_closure op) eqn:Hop; [|by apply cstep_none, (exec_same_closures op Hop _ _ _ H)].
  destruct op; try done; cbn [exec] in H; try apply ignore_ok in H as [? H].
  - by eapply PrepareCloudClosure_step.
  - apply cstep_none. by apply (keeps_RecordCloudClosureRevocation same_closures) in H.
  - apply cstep_none. by apply (keeps_RecordCloudClosureSettlement same_closures) in H.
  - by eapply CloseCloud_step.
  - by eapply CancelCloudClosure_step.
  - by eapply CompleteCloudClosureCancellation_step.
  - by eapply RetireCloudClose_step.
Qed.

Lemma run_all_closure_steps ops db : rtc closure_step (cdata db) (cdata (run_all ops db)).
Proof.
  unfold run_all. revert db. induction ops as [|op ops IH]; intros db; [done|]. simpl.
  eapply rtc_l; [|apply IH]. unfold run_op, run. destruct (exec op db) as [[u db']|e] eqn:E;
    [by eapply exec_closure_step|by apply cstep_none].
Qed.
End writes.
