(* ===== verification/Timeline.v ===== *)
(** * The timeline of responsibility

    The periods of an account never overlap: at any instant at most one user is
    responsible for it, in every run of the store.  Closing a cloud ends its last period
    and a handoff ends the source's period where the target's begins. *)
From S2P Require Import Prelude GoStrings GoTime BillingTypes Evidence PaymentTypes Payment Database.
From S2P Require Import Tables Keeps Fixtures Accounts Ledger Credits Setups Handoff Protocols Settlement.
From S2P Require Import HandoffCommit Closure Preflight Creation Operations Responsibility HandoffSteps.
From S2P Require Import HandoffSafety HandoffFixtures Handover ClosureSteps.

(** [p] has ended when [q] begins. *)
Definition before (p q : ResponsibilityPeriod) : Prop :=
  ∃ t, period_EffectiveUntil p = Some t ∧ t ≤ period_EffectiveFrom q.
Definition ordered (p q : ResponsibilityPeriod) : Prop :=
  period_AccountID p ≠ period_AccountID q ∨ before p q ∨ before q p.

(** The instants of a period. *)
Definition covers (p : ResponsibilityPeriod) (t : Time) : Prop :=
  period_EffectiveFrom p ≤ t ∧ match period_EffectiveUntil p with Some u => t < u | None => True end.

Record PeriodInv (db : Db) : Prop := {
  pi_account : ∀ p, p ∈ db_periods db → period_AccountID p ∈ account_ID <$> db_accounts db;
  pi_proper : ∀ p t, p ∈ db_periods db → period_EffectiveUntil p = Some t → period_EffectiveFrom p < t;
  pi_ordered : ∀ i j p q, i ≠ j → db_periods db !! i = Some p → db_periods db !! j = Some q → ordered p q
}.

Lemma ordered_sym p q : ordered p q → ordered q p.
Proof. unfold ordered. intros [?|[?|?]]; [left; congruence|by right; right|by right; left]. Qed.

Lemma covers_unique db i j p q t :
  PeriodInv db → db_periods db !! i = Some p → db_periods db !! j = Some q →
  period_AccountID p = period_AccountID q → covers p t → covers q t → i = j.
Proof.
  intros [_ Hpr Hord] Hi Hj Hacc [Hp1 Hp2] [Hq1 Hq2]. destruct (decide (i = j)) as [->|Hne]; [done|]. exfalso.
  destruct (Hord i j p q Hne Hi Hj) as [?|[(u & Hu & Hle)|(u & Hu & Hle)]]; [done|..]; rewrite Hu in *; lia.
Qed.

(** Operations that leave the periods alone, and keep every account. *)
Lemma PeriodInv_same db db' :
  same_periods db db' → accounts_stay db db' → PeriodInv db → PeriodInv db'.
Proof.
  unfold same_periods. intros Hp Ha [H1 H2 H3]. constructor; rewrite Hp; [|done|done].
  intros p Hin. specialize (H1 p Hin). apply list_elem_of_fmap in H1 as (a & Heq & Hina).
  assert ((account_key a).1 ∈ account_ids db') as Hk.
  { eapply elem_of_prefix; [|exact Ha]. apply list_elem_of_fmap. by exists a. }
  apply list_elem_of_fmap in Hk as (a' & Hk & Hin'). apply list_elem_of_fmap. exists a'. split; [|done].
  rewrite Heq. exact (f_equal fst Hk).
Qed.

(** A new last period: all others of its account have ended when it begins. *)
Lemma PeriodInv_snoc db ps p :
  (∀ q, q ∈ ps → period_AccountID q ∈ account_ID <$> db_accounts db) →
  (∀ q t, q ∈ ps → period_EffectiveUntil q = Some t → period_EffectiveFrom q < t) →
  (∀ i j q r, i ≠ j → ps !! i = Some q → ps !! j = Some r → ordered q r) →
  db_periods db = ps ++ [p] → period_AccountID p ∈ account_ID <$> db_accounts db →
  period_EffectiveUntil p = None → (∀ q, q ∈ ps → period_AccountID q = period_AccountID p → before q p) → PeriodInv db.
Proof.
  intros H1 H2 H3 Heq Hacc Hopen Hbefore. constructor; rewrite Heq.
  - intros q [Hq| ->%list_elem_of_singleton]%elem_of_app; [by apply H1|done].
  - intros q t [Hq| ->%list_elem_of_singleton]%elem_of_app; [by apply H2|congruence].
  - assert (∀ q, q ∈ ps → ordered q p) as Hlast.
    { intros q Hq. destruct (decide (period_AccountID q = period_AccountID p)); [right; left; by apply Hbefore|by left]. }
    intros i j q r Hne [Hi|[Hi Hq]]%lookup_app_Some [Hj|[Hj Hr]]%lookup_app_Some.
    + by eapply H3.
    + apply list_elem_of_lookup_2 in Hi. apply list_lookup_singleton_Some in Hr as [_ <-]. by apply Hlast.
    + apply list_elem_of_lookup_2 in Hj. apply list_lookup_singleton_Some in Hq as [_ <-].
      by apply ordered_sym, Hlast.
    + apply list_lookup_singleton_Some in Hq as [? _], Hr as [? _]. lia.
Qed.

(** Periods some of which are ended: the ended ones were open, and after all others. *)
Lemma PeriodInv_end db db' (p : ResponsibilityPeriod → bool) at_ :
  PeriodInv db → (∀ q, q ∈ db_periods db → p q = true → period_EffectiveUntil q = None ∧ period_EffectiveFrom q < at_) →
  db_periods db' = (fun q => if p q then ended at_ q else q) <$> db_periods db →
  account_ids db' = account_ids db → PeriodInv db'.
Proof.
  intros [H1 H2 H3] Hp Heq Hids.
  assert (account_ID <$> db_accounts db' = account_ID <$> db_accounts db) as Hacc.
  { apply (f_equal (fmap fst)) in Hids. unfold account_ids in Hids. by rewrite <- !list_fmap_compose in Hids. }
  constructor; rewrite Heq, ?Hacc.
  - intros q (r & -> & Hr)%list_elem_of_fmap. specialize (H1 r Hr). by destruct (p r).
  - intros q t (r & -> & Hr)%list_elem_of_fmap. destruct (p r) eqn:E; [|by apply H2].
    destruct (Hp r Hr E) as [_ Hlt]. unfold ended. get_upd. by intros [= <-].
  - intros i j q r Hne Hi Hj. rewrite list_lookup_fmap in Hi, Hj.
    destruct (db_periods db !! i) as [x|] eqn:Ex; [|done]. destruct (db_periods db !! j) as [y|] eqn:Ey; [|done].
    injection Hi as <-. injection Hj as <-. destruct (H3 i j x y Hne Ex Ey) as [Ho|[(t & Ht & Hle)|(t & Ht & Hle)]].
    + left. by destruct (p x), (p y).
    + destruct (p x) eqn:E; [apply list_elem_of_lookup_2 in Ex; by destruct (Hp x Ex E); congruence|].
      right. left. exists t. split; [done|]. by destruct (p y).
    + destruct (p y) eqn:E; [apply list_elem_of_lookup_2 in Ey; by destruct (Hp y Ey E); congruence|].
      right. right. exists t. split; [done|]. by destruct (p x).
Qed.

(** At most one period of an account is open, and it is the last. *)
Lemma open_after db i j p q :
  PeriodInv db → i ≠ j → db_periods db !! i = Some p → db_periods db !! j = Some q →
  period_AccountID p = period_AccountID q → period_EffectiveUntil p = None → before q p.
Proof.
  intros [_ _ H3] Hne Hi Hj Hacc Hopen. destruct (H3 i j p q Hne Hi Hj) as [?|[(t & ? & _)|?]]; [done|congruence|done].
Qed.

Section operations.
Context {pg : Postgres} {dg : Digest}.

(** ** What an operation does to the periods *)
Inductive period_step (db db' : Db) : Prop :=
  | pstep_same : same_periods db db' → accounts_stay db db' → period_step db db'
  | pstep_end (p : ResponsibilityPeriod → bool) at_ :
      (∀ q, q ∈ db_periods db → p q = true → period_EffectiveUntil q = None ∧ period_EffectiveFrom q < at_) →
      db_periods db' = (fun q => if p q then ended at_ q else q) <$> db_periods db →
      account_ids db' = account_ids db → period_step db db'
  | pstep_first p :
      db_periods db' = db_periods db ++ [p] → closure_closed db (period_AccountID p) = false →
      ((∀ q, q ∈ db_periods db → period_AccountID q ≠ period_AccountID p) ∨
       period_AccountID p ∉ account_ID <$> db_accounts db) →
      accounts_stay db db' → period_AccountID p ∈ account_ID <$> db_accounts db' → period_EffectiveUntil p = None →
      period_step db db'
  | pstep_switch account op in_ source id :
      switches account op in_ db db' source id → same_keys db db' →
      account_ID account ∈ account_ID <$> db_accounts db → period_step db db'.

(** The switch of a handoff. *)
Lemma switches_inv account op in_ db db' source id :
  PeriodInv db → switches account op in_ db db' source id → same_keys db db' →
  account_ID account ∈ account_ID <$> db_accounts db → PeriodInv db'.
Proof.
  intros Hinv [Hsrc Hends Hfresh Hps] Hkeys Hacc. set (at_ := pg_time (finalin_CommittedAt in_)) in *.
  assert (∀ q, ends op (account_ID account) at_ q = true → period_AccountID q = account_ID account ∧
    period_EffectiveUntil q = None ∧ period_EffectiveFrom q < at_) as Hend.
  { intros q Hq. unfold ends, source_responsible in Hq. reflect_go. done. }
  set (db1 := db' <| db_periods := (fun q => if ends op (account_ID account) at_ q then ended at_ q else q) <$> db_periods db |>).
  assert (PeriodInv db1) as [H1 H2 H3].
  { apply (PeriodInv_end db db1 (ends op (account_ID account) at_) at_); [done|intros q _ Hq%Hend; tauto|done|].
    by apply same_keys_ids. }
  apply (PeriodInv_snoc db' (db_periods db1) (target_period id account op in_)); try done.
  - apply same_keys_ids in Hkeys. apply (f_equal (fmap fst)) in Hkeys. unfold account_ids in Hkeys.
    rewrite <- !list_fmap_compose in Hkeys. change (account_ID <$> db_accounts db' = account_ID <$> db_accounts db) in Hkeys.
    by rewrite Hkeys.
  - intros q Hq Hqa. apply list_elem_of_fmap in Hq as (r & -> & Hr).
    destruct (ends op (account_ID account) at_ r) eqn:E; [by exists at_|].
    apply list_elem_of_lookup_1 in Hr as [j Hj], Hsrc as [i Hi].
    destruct (Hend source Hends) as (Hsa & Hso & Hsf).
    assert (i ≠ j) by (intros ->; congruence).
    destruct (open_after db i j source r Hinv) as (t & Ht & Hle); [done..|simpl in Hqa; congruence|done|].
    exists t. split; [done|]. simpl. fold at_. lia.
Qed.

Lemma first_period_none db a : first_period db a = None → ∀ p, p ∈ db_periods db → period_AccountID p ≠ a.
Proof.
  unfold first_period. intros Hh p Hp Ha.
  assert (p ∈ sort_stable (fun p q => period_OwnershipVersion p <? period_OwnershipVersion q)
    (filter (fun p => period_AccountID p = a) (db_periods db))) as Hin.
  { rewrite sort_stable_Permutation. by apply list_elem_of_filter. }
  by destruct (sort_stable _ _); [apply elem_of_nil in Hin|].
Qed.

(** A first period of an account. *)
Lemma PeriodInv_first db db' p :
  PeriodInv db → db_periods db' = db_periods db ++ [p] →
  ((∀ q, q ∈ db_periods db → period_AccountID q ≠ period_AccountID p) ∨
   period_AccountID p ∉ account_ID <$> db_accounts db) →
  accounts_stay db db' → period_AccountID p ∈ account_ID <$> db_accounts db' → period_EffectiveUntil p = None →
  PeriodInv db'.
Proof.
  intros Hinv Heq Hno Hst Hacc Hopen.
  assert (PeriodInv (db' <| db_periods := db_periods db |>)) as [H1 H2 H3] by by apply (PeriodInv_same db).
  apply (PeriodInv_snoc db' (db_periods db) p); try done. intros q Hq Ha.
  destruct Hno as [Hno|Hno]; [by destruct (Hno q Hq)|]. destruct Hno. rewrite <- Ha. by apply Hinv.
Qed.

Lemma period_step_inv db db' : period_step db db' → PeriodInv db → PeriodInv db'.
Proof.
  intros [??|p at_ Hp Hps Hids|p Hps _ Hno Hst Hacc Hopen|a op in_ src id Hsw Hk Ha] Hinv.
  - by apply (PeriodInv_same db).
  - by eapply PeriodInv_end.
  - by eapply PeriodInv_first.
  - by eapply switches_inv.
Qed.

Lemma insert_period_accounts p db p' db' : insert_period p db = Ok (p', db') → account_ids db' = account_ids db.
Proof.
  unfold insert_period. intros (u & db1 & [_ ->]%barrier_ok & H)%bind_ok.
  apply bind_ok in H as (q & db1 & (_ & _ & _ & ->)%insert_row_ok & H).
  apply bind_ok in H as (u2 & db2 & Ht & [_ ->]%ret_ok). apply same_keys_ids.
  by apply (touches (R := same_keys)) in Ht.
Qed.

Lemma ids_account_IDs db db' : account_ids db' = account_ids db → account_ID <$> db_accounts db' = account_ID <$> db_accounts db.
Proof. intros H. apply (f_equal (fmap fst)) in H. unfold account_ids in H. by rewrite <- !list_fmap_compose in H. Qed.

Lemma InitializeResponsibility_periods ctx in_ : keeps period_step (InitializeResponsibility ctx in_).
Proof.
  intros db u db' H. unfold InitializeResponsibility in H. apply bind_ok in H as (u1 & db1 & [_ ->]%require_ok & H).
  apply withTx_ok in H as [H|[-> _]]; [|by apply pstep_same]. unfold initializeResponsibilityTx in H.
  apply bind_ok in H as (account & db1 & [-> Ha]%getAccountForUpdate_ok & H).
  apply bind_ok in H as (u2 & db1 & [_ ->]%require_ok & H). apply bind_ok in H as (ex & db1 & [-> ->]%gets_ok & H).
  destruct (first_period db _) as [p|] eqn:Hfp; [by apply bind_ok in H as (? & ? & _ & [? _]%ret_ok)|].
  apply bind_ok in H as (id & db1 & [-> ->]%fresh_ok & H). apply bind_ok in H as (p & db2 & Hp & [_ ->]%ret_ok).
  pose proof (insert_period_accounts _ _ _ _ Hp) as Hids. apply insert_period_ok in Hp as (-> & _ & _ & Hcl & Hps).
  eapply pstep_first; [exact Hps|exact Hcl|left; by apply first_period_none|by apply account_ids_same| |done].
  rewrite (ids_account_IDs _ _ Hids). apply find_account in Ha as [Hin <-]. apply list_elem_of_fmap. by exists account.
Qed.

Lemma BootstrapBrandCloud_periods in_ : keeps period_step (BootstrapBrandCloud in_).
Proof.
  intros db r db' H. unfold BootstrapBrandCloud in H. apply bind_ok in H as (u1 & db1 & [_ ->]%require_ok & H).
  apply withTx_ok in H as [H|[-> _]]; [|by apply pstep_same]. unfold bootstrapTx in H.
  apply bind_ok in H as (prior & db1 & Hp & H). apply try_err_ok in Hp as [(g & -> & [_ ->]%select_ok)|(-> & -> & _)].
  { by apply bind_ok in H as (? & ? & _ & [? _]%ret_ok). }
  apply bind_ok in H as (wall & db1 & Hw & H). apply bind_ok in H as (u2 & db2 & [_ ->]%require_ok & H).
  apply bind_ok in H as (id & db2 & [-> ->]%fresh_ok & H). apply bind_ok in H as (now & db2 & [-> ->]%gets_ok & H).
  apply bind_ok in H as (created & db2 & Hc & H).
  apply try_err_ok in Hc as [(a & -> & (-> & _ & Hno & ->)%insert_or_nothing_ok%insert_row_ok)|(-> & -> & _)]; [|done].
  apply bind_ok in H as (pid & db3 & [-> ->]%fresh_ok & H). apply bind_ok in H as (p & db4 & Hp & H).
  apply bind_ok in H as (c & db5 & (_ & _ & _ & ->)%insert_row_ok & [_ ->]%ret_ok).
  assert (db_accounts db1 = db_accounts db ∧ db_periods db1 = db_periods db ∧ db_closures db1 = db_closures db)
    as (Hda & Hdp & Hdc) by (unfold clock_timestamp in Hw; by destruct (db_wall db); injection Hw as _ <-).
  pose proof (insert_period_accounts _ _ _ _ Hp) as Hids. apply insert_period_ok in Hp as (-> & _ & _ & Hcl & Hps).
  set (a := mkCommercialAccount _ _ _ _ _ _ _ _) in *.
  assert (account_ID <$> db_accounts db4 = (account_ID <$> db_accounts db) ++ [account_ID a]) as Hacc.
  { rewrite (ids_account_IDs _ _ Hids). change (account_ID <$> (db_accounts db1 ++ [a]) = (account_ID <$> db_accounts db) ++ [account_ID a]).
    by rewrite fmap_app, Hda. }
  change (db_periods db4 = db_periods db1 ++ [mkResponsibilityPeriod (pg_uuid (S (db_serial db1))) (account_ID a)
    (create_OwnerUserID in_) 1 (pg_time (create_OccurredAt in_)) None (create_EvidenceSHA256 in_) None]) in Hps.
  rewrite Hdp in Hps. eapply pstep_first; [exact Hps| | | | |done].
  - unfold closure_closed in *. rewrite <- Hdc. exact Hcl.
  - right. intros (s & Hs & Hin)%list_elem_of_fmap. rewrite <- Hda in Hin. specialize (Hno s Hin).
    cbn [t_conflict accounts_table] in Hno. simpl in Hs.
    rewrite (bool_decide_eq_true_2 (account_ID s = account_ID a)) in Hno by done. done.
  - unfold accounts_stay, account_ids in *. change (db_accounts (t_put _ db4)) with (db_accounts db4). rewrite Hids.
    change (((fun a => (account_key a).1) <$> db_accounts db) `prefix_of` ((fun a => (account_key a).1) <$> (db_accounts db1 ++ [a]))).
    rewrite fmap_app, Hda. by eexists.
  - change (db_accounts (t_put _ db4)) with (db_accounts db4). rewrite Hacc. apply elem_of_app. right. by left.
Qed.

(** The end of a closed cloud's last period. *)
Lemma close_effects_periods account op in_ digest : keeps period_step (close_effects account op in_ digest).
Proof.
  intros db r db' H. unfold close_effects in H.
  apply bind_ok in H as (at_ & db1 & Hw & H). apply bind_ok in H as (done_ & db2 & Hd & H).
  apply bind_ok in H as (c & db3 & Hc & H). apply bind_ok in H as (a & db4 & Ha & H).
  apply bind_ok in H as (rows & db5 & Hp & H). apply bind_ok in H as (u & db6 & Hacc & H).
  apply bind_ok in H as (u2 & db7 & [_ ->]%raise_ok & [_ ->]%ret_ok).
  assert (same_periods db db4) as Hs4.
  { transitivity db1; [exact (keeps_clock_timestamp _ _ _ _ Hw)|]. transitivity db2; [exact (keeps_insert_completion same_periods _ _ _ _ Hd)|].
    transitivity db3; [exact (keeps_set_closure_phase same_periods _ _ _ _ _ Hc)|].
    exact (keeps_account (R := same_periods) _ _ _ _ _ _ Ha). }
  assert (same_ids db db4) as Ha4.
  { transitivity db1; [exact (keeps_clock_timestamp _ _ _ _ Hw)|]. transitivity db2; [exact (keeps_insert_completion same_ids _ _ _ _ Hd)|].
    transitivity db3; [exact (keeps_set_closure_phase same_ids _ _ _ _ _ Hc)|].
    exact (keeps_account (R := same_ids) _ _ _ _ _ _ Ha). }
  assert (same_periods db5 db6 ∧ same_ids db5 db6) as [Hs6 Ha6].
  { unfold close_access in Hacc. split;
      match type of Hacc with ?m _ = _ => match goal with |- ?R _ _ => assert (keeps R m) as Hk by keeps; exact (Hk _ _ _ Hacc) end end. }
  pose proof (keeps_update_periods same_ids _ _ _ _ _ Hp) as Ha5.
  apply update_periods_ok in Hp as (-> & Hck & Hps). unfold same_periods, same_ids in *. rewrite Hs4 in *.
  eapply (pstep_end _ _ (fun p => (period_ID p == closure_SourcePeriodID op) && bool_decide (period_EffectiveUntil p = None)) at_);
    [|by rewrite Hs6|congruence].
  intros q Hq Hpq. rewrite forallb_true in Hck.
  assert (ended at_ q ∈ ended at_ <$> filter (fun p => (period_ID p == closure_SourcePeriodID op) &&
    bool_decide (period_EffectiveUntil p = None) = true) (db_periods db)) as Hin.
  { apply list_elem_of_fmap. exists q. split; [done|]. by apply list_elem_of_filter. }
  specialize (Hck _ Hin). cbn [t_check periods_table] in Hck. unfold ended in Hck. get_upd. reflect_go. split; [done|lia].
Qed.

Lemma CloseCloud_periods in_ : keeps period_step (CloseCloud in_).
Proof.
  intros db r db' H. unfold CloseCloud in H. apply bind_ok in H as (u1 & db1 & [_ ->]%require_ok & H).
  apply withTx_ok in H as [H|[-> _]]; [|by apply pstep_same]. unfold closeCloudTx in H.
  apply bind_ok in H as ([account op] & db1 & (-> & _)%loadCloudClosureTx_ok & H). apply bind_ok in H as (b & db1 & [_ ->]%gets_ok & H).
  apply bind_ok in H as (u2 & db3 & [_ ->]%require_ok & H). apply bind_ok in H as (prior & db3 & Hp & H).
  apply try_err_ok in Hp as [(c & -> & _)|(-> & -> & _)].
  { by apply bind_ok in H as (? & ? & _ & [? _]%ret_ok). }
  apply bind_ok in H as (st & db5 & Hst & H). apply bind_ok in H as (u3 & db6 & [Hr ->]%require_ok & H).
  apply bind_ok in H as (ack & db6 & Hce & [_ ->]%ret_ok). reflect_go. destruct_and?.
  apply cloudClosureStatusTx_ready in Hst as ([wall ->] & _); [|done].
  apply close_effects_periods in Hce. destruct Hce as [H1 H2|p at_ H1 H2 H3|p H1 H2 H3 H4 H5 H6|a o i src id [] H2 H3].
  - apply pstep_same; [exact H1|exact H2].
  - eapply pstep_end; [exact H1|exact H2|exact H3].
  - eapply pstep_first; [exact H1|exact H2|exact H3|exact H4|exact H5|exact H6].
  - eapply (pstep_switch _ _ a o i src id); [by constructor|exact H2|exact H3].
Qed.

Lemma exec_same_periods op :
  (match op with OpCloseCloud _ | OpFinalize _ | OpResponsibility _ _ | OpBootstrap _ => false | _ => true end) = true →
  keeps same_periods (exec op).
Proof.
  intros Hop.
  destruct (on_handoff op) eqn:Hh; [|destruct (on_closure op) eqn:Hc; [|destruct (on_creation op) eqn:Hr;
    [|by apply (exec_apart _)]]]; destruct op; try done; cbn [exec]; try apply keeps_ignore; apply _.
Qed.

Lemma exec_period_step op : keeps period_step (exec op).
Proof.
  destruct (match op with OpCloseCloud _ | OpFinalize _ | OpResponsibility _ _ | OpBootstrap _ => false | _ => true end) eqn:E.
  - intros db u db' H. apply pstep_same; [by eapply exec_same_periods|by eapply exec_accounts_stay].
  - intros db u db' H. destruct op; try done; cbn [exec] in H; try apply ignore_ok in H as [? H];
      [by eapply InitializeResponsibility_periods|by eapply BootstrapBrandCloud_periods| |by eapply CloseCloud_periods].
    apply finalizeOwnershipHandoff_ok in H as [[-> _]|(a & h & g & src & id & Hf)]; [by apply pstep_same|]. destruct Hf.
    eapply pstep_switch; [done|done|]. apply list_elem_of_fmap. exists a. split; [done|]. by apply find_some_iff in fz_account as [? _].
Qed.

(** C13: In every run of the store the responsibility for an account is a timeline: each
    period ends after it begins, and at any instant at most one period of the account
    covers it, so there is never more than one responsible owner. *)
Theorem responsibility_timeline ops db : PeriodInv db →
  PeriodInv (run_all ops db) ∧
  ∀ i j p q t, db_periods (run_all ops db) !! i = Some p → db_periods (run_all ops db) !! j = Some q →
    period_AccountID p = period_AccountID q → covers p t → covers q t → i = j.
Proof.
  intros Hinv. assert (PeriodInv (run_all ops db)) as Hinv'.
  { revert Hinv. apply (run_all_keeps (preserves PeriodInv)). apply Forall_forall. intros op _ db1 u db2 H Hi. eapply period_step_inv; [by eapply exec_period_step|done]. }
  split; [done|]. intros i j p q t. by apply covers_unique.
Qed.
End operations.

(** ** The concrete handoff: two periods that meet *)
#[local] Existing Instances demo_pg demo_dg.

Lemma responsibility_timeline_witness :
  PeriodInv demo_handed_over ∧ length (db_periods demo_handed_over) = 2%nat ∧
  ∀ i p, db_periods demo_handed_over !! i = Some p → covers p (960 * Second) → i = 1%nat.
Proof.
  assert (PeriodInv demo_quiet) as Hinv.
  { constructor.
    - intros p ->%list_elem_of_singleton. by left.
    - intros p t ->%list_elem_of_singleton [=].
    - intros i j p q Hne [-> _]%list_lookup_singleton_Some [-> _]%list_lookup_singleton_Some. done. }
  destruct (responsibility_timeline demo_handoff_ops demo_quiet Hinv) as [Hinv' Huniq].
  change (run_all demo_handoff_ops demo_quiet) with demo_handed_over in *.
  split; [done|]. split; [by vm_compute|]. intros i p Hi Hc. destruct i as [|[|i]]; [|done|done].
  eapply (Huniq 0%nat 1%nat p _ (960 * Second)); [done|by vm_compute| |done|].
  - injection Hi as <-. by vm_compute.
  - split; [by vm_compute|done].
Defined.
