(* ===== verification/ClosureFixtures.v ===== *)
(** * A concrete cloud closure

    The store of [Fixtures] with an empty account, and the operations that close its
    cloud: prepared, its one payment method revoked by the provider, settled, closed. *)
From S2P Require Import Prelude GoStrings GoTime BillingTypes Evidence PaymentTypes Payment Database.
From S2P Require Import Tables Keeps Fixtures Settlement Closure Operations HandoffFixtures.

#[local] Existing Instances demo_pg demo_dg.

Definition demo_empty : Db :=
  demo_quiet <| db_accounts := [demo_account <| account_AvailableBalanceMinor := 0 |>] |>.
Definition demo_cloud : CloudClosureScope :=
  mkCloudClosureScope (mkCloudPreflightScope "org" "user-1" 1) "closure".
Definition demo_closure : operation := OpClosure (mkPrepareCloudClosureInput demo_cloud (900 * Second) demo_digest).
Definition demo_revocation : operation := OpRevocation demo_cloud "method" "pm" demo_digest.

(** The state the collector captures when the provider has acknowledged, and its report. *)
Definition demo_revoked : Db := Eval vm_compute in run_all [demo_closure; demo_revocation] demo_empty.
Definition demo_captured : CloudClosureState := Eval vm_compute in
  match CaptureCloudClosureState demo_cloud demo_revoked with
  | Ok (s, _) => s
  | Err _ => mkCloudClosureState demo_cloud "" zeroEvidence 0 0
  end.
Definition demo_report : RecordCloudClosureSettlementInput :=
  mkRecordCloudClosureSettlementInput
    (mkCloudClosureState demo_cloud (cstate_SHA256 demo_captured)
      (mkFinancialEvidence true TWD 0 true true true 0 0 0 0 0 0 0) (cstate_Cutoff demo_captured)
      (cstate_ObservedAt demo_captured))
    "receipt" (950 * Second) (1100 * Second) demo_digest demo_digest demo_digest.
Definition demo_close : CloseCloudInput := mkCloseCloudInput demo_cloud "receipt" demo_digest.

Definition demo_closable_ops : list operation := [demo_closure; demo_revocation; OpClosureSettlement demo_report].
Definition demo_closable : Db := Eval vm_compute in run_all demo_closable_ops demo_empty.
Definition demo_closed : Db := Eval vm_compute in run_op demo_closable (OpCloseCloud demo_close).
Definition demo_close_ack : CloudClosureAck := Eval vm_compute in
  match CloseCloud demo_close demo_closable with
  | Ok (ack, _) => ack
  | Err _ => mkCloudClosureAck "" "" 0 ""
  end.
