(* ===== verification/ClosureSafety.v ===== *)
(** * Safety of cloud closures

    By rule induction over the runs of the store: the phase of a closure and its evidence
    agree, so that no cloud is both closed and released, an account has at most one
    closure in force, and a retired command never closes its cloud. *)
From S2P Require Import Prelude GoStrings GoTime BillingTypes Evidence PaymentTypes Payment Database.
From S2P Require Import Tables Keeps Fixtures Accounts Ledger Credits Setups Handoff Protocols Settlement.
From S2P Require Import HandoffCommit Closure Preflight Creation Operations Responsibility HandoffSteps.
From S2P Require Import HandoffSafety Handover ClosureSteps HandoffFixtures ClosureFixtures.

Definition cloud_completed (d : ClosureData) (id : string) : bool :=
  has_row completion_OperationID (cd_completions d) id.
Definition cloud_cancelled (d : ClosureData) (id : string) : bool :=
  has_row ccancel_OperationID (cd_cancellations d) id.
Definition cloud_released (d : ClosureData) (id : string) : bool :=
  has_row release_OperationID (cd_releases d) id.

(** The evidence a phase stands for: completed, cancelled, released. *)
Definition closure_evidence (phase : string) (c x r : bool) : bool :=
  if phase == "preparing" then negb (c || x || r)
  else if phase == "closed" then c && negb (x || r)
  else if phase == "canceling" then x && negb (c || r)
  else if phase == "canceled" then x && r && negb c
  else false.
Definition closure_ok (d : ClosureData) (c : CloudClosure) : bool :=
  let id := closure_ID c in
  closure_evidence (closure_Phase c) (cloud_completed d id) (cloud_cancelled d id) (cloud_released d id).
Definition closure_facts (d : ClosureData) (id : string) : bool * bool * bool :=
  (cloud_completed d id, cloud_cancelled d id, cloud_released d id).
Definition in_force (c : CloudClosure) : Prop := closure_Phase c ≠ "canceled".

Record ClosureInv (d : ClosureData) : Prop := {
  ci_ids : NoDup (closure_ID <$> cd_closures d);
  ci_phase : ∀ c, c ∈ cd_closures d → closure_ok d c = true;
  ci_known : ∀ id, id ∉ closure_ID <$> cd_closures d → closure_facts d id = (false, false, false);
  ci_one : ∀ c c', c ∈ cd_closures d → c' ∈ cd_closures d → closure_AccountID c = closure_AccountID c' →
           in_force c → in_force c' → closure_ID c = closure_ID c';
  ci_retired : ∀ r x, r ∈ cd_retired d → x ∈ cd_completions d →
           rcommand_OperationID r = completion_OperationID x → rcommand_RequestSHA256 r ≠ completion_RequestSHA256 x
}.

Lemma set_phase_ids id phase d : closure_ID <$> cd_closures (set_phase id phase d) = closure_ID <$> cd_closures d.
Proof.
  unfold set_phase. get_upd. rewrite <- list_fmap_compose. apply list_fmap_ext.
  intros n c _. simpl. by case_match.
Qed.
Definition phased (id phase : string) (c : CloudClosure) : CloudClosure :=
  if closure_ID c == id then c <| closure_Phase := phase |> <| closure_Version ::= Z.succ |> else c.
Lemma elem_set_phase id phase d c :
  c ∈ cd_closures (set_phase id phase d) ↔ ∃ g, g ∈ cd_closures d ∧ c = phased id phase g.
Proof. unfold set_phase. get_upd. rewrite list_elem_of_fmap. naive_solver. Qed.
Lemma phased_id id phase c : closure_ID (phased id phase c) = closure_ID c.
Proof. unfold phased. by case_match. Qed.
Lemma phased_account id phase c : closure_AccountID (phased id phase c) = closure_AccountID c.
Proof. unfold phased. by case_match. Qed.

(** A write of the phase of one closure, with its evidence. *)
Lemma ClosureInv_write d d1 op phase :
  ClosureInv d → op ∈ cd_closures d → cd_closures d1 = cd_closures d → in_force op →
  (∀ id, id ≠ closure_ID op → closure_facts d1 id = closure_facts d id) →
  closure_evidence phase (cloud_completed d1 (closure_ID op)) (cloud_cancelled d1 (closure_ID op))
    (cloud_released d1 (closure_ID op)) = true →
  (∀ r x, r ∈ cd_retired d1 → x ∈ cd_completions d1 →
     rcommand_OperationID r = completion_OperationID x → rcommand_RequestSHA256 r ≠ completion_RequestSHA256 x) →
  ClosureInv (set_phase (closure_ID op) phase d1).
Proof.
  intros [Hnd Hph Hkn Hone _] Hop Hcl Hforce Hev Hnew Hret. constructor; [| | | |done].
  - by rewrite set_phase_ids, Hcl.
  - intros c (g & Hg & ->)%elem_set_phase. rewrite Hcl in Hg. unfold closure_ok. rewrite phased_id.
    unfold phased. case_bool_decide as E; [by rewrite E|].
    specialize (Hph g Hg). unfold closure_ok in Hph. specialize (Hev _ E). unfold closure_facts in Hev.
    change (closure_evidence (closure_Phase g) (cloud_completed d1 (closure_ID g)) (cloud_cancelled d1 (closure_ID g))
      (cloud_released d1 (closure_ID g)) = true). by injection Hev as -> -> ->.
  - intros id Hid. rewrite set_phase_ids, Hcl in Hid. change (closure_facts d1 id = (false, false, false)).
    rewrite Hev; [by apply Hkn|]. intros ->. apply Hid, list_elem_of_fmap. by exists op.
  - intros c c' (g & Hg & ->)%elem_set_phase (g' & Hg' & ->)%elem_set_phase. rewrite Hcl in Hg, Hg'.
    rewrite !phased_account, !phased_id. intros Hacc Hc Hc'. apply Hone; try done.
    + unfold phased in Hc. case_bool_decide as E; [|done].
      by rewrite (NoDup_fmap_inj_elem closure_ID (cd_closures d) g op).
    + unfold phased in Hc'. case_bool_decide as E; [|done].
      by rewrite (NoDup_fmap_inj_elem closure_ID (cd_closures d) g' op).
Qed.

Lemma ClosureInv_prepare d c :
  ClosureInv d → closure_Phase c = "preparing" → (∀ o, o ∈ cd_closures d → t_conflict o c = false) →
  ClosureInv (d <| cd_closures ::= fun l => l ++ [c] |>).
Proof.
  intros [Hnd Hph Hkn Hone Hret] Hp Hno.
  assert (∀ o, o ∈ cd_closures d → closure_ID o ≠ closure_ID c ∧
    (closure_AccountID o = closure_AccountID c → ¬ in_force o)) as Hapart.
  { intros o Ho. specialize (Hno o Ho). cbn [t_conflict closures_table] in Hno. reflect_go.
    split; [done|]. intros Hacc. unfold in_force. rewrite Hp in *. naive_solver. }
  assert (closure_ID c ∉ closure_ID <$> cd_closures d) as Hnew.
  { intros (g & Heq & Hg)%list_elem_of_fmap. by destruct (Hapart g Hg). }
  constructor; get_upd; try done.
  - rewrite fmap_app. apply NoDup_app. split; [done|]. split; [|apply NoDup_singleton].
    by intros x Hx ->%list_elem_of_singleton.
  - intros g [Hg| ->%list_elem_of_singleton]%elem_of_app; [by apply Hph|].
    change (closure_ok d c = true). unfold closure_ok. rewrite Hp. specialize (Hkn _ Hnew).
    unfold closure_facts in Hkn. by injection Hkn as -> -> ->.
  - intros id Hid. rewrite fmap_app, elem_of_app in Hid. apply Hkn. naive_solver.
  - intros x y [Hx| ->%list_elem_of_singleton]%elem_of_app [Hy| ->%list_elem_of_singleton]%elem_of_app Hacc Fx Fy.
    + by apply Hone.
    + destruct (Hapart x Hx) as [_ Hn]. by destruct (Hn Hacc).
    + destruct (Hapart y Hy) as [_ Hn]. by destruct (Hn (eq_sym Hacc)).
    + done.
Qed.

(** Every combination of rows. *)
Ltac split_rows := repeat match goal with |- context [has_row ?a ?b ?c] => destruct (has_row a b c) end.
(** The facts after a write, computed. *)
Ltac new_facts Hid :=
  unfold closure_facts, cloud_completed, cloud_cancelled, cloud_released in *; get_upd; rewrite ?has_row_app, ?Hid.

Lemma closure_step_inv d d' : closure_step d d' → ClosureInv d → ClosureInv d'.
Proof.
  intros Hstep Hinv. pose proof Hinv as [_ Hph _ _ Hret].
  destruct Hstep as [->|c Hp Hno ->|op x Hop Hp Hid Hal ->|op x Hop Hp Hid ->|op x Hop Hp Hid ->|x Hnc Hop ->];
    [done|by apply ClosureInv_prepare| | | |];
    [apply (ClosureInv_write d); [done|done|done|unfold in_force; by rewrite Hp| | |]..|].
  - intros id Hne. new_facts Hid. by rewrite (bool_decide_eq_false_2 (closure_ID op = id)), orb_false_r by done.
  - specialize (Hph op Hop). unfold closure_ok in Hph. rewrite Hp in Hph. revert Hph. new_facts Hid.
    rewrite bool_decide_eq_true_2 by done. by split_rows.
  - get_upd. intros r y Hr [Hy| ->%list_elem_of_singleton]%elem_of_app; [by apply Hret|by apply Hal].
  - intros id Hne. new_facts Hid. by rewrite (bool_decide_eq_false_2 (closure_ID op = id)), orb_false_r by done.
  - specialize (Hph op Hop). unfold closure_ok in Hph. rewrite Hp in Hph. revert Hph. new_facts Hid.
    rewrite bool_decide_eq_true_2 by done. by split_rows.
  - done.
  - intros id Hne. new_facts Hid. by rewrite (bool_decide_eq_false_2 (closure_ID op = id)), orb_false_r by done.
  - specialize (Hph op Hop). unfold closure_ok in Hph. rewrite Hp in Hph. revert Hph. new_facts Hid.
    rewrite bool_decide_eq_true_2 by done. by split_rows.
  - done.
  - destruct Hinv. constructor; get_upd; try done.
    intros r y [Hr| ->%list_elem_of_singleton]%elem_of_app Hy Heq; [by apply Hret|].
    unfold has_row in Hnc. rewrite existsb_false in Hnc. specialize (Hnc y Hy).
    by rewrite bool_decide_eq_true_2 in Hnc.
Qed.

(** What a closure is about, which no step changes. *)
Definition closure_identity (c : CloudClosure) :=
  (closure_ID c, closure_AccountID c, closure_OwnerUserID c, closure_OwnershipVersion c, closure_Cutoff c,
   closure_SourcePeriodID c, closure_RequestSHA256 c).

(** Closures stay, and move along the edges of the protocol. *)
Definition closure_moves (d d' : ClosureData) : Prop := ∀ c, c ∈ cd_closures d → ∃ c', c' ∈ cd_closures d' ∧
  closure_identity c' = closure_identity c ∧ rtc (fun x y => closure_edge x y = true) (closure_Phase c) (closure_Phase c').
(** Completions are only ever added. *)
Definition closures_move (d d' : ClosureData) : Prop :=
  closure_moves d d' ∧ cd_completions d `prefix_of` cd_completions d'.
#[export] Instance closures_move_preorder : PreOrder closures_move.
Proof.
  split; [intros d; split; [intros c Hc; by exists c|done]|]. intros d1 d2 d3 [H1 P1] [H2 P2].
  split; [|by etransitivity]. intros c Hc. destruct (H1 c Hc) as (c2 & Hc2 & He & Hr).
  destruct (H2 c2 Hc2) as (c3 & Hc3 & He' & Hr'). exists c3. split_and!; [done|congruence|by etransitivity].
Qed.

Lemma closures_move_write d d1 op phase :
  ClosureInv d → op ∈ cd_closures d → cd_closures d1 = cd_closures d → closure_edge (closure_Phase op) phase = true →
  closure_moves d (set_phase (closure_ID op) phase d1).
Proof.
  intros Hinv Hop Hcl Hedge c Hc. exists (phased (closure_ID op) phase c). split_and!.
  - apply elem_set_phase. exists c. by rewrite Hcl.
  - unfold phased. by case_match.
  - unfold phased. case_bool_decide as E; [|done].
    assert (c = op) as -> by (by apply (NoDup_fmap_inj_elem closure_ID (cd_closures d)); [apply Hinv|..]).
    get_upd. by apply rtc_once.
Qed.

Lemma closure_step_moves d d' : closure_step d d' → ClosureInv d → closures_move d d'.
Proof.
  intros Hstep Hinv.
  destruct Hstep as [->|c Hp Hno ->|op x Hop Hp Hid Hal ->|op x Hop Hp Hid ->|op x Hop Hp Hid ->|x Hnc Hop ->];
    [done| | | | |]; (split; [|first [by eexists|apply (reflexivity (R := prefix))]]);
    [|apply closures_move_write; [done..|by rewrite Hp]..|intros o Ho; by exists o].
  intros o Ho. exists o. split; [|done]. get_upd. apply elem_of_app. by left.
Qed.

Lemma closure_steps_inv d d' : rtc closure_step d d' → ClosureInv d → ClosureInv d' ∧ closures_move d d'.
Proof.
  intros Hrun. induction Hrun as [|x y z Hxy _ IH]; [done|]. intros Hinv.
  destruct IH as [Hz Hm]; [by eapply closure_step_inv|]. split; [done|].
  etransitivity; [by apply closure_step_moves|done].
Qed.

Lemma closed_is_final p : rtc (fun x y => closure_edge x y = true) "closed" p → p = "closed".
Proof. intros H. by inversion H as [|x y z Hxy]. Qed.

Lemma ClosureInv_exclusive d id : ClosureInv d →
  ¬ (cloud_completed d id = true ∧ cloud_cancelled d id = true) ∧
  (cloud_released d id = true → cloud_cancelled d id = true).
Proof.
  intros [_ Hph Hkn _ _]. destruct (decide (id ∈ closure_ID <$> cd_closures d)) as [Hin|Hno].
  - apply list_elem_of_fmap in Hin as (c & -> & Hc). specialize (Hph c Hc). revert Hph.
    unfold closure_ok, closure_evidence.
    destruct (cloud_completed d _), (cloud_cancelled d _), (cloud_released d _); repeat case_match; simpl; naive_solver.
  - specialize (Hkn id Hno). unfold closure_facts in Hkn. injection Hkn as -> -> ->. naive_solver.
Qed.

(** ** What the protocol promises *)
Section promises.
Context {pg : Postgres} {dg : Digest}.

(** C14: In every run of the store, phase and evidence of each cloud closure agree: a
    cloud that was closed is never cancelled, a release needs its cancellation, at most
    one closure of an account is in force, and a command that was retired never closes
    its cloud; closures stay, keep their owner, cutoff and request, and a closed one
    stays closed with its completion. *)
Theorem closure_safe ops db : ClosureInv (cdata db) →
  let d := cdata db in let d' := cdata (run_all ops db) in
  ClosureInv d' ∧ closures_move d d' ∧
  (∀ id, ¬ (cloud_completed d' id = true ∧ cloud_cancelled d' id = true) ∧
         (cloud_released d' id = true → cloud_cancelled d' id = true)) ∧
  (∀ c, c ∈ cd_closures d → closure_Phase c = "closed" →
     ∃ c', c' ∈ cd_closures d' ∧ closure_identity c' = closure_identity c ∧ closure_Phase c' = "closed").
Proof.
  intros Hinv. simpl. destruct (closure_steps_inv _ _ (run_all_closure_steps ops db) Hinv) as [Hinv' Hm].
  split_and!; [done|done|intros id; by apply ClosureInv_exclusive|].
  intros c Hc Hp. destruct (proj1 Hm c Hc) as (c' & Hc' & Hid & Hr). exists c'. split_and!; [done|done|].
  rewrite Hp in Hr. by apply closed_is_final.
Qed.
End promises.

(** ** The concrete closure *)
#[local] Existing Instances demo_pg demo_dg.

(** A store without any closure satisfies the invariant. *)
Lemma ClosureInv_empty db : cdata db = cdata demo_db → ClosureInv (cdata db).
Proof.
  intros ->. constructor; simpl; [constructor|by intros ? ?%elem_of_nil|done|by intros ? ? ?%elem_of_nil|
    by intros ? ? ?%elem_of_nil].
Qed.

Lemma closure_safe_witness :
  cloud_completed (cdata demo_closed) "closure" = true ∧ cloud_cancelled (cdata demo_closed) "closure" = false.
Proof.
  split; [by vm_compute|].
  destruct (closure_safe (demo_closable_ops ++ [OpCloseCloud demo_close]) demo_empty (ClosureInv_empty demo_empty eq_refl))
    as (_ & _ & H & _).
  specialize (H "closure") as [H _]. destruct (cloud_cancelled (cdata demo_closed) "closure") eqn:E; [|done].
  exfalso. apply H. change (run_all (demo_closable_ops ++ [OpCloseCloud demo_close]) demo_empty) with demo_closed.
  split; [by vm_compute|exact E].
Defined.
