(* ===== verification/ClosedClouds.v ===== *)
(** * Closed clouds

    What a successful [CloseCloud] leaves behind, and that it stays that way: whatever
    operations run afterwards, the closed account keeps its zero balance, takes no ledger
    entry, and nobody becomes responsible for it again. *)
From S2P Require Import Prelude GoStrings GoTime BillingTypes Evidence PaymentTypes Payment Database.
From S2P Require Import Tables Keeps Fixtures Accounts Ledger Credits Setups Handoff Protocols Settlement.
From S2P Require Import HandoffCommit Closure Preflight Creation Operations Responsibility HandoffSteps.
From S2P Require Import HandoffSafety HandoffFixtures Handover ClosureSteps Timeline ClosureFixtures ClosureSafety.

(** The account is closed, with nothing on it. *)
Definition closed_out (db : Db) (a : string) : Prop := ∃ acc,
  find (fun x => account_ID x == a) (db_accounts db) = Some acc ∧
  account_State acc = AccountStateClosed ∧ account_AvailableBalanceMinor acc = 0.
(** Nobody is responsible for it any more. *)
Definition no_owner (db : Db) (a : string) : Prop :=
  ∀ p, p ∈ db_periods db → period_AccountID p = a → period_EffectiveUntil p ≠ None.

Lemma closed_out_update db accountID f a :
  (∀ r, account_ID (f r) = account_ID r) →
  (∀ old, find (fun x => account_ID x == accountID) (db_accounts db) = Some old → a = accountID →
     account_State old = AccountStateClosed → account_AvailableBalanceMinor old = 0 →
     account_State (f old) = AccountStateClosed ∧ account_AvailableBalanceMinor (f old) = 0) →
  closed_out db a →
  closed_out (db <| db_accounts ::= fmap (fun r => if account_ID r == accountID then f r else r) |>) a.
Proof.
  intros Hid Hf (acc & Hacc & Hst & Hb). unfold closed_out. get_upd.
  rewrite (find_fmap_same (fun x => account_ID x == a)) by (intros r; case_match; [by rewrite Hid|done]).
  rewrite Hacc. eexists. split; [done|]. apply find_account in Hacc as Ha. destruct Ha as [_ Ha].
  case_bool_decide as E; [|done]. apply Hf; [|congruence|done|done]. by rewrite <- E, Ha.
Qed.

(** ** Handoffs and closures: only an account's state changes, to closed *)
Definition keeps_closed (db db' : Db) : Prop :=
  (∀ a, closed_out db a → closed_out db' a) ∧ db_entries db' = db_entries db.
#[export] Instance keeps_closed_frame : Frame keeps_closed.
Proof.
  split; [split; [by split|]|by split..]. intros x y z [H1 E1] [H2 E2]. split; [auto|congruence].
Qed.
#[export] Hint Extern 1 (Skips keeps_closed _) => by intros ??; split : typeclass_instances.
#[export] Instance keeps_closed_touches : Touches keeps_closed.
Proof.
  intros accountID db u db' H. unfold touch_billing_authority_guard in H.
  apply bind_ok in H as (rows & db1 & (_ & _ & _ & ->)%update_rows_ok & [_ ->]%ret_ok). split; [|done].
  intros a. by apply (closed_out_update db accountID (fun r => r <| account_UpdatedAt := db_now db |>)).
Qed.

Lemma close_account_closed accountID : keeps keeps_closed (update_account accountID close_account).
Proof.
  intros db a db' (old & _ & _ & _ & ->)%update_account_ok. split; [|done]. intros x.
  by apply (closed_out_update db accountID (fun r => close_account r <| account_UpdatedAt := db_now db |>)).
Qed.

(** ** All other operations: the barriers of a closed cloud *)
Definition stays_closed (db db' : Db) : Prop := same_closures db db' ∧ ∀ a, closure_closed db a = true →
  (closed_out db a → closed_out db' a) ∧ entries_of db' a = entries_of db a.

Lemma closure_closed_same db db' a : same_closures db db' → closure_closed db' a = closure_closed db a.
Proof. unfold same_closures, cdata, closure_closed. by intros [= -> _ _ _ _]. Qed.

#[export] Instance stays_closed_preorder : PreOrder stays_closed.
Proof.
  split; [by split|]. intros x y z [H1 M1] [H2 M2]. split; [by etransitivity|]. intros a Ha.
  destruct (M1 a Ha) as [B1 E1]. destruct (M2 a) as [B2 E2]; [by rewrite (closure_closed_same x)|].
  split; [auto|congruence].
Qed.
#[export] Instance stays_closed_frame : Frame stays_closed.
Proof. split; [apply _|by split..]. Qed.
#[export] Hint Extern 1 (Skips stays_closed _) => by intros ??; split : typeclass_instances.

(** What the trigger [closed_cloud_balance] lets pass. *)
Lemma update_account_closed accountID f db a db' old :
  update_account accountID f db = Ok (a, db') → closure_closed db accountID = true →
  find (fun x => account_ID x == accountID) (db_accounts db) = Some old →
  account_AvailableBalanceMinor (f old) = account_AvailableBalanceMinor old ∧
  (account_State (f old) = account_State old ∨ account_State (f old) = AccountStateClosed).
Proof.
  unfold update_account. intros (r & db1 & [Hr ->]%select_ok & H)%bind_ok Hcl Hold. cbv zeta in H.
  apply bind_ok in H as (u & db1 & [Hb ->]%barrier_ok & _). cbn [t_rows accounts_table] in Hr.
  rewrite Hold in Hr. injection Hr as <-. rewrite Hcl in Hb. reflect_go. destruct_or?; destruct_and?; split; try lia; auto.
Qed.

#[export] Instance stays_closed_apart : Apart stays_closed.
Proof.
  split; try apply _; try done.
  - intros accountID f Hf db a db' H. split; [by eapply (apart_account (R := same_closures))|]. intros x Hx.
    apply update_account_ok in H as Hok. destruct Hok as (old & Hold & _ & _ & ->). split; [|done].
    apply (closed_out_update db accountID (fun r => f r <| account_UpdatedAt := db_now db |>)).
    + intros r. get_upd. apply (same_account (f := f) r).
    + intros old' Hold' -> Hst Hb. get_upd. eapply (update_account_closed _ _ _ _ _ old') in H as [H1 H2]; [|done..].
      rewrite H1. split; [destruct H2; congruence|done].
  - intros accountID db u db' H. split; [by eapply (touches (R := same_closures))|]. intros x _.
    apply (touches (R := keeps_closed)) in H as [H1 H2]. split; [by apply H1|]. unfold entries_of. by rewrite H2.
  - intros target a _ db r db' (-> & _ & _ & ->)%insert_or_nothing_ok%insert_row_ok. split; [done|].
    intros x _. split; [|done]. intros (acc & Hacc & ?). exists acc.
    change (db_accounts (t_put (t_rows db ++ [a]) db)) with (db_accounts db ++ [a]). by rewrite find_app, Hacc.
  - intros e db r db' (-> & _ & _ & Hc & _ & ->)%insert_entry_ok. split; [done|]. intros x Hx. split; [done|].
    unfold entries_of. get_upd. rewrite filter_app, filter_cons_False, filter_nil, app_nil_r; [done|]. congruence.
Qed.

Section closed.
Context {pg : Postgres} {dg : Digest}.

(** A closed account of a run, with [entries] in its ledger. *)
Record closed_cloud (entries : list LedgerEntry) (db : Db) (a : string) : Prop := {
  cc_inv : ClosureInv (cdata db);
  cc_closed : closure_closed db a = true;
  cc_out : closed_out db a;
  cc_entries : entries_of db a = entries;
  cc_owner : no_owner db a
}.

Lemma exec_keeps_closed op : on_handoff op || on_closure op = true → keeps keeps_closed (exec op).
Proof.
  intros Hop. destruct op; try done; cbn [exec]; try apply keeps_ignore; try apply _.
  apply keeps_CloseCloud; try apply _. apply close_account_closed.
Qed.
Lemma exec_stays_closed op : on_handoff op || on_closure op = false → keeps stays_closed (exec op).
Proof.
  intros Hop. destruct (on_creation op) eqn:Hr; [|destruct op; try done; by apply (exec_apart _)].
  destruct op; try done; cbn [exec]; try apply keeps_ignore; try apply _.
  apply keeps_BootstrapBrandCloud; try apply _. apply apart_new_account.
Qed.

Lemma closures_move_closed db db' a :
  closures_move (cdata db) (cdata db') → closure_closed db a = true → closure_closed db' a = true.
Proof.
  intros Hm Hc. unfold closure_closed in *. rewrite existsb_true in *. destruct Hc as (c & Hc & Hp).
  destruct (proj1 Hm c Hc) as (c' & Hc' & Hid & Hr). exists c'. split; [done|]. reflect_go.
  injection Hid as _ -> _ _ _ _ _. rewrite H0 in Hr. apply closed_is_final in Hr as ->. by rewrite bool_decide_eq_true_2.
Qed.

(** Nobody becomes responsible for a closed account again. *)
Lemma period_step_no_owner db db' a :
  period_step db db' → closure_closed db a = true → no_owner db a → no_owner db' a.
Proof.
  unfold no_owner.
  intros [Hs _|p at_ _ Hps _|p Hps Hcl _ _ _ _|acc op in_ src id [Hsrc Hends _ Hps] _ _] Hc Hno.
  - by rewrite Hs.
  - rewrite Hps. intros q (r & -> & Hr)%list_elem_of_fmap. case_match; [done|by apply Hno].
  - rewrite Hps. intros q [Hq| ->%list_elem_of_singleton]%elem_of_app Ha; [by apply Hno|]. congruence.
  - unfold ends, source_responsible in Hends. reflect_go. rewrite Hps.
    assert (account_ID acc ≠ a) as Hne by (intros Heq; apply (Hno src); congruence).
    intros q [(r & -> & Hr)%list_elem_of_fmap| ->%list_elem_of_singleton]%elem_of_app Ha; [|done].
    case_match; [done|by apply Hno].
Qed.

Lemma run_op_closed entries db a op : closed_cloud entries db a → closed_cloud entries (run_op db op) a.
Proof.
  intros Hcc. unfold run_op, run. destruct (exec op db) as [[u db']|e] eqn:E; [|done].
  destruct Hcc as [Hinv Hcl Hout Hent Hno]. apply exec_closure_step in E as Hstep.
  change (closed_cloud entries db' a). constructor.
  - by eapply closure_step_inv.
  - eapply closures_move_closed; [|done]. by apply closure_step_moves.
  - destruct (on_handoff op || on_closure op) eqn:Hop.
    + by apply (exec_keeps_closed op Hop) in E as [H _]; apply H.
    + apply (exec_stays_closed op Hop) in E as [_ H]. by apply (H a Hcl).
  - rewrite <- Hent. destruct (on_handoff op || on_closure op) eqn:Hop.
    + apply (exec_keeps_closed op Hop) in E as [_ H]. unfold entries_of. by rewrite H.
    + apply (exec_stays_closed op Hop) in E as [_ H]. by apply (H a Hcl).
  - eapply period_step_no_owner; [by eapply exec_period_step|done..].
Qed.

Lemma run_all_closed entries ops db a : closed_cloud entries db a → closed_cloud entries (run_all ops db) a.
Proof. revert db. induction ops as [|op ops IH]; intros db H; [done|]. by apply IH, run_op_closed. Qed.

(** ** What closing leaves behind *)

(** No method, consent or policy of the account can be used, and the provider work of
    the closure is done: every method was to be revoked, and all of it acknowledged. *)
Record authority_revoked (db : Db) (a operationID : string) : Prop := {
  ar_methods : ∀ m, m ∈ db_methods db → method_AccountID (mrow_method m) = a →
    method_Status (mrow_method m) = "revoked" ∧
    mkClosureTask operationID "method" (method_ID (mrow_method m)) ∈ db_closure_revocations db;
  ar_consents : ∀ k, k ∈ db_consents db → consent_AccountID k = a → consent_RevokedAt k ≠ None;
  ar_policies : ∀ p, p ∈ db_policies db → policy_AccountID p = a →
    policy_Enabled p = false ∧ policy_Armed p = false;
  ar_tasks : revocations_pending db operationID = false
}.

Lemma not_existsb {A} (f : A → bool) l x : negb (existsb f l) = true → x ∈ l → f x = false.
Proof. rewrite negb_true_iff, existsb_false. auto. Qed.

Lemma completion_consistent_ok db x c :
  ClosureInv (cdata db) → distinct_accounts db → completion_consistent db x = true →
  c ∈ db_closures db → closure_ID c = completion_OperationID x →
  closure_closed db (closure_AccountID c) = true ∧ closed_out db (closure_AccountID c) ∧
  authority_revoked db (closure_AccountID c) (closure_ID c) ∧
  ∃ acc, acc ∈ db_accounts db ∧ account_ID acc = closure_AccountID c ∧
    ∃ b, b ∈ ct_access (db_closure db) ∧ access_OrganizationID b = account_OrganizationID acc ∧ access_State b = "closed".
Proof.
  intros Hinv Hd Hcon Hc Hid. unfold completion_consistent in Hcon. rewrite existsb_true in Hcon.
  destruct Hcon as (c' & Hc' & Hcon). rewrite !andb_true_iff in Hcon. destruct Hcon as [[Hid' Hph] Hacc].
  rewrite bool_decide_eq_true in Hid'.
  assert (c' = c) as -> by (apply (NoDup_fmap_inj_elem closure_ID (cd_closures (cdata db))); [apply Hinv|done|done|congruence]).
  rewrite existsb_true in Hacc. destruct Hacc as (a & Ha & Hacc). rewrite !andb_true_iff, !existsb_true in Hacc.
  destruct Hacc as [[[[[[[[[Haid Hst] Hb] _] Hax] Hm] Hk] Hp] Ht] Htask]. rewrite bool_decide_eq_true in Haid, Hst.
  split_and!.
  - unfold closure_closed. apply existsb_true. exists c. by rewrite bool_decide_eq_true_2.
  - exists a. split_and!; [|done|lia]. rewrite <- Haid. by apply find_unique.
  - constructor.
    + intros m Hin Hacc. pose proof (not_existsb _ _ m Hm Hin) as Hm1. pose proof (not_existsb _ _ m Htask Hin) as Hm2.
      rewrite Haid in *. rewrite bool_decide_eq_true_2 in Hm1, Hm2 by done. simpl in Hm1, Hm2.
      apply negb_false_iff in Hm1, Hm2. rewrite existsb_true in Hm2. destruct Hm2 as (t & Ht' & Heq). reflect_go.
      by subst t.
    + intros k Hin Hacc. pose proof (not_existsb _ _ k Hk Hin) as Hk1. rewrite Haid in *.
      rewrite (bool_decide_eq_true_2 (consent_AccountID k = closure_AccountID c)) in Hk1 by done.
      simpl in Hk1. by apply bool_decide_eq_false in Hk1.
    + intros p Hin Hacc. pose proof (not_existsb _ _ p Hp Hin) as Hp1. rewrite Haid in *.
      rewrite bool_decide_eq_true_2 in Hp1 by done. simpl in Hp1. by apply orb_false_iff in Hp1.
    + by apply negb_true_iff in Ht.
  - exists a. split_and!; [done|done|]. destruct Hax as (b & Hin & Hb'). exists b. reflect_go. by split_and!.
Qed.

(** The close of a cloud whose completion was not there yet. *)
Lemma CloseCloud_new in_ db ack db' :
  CloseCloud in_ db = Ok (ack, db') →
  cloud_completed (cdata db) (cscope_OperationID (close_Scope in_)) = false →
  ∃ account op s x db1, closes in_ db account op s ∧ reads_clock db db1 ∧ closing in_ op ack db1 db' x.
Proof.
  intros [[_ (c & Hc & Hid & _)]|H]%CloseCloud_ok Hno; [|done]. unfold cloud_completed, has_row in Hno.
  rewrite existsb_false in Hno. specialize (Hno c Hc). by rewrite bool_decide_eq_true_2 in Hno.
Qed.

Lemma exec_CloseCloud in_ db ack db' : CloseCloud in_ db = Ok (ack, db') → exec (OpCloseCloud in_) db = Ok (tt, db').
Proof. intros H. cbn [exec]. unfold ignore. apply bind_ok. exists ack, db'. split; [done|by apply ret_ok]. Qed.

(** The last period of the account ends with its cloud. *)
Lemma closing_no_owner in_ db db1 db' account op s ack x :
  PeriodInv db → closes in_ db account op s → reads_clock db db1 → closing in_ op ack db1 db' x →
  no_owner db' (account_ID account).
Proof.
  intros Hinv [_ (_ & _ & Hacc) Hready _] [wall ->] [_ _ _ _ Hps _].
  change (db_periods db' = close_period op (completion_ClosedAt x) <$> db_periods db) in Hps.
  destruct (rd_owner _ _ _ _ Hready) as (p & Hp & Hpid & Hpa & Hpo).
  unfold no_owner. rewrite Hps. intros q (r & -> & Hr)%list_elem_of_fmap Ha. unfold close_period in *.
  destruct (period_ID r == closure_SourcePeriodID op) eqn:Eid; simpl in *.
  - case_bool_decide; [done|done].
  - intros Ho. apply list_elem_of_lookup_1 in Hp as [i Hi], Hr as [j Hj].
    assert (i ≠ j) by (intros ->; rewrite Hi in Hj; injection Hj as ->; reflect_go; done).
    destruct (open_after db i j p r Hinv) as (t & Ht & _); try done; congruence.
Qed.

(** What the closing of a cloud requires, and what it leaves behind. *)
Record closed_by (in_ : CloseCloudInput) (db db' : Db) (ack : CloudClosureAck) (account : CommercialAccount)
    (op : CloudClosure) (s : ClosureSettlement) : Prop := {
  cb_certified : closes in_ db account op s;
  cb_ack : ack = mkCloudClosureAck (closure_ID op) "closed" (cack_ClosedAt ack) (cack_ReceiptSHA256 ack);
  cb_out : closed_out db' (account_ID account);
  cb_entries : entries_of db' (account_ID account) = entries_of db (account_ID account);
  cb_owner : no_owner db' (account_ID account);
  cb_revoked : authority_revoked db' (account_ID account) (closure_ID op);
  cb_access : ∃ b, b ∈ ct_access (db_closure db') ∧
    access_OrganizationID b = account_OrganizationID account ∧ access_State b = "closed"
}.

Lemma CloseCloud_closes in_ db ack db' :
  ClosureInv (cdata db) → PeriodInv db → distinct_accounts db →
  CloseCloud in_ db = Ok (ack, db') →
  cloud_completed (cdata db) (cscope_OperationID (close_Scope in_)) = false →
  ∃ account op s, closed_by in_ db db' ack account op s ∧ closed_cloud (entries_of db (account_ID account)) db' (account_ID account).
Proof.
  intros Hinv Hper Hdist Hclose Hnew.
  destruct (CloseCloud_new in_ db ack db' Hclose Hnew) as (account & op & s & x & db1 & Hcl & Hclock & Hg).
  assert (ClosureInv (cdata db')) as Hinv' by (eapply closure_step_inv; [by eapply CloseCloud_step|done]).
  pose proof (exec_distinct _ _ _ _ (exec_CloseCloud _ _ _ _ Hclose) Hdist) as Hdist'.
  assert (same_ids db db') as Hids.
  { eapply (keeps_CloseCloud same_ids in_); [intros accountID; apply keeps_account, _|exact Hclose]. }
  assert (keeps_closed db db') as [_ Hent].
  { eapply (keeps_CloseCloud keeps_closed in_); [apply close_account_closed|exact Hclose]. }
  assert (entries_of db' (account_ID account) = entries_of db (account_ID account)) as He by (unfold entries_of; by rewrite Hent).
  pose proof (closing_no_owner _ _ _ _ _ _ _ _ _ Hper Hcl Hclock Hg) as Hno.
  destruct Hg as [[Hid _] Hack _ Hd _ Hcon]. pose proof Hcl as [Hfa (Hop & Hopid & Hacc) _ _].
  assert (phased (closure_ID op) "closed" op ∈ db_closures db') as Hc'.
  { change (phased (closure_ID op) "closed" op ∈ cd_closures (cdata db')). rewrite Hd. apply elem_set_phase.
    exists op. split; [|done]. by destruct Hclock as [wall ->]. }
  destruct (completion_consistent_ok db' x _ Hinv' Hdist' Hcon Hc') as (H1 & H2 & H3 & acc & Hin & Haid & b & Hb & Hborg & Hbst).
  { by rewrite phased_id. }
  rewrite phased_account, ?phased_id, Hacc in *. exists account, op, s. split; [|by constructor].
  constructor; try done; [by rewrite Hack|]. exists b. split_and!; [done| |done]. rewrite Hborg.
  assert (account ∈ db_accounts db) as Ha by by apply find_some_iff in Hfa as [? _].
  assert ((account_key acc).1 ∈ account_ids db) as Hk.
  { unfold same_ids in Hids. rewrite <- Hids. apply list_elem_of_fmap. by exists acc. }
  apply list_elem_of_fmap in Hk as (a0 & Hk & Hin0). pose proof (f_equal fst Hk) as Hk1. pose proof (f_equal (fst ∘ snd) Hk) as Hk2.
  assert (a0 = account) as -> by (apply (NoDup_fmap_inj_elem account_ID (db_accounts db)); [done..|]; by rewrite <- Haid).
  exact Hk2.
Qed.

(** ** Retries *)

(** Loading a closure again, after any run. *)
Lemma loadCloudClosureTx_again scope db account op db' ops :
  ClosureInv (cdata db) → loadCloudClosureTx scope db = Ok ((account, op), db') →
  ∃ account' op', loadCloudClosureTx scope (run_all ops db) = Ok ((account', op'), run_all ops db) ∧
    closure_ID op' = closure_ID op.
Proof.
  intros Hinv Hl. set (d2 := run_all ops db).
  destruct (closure_steps_inv _ _ (run_all_closure_steps ops db) Hinv) as [Hinv2 Hm].
  apply loadCloudClosureTx_ok in Hl as Hok. destruct Hok as (_ & Ha & Hop & Hid & Hacc).
  destruct (find_account_stays db d2 _ _ (run_all_accounts ops db) Ha) as (a2 & Ha2 & Haid).
  destruct (proj1 Hm op Hop) as (op2 & Hop2 & Hident & _).
  injection Hident as Hid2 Hacc2 Hown2 Hver2 _ _ _.
  unfold loadCloudClosureTx in *. apply bind_ok in Hl as (x & db1 & Hx & Hl).
  apply (proj1 (scan_ok _ _ _ _)), select_ok in Hx as [_ ->]. apply bind_ok in Hl as (y & db1 & Hy & Hl).
  apply (proj1 (scan_ok _ _ _ _)), select_ok in Hy as [_ ->]. apply bind_ok in Hl as (u & db1 & [Hv _]%require_ok & [[= -> ->] _]%ret_ok).
  exists a2, op2. split; [|done].
  assert (find (fun c => (closure_ID c == cscope_OperationID scope) && (closure_AccountID c == account_ID a2)) (db_closures d2) = Some op2) as Hf.
  { match goal with |- find ?p ?l = _ => destruct (find p l) as [c|] eqn:E end.
    - apply find_some_iff in E as [Hc Hp]. reflect_go. f_equal.
      apply (NoDup_fmap_inj_elem closure_ID (cd_closures (cdata d2))); [apply Hinv2|done|done|congruence].
    - rewrite find_none_iff in E. specialize (E op2 Hop2). by rewrite !bool_decide_eq_true_2 in E by congruence. }
  apply bind_ok. exists a2, d2. split; [apply scan_ok, select_ok; by split|].
  apply bind_ok. exists op2, d2. split; [apply scan_ok, select_ok; by split|].
  apply bind_ok. exists tt, d2. split; [|by apply ret_ok]. apply require_ok. split; [|done]. by rewrite Hown2, Hver2.
Qed.

Lemma CloseCloud_loads in_ db ack db' :
  CloseCloud in_ db = Ok (ack, db') →
  valid_close in_ = true ∧ ∃ account op, loadCloudClosureTx (close_Scope in_) db = Ok ((account, op), db).
Proof.
  unfold CloseCloud. intros (u & db1 & [Hv ->]%require_ok & H)%bind_ok. split; [done|]. unfold closeCloudTx in H.
  apply withTx_ok in H as [H|[_ [db2 H]]];
    apply bind_ok in H as ([account op] & db3 & Hl & _); pose proof Hl as (-> & _)%loadCloudClosureTx_ok;
    by exists account, op.
Qed.

(** The replay of a command whose completion is there. *)
Lemma CloseCloud_replay in_ db account op x :
  valid_close in_ = true → loadCloudClosureTx (close_Scope in_) db = Ok ((account, op), db) →
  (∀ r, r ∈ ct_retired (db_closure db) → rcommand_OperationID r = closure_ID op →
        rcommand_RequestSHA256 r ≠ close_digest in_) →
  find (fun c => completion_OperationID c == closure_ID op) (ct_completions (db_closure db)) = Some x →
  completion_RequestSHA256 x = close_digest in_ →
  CloseCloud in_ db =
    Ok (mkCloudClosureAck (closure_ID op) "closed" (completion_ClosedAt x) (completion_ReceiptSHA256 x), db).
Proof.
  intros Hv Hl Hret Hf Hsha. unfold CloseCloud. apply bind_ok. exists tt, db. split; [by apply require_ok|].
  apply withTx_ok. right. split; [done|]. exists db. unfold closeCloudTx. apply bind_ok. exists (account, op), db.
  split; [done|]. cbv beta iota. apply bind_ok. exists false, db. split.
  { unfold exists_row. apply gets_ok. split; [|done]. symmetry. apply existsb_false. intros r Hr.
    apply andb_false_iff. destruct (decide (rcommand_OperationID r = closure_ID op)); [right|left];
      apply bool_decide_eq_false_2; auto. }
  apply bind_ok. exists tt, db. split; [by apply require_ok|].
  apply bind_ok. exists (Some x), db. split; [apply try_err_ok; left; exists x; split; [done|by apply select_ok]|].
  cbv beta iota. apply bind_ok. exists tt, db. split; [|by apply ret_ok]. apply require_ok. by rewrite bool_decide_eq_true_2.
Qed.

(** ** What closing a cloud promises *)

(** C15: A cloud is closed only in the phase [preparing] of its closure, while its active
    account has balance zero, the collector's named receipt still digests the account's
    state and covers the cutoff with complete evidence and nothing pending, and every
    provider has acknowledged its revocation.  Closing posts nothing, and leaves the
    account closed at balance zero without an owner, its access closed, and no method,
    consent or policy that could pay. *)
Theorem CloseCloud_spec in_ db ack db' :
  ClosureInv (cdata db) → PeriodInv db → distinct_accounts db →
  CloseCloud in_ db = Ok (ack, db') →
  cloud_completed (cdata db) (cscope_OperationID (close_Scope in_)) = false →
  ∃ account op s, closed_by in_ db db' ack account op s.
Proof.
  intros Hinv Hper Hd Hc Hnew. destruct (CloseCloud_closes in_ db ack db' Hinv Hper Hd Hc Hnew) as (a & op & s & H & _).
  by exists a, op, s.
Qed.

(** C16: Once a cloud is closed it stays closed: after any operations whatever its account
    is closed at balance zero, its ledger has exactly the entries it had, nobody is
    responsible for it again, and the same command is answered with the same receipt
    without changing anything. *)
Theorem closed_forever in_ db ack db' ops :
  ClosureInv (cdata db) → PeriodInv db → distinct_accounts db →
  CloseCloud in_ db = Ok (ack, db') →
  cloud_completed (cdata db) (cscope_OperationID (close_Scope in_)) = false →
  (∃ account, find (by_organization (cscope_OrganizationID (close_Scope in_)) Settlement) (db_accounts db) = Some account ∧
    closed_cloud (entries_of db (account_ID account)) (run_all ops db') (account_ID account)) ∧
  CloseCloud in_ (run_all ops db') = Ok (ack, run_all ops db').
Proof.
  intros Hinv Hper Hdist Hclose Hnew.
  destruct (CloseCloud_closes in_ db ack db' Hinv Hper Hdist Hclose Hnew) as (account & op & s & Hby & Hcc).
  split.
  { exists account. split; [apply (cb_certified _ _ _ _ _ _ _ Hby)|by apply run_all_closed]. }
  assert (closure_step (cdata db) (cdata db')) as Hstep by by eapply CloseCloud_step.
  pose proof (closure_step_inv _ _ Hstep Hinv) as Hinv'.
  destruct (closure_steps_inv _ _ (run_all_closure_steps ops db') Hinv') as [Hinv2 [_ [more Hmore]]].
  destruct (CloseCloud_new in_ db ack db' Hclose Hnew) as (a & op1 & s1 & x & db1 & [_ [_ [Hop1 _]] _ _] & [wall ->] & [Hx Hack _ Hd _ _]).
  destruct Hx as (Hxid & Hxset & Hxsha).
  assert (find (fun c => completion_OperationID c == cscope_OperationID (close_Scope in_))
    (ct_completions (db_closure (run_all ops db'))) = Some x) as Hfind.
  { change (ct_completions (db_closure (run_all ops db'))) with (cd_completions (cdata (run_all ops db'))).
    rewrite Hmore, Hd. change (cd_completions (set_phase _ _ _)) with (ct_completions (db_closure db) ++ [x]).
    rewrite !find_app. unfold cloud_completed, has_row in Hnew.
    destruct (find _ (ct_completions (db_closure db))) as [c|] eqn:E.
    - apply find_some_iff in E as [Hc Hp]. rewrite existsb_false in Hnew. specialize (Hnew c Hc). congruence.
    - simpl. by rewrite bool_decide_eq_true_2 by congruence. }
  destruct (CloseCloud_loads in_ db ack db' Hclose) as (Hvalid & acc0 & op0 & Hload).
  assert (run_all (OpCloseCloud in_ :: ops) db = run_all ops db') as Hrun.
  { unfold run_all, flip. simpl. unfold run_op at 2, run. by rewrite (exec_CloseCloud _ _ _ _ Hclose). }
  destruct (loadCloudClosureTx_again _ _ _ _ _ (OpCloseCloud in_ :: ops) Hinv Hload) as (acc2 & op2 & Hload2 & Hid2).
  rewrite Hrun in Hload2. apply loadCloudClosureTx_ok in Hload as (_ & _ & _ & Hid0 & _).
  assert (closure_ID op2 = closure_ID op1) as Hid by congruence.
  rewrite (CloseCloud_replay in_ _ acc2 op2 x); [by rewrite Hack, Hid|done|done| |by rewrite Hid2, Hid0|done].
  intros r Hr Hrid. rewrite <- Hxsha. apply (ci_retired _ Hinv2); [done| |congruence].
  rewrite Hmore, Hd. apply elem_of_app. left. apply elem_of_app. right. by left.
Qed.
End closed.

(** ** The concrete closure *)
#[local] Existing Instances demo_pg demo_dg.

Lemma demo_closable_invariants : ClosureInv (cdata demo_closable) ∧ PeriodInv demo_closable ∧ distinct_accounts demo_closable.
Proof.
  change demo_closable with (run_all demo_closable_ops demo_empty).
  split; [|split].
  - apply (closure_steps_inv _ _ (run_all_closure_steps demo_closable_ops demo_empty)). by apply ClosureInv_empty.
  - apply (run_all_keeps (preserves PeriodInv)).
    + apply Forall_forall. intros op _ db1 u db2 H Hi. eapply period_step_inv; [by eapply exec_period_step|done].
    + constructor.
      * intros p ->%list_elem_of_singleton. by left.
      * intros p t ->%list_elem_of_singleton [=].
      * intros i j p q Hne [-> _]%list_lookup_singleton_Some [-> _]%list_lookup_singleton_Some. done.
  - apply (bool_decide_unpack _). by vm_compute.
Qed.

Lemma CloseCloud_spec_witness : closed_out demo_closed "acc" ∧ no_owner demo_closed "acc".
Proof.
  destruct demo_closable_invariants as (H1 & H2 & H3).
  destruct (CloseCloud_spec demo_close demo_closable demo_close_ack demo_closed H1 H2 H3) as (a & op & s & [Hc _ Ho _ Hn _ _]);
    [by vm_compute|by vm_compute|].
  destruct Hc as [Ha _ _ _]. vm_compute in Ha. injection Ha as <-. exact (conj Ho Hn).
Defined.

(** A late credit, a retry of the command and a new handoff, against the closed cloud. *)
Definition demo_late_ops : list operation :=
  [demo_late_credit; OpCloseCloud demo_close; demo_prepare; demo_closure].

Lemma closed_forever_witness :
  closed_out (run_all demo_late_ops demo_closed) "acc" ∧
  CloseCloud demo_close (run_all demo_late_ops demo_closed) = Ok (demo_close_ack, run_all demo_late_ops demo_closed).
Proof.
  destruct demo_closable_invariants as (H1 & H2 & H3).
  destruct (closed_forever demo_close demo_closable demo_close_ack demo_closed demo_late_ops H1 H2 H3) as [(a & Ha & Hcc) Hr];
    [by vm_compute|by vm_compute|].
  vm_compute in Ha. injection Ha as <-. split; [exact (cc_out _ _ _ Hcc)|exact Hr].
Defined.
