(* ===== verification/Wallet.v ===== *)
(** * The wallet the store promises

    An abstract account of money: balances of accounts, payments that are paid at most
    once, and what of each has been reversed.  The abstraction function reads it off a
    database, and the lemmas here say which abstract step each kind of write is; that
    every operation of the store is a sequence of such steps is shown in [Store]. *)
From S2P Require Import Prelude GoStrings GoTime BillingTypes PaymentTypes Payment Database Tables.
From S2P Require Import Keeps Fixtures Accounts Ledger AutoTopUp Intents Credits Jobs Attempts.
From S2P Require Import Evolution Reversals.

Record Wallet := mkWallet {
  wallet_balance : string → option Z;
  wallet_payment : string → option (string * Z * bool);   (* account, amount, whether paid *)
  wallet_refunded : string → string → Z                   (* account, payment *)
}.

#[export] Instance wallet_equiv : Equiv Wallet := fun w w' =>
  (∀ a, wallet_balance w a = wallet_balance w' a) ∧ (∀ i, wallet_payment w i = wallet_payment w' i) ∧
  (∀ a i, wallet_refunded w a i = wallet_refunded w' a i).
#[export] Instance wallet_equivalence : Equivalence (≡@{Wallet}).
Proof.
  split; [done|by intros w w' (?&?&?)|]. intros x y z (H1&H2&H3) (H4&H5&H6).
  split_and!; intros; by rewrite ?H1, ?H2, ?H3.
Qed.

Definition set_balance (accountID : string) (b : Z) (w : Wallet) : Wallet :=
  mkWallet (fun a => if decide (a = accountID) then Some b else wallet_balance w a)
    (wallet_payment w) (wallet_refunded w).
Definition set_payment (intentID : string) (p : string * Z * bool) (w : Wallet) : Wallet :=
  mkWallet (wallet_balance w)
    (fun i => if decide (i = intentID) then Some p else wallet_payment w i) (wallet_refunded w).
Definition add_refund (accountID intentID : string) (n : Z) (w : Wallet) : Wallet :=
  mkWallet (wallet_balance w) (wallet_payment w)
    (fun a i => wallet_refunded w a i + (if decide (accountID = a ∧ intentID = i) then n else 0)).

#[export] Instance set_balance_proper a b : Proper ((≡) ==> (≡)) (set_balance a b).
Proof. intros w w' (H1&?&?). split_and!; try done. intros x. simpl. by case_decide. Qed.
#[export] Instance set_payment_proper i p : Proper ((≡) ==> (≡)) (set_payment i p).
Proof. intros w w' (?&H2&?). split_and!; try done. intros x. simpl. by case_decide. Qed.
#[export] Instance add_refund_proper a i n : Proper ((≡) ==> (≡)) (add_refund a i n).
Proof. intros w w' (?&?&H3). split_and!; try done. intros x y. simpl. by rewrite H3. Qed.

(** What may happen to a wallet. *)
Inductive wallet_step (w w' : Wallet) : Prop :=
  | wallet_stay : w' ≡ w → wallet_step w w'
  | wallet_open a : wallet_balance w a = None → w' ≡ set_balance a 0 w → wallet_step w w'
  | wallet_post a b n :
      wallet_balance w a = Some b → n ≠ 0 → int64 (b + n) → w' ≡ set_balance a (b + n) w →
      wallet_step w w'
  | wallet_order i a n :
      wallet_payment w i = None → 0 < n → w' ≡ set_payment i (a, n, false) w → wallet_step w w'
  | wallet_pay i a n b :
      wallet_payment w i = Some (a, n, false) → wallet_balance w a = Some b → int64 (b + n) →
      w' ≡ set_balance a (b + n) (set_payment i (a, n, true) w) → wallet_step w w'
  | wallet_refund_later i a n m :
      wallet_payment w i = Some (a, m, true) → 0 < n → wallet_refunded w a i + n ≤ m →
      w' ≡ add_refund a i n w → wallet_step w w'
  | wallet_refund i a n m b :
      wallet_payment w i = Some (a, m, true) → 0 < n → wallet_refunded w a i + n ≤ m →
      wallet_balance w a = Some b → int64 (b - n) →
      w' ≡ set_balance a (b - n) (add_refund a i n w) → wallet_step w w'.

Notation wallet_steps := (rtc wallet_step).

(** ** The wallet of a database *)

Definition pay_view (k : string * string * Z * Currency * bool) : string * Z * bool :=
  (k.1.1.1.2, k.1.1.2, k.2).
Definition payment_of (db : Db) (intentID : string) : option (string * Z * bool) :=
  pay_view ∘ credit_view <$> find (fun i => intent_ID i == intentID) (db_intents db).
Definition wallet_of (db : Db) : Wallet := mkWallet (balance_of db) (payment_of db) (reversed db).

Lemma payment_of_view db intentID :
  payment_of db intentID = pay_view <$> find (fun k => k.1.1.1.1 == intentID) (credit_view <$> db_intents db).
Proof. rewrite find_view. unfold payment_of. by destruct (find _ _). Qed.

Lemma same_balances db db' :
  account_key <$> db_accounts db' = account_key <$> db_accounts db → ∀ a, balance_of db' a = balance_of db a.
Proof. intros Ha a. by rewrite !balance_of_key, Ha. Qed.
Lemma same_payments db db' :
  credit_view <$> db_intents db' = credit_view <$> db_intents db → ∀ i, payment_of db' i = payment_of db i.
Proof. intros Hi i. by rewrite !payment_of_view, Hi. Qed.

(** What the abstraction looks at. *)
Lemma wallet_same db db' :
  same_books db db' → credit_view <$> db_intents db' = credit_view <$> db_intents db →
  same_reversals db db' → wallet_of db' ≡ wallet_of db.
Proof.
  intros [_ Ha] Hi Hr. split_and!; [by apply same_balances|by apply same_payments|].
  intros. by apply reversed_same.
Qed.
Lemma wallet_calm db db' : calm db db' → same_reversals db db' → wallet_of db' ≡ wallet_of db.
Proof. intros [Hb Hi] Hr. apply wallet_same; [done|by rewrite Hi|done]. Qed.

(** ** The writes *)
Section writes.
Context {pg : Postgres}.

Lemma wallet_new_account db db' a :
  db_accounts db' = db_accounts db ++ [a] → db_intents db' = db_intents db → same_reversals db db' →
  account_AvailableBalanceMinor a = 0 → (∀ s, s ∈ db_accounts db → account_ID s ≠ account_ID a) →
  wallet_step (wallet_of db) (wallet_of db').
Proof.
  intros Ha Hi Hr H0 Hfresh.
  assert (find (fun s => account_ID s == account_ID a) (db_accounts db) = None) as Hno.
  { apply find_none_iff. intros s Hs. apply bool_decide_eq_false_2. by apply Hfresh. }
  apply (wallet_open _ _ (account_ID a)); [simpl; unfold balance_of; by rewrite Hno|].
  split_and!; [|by apply same_payments; rewrite Hi|by intros; apply reversed_same].
  intros x. simpl. unfold balance_of. rewrite Ha, find_app. simpl. case_decide as Hx.
  - rewrite Hx, Hno, bool_decide_eq_true_2 by done. simpl. by rewrite H0.
  - rewrite (bool_decide_eq_false_2 (account_ID a = x)) by done. by case_match.
Qed.

Lemma wallet_new_intent db db' i :
  same_books db db' → db_intents db' = db_intents db ++ [i] → same_reversals db db' →
  intent_State i ≠ PaymentIntentStateSucceeded → 0 < intent_AmountMinor i →
  (∀ s, s ∈ db_intents db → intent_ID s ≠ intent_ID i) → wallet_step (wallet_of db) (wallet_of db').
Proof.
  intros Hb Hi Hr Hs Hpos Hfresh.
  assert (find (fun s => intent_ID s == intent_ID i) (db_intents db) = None) as Hno.
  { apply find_none_iff. intros s Hin. apply bool_decide_eq_false_2. by apply Hfresh. }
  apply (wallet_order _ _ (intent_ID i) (intent_AccountID i) (intent_AmountMinor i)); [|done|].
  { simpl. unfold payment_of. by rewrite Hno. }
  split_and!; [intros; by apply balance_of_same_books| |by intros; apply reversed_same].
  intros x. simpl. unfold payment_of. rewrite Hi, find_app. simpl. case_decide as Hx.
  - rewrite Hx, Hno, (bool_decide_eq_true_2 (intent_ID i = _)) by done.
    unfold pay_view, credit_view. simpl. by rewrite bool_decide_eq_false_2.
  - rewrite (bool_decide_eq_false_2 (intent_ID i = x)) by done. by case_match.
Qed.

(** The new balance that an entry records. *)
Lemma insert_entry_balances account in_ db entry account' db' :
  LedgerInv db → find (fun a => account_ID a == account_ID account) (db_accounts db) = Some account →
  insertLedgerEntryTx account in_ db = Ok ((entry, account'), db') →
  let b := account_AvailableBalanceMinor account in
  let n := signed (post_Direction in_) (post_AmountMinor in_) in
  balance_of db (account_ID account) = Some b ∧ n ≠ 0 ∧ int64 (b + n) ∧
  (∀ x, balance_of db' x = if decide (x = account_ID account) then Some (b + n) else balance_of db x) ∧
  db_intents db' = db_intents db ∧ same_reversals db db'.
Proof.
  intros Hinv Hcur H. destruct (find_account _ _ _ Hcur) as [Hin _].
  pose proof (fun x => insertLedgerEntryTx_balance _ _ _ _ _ _ x H) as Hbal.
  apply insertLedgerEntryTx_ok in H as (b & cur & Hb & _ & _ & _ & -> & _ & _ & _ & ->).
  apply ApplyBalance_ok in Hb as (Hpos & Hdir & -> & H64); [|by apply Hinv].
  cbv zeta. split_and!; try done.
  - unfold balance_of. by rewrite Hcur.
  - by destruct Hdir as [-> | ->]; unfold signed; simpl; lia.
Qed.

Lemma wallet_post_entry account in_ db entry account' db1 db' :
  LedgerInv db → find (fun a => account_ID a == account_ID account) (db_accounts db) = Some account →
  insertLedgerEntryTx account in_ db = Ok ((entry, account'), db1) →
  same_books db1 db' → credit_view <$> db_intents db' = credit_view <$> db_intents db →
  same_reversals db db' → wallet_step (wallet_of db) (wallet_of db').
Proof.
  intros Hinv Hcur H Hb Hi Hr.
  destruct (insert_entry_balances _ _ _ _ _ _ Hinv Hcur H) as (Hold & Hne & H64 & Hnew & _ & _).
  eapply (wallet_post _ _ (account_ID account)); [exact Hold|exact Hne|exact H64|].
  split_and!; [|by apply same_payments|by intros; apply reversed_same].
  intros x. simpl. by rewrite (balance_of_same_books _ _ _ Hb), Hnew.
Qed.

(** The payment of an intent that moves. *)
Lemma payment_of_move in_ intent db i :
  find (fun i => intent_ID i == intent_ID intent) (db_intents db) = Some intent →
  payment_of (move_intent in_ intent db) i =
    if decide (i = intent_ID intent)
    then Some (intent_AccountID intent, intent_AmountMinor intent,
               trans_ToState in_ == PaymentIntentStateSucceeded)
    else payment_of db i.
Proof.
  intros Hf. unfold payment_of.
  change (db_intents (move_intent in_ intent db)) with ((fun i => if intent_ID i == intent_ID intent
    then moved in_ intent (db_now db) i else i) <$> db_intents db).
  rewrite (find_fmap_same (fun j => intent_ID j == i)); [|intros j; by case_match].
  case_decide as Hi.
  - rewrite Hi, Hf. simpl. by rewrite bool_decide_eq_true_2.
  - destruct (find (fun j => intent_ID j == i) (db_intents db)) as [j|] eqn:Hj; [|done]. simpl.
    apply find_some_iff in Hj as [_ Hj]. reflect_go. by rewrite bool_decide_eq_false_2 by congruence.
Qed.

Lemma wallet_transitions account intent in_ db r db' db'' :
  LedgerInv db → find (fun a => account_ID a == account_ID account) (db_accounts db) = Some account →
  find (fun i => intent_ID i == intent_ID intent) (db_intents db) = Some intent →
  account_ID account = intent_AccountID intent →
  transitions account intent in_ db r db' → calm db' db'' → same_reversals db db'' →
  wallet_step (wallet_of db) (wallet_of db'').
Proof.
  intros Hinv Hcur Hf Hacc H Hlast Hr.
  assert (payment_of db (intent_ID intent) = Some (intent_AccountID intent, intent_AmountMinor intent,
    intent_State intent == PaymentIntentStateSucceeded)) as Hpay by (unfold payment_of; by rewrite Hf).
  destruct H as [credit Heq|row acc' credit acc'' db1 db' Hstep Hne Hs Hrow Hpair Hins Hcalm
                |row acc' db' Hstep Hne Hs Hrow Hpair Hcalm].
  - by apply wallet_stay, wallet_calm.
  - rewrite Hrow in Hf. injection Hf as ->. destruct (transitivity Hcalm Hlast) as [Hb Hint'].
    destruct (insert_entry_balances _ _ (move_intent in_ intent db) _ _ _
      (same_books_inv db (move_intent in_ intent db) (conj eq_refl eq_refl) Hinv) Hcur Hins)
      as (Hold & _ & H64 & Hnew & Hint & _).
    apply (wallet_pay _ _ (intent_ID intent) (account_ID account) (intent_AmountMinor intent)
      (account_AvailableBalanceMinor account)); try done.
    + simpl. rewrite Hpay, Hacc. repeat f_equal. apply bool_decide_eq_false. congruence.
    + split_and!; [| |by intros; apply reversed_same].
      * intros x. simpl. by rewrite (balance_of_same_books _ _ _ Hb), Hnew.
      * intros x. simpl. rewrite (same_payments (move_intent in_ intent db) db'') by congruence.
        rewrite (payment_of_move _ _ _ _ Hrow), Hacc, Hs. by rewrite (bool_decide_eq_true_2 (_ = _)).
  - destruct (transitivity Hcalm Hlast) as [Hb Hint']. apply wallet_stay.
    split_and!; [intros; simpl; by rewrite (balance_of_same_books _ _ _ Hb)| |by intros; apply reversed_same].
    intros x. simpl. rewrite (same_payments (move_intent in_ intent db) db'') by by rewrite Hint'.
    rewrite (payment_of_move _ _ _ _ Hf). destruct (decide (x = intent_ID intent)) as [Hx|Hx]; [|done]. rewrite Hx, Hpay. repeat f_equal.
    apply bool_decide_ext. split; [done|]. intros Hsucc.
    apply intent_step_ok in Hstep as (_ & _ & Hstep). rewrite Hsucc in *.
    by apply CanTransition_terminal.
Qed.

(** The reversal of a payment. *)
Lemma reversed_allocation account eventID in_ db i b p db' a e :
  ReversalInv db → attributed account eventID in_ db i b p →
  e ∈ db_reversals db → event_ID e = eventID → event_AccountID e = account_ID account →
  event_OriginalIntentID e = reversal_OriginalIntentID in_ →
  event_AmountMinor e = reversal_AmountMinor in_ → eventID ∉ alloc_EventID <$> db_allocations db →
  db_reversals db' = db_reversals db → db_allocations db' = db_allocations db ++ [a] →
  alloc_EventID a = eventID →
  reversed db (account_ID account) (intent_ID i) + reversal_AmountMinor in_ ≤ intent_AmountMinor i ∧
  0 < reversal_AmountMinor in_ ∧
  ∀ x y, reversed db' x y = reversed db x y +
    (if decide (account_ID account = x ∧ intent_ID i = y) then reversal_AmountMinor in_ else 0).
Proof.
  intros [Hn Hp Ha Ho] [Hi Hiid Hiacc Hst Hroom _] He Heid Heacc Heint Heamt Hno Hr Hal Haid.
  rewrite (reversed_total_except _ _ _ _ Hno) in Hroom. split_and!.
  - done.
  - rewrite <- Heamt. by apply Hp.
  - intros x y. rewrite (reversed_snoc db db' a e) by congruence. by rewrite Heacc, Heint, Heamt, <- Hiid.
Qed.

Lemma wallet_allocates account eventID in_ db r db' e :
  LedgerInv db → CreditInv db → ReversalInv db → allocates account eventID in_ db r db' →
  find (fun a => account_ID a == account_ID account) (db_accounts db) = Some account →
  e ∈ db_reversals db → event_ID e = eventID → event_AccountID e = account_ID account →
  event_OriginalIntentID e = reversal_OriginalIntentID in_ →
  event_AmountMinor e = reversal_AmountMinor in_ → eventID ∉ alloc_EventID <$> db_allocations db →
  wallet_step (wallet_of db) (wallet_of db').
Proof.
  intros Hl Hc Hrv H Hcur He Heid Heacc Heint Heamt Hno.
  assert (∀ i b p, attributed account eventID in_ db i b p →
    payment_of db (intent_ID i) = Some (account_ID account, intent_AmountMinor i, true)) as Hpay.
  { intros i b p [Hi _ Hiacc Hst _ _]. unfold payment_of.
    rewrite (find_unique intent_ID) by (done || apply Hc). unfold pay_view, credit_view. simpl. rewrite Hiacc. repeat f_equal.
    by apply bool_decide_eq_true_2. }
  destruct H as [reason db' Hcalm Hsame|i b p a db' Hatt [Hb Hint] Hr Hal Haid _ _ _
    |i b p a entry account1 account2 now db1 db' Hatt _ Hins [Hb Hint] Hr Hal Haid _ _ _].
  - apply wallet_stay. by apply wallet_calm.
  - destruct (reversed_allocation _ _ _ _ _ _ _ db' a e Hrv Hatt) as (Hroom & Hpos & Hrev); try done.
    apply (wallet_refund_later _ _ (intent_ID i) (account_ID account) (reversal_AmountMinor in_) (intent_AmountMinor i));
      [by eapply Hpay|done|done|].
    split_and!; [by intros; apply balance_of_same_books|intros; apply same_payments; by rewrite Hint|done].
  - destruct (reversed_allocation _ _ _ _ _ _ _ db' a e Hrv Hatt) as (Hroom & Hpos & Hrev); try done.
    destruct (insert_entry_balances _ _ _ _ _ _ Hl Hcur Hins) as (Hold & _ & H64 & Hnew & Hint1 & _).
    apply (wallet_refund _ _ (intent_ID i) (account_ID account) (reversal_AmountMinor in_) (intent_AmountMinor i)
      (account_AvailableBalanceMinor account)); [by eapply Hpay|done|done|done|done|].
    split_and!; [|intros; apply same_payments; by rewrite Hint, Hint1|done].
    intros x. simpl. by rewrite (balance_of_same_books _ _ _ Hb), Hnew.
Qed.
End writes.

#[export] Instance wallet_step_proper : Proper ((≡) ==> (≡) ==> iff) wallet_step.
Proof.
  assert (∀ w x y z, w ≡ x → y ≡ z → wallet_step w y → wallet_step x z) as Himp.
  { intros w x y z Hwx Hyz H. pose proof Hwx as (H1 & H2 & H3).
    destruct H as [H|a Ha H|a b n Ha Hn Hb H|i a n Hi Hn H|i a n b Hi Ha Hb H|i a n m Hi Hn Hm H|
      i a n m b Hi Hn Hm Ha Hb H]; rewrite ?H1 in *; rewrite ?H2 in *; rewrite ?H3 in *.
    - apply wallet_stay. by rewrite <- Hyz, <- Hwx.
    - apply (wallet_open _ _ a); [done|]. by rewrite <- Hyz, <- Hwx.
    - apply (wallet_post _ _ a b n); [done..|]. by rewrite <- Hyz, <- Hwx.
    - apply (wallet_order _ _ i a n); [done..|]. by rewrite <- Hyz, <- Hwx.
    - apply (wallet_pay _ _ i a n b); [done..|]. by rewrite <- Hyz, <- Hwx.
    - apply (wallet_refund_later _ _ i a n m); [done..|]. by rewrite <- Hyz, <- Hwx.
    - apply (wallet_refund _ _ i a n m b); [done..|]. by rewrite <- Hyz, <- Hwx. }
  intros w x Hwx y z Hyz. split; [by apply Himp|]. by apply Himp; symmetry.
Qed.
