(* ===== verification/Store.v ===== *)
(** * The store as a whole

    All operations of the payment store as one type, any sequence of which is run from
    any database; the invariant all of them keep, and how they let the data evolve. *)
From S2P Require Import Prelude GoStrings GoTime BillingTypes PaymentTypes Payment Database Tables.
From S2P Require Import Keeps Fixtures Accounts Ledger AutoTopUp Intents Credits Jobs Attempts.
From S2P Require Import Evolution Webhooks Customer Reversals Setups Handoff Protocols Settlement HandoffCommit.
From S2P Require Import Closure Preflight Creation Wallet.

Record StoreInv (db : Db) : Prop := {
  st_ledger : LedgerInv db;
  st_credit : CreditInv db;
  st_attempts : AttemptInv db;
  st_reversals : ReversalInv db
}.

(** Attempts are only added, and keep what they are for. *)
Definition attempts_grow (db db' : Db) : Prop :=
  ∃ new, attempt_key <$> db_attempts db' = (attempt_key <$> db_attempts db) ++ new.

#[export] Instance attempts_grow_preorder : PreOrder attempts_grow.
Proof.
  split; [intros db; exists []; by rewrite app_nil_r|]. intros x y z [n1 H1] [n2 H2].
  exists (n1 ++ n2). by rewrite H2, H1, app_assoc.
Qed.
Lemma attempts_same db db' :
  attempt_key <$> db_attempts db' = attempt_key <$> db_attempts db → attempts_grow db db'.
Proof. intros Ha. exists []. by rewrite Ha, app_nil_r. Qed.

(** What every operation does: it lets the data evolve, keeps the invariant, and takes
    steps of the wallet. *)
Definition good (db db' : Db) : Prop :=
  evolves db db' ∧ attempts_grow db db' ∧
  (StoreInv db → StoreInv db' ∧ wallet_steps (wallet_of db) (wallet_of db')).

#[export] Instance good_preorder : PreOrder good.
Proof.
  split; [intros x; split; [done|]; by split|]. intros x y z (H1 & G1 & H2) (H3 & G2 & H4).
  split; [by transitivity y|]. split; [by transitivity y|]. intros Hx.
  destruct (H2 Hx) as [Hy ?]. destruct (H4 Hy) as [??]. split; [done|]. by etransitivity.
Qed.

(** From what it does to each part. *)
Lemma good_parts db db' :
  evolves db db' → attempts_grow db db' → (LedgerInv db → LedgerInv db') → (CreditInv db → CreditInv db') →
  (AttemptInv db → CreditInv db' → AttemptInv db') → (ReversalInv db → ReversalInv db') →
  (StoreInv db → wallet_step (wallet_of db) (wallet_of db')) → good db db'.
Proof.
  intros He Hg Hl Hc Ha Hr Hw. split; [done|]. split; [done|]. intros Hinv. split; [|by apply rtc_once, Hw].
  destruct Hinv. constructor; auto.
Qed.

Lemma good_quiet db db' :
  evolves db db' → (LedgerInv db → LedgerInv db') → (CreditInv db → CreditInv db') →
  attempt_key <$> db_attempts db' = attempt_key <$> db_attempts db → same_reversals db db' →
  (StoreInv db → wallet_step (wallet_of db) (wallet_of db')) → good db db'.
Proof.
  intros He Hl Hc Ha Hr Hw. apply good_parts; try done.
  - by apply attempts_same.
  - intros Hai Hci. eapply AttemptInv_evolves; try done. apply Hci.
  - by apply ReversalInv_evolves.
Qed.

Lemma good_same db db' :
  calm db db' → db_attempts db' = db_attempts db → same_reversals db db' → good db db'.
Proof.
  intros [Hb Hi] Ha Hr. apply good_quiet; try done.
  - by apply evolves_same; [apply Hb|].
  - by apply same_books_inv.
  - by apply CreditInv_calm.
  - by rewrite Ha.
  - intros _. by apply wallet_stay, wallet_calm.
Qed.

(** A write to the intents that does not touch their payments. *)
Lemma good_view db db' :
  evolves db db' → same_books db db' → credit_view <$> db_intents db' = credit_view <$> db_intents db →
  attempt_key <$> db_attempts db' = attempt_key <$> db_attempts db → same_reversals db db' → good db db'.
Proof.
  intros He Hb Hv Ha Hr. apply good_quiet; try done.
  - by apply same_books_inv.
  - by apply CreditInv_view; [apply Hb|].
  - intros _. by apply wallet_stay, wallet_same.
Qed.

#[export] Instance good_frame : Frame good.
Proof. split; [apply _|by intros; apply good_same..]. Qed.
#[export] Hint Extern 1 (Skips good _) => intros ??; by apply good_same : typeclass_instances.

(** The relations the parts look at, together. *)
Definition still (db db' : Db) : Prop := calm db db' ∧ same_attempts db db' ∧ same_reversals db db'.
#[export] Instance still_frame : Frame still.
Proof.
  unfold still. split; try done. split; [done|].
  intros x y z (H1 & H2 & H3) (H4 & H5 & H6). split_and!; by transitivity y.
Qed.
Lemma still_good db db' : still db db' → good db db'.
Proof. intros (? & ? & ?). by apply good_same. Qed.

#[export] Instance good_state : SkipsState good.
Proof.
  intros accountID f state Hs Hf db a db' H. apply good_same.
  - by eapply (skips_state (R := calm)).
  - by eapply (skips_state (R := same_attempts)).
  - by eapply (skips_state (R := same_reversals)).
Qed.

#[export] Instance good_new_intent {pg : Postgres} : SkipsNewIntent good.
Proof.
  intros i Hi db r db' H. apply insert_intent_ok in H as (-> & Hck & Hno & _ & _ & ->).
  assert (∀ s, s ∈ db_intents db → intent_ID s ≠ intent_ID i) as Hfresh.
  { intros s Hs Heq. specialize (Hno s Hs). cbn [t_conflict intents_table] in Hno.
    by rewrite (bool_decide_eq_true_2 (intent_ID s = intent_ID i)) in Hno. }
  cbn [t_check intents_table] in Hck. reflect_go. apply good_quiet; try done.
  - by apply (evolves_insert _ _ [i]).
  - by apply same_books_inv.
  - intros Hc. eapply (CreditInv_insert db _ i); [done|done|apply Hi|done|done|done].
  - intros _. by eapply (wallet_new_intent db _ i).
Qed.

(** ** The operations with effects of their own *)
Section goods.
Context {pg : Postgres} {dg : Digest}.

(** A new account with an empty balance. *)
Lemma insert_account_good a target db r db' :
  account_AvailableBalanceMinor a = 0 → insert_or_nothing target a db = Ok (r, db') → good db db'.
Proof.
  intros H0 H%insert_or_nothing_ok. apply insert_row_ok in H as (-> & _ & Hno & ->).
  assert (∀ s, s ∈ db_accounts db → account_ID s ≠ account_ID a) as Hfresh.
  { intros s Hs Heq. specialize (Hno s Hs). cbn [t_conflict accounts_table] in Hno.
    by rewrite (bool_decide_eq_true_2 (account_ID s = account_ID a)) in Hno. }
  apply good_quiet; try done;
    [by apply evolves_same| |by apply CreditInv_view|intros _; by eapply (wallet_new_account db _ a)].
  intros [Hu Ho Hb Hh Hv].
  assert (account_ID a ∉ account_ID <$> db_accounts db) as Hnew.
  { intros (s & Heq & Hs)%list_elem_of_fmap. by apply (Hfresh s). }
  constructor; cbn [db_accounts db_entries t_put accounts_table].
  - change (NoDup (account_ID <$> (db_accounts db ++ [a]))). rewrite fmap_app. apply NoDup_app.
    split; [done|]. split; [|apply NoDup_singleton]. by intros x Hx ->%list_elem_of_singleton.
  - intros e He. change (entry_AccountID e ∈ account_ID <$> (db_accounts db ++ [a])).
    rewrite fmap_app. apply elem_of_app. left. by apply Ho.
  - change (∀ b, b ∈ db_accounts db ++ [a] → account_AvailableBalanceMinor b =
      account_sum (account_ID b) (db_entries db) ∧ int64 (account_AvailableBalanceMinor b)).
    intros b [Hin| ->%list_elem_of_singleton]%elem_of_app; [by apply Hb|]. rewrite H0, account_sum_none.
    + split; [done|]. unfold int64, minInt64, maxInt64. lia.
    + intros e He Heq. apply Hnew. rewrite <- Heq. by apply Ho.
  - done.
  - done.
Qed.

Lemma good_EnsureCommercialAccount ctx organizationID code :
  keeps good (EnsureCommercialAccount ctx organizationID code).
Proof.
  unfold EnsureCommercialAccount, GetCommercialAccount. destruct ctx; [keeps|].
  apply keeps_bind; [apply _..|intros _]. apply keeps_bind; [apply _..|intros _].
  apply keeps_bind; [apply _..|intros id]. apply keeps_bind; [apply _..|intros now].
  apply keeps_bind; [apply _| |].
  - apply keeps_try; [apply _|]. apply keeps_scan. intros db r db' H.
    by eapply insert_account_good; [|exact H].
  - keeps.
Qed.

(** The identity of an account is all that [touch_billing_authority_guard] keeps. *)
Lemma good_touch accountID : keeps good (touch_billing_authority_guard accountID).
Proof.
  intros db u db' H. unfold touch_billing_authority_guard in H.
  apply bind_ok in H as (rows & db1 & (_ & _ & _ & ->)%update_rows_ok & [_ ->]%ret_ok).
  apply good_same; try done. split; [|done]. split; [done|].
  change (account_key <$> ((fun r => if account_ID r == accountID
    then r <| account_UpdatedAt := db_now db |> else r) <$> db_accounts db) = account_key <$> db_accounts db).
  rewrite <- list_fmap_compose. apply list_fmap_ext. intros n r _. simpl. by case_match.
Qed.

(** The digest of a request does not change what an attempt is for. *)
Lemma good_SetAttemptRequestDigest id sha : keeps good (SetAttemptRequestDigest id sha).
Proof.
  unfold SetAttemptRequestDigest. apply keeps_bind; [apply _..|intros _].
  apply keeps_bind; [apply _| |intros; apply _].
  intros db rows db' (_ & _ & _ & ->)%update_rows_ok. apply good_view; try done.
  - by apply evolves_same.
  - cbn [db_attempts t_put t_rows t_touch attempts_table].
    match goal with |- attempt_key <$> db_attempts (_ <| db_attempts := ?f <$> ?l |>) = _ =>
      change (attempt_key <$> (f <$> l) = attempt_key <$> l) end.
    rewrite <- list_fmap_compose. apply list_fmap_ext. intros n r _. simpl. by case_match.
Qed.

(** A verified webhook may set the provider's reference of an intent that has none. *)
Lemma good_set_reference intent reference db i db' :
  intent ∈ db_intents db → intent_ProviderTransactionReference intent = "" →
  update_one (fun i => intent_ID i == intent_ID intent)
    (fun i => i <| intent_ProviderTransactionReference := reference |>) db = Ok (i, db') → good db db'.
Proof.
  intros Hf Href H. apply update_one_ok in H as (rest & (_ & _ & Hpair & ->)%update_rows_ok).
  cbv zeta in Hpair. apply pairwise_intents_NoDup in Hpair as Hnd; [|intros j; by case_match].
  cbn [t_rows t_touch intents_table] in *.
  set (g := fun j => j <| intent_ProviderTransactionReference := reference |>
                       <| intent_UpdatedAt := db_now db |>).
  apply good_view; try done.
  - apply (evolves_update db _ (fun j => if intent_ID j == intent_ID intent then g j else j)); [done|done|].
    intros j Hj. cbv beta. rewrite (update_unique_elem db) by done. case_decide as Heq; [|done]. subst j.
    constructor; [by destruct intent|done|by right|by left|done].
  - change (credit_view <$> ((fun j => if intent_ID j == intent_ID intent then g j else j) <$> db_intents db)
            = credit_view <$> db_intents db).
    rewrite <- list_fmap_compose. apply list_fmap_ext. intros n r _. simpl. by case_match.
Qed.

Lemma keeps_getAccount_same ctx accountID db a db' : getAccountForUpdate ctx accountID db = Ok (a, db') → db' = db.
Proof. by intros [-> _]%getAccountForUpdate_ok. Qed.

Lemma good_match_event ctx provider event : keeps good (match_event ctx provider event).
Proof.
  intros db i db' H. unfold match_event in H. cbv zeta in H.
  apply bind_ok in H as (u & db1 & [_ ->]%require_ok & H).
  apply bind_ok in H as (found & db1 & Hs & H). apply (proj1 (scan_ok _ _ _ _)) in Hs.
  apply select_ok in Hs as [_ ->].
  apply bind_ok in H as (account & db1 & ->%keeps_getAccount_same & H).
  apply bind_ok in H as (intent & db1 & Hs & H). apply (proj1 (scan_ok _ _ _ _)) in Hs.
  apply select_ok in Hs as [[Hin _]%find_some_iff ->].
  apply bind_ok in H as (u2 & db1 & [_ ->]%require_ok & H).
  apply bind_ok in H as (u3 & db1 & [_ ->]%require_ok & H).
  destruct (_ && _) eqn:Hc in H; [|by apply ret_ok in H as [_ ->]]. reflect_go.
  apply (proj1 (scan_ok _ _ _ _)) in H. by eapply good_set_reference.
Qed.

(** ** The rest *)

#[local] Instance good_findWebhookDuplicate p r d : keeps good (findWebhookDuplicate p r d).
Proof.
  intros db a db' H. unfold findWebhookDuplicate in H. destruct (sort_stable _ _); [done|].
  by injection H as _ <-.
Qed.
#[local] Existing Instance good_match_event.

Lemma good_RecordWebhook ctx in_ : keeps good (RecordWebhook ctx in_).
Proof. unfold RecordWebhook, recordWebhookTx. keeps. Qed.
Lemma good_ClaimTopUpEmails now limit : keeps good (ClaimTopUpEmails now limit).
Proof. unfold ClaimTopUpEmails. keeps. Qed.
Lemma good_MarkTopUpEmailSent id attempt now : keeps good (MarkTopUpEmailSent id attempt now).
Proof. unfold MarkTopUpEmailSent. keeps. Qed.
Lemma good_RetryTopUpEmail id attempt now : keeps good (RetryTopUpEmail id attempt now).
Proof. unfold RetryTopUpEmail. keeps. Qed.
Lemma good_ClaimPaymentJobs now stale owner limit : keeps good (ClaimPaymentJobs now stale owner limit).
Proof. unfold ClaimPaymentJobs. keeps. Qed.
Lemma good_CompletePaymentJob jobID owner : keeps good (CompletePaymentJob jobID owner).
Proof. unfold CompletePaymentJob. keeps. Qed.
Lemma good_RetryPaymentJob jobID owner due e : keeps good (RetryPaymentJob jobID owner due e).
Proof. unfold RetryPaymentJob. keeps. Qed.
End goods.

(** A state that is not the paid one. *)
Class Unpaid (s : PaymentIntentState) := unpaid : s ≠ PaymentIntentStateSucceeded.

Section customer_goods.
Context {pg : Postgres} {dg : Digest}.

#[local] Instance manual_intent_new id a m c p me s k o co n `{!Unpaid s} :
  NewIntent (manual_intent id a m c p me s k o co n).
Proof. done. Qed.
#[local] Instance created_open : Unpaid PaymentIntentStateCreated. Proof. done. Qed.
#[local] Instance processing_open : Unpaid PaymentIntentStateProcessing. Proof. done. Qed.
#[local] Instance good_touches : Touches good.
Proof. intros accountID. apply good_touch. Qed.

Lemma good_CreateConsent ctx in_ : keeps good (CreateConsent ctx in_).
Proof. unfold CreateConsent. keeps. Qed.
#[local] Instance good_getConsent id : keeps good (getConsentForUpdate id).
Proof. unfold getConsentForUpdate. keeps. Qed.
Lemma good_CreatePaymentMethod ctx in_ : keeps good (CreatePaymentMethod ctx in_).
Proof. unfold CreatePaymentMethod. keeps. Qed.
Lemma good_PutAutoTopUpPolicy ctx in_ : keeps good (PutAutoTopUpPolicy ctx in_).
Proof.
  unfold PutAutoTopUpPolicy, putAutoTopUpPolicyTx, next_policy_version, check_replaced_policy. keeps.
Qed.
Lemma good_RevokePaymentMethod ctx in_ : keeps good (RevokePaymentMethod ctx in_).
Proof. unfold RevokePaymentMethod, revokePaymentMethodTx. keeps. Qed.
Lemma good_DisableAutoTopUpPolicy ctx a b v : keeps good (DisableAutoTopUpPolicy ctx a b v).
Proof. unfold DisableAutoTopUpPolicy, disableAutoTopUpPolicyTx. keeps. Qed.
#[local] Instance good_require_topup ctx a c : keeps good (require_topup_account ctx a c).
Proof. unfold require_topup_account. keeps. Qed.
#[local] Instance good_getIntentByIdempotency a k : keeps good (getIntentByIdempotency a k).
Proof. unfold getIntentByIdempotency. keeps. Qed.
Lemma good_CreateManualTopUp ctx in_ : keeps good (CreateManualTopUp ctx in_).
Proof. unfold CreateManualTopUp, createManualTopUpTx. keeps. Qed.
Lemma good_CreateHostedTopUp ctx in_ r : keeps good (CreateHostedTopUp ctx in_ r).
Proof. unfold CreateHostedTopUp, createHostedTopUpTx. keeps. Qed.

Lemma good_BeginPaymentMethodSetup ctx in_ : keeps good (BeginPaymentMethodSetup ctx in_).
Proof.
  unfold BeginPaymentMethodSetup, beginPaymentMethodSetupTx, insert_setup_records,
    getPaymentMethodSetupByKey. keeps.
Qed.
Lemma good_CompletePaymentMethodSetup ctx in_ : keeps good (CompletePaymentMethodSetup ctx in_).
Proof.
  unfold CompletePaymentMethodSetup, completePaymentMethodSetupTx, getPaymentMethodSetupByID. keeps.
Qed.
#[local] Instance good_add_binding b : keeps good (add_binding b).
Proof. intros db u db' [= _ <-]. by apply good_same. Qed.
Lemma good_BindHistorical ctx in_ : keeps good (BindHistoricalPaymentResponsibility ctx in_).
Proof. unfold BindHistoricalPaymentResponsibility, insert_reviewed_binding. keeps. Qed.
End customer_goods.

(** ** The operations on money *)
Section money_goods.
Context {pg : Postgres} {dg : Digest}.

#[local] Instance credit_frame : Frame (preserves CreditInv).
Proof. split; [apply _|intros db x Hc; by apply (CreditInv_view db)..]. Qed.
#[local] Hint Extern 1 (Skips (preserves CreditInv) _) =>
  intros rows db Hc; by apply (CreditInv_view db) : typeclass_instances.
#[local] Instance credit_new_intent : SkipsNewIntent (preserves CreditInv).
Proof.
  intros i Hi db r db' H Hc. apply insert_intent_ok in H as (-> & Hck & Hno & _ & _ & ->).
  eapply (CreditInv_insert db _ i); [done|done|apply Hi| | |done].
  - cbn [t_check intents_table] in Hck. reflect_go. done.
  - intros s Hs Heq. specialize (Hno s Hs). cbn [t_conflict intents_table] in Hno.
    by rewrite (bool_decide_eq_true_2 (intent_ID s = intent_ID i)) in Hno.
Qed.

(** An entry whose scope is not that of a payment is not a credit of any. *)
Lemma insertLedgerEntryTx_credit account in_ :
  TrimSpace (post_IdempotencyScope in_) ≠ "payment_intent" →
  keeps (preserves CreditInv) (insertLedgerEntryTx account in_).
Proof.
  intros Hscope db [entry account'] db' H Hc.
  apply insertLedgerEntryTx_ok in H as (b & cur & _ & _ & _ & _ & Hentry & _ & _ & _ & Hdb).
  apply (CreditInv_entry db db' entry); [by rewrite Hdb..| |done]. by rewrite Hentry.
Qed.

Lemma good_insertLedgerEntryTx account in_ db entry account' db' :
  TrimSpace (post_IdempotencyScope in_) ≠ "payment_intent" →
  find (fun a => account_ID a == account_ID account) (db_accounts db) = Some account →
  insertLedgerEntryTx account in_ db = Ok ((entry, account'), db') → good db db'.
Proof.
  intros Hscope Hf H.
  assert (db_attempts db' = db_attempts db ∧ db_intents db' = db_intents db ∧ same_reversals db db') as (Ha & Hi & Hr)
    by by apply insertLedgerEntryTx_ok in H as (b & cur & _ & _ & _ & _ & _ & _ & _ & _ & ->).
  apply good_quiet; try done.
  - by eapply keeps_evolves_insertLedgerEntryTx.
  - intros Hl. by eapply insertLedgerEntryTx_inv.
  - by eapply insertLedgerEntryTx_credit.
  - by rewrite Ha.
  - intros [Hl _ _ _]. eapply wallet_post_entry; try done. by rewrite Hi.
Qed.

(** What follows the entry of a post: the automatic top-up, or the policy is re-armed. *)
Lemma PostLedgerEntry_tail ctx in_ db r db' :
  PostLedgerEntry ctx in_ db = Ok (r, db') →
  db' = db ∨ ∃ now before entry after db1,
    find (fun a => account_ID a == account_ID before) (db_accounts db) = Some before ∧
    insertLedgerEntryTx before (with_now now in_) db = Ok ((entry, after), db1) ∧ good db1 db'.
Proof.
  intros (_ & _ & now & H)%PostLedgerEntry_ok.
  apply withTx_ok in H as [H|[-> _]]; [|by left]. right. unfold postLedgerEntryTx in H.
  apply bind_ok in H as (before & db1 & [-> Hacc]%getAccountForUpdate_ok & H).
  destruct (find_account _ _ _ Hacc) as [_ Hid].
  apply bind_ok in H as (u1 & db1 & [_ ->]%require_ok & H).
  apply bind_ok in H as (u2 & db1 & [_ ->]%require_ok & H).
  apply bind_ok in H as (existing & db1 & He & H).
  apply try_err_ok in He as [(e & -> & He)|(-> & -> & _)].
  - apply bind_ok in H as (u3 & db2 & _ & H). by apply bind_ok in H as (i & db3 & _ & [? _]%ret_ok).
  - apply bind_ok in H as (u3 & db1 & Hfree & H).
    assert (db1 = db) as -> by (by destruct (_ == _) in Hfree;
      [apply requireNoHandoffTx_ok in Hfree as (-> & _)|apply ret_ok in Hfree as [_ ->]]).
    apply bind_ok in H as ([entry after] & db1 & Hins & H).
    exists now, before, entry, after, db1. rewrite Hid. split_and!; [done|exact Hins|].
    destruct (_ && _) in H; [|destruct (post_Direction _ == LedgerDirectionCredit) in H].
    + apply bind_ok in H as (i & db3 & Hev & [_ ->]%ret_ok). frame Hev.
    + apply bind_ok in H as (a & db3 & Hre & [_ ->]%ret_ok). frame Hre.
    + by apply ret_ok in H as [_ ->].
Qed.

Lemma good_PostLedgerEntry ctx in_ :
  TrimSpace (post_IdempotencyScope in_) ≠ "payment_intent" → keeps good (PostLedgerEntry ctx in_).
Proof.
  intros Hscope db r db' [->|(now & before & entry & after & db1 & Hf & Hins & Hg)]%PostLedgerEntry_tail; [done|].
  transitivity db1; [|done].
  eapply (good_insertLedgerEntryTx before (with_now now in_)); [exact Hscope|exact Hf|exact Hins].
Qed.

Lemma TransitionIntent_tables ctx in_ :
  keeps same_attempts (TransitionIntent ctx in_) ∧ keeps same_reversals (TransitionIntent ctx in_).
Proof. unfold TransitionIntent, transitionIntentTx. split; keeps. Qed.

Lemma good_TransitionIntent ctx in_ : keeps good (TransitionIntent ctx in_).
Proof.
  intros db r db' H. destruct (TransitionIntent_tables ctx in_) as [Ha Hr].
  apply good_parts.
  - by eapply TransitionIntent_evolves.
  - apply attempts_same. f_equal. by eapply Ha.
  - intros Hl. apply TransitionIntent_ok in H as (now & account & intent & Hacc & _ & _ & _ & Ht).
    by eapply transitions_books.
  - intros Hc. apply TransitionIntent_ok in H as (now & account & intent & _ & Hi & Heq & _ & Ht).
    by eapply transitions_credit.
  - intros Hai Hci. eapply AttemptInv_evolves; [by eapply TransitionIntent_evolves| |apply Hci|done].
    by rewrite (Ha _ _ _ H).
  - apply ReversalInv_evolves; [by eapply TransitionIntent_evolves|by eapply Hr].
  - intros [Hl _ _ _]. specialize (Hr _ _ _ H).
    apply TransitionIntent_ok in H as (now & account & intent & Hacc & Hi & Heq & _ & Ht).
    by apply (wallet_transitions account intent _ db _ db' db' Hl Hacc Hi Heq Ht).
Qed.

Lemma FinalizeProviderAttempt_reversals ctx in_ : keeps same_reversals (FinalizeProviderAttempt ctx in_).
Proof. unfold FinalizeProviderAttempt, finalizeProviderAttemptTx, transitionIntentTx. keeps. Qed.
Lemma FinalizeProviderAttempt_ledger ctx in_ db r db' :
  FinalizeProviderAttempt ctx in_ db = Ok (r, db') → LedgerInv db → LedgerInv db'.
Proof.
  intros H%FinalizeProviderAttempt_ok Hl.
  destruct H as [|job job' attempt account intent now nextAt t db1 db' _ _ _ _ _ _ Hacc _ _ Ht [Hb _] _]; [done|].
  apply (same_books_inv db1); [done|]. eapply (transitions_books account intent _ (with_completed in_ now nextAt db));
    [|exact Hacc|exact Ht]. by apply (same_books_inv db).
Qed.
Lemma FinalizeProviderAttempt_credit ctx in_ db r db' :
  FinalizeProviderAttempt ctx in_ db = Ok (r, db') → CreditInv db → CreditInv db'.
Proof.
  intros H%FinalizeProviderAttempt_ok Hc.
  destruct H as [|job job' attempt account intent now nextAt t db1 db' _ _ _ _ _ _ _ Hi Heq Ht Hcalm _]; [done|].
  apply (CreditInv_calm db1); [done|]. eapply (transitions_credit account intent _ (with_completed in_ now nextAt db));
    [|exact Hi|exact Heq|exact Ht].
  by apply (CreditInv_view db).
Qed.
Lemma good_FinalizeProviderAttempt ctx in_ : keeps good (FinalizeProviderAttempt ctx in_).
Proof.
  intros db r db' H. apply good_quiet.
  - by eapply FinalizeProviderAttempt_evolves.
  - by eapply FinalizeProviderAttempt_ledger.
  - by eapply FinalizeProviderAttempt_credit.
  - by eapply FinalizeProviderAttempt_attempts.
  - by eapply FinalizeProviderAttempt_reversals.
  - intros [Hl _ _ _]. pose proof (FinalizeProviderAttempt_reversals _ _ _ _ _ H) as Hr.
    apply FinalizeProviderAttempt_ok in H.
    destruct H as [|job job' attempt account intent now nextAt t db1 db' _ _ _ _ _ _ Hacc Hi Heq Ht Hcalm _];
      [by apply wallet_stay|].
    rewrite <- (wallet_calm db (with_completed in_ now nextAt db)) by done.
    assert (LedgerInv (with_completed in_ now nextAt db)) as Hl' by by apply (same_books_inv db).
    by apply (wallet_transitions account intent _ (with_completed in_ now nextAt db) _ db1 db'
      Hl' Hacc Hi Heq Ht).
Qed.

Lemma BeginProviderAttempt_grows ctx in_ db w db' :
  BeginProviderAttempt ctx in_ db = Ok (w, db') → attempts_grow db db'.
Proof.
  intros H%BeginProviderAttempt_ok.
  destruct H as [|job a intent intent' accountID now mref cref db1 db' _ _ _ _ Hp _ _ _ _ Ha _]; [done|].
  exists [attempt_key a]. rewrite Ha, fmap_app. f_equal. apply prepare_operation_ok in Hp.
  case_bool_decide; [|by destruct Hp as (_ & -> & _)]. by destruct Hp as (_ & _ & _ & _ & _ & _ & _ & -> & _).
Qed.
Lemma good_BeginProviderAttempt ctx in_ : keeps good (BeginProviderAttempt ctx in_).
Proof.
  intros db w db' H. assert (same_reversals db db') as Hr.
  { revert H. assert (keeps same_reversals (BeginProviderAttempt ctx in_)) as Hk; [|apply Hk].
    unfold BeginProviderAttempt, beginProviderAttemptTx, prepare_operation. keeps. }
  assert (same_books db db') as Hb.
  { revert H. assert (keeps same_books (BeginProviderAttempt ctx in_)) as Hk; [|apply Hk].
    unfold BeginProviderAttempt, beginProviderAttemptTx, prepare_operation. keeps. }
  assert (credit_view <$> db_intents db' = credit_view <$> db_intents db) as Hv.
  { pose proof H as Hb'. apply BeginProviderAttempt_ok in Hb'.
    destruct Hb' as [|job a intent intent' accountID now mref cref db1 db' Hf _ _ _ Hp _ _ _ _ _ [_ Hcalm]]; [done|].
    rewrite Hcalm. apply prepare_operation_ok in Hp.
    case_bool_decide; [|by destruct Hp as (_ & -> & _)]. destruct Hp as (_ & _ & _ & Hs & _ & _ & _ & -> & Hnd).
    rewrite started_charge_intents, <- list_fmap_compose. apply list_fmap_ext. intros n i Hi. simpl.
    rewrite (update_unique db) by (done || by eapply list_elem_of_lookup_2). case_decide as Heq; [|done].
    subst i. unfold credit_view, start_charge. get_upd. by rewrite Hs. }
  apply good_parts.
  - by eapply BeginProviderAttempt_evolves.
  - by eapply BeginProviderAttempt_grows.
  - by apply same_books_inv.
  - by apply CreditInv_view; [apply Hb|].
  - intros Ha [Hnd _ _ _ _]. eapply BeginProviderAttempt_attempts; [done| |done].
    apply (f_equal (fmap (fun k => k.1.1.1.1))) in Hv. rewrite <- !list_fmap_compose in Hv.
    by change (intent_ID <$> db_intents db' = intent_ID <$> db_intents db) in Hv; rewrite <- Hv.
  - apply ReversalInv_evolves; [by eapply BeginProviderAttempt_evolves|done].
  - intros _. by apply wallet_stay, wallet_same.
Qed.

Lemma allocates_good account eventID in_ db r db' e :
  find (fun a => account_ID a == account_ID account) (db_accounts db) = Some account →
  allocates account eventID in_ db r db' → db_attempts db' = db_attempts db →
  e ∈ db_reversals db → event_ID e = eventID → event_AccountID e = account_ID account →
  event_OriginalIntentID e = reversal_OriginalIntentID in_ →
  event_AmountMinor e = reversal_AmountMinor in_ → eventID ∉ alloc_EventID <$> db_allocations db →
  good db db'.
Proof.
  intros Hacc H Ha He Heid Heacc Heint Heamt Hno.
  apply good_parts; [by eapply allocates_evolves|apply attempts_same; by rewrite Ha|by eapply allocates_ledger|
    by eapply allocates_credit| | |].
  - intros Hai Hci. eapply AttemptInv_evolves; [by eapply allocates_evolves|by rewrite Ha|apply Hci|done].
  - intros Hrv. by eapply (allocates_inv _ _ _ _ _ _ e).
  - intros [Hl Hc _ Hrv]. by eapply (wallet_allocates _ _ _ _ _ _ e).
Qed.

#[local] Instance allocate_attempts account eventID in_ id :
  keeps same_attempts (allocateProviderReversalTx account eventID in_ id).
Proof. unfold allocateProviderReversalTx, classifyProviderReversalTx. keeps. Qed.
Lemma RecordProviderReversal_attempts ctx in_ : keeps same_attempts (RecordProviderReversal ctx in_).
Proof. unfold RecordProviderReversal, recordProviderReversalTx, getProviderReversalResultTx. keeps. Qed.
Lemma ResolveProviderReversal_attempts ctx in_ : keeps same_attempts (ResolveProviderReversal ctx in_).
Proof. unfold ResolveProviderReversal, resolveProviderReversalTx, getProviderReversalResultTx. keeps. Qed.

Lemma allocates_attempts account eventID in_ db r db' db0 :
  same_attempts db0 db' → same_attempts db0 db → allocates account eventID in_ db r db' →
  db_attempts db' = db_attempts db.
Proof. unfold same_attempts. congruence. Qed.

(** A new reversal is recorded before it is allocated. *)
Lemma good_event db db' e :
  calm db db' → same_attempts db db' → db_reversals db' = db_reversals db ++ [e] →
  db_allocations db' = db_allocations db → (∀ s, s ∈ db_reversals db → event_ID s ≠ event_ID e) →
  0 < event_AmountMinor e → good db db'.
Proof.
  intros [[Hen Hk] Hi] Hatt Hr Hal Hfresh Hpos. apply good_parts;
    [by apply evolves_same|apply attempts_same; by rewrite Hatt|by apply same_books_inv|by apply CreditInv_calm| | |].
  - intros Hai Hci. eapply AttemptInv_evolves; [by apply evolves_same|by rewrite Hatt|apply Hci|done].
  - intros Hrv. by eapply (ReversalInv_event db db' e).
  - intros [_ _ _ Hrv]. apply wallet_stay.
    split_and!; [by apply same_balances|apply same_payments; by rewrite Hi|].
    intros a i. by eapply reversed_event; [apply fresh_unallocated|..].
Qed.

Lemma good_RecordProviderReversal ctx in_ : keeps good (RecordProviderReversal ctx in_).
Proof.
  intros db r db' H. assert (same_attempts db db') as Hatt by by eapply RecordProviderReversal_attempts.
  apply RecordProviderReversal_ok in H as [_ H].
  destruct H as [|eventID account r db1 db' _ Hacc Hpos Hfresh Hrv Hal Hcalm Hat1 Hf Ha]; [done|].
  set (e := new_event eventID (normalize_reversal in_) (reversal_digest (normalize_reversal in_))) in *.
  assert (good db db1) as Hg by (eapply (good_event db db1 e); try done; intros s Hs; by apply Hfresh).
  assert (evolves db db') as Hev by (transitivity db1; [apply Hg|by eapply allocates_evolves]).
  split; [done|]. split; [apply attempts_same; by rewrite Hatt|]. intros Hinv.
  assert (good db1 db') as Hg'; [|by apply (transitivity Hg Hg') in Hinv].
  eapply (allocates_good account eventID _ db1 r db' e); try done.
  - by eapply allocates_attempts.
  - rewrite Hrv. apply elem_of_app. right. by left.
  - rewrite Hal. apply (fresh_unallocated db e); [apply Hinv|]. intros s Hs. by apply Hfresh.
Qed.

Lemma good_ResolveProviderReversal ctx in_ : keeps good (ResolveProviderReversal ctx in_).
Proof.
  intros db r db' H. assert (same_attempts db db') as Hatt by by eapply ResolveProviderReversal_attempts.
  apply ResolveProviderReversal_ok in H.
  destruct H as [|account e r db' Hf Haid He Heid Heacc Hno Ha]; [done|].
  eapply (allocates_good account _ _ db r db' e); try done. by rewrite Haid.
Qed.
End money_goods.

(** ** The protocols: nothing they write is part of the invariant *)
Section protocol_goods.
Context {pg : Postgres} {dg : Digest}.

#[local] Instance protocol_touches : Touches good.
Proof. intros accountID. apply good_touch. Qed.

Lemma good_close_account accountID : keeps good (update_account accountID close_account).
Proof.
  intros db a db' (old & _ & _ & _ & ->)%update_account_ok. apply good_same; try done.
  split; [|done]. split; [done|]. get_upd. cbn [db_accounts].
  rewrite <- list_fmap_compose. apply list_fmap_ext. intros i r _. simpl. by case_match.
Qed.
Lemma good_CloseCloud in_ : keeps good (CloseCloud in_).
Proof. apply keeps_CloseCloud; [apply _..|]. apply good_close_account. Qed.
Lemma good_BootstrapBrandCloud in_ : keeps good (BootstrapBrandCloud in_).
Proof.
  apply keeps_BootstrapBrandCloud; [apply _..|]. intros target a Ha db r db' H.
  by eapply insert_account_good; [|exact H].
Qed.
End protocol_goods.
