(* ===== verification/Runs.v ===== *)
(** * Runs of the store

    What any sequence of operations, in any order and by any callers, does to a
    database. *)
From S2P Require Import Prelude GoStrings GoTime BillingTypes PaymentTypes Payment Database Tables.
From S2P Require Import Keeps Fixtures Accounts Ledger AutoTopUp Intents Credits Jobs Attempts.
From S2P Require Import Evolution Webhooks Customer Reversals Setups Handoff Protocols Settlement HandoffCommit.
From S2P Require Import Closure Preflight Creation Operations Wallet Store.

Section runs.
Context {pg : Postgres} {dg : Digest}.

(** The scope of payment credits is the store's own: no caller posts under it. *)
Definition allowed (op : operation) : Prop :=
  match op with
  | OpPost _ in_ => TrimSpace (post_IdempotencyScope in_) ≠ "payment_intent"
  | _ => True
  end.

#[local] Existing Instances good_EnsureCommercialAccount good_SetAttemptRequestDigest good_RecordWebhook
  good_CreateConsent good_CreatePaymentMethod good_PutAutoTopUpPolicy good_RevokePaymentMethod
  good_DisableAutoTopUpPolicy good_CreateManualTopUp good_CreateHostedTopUp good_BeginPaymentMethodSetup
  good_CompletePaymentMethodSetup good_BindHistorical good_CloseCloud good_BootstrapBrandCloud good_TransitionIntent good_FinalizeProviderAttempt good_BeginProviderAttempt
  good_RecordProviderReversal good_ResolveProviderReversal
  good_ClaimTopUpEmails good_MarkTopUpEmailSent good_RetryTopUpEmail good_ClaimPaymentJobs
  good_CompletePaymentJob good_RetryPaymentJob.

#[local] Instance run_touches : Touches good.
Proof. intros accountID. apply good_touch. Qed.

Lemma exec_good op : allowed op → keeps good (exec op).
Proof.
  intros Hop. destruct op; cbn [exec allowed] in *; unfold ignore;
    try (apply keeps_bind; [apply _| |intros; apply _]);
    try (by apply good_PostLedgerEntry); try apply _.
  intros db u db' [= _ <-]. by apply good_same.
Qed.

Lemma exec_evolves op : keeps evolves (exec op).
Proof.
  destruct op eqn:E; try (intros db u db' H; rewrite <- E in H; eapply exec_good; [|exact H]; by subst op).
  cbn [exec]. unfold ignore. apply keeps_bind; [apply _| |intros; apply _].
  apply keeps_PostLedgerEntry; [apply _..|]. intros account now. apply keeps_evolves_insertLedgerEntryTx.
Qed.

Lemma run_all_good ops db : Forall allowed ops → good db (run_all ops db).
Proof.
  intros Hops. apply run_all_keeps; [apply _|]. eapply Forall_impl; [exact Hops|apply exec_good].
Qed.
End runs.

(** ** What holds in every run *)
Section run_theorems.
Context {pg : Postgres} {dg : Digest}.

(** C2: Whatever operations callers run, in whatever order, and whether they succeed or
    fail, the store's invariant holds: each account's balance is the sum of its ledger
    entries and an int64, each succeeded payment has exactly one credit entry of its
    account and amount and no other payment has any, each payment is charged at most
    once, and the amounts reversed of a payment never exceed it. *)
Theorem store_safe ops db : StoreInv db → Forall allowed ops → StoreInv (run_all ops db).
Proof. intros Hinv Hops. by apply (run_all_good ops db Hops). Qed.

(** C4: No run of operations rewrites the past: ledger entries are only appended, no
    intent disappears or changes its account, amount, currency, method, provider, key
    or origin, its state only moves along the state machine, its merchant and provider
    references are set at most once, and the completion time of a finished intent
    stays. *)
Theorem store_history ops db : evolves db (run_all ops db).
Proof.
  apply run_all_keeps; [apply _|]. apply Forall_forall. intros op _. apply exec_evolves.
Qed.


(** The intent of a charge that has begun is not [created] any more, and never is again. *)
Lemma charge_started ctx in_ db w db' :
  BeginProviderAttempt ctx in_ db = Ok (w, db') → work_RecoverIncompleteAttempt w = false →
  begin_Operation in_ = ProviderOperationCharge →
  ∃ i, i ∈ db_intents db' ∧ intent_ID i = intent_ID (work_Intent w) ∧
       intent_State i = PaymentIntentStateProcessing.
Proof.
  intros H%BeginProviderAttempt_ok Hrec Hop.
  destruct H as [|job a intent intent' accountID now mref cref db1 db' Hf _ _ _ Hp _ _ _ _ _ [_ Hcalm]]; [done|].
  apply prepare_operation_ok in Hp. rewrite bool_decide_eq_true_2 in Hp by done.
  destruct Hp as (_ & _ & _ & Hs & Hid & _ & _ & -> & Hnd). simpl. rewrite Hid, Hcalm, started_charge_intents.
  apply find_some_iff in Hf as [Hin _]. exists (start_charge intent (db_now db) intent).
  split_and!; [|done|done]. apply list_elem_of_fmap. exists intent. by rewrite bool_decide_eq_true_2.
Qed.

(** C24: Once the charge of an intent has been begun, it is never begun again: after any
    run of operations, a worker that begins a charge of the same intent gets the
    unfinished attempt back, to recover it, and nothing is written. *)
Theorem charged_once ctx1 in1 db w1 db1 ops ctx2 in2 w2 db2 :
  StoreInv db → Forall allowed ops →
  BeginProviderAttempt ctx1 in1 db = Ok (w1, db1) → work_RecoverIncompleteAttempt w1 = false →
  begin_Operation in1 = ProviderOperationCharge →
  BeginProviderAttempt ctx2 in2 (run_all ops db1) = Ok (w2, db2) →
  begin_Operation in2 = ProviderOperationCharge →
  intent_ID (work_Intent w2) = intent_ID (work_Intent w1) →
  work_RecoverIncompleteAttempt w2 = true ∧ db2 = run_all ops db1 ∧
  charge_count db2 (intent_ID (work_Intent w2)) = 1%nat.
Proof.
  intros Hinv Hops H1 Hrec Hop1 H2 Hop2 Hsame.
  assert (StoreInv (run_all ops db1)) as [_ Hcr [_ _ Hone] _].
  { apply (run_all_good ops db1 Hops). by eapply good_BeginProviderAttempt. }
  destruct (charge_started _ _ _ _ _ H1 Hrec Hop1) as (i & Hi & Hid & Hst).
  destruct (evolves_intent _ _ _ (proj1 (run_all_good ops db1 Hops)) Hi) as (j & Hj & [Hfr Hrun _ _ _]).
  apply BeginProviderAttempt_ok in H2.
  destruct H2 as [job a intent Ha Hai Hao _|job a intent intent' accountID now mref cref db3 db4 Hf _ _ _ Hp _ _ _ _ _ _].
  - split_and!; [done|done|]. simpl. specialize (Hone (intent_ID intent)).
    assert (charge_count (run_all ops db1) (intent_ID intent) ≠ 0%nat); [|lia].
    unfold charge_count. rewrite length_zero_iff_nil. intros Hnil.
    assert ((intent_ID intent, ProviderOperationCharge) ∈ @nil (string * ProviderOperation)) as Habs; [|by apply elem_of_nil in Habs].
    rewrite <- Hnil. apply list_elem_of_filter. split; [done|]. apply list_elem_of_fmap.
    exists a. split; [|done]. unfold attempt_key. by rewrite Hai, Hao, Hop2.
  - exfalso. apply prepare_operation_ok in Hp. rewrite bool_decide_eq_true_2 in Hp by done.
    destruct Hp as (_ & _ & _ & Hs & Hid' & _). simpl in Hsame. apply find_some_iff in Hf as [Hin _].
    assert (j = intent) as ->.
    { apply (NoDup_fmap_inj_elem intent_ID (db_intents (run_all ops db1))); [apply Hcr|done|done|].
      rewrite (frozen_id _ _ Hfr). congruence. }
    rewrite Hs in Hrun. apply rtc_into_created in Hrun. by rewrite Hst in Hrun.
Qed.

(** C25: In every run, what has been reversed of a payment is never negative nor more than
    its amount, and only a succeeded payment is reversed. *)
Theorem reversals_bounded ops db i :
  StoreInv db → Forall allowed ops → i ∈ db_intents (run_all ops db) →
  let total := reversed (run_all ops db) (intent_AccountID i) (intent_ID i) in
  0 ≤ total ∧ (0 < total → total ≤ intent_AmountMinor i ∧ intent_State i = PaymentIntentStateSucceeded).
Proof.
  intros Hinv Hops Hi. destruct (proj1 (proj2 (proj2 (run_all_good ops db Hops)) Hinv)) as [_ [Hnd _ _ _ _] _ Hrv].
  by apply reversed_bounds.
Qed.
End run_theorems.

(** ** A run of the demonstration store *)
#[local] Existing Instance demo_pg.
#[local] Existing Instance demo_dg.

Lemma demo_intents_cases i : i ∈ db_intents demo_db →
  i = demo_paid ∨ i = demo_intent demo_new_id PaymentIntentStateCreated None.
Proof. cbn [db_intents demo_db]. rewrite !elem_of_cons, elem_of_nil. tauto. Qed.

Lemma demo_credit_inv : CreditInv demo_db.
Proof.
  constructor.
  - apply (bool_decide_eq_true_1 _). by vm_compute.
  - intros i [-> | ->]%demo_intents_cases; by vm_compute.
  - intros e ->%list_elem_of_singleton _. left.
  - intros i [-> | ->]%demo_intents_cases Hs; [|done]. exists demo_credit. by vm_compute.
  - intros i [-> | ->]%demo_intents_cases Hs; [done|]. by vm_compute.
Qed.

Lemma demo_store : StoreInv demo_db.
Proof.
  constructor; [exact demo_inv|exact demo_credit_inv| |].
  - constructor; [by intros a ?%elem_of_nil|done|]. intros id. unfold charge_count. simpl. lia.
  - constructor; [constructor|by intros e ?%elem_of_nil|constructor|by intros a ?%elem_of_nil].
Qed.

(** A debit that triggers a top-up, the charge of a due job by two workers, its success,
    and a partial reversal. *)
Definition demo_claim_op (owner : string) (now : Time) : operation :=
  OpClaimJobs now (now - 60 * Second) owner 1.
Definition demo_begin (owner : string) : BeginProviderAttemptInput :=
  mkBeginProviderAttemptInput "job" owner ProviderOperationCharge 0.
Definition demo_post_op : operation := OpPost None (demo_debit "usage-1" 700).
Definition demo_success_op : operation :=
  OpTransition None (mkTransitionIntentInput demo_new_id PaymentIntentStateSucceeded "txn" 0).
Definition demo_refund (event : string) (amount : Z) : operation :=
  OpReversal None (mkRecordProviderReversalInput "acc" "paypal" event demo_paid_id amount TWD
    LedgerReasonRefundDebit demo_digest "req").
Definition demo_ops : list operation :=
  [demo_claim_op "worker" demo_now; OpBeginAttempt None (demo_begin "worker"); demo_post_op;
   demo_success_op; demo_refund "ev-1" 400; demo_refund "ev-1" 400; demo_refund "ev-2" 700].
Definition demo_end : Db := Eval vm_compute in run_all demo_ops demo_db.

Lemma demo_ops_allowed : Forall allowed demo_ops.
Proof. repeat constructor. by vm_compute. Qed.

Lemma store_safe_witness : StoreInv demo_end ∧ account_AvailableBalanceMinor <$> db_accounts demo_end = [900; 0].
Proof.
  split; [|by vm_compute]. change demo_end with (run_all demo_ops demo_db).
  exact (store_safe demo_ops demo_db demo_store demo_ops_allowed).
Defined.


Lemma reversals_bounded_witness : reversed demo_end "acc" demo_paid_id = 400 ∧ 400 ≤ 1000.
Proof.
  split; [by vm_compute|].
  assert (∃ i, i ∈ db_intents demo_end ∧ intent_ID i = demo_paid_id ∧ intent_AccountID i = "acc" ∧
    intent_AmountMinor i = 1000) as (i & Hi & Hid & Hacc & Hamt) by (eexists; split; [left|by vm_compute]).
  pose proof (reversals_bounded demo_ops demo_db i demo_store demo_ops_allowed Hi) as [_ H].
  change (run_all demo_ops demo_db) with demo_end in H. rewrite Hid, Hacc, Hamt in H. by apply H.
Defined.

(** Two workers: the second takes over the lease of the first, whose charge is open. *)
Definition demo_leased : Db := Eval vm_compute in run_op demo_db (demo_claim_op "worker" demo_now).
Definition demo_takeover : list operation := [demo_claim_op "other" (demo_now + 600 * Second)].
Definition demo_begun (owner : string) (db : Db) : option (ProviderAttemptWork * Db) :=
  match BeginProviderAttempt None (demo_begin owner) db with Ok r => Some r | Err _ => None end.

Lemma charged_once_witness :
  ∃ w1 db1 w2 db2, BeginProviderAttempt None (demo_begin "worker") demo_leased = Ok (w1, db1) ∧
    BeginProviderAttempt None (demo_begin "other") (run_all demo_takeover db1) = Ok (w2, db2) ∧
    db2 = run_all demo_takeover db1 ∧ work_RecoverIncompleteAttempt w2 = true.
Proof.
  assert (Forall allowed demo_takeover) as Hops by repeat constructor.
  assert (StoreInv demo_leased) as Hinv.
  { change demo_leased with (run_all [demo_claim_op "worker" demo_now] demo_db).
    apply (run_all_good [demo_claim_op "worker" demo_now]); [by repeat constructor|exact demo_store]. }
  eexists _, _, _, _. split; [by vm_compute|]. split; [by vm_compute|].
  destruct (charged_once None (demo_begin "worker") demo_leased _ _ demo_takeover None (demo_begin "other")
    _ _ Hinv Hops ltac:(vm_compute; reflexivity) eq_refl eq_refl ltac:(vm_compute; reflexivity) eq_refl eq_refl)
    as (H1 & H2 & _).
  exact (conj H2 H1).
Defined.
