(* ===== verification/Worker.v ===== *)
(** * The payment worker: [internal/paymentservice]

    [RunOnce] and [ProcessJob] of [service.go] and [HandleWebhook] of [webhook.go] as
    programs over the store's operations and the calls to payment providers.  A program
    is a tree of effects, so that what happens between two transactions of one worker
    is explicit; workers interleave at effects, and may stop at any of them. *)
From S2P Require Import Prelude GoStrings GoTime BillingTypes PaymentTypes Payment Database Tables.
From S2P Require Import Keeps Fixtures Accounts Ledger AutoTopUp Intents Credits Jobs Attempts.
From S2P Require Import Evolution Webhooks Customer Reversals Setups Handoff Operations Wallet Store Runs.

(** ** [internal/payment/provider.go]: the requests *)

Record ChargeRequest := mkChargeRequest {
  charge_IntentID : string;
  charge_AmountMinor : Z;
  charge_Currency : Currency;
  charge_OpaqueMethodReference : string;
  charge_MerchantOrderReference : string;
  charge_IdempotencyKey : string;
  charge_CorrelationID : string
}.

Record QueryRequest := mkQueryRequest {
  query_IntentID : string;
  query_IntentCreatedAt : Time;
  query_AmountMinor : Z;
  query_Currency : Currency;
  query_MerchantOrderReference : string;
  query_ProviderTransactionReference : string;
  query_CorrelationID : string
}.

(** What a provider's adapter answers: a result, or an error, of which only the
    [*ProviderError] that [errors.As] finds in it matters. *)
Inductive Answer :=
  | Answered (r : ProviderResult)
  | Refused (err : option ProviderError).

(** ** Programs *)

Inductive effect :=
  | ENow
  | EClaim (now staleBefore : Time) (leaseOwner : string) (limit : Z)
  | EBegin (in_ : BeginProviderAttemptInput)
  | ESetDigest (attemptID sha256 : string)
  | EFinalize (in_ : FinalizeProviderAttemptInput)
  | EComplete (jobID leaseOwner : string)
  | EResolve (ciphertext : string)
  | ECharge (provider : string) (request : ChargeRequest)
  | EQuery (provider : string) (request : QueryRequest)
  | EVerify (provider : string) (header : list (string * string)) (body : string)
  | ERecord (in_ : RecordWebhookInput).

Definition answer (e : effect) : Type :=
  match e with
  | ENow => Time
  | EClaim _ _ _ _ => Result (list ReconciliationJob)
  | EBegin _ => Result ProviderAttemptWork
  | ESetDigest _ _ | EComplete _ _ => Result unit
  | EFinalize _ => Result FinalizeProviderAttemptResult
  | EResolve _ => option string
  | ECharge _ _ | EQuery _ _ => Answer
  | EVerify _ _ _ => WebhookEvent * option (option ProviderError)
  | ERecord _ => Result RecordWebhookResult
  end.

Inductive prog (A : Type) :=
  | Done (a : A)
  | Step (e : effect) (k : answer e → prog A).
Arguments Done {_} _.
Arguments Step {_} _ _.

#[export] Instance prog_ret : MRet prog := fun A a => Done a.
#[export] Instance prog_bind : MBind prog := fun A B f =>
  fix bind (p : prog A) : prog B :=
    match p with Done a => f a | Step e k => Step e (fun x => bind (k x)) end.
Definition call (e : effect) : prog (answer e) := Step e Done.

(** [if err != nil { return err }] *)
Definition and_then {A B} (p : prog (Result A)) (f : A → prog (Result B)) : prog (Result B) :=
  r ← p; match r with Ok a => f a | Err e => mret (Err e) end.

(** ** [Options] and [New] *)

Record Options := mkOptions {
  option_Providers : list string;                 (* their names *)
  option_LeaseOwner : string;
  option_LeaseDuration : Duration;
  option_ReconciliationDelay : Duration;
  option_BatchSize : Z;
  option_ChargeEnabled : list (string * bool)     (* in the order the map is walked *)
}.

Record Service := mkService {
  service_providers : list string;
  service_leaseOwner : string;
  service_leaseDuration : Duration;
  service_reconciliationDelay : Duration;
  service_batchSize : Z;
  service_chargeEnabled : gmap string bool
}.

(** The loop over the providers: their normalised names, present and distinct. *)
Fixpoint register (names seen : list string) : option (list string) :=
  match names with
  | [] => Some seen
  | provider :: names =>
      let name := NormalizeProvider provider in
      if (name == "") || bool_decide (name ∈ seen) then None else register names (seen ++ [name])
  end.

(** [None] when the code returns an error. *)
Definition New (options : Options) : option Service :=
  if TrimSpace (option_LeaseOwner options) == "" then None else
  providers ← register (option_Providers options) [];
  Some (mkService providers (TrimSpace (option_LeaseOwner options))
    (if option_LeaseDuration options <=? 0 then 30 * Second else option_LeaseDuration options)
    (if option_ReconciliationDelay options <=? 0 then Minute else option_ReconciliationDelay options)
    (if (option_BatchSize options <=? 0) || (option_BatchSize options >? 100) then 20
     else option_BatchSize options)
    (foldl (fun m e => <[NormalizeProvider e.1 := e.2]> m) ∅ (option_ChargeEnabled options))).

(** ** [ProcessJob] and [RunOnce] *)
Section worker.
Context {dg : Digest}.

Definition setRequestDigest (attemptID : string) (safeRequest : list (string * json_value)) : prog (Result unit) :=
  call (ESetDigest attemptID (handoffDigest safeRequest)).

Definition providerErrorCode (err : option ProviderError) : string :=
  match err with
  | Some providerErr => if perr_Code providerErr != "" then perr_Code providerErr else perr_Kind providerErr
  | None => "adapter_error"
  end.

Definition finalize (s : Service) (work : ProviderAttemptWork) (result : ProviderResult) : prog (Result unit) :=
  let result := if is_ok (ValidateProviderResult result) then result
                else mkProviderResult PaymentIntentStateUnknown "" "invalid_provider_result" ∅ in
  let responseDigest := handoffDigest
    [("provider_code", JString (NormalizeProviderCode (result_ProviderCode result)));
     ("provider_transaction_reference", JString (result_ProviderTransactionReference result));
     ("state", JString (result_State result))] in
  now ← call ENow;
  and_then (call (EFinalize (mkFinalizeProviderAttemptInput (job_ID (work_Job work)) (service_leaseOwner s)
      (attempt_ID (work_Attempt work)) result responseDigest now
      (Add now (service_reconciliationDelay s))))) (fun _ => mret (Ok tt)).

Definition charge (s : Service) (provider : string) (work : ProviderAttemptWork) : prog Answer :=
  let intent := work_Intent work in
  if negb (default false (service_chargeEnabled s !! provider)) then
    r ← setRequestDigest (attempt_ID (work_Attempt work))
          [("disabled", JBool true); ("intent_id", JString (intent_ID intent)); ("operation", JString "charge")];
    match r with
    | Err _ => mret (Refused None)
    | Ok _ => mret (Answered (mkProviderResult PaymentIntentStateFailed "" "provider_disabled" ∅))
    end
  else
    resolved ← call (EResolve (work_ProviderMethodRefCiphertext work));
    let methodReference := default "" resolved in
    if bool_decide (resolved = None) || (TrimSpace methodReference == "") then
      mret (Refused (Some (NewProviderError ProviderErrorAuthentication "method_reference_unavailable" false)))
    else
      let request := mkChargeRequest (intent_ID intent) (intent_AmountMinor intent) (intent_Currency intent)
        methodReference (intent_MerchantOrderReference intent) (intent_IdempotencyKey intent)
        (intent_CorrelationID intent) in
      r ← setRequestDigest (attempt_ID (work_Attempt work))
            [("amount_minor", JNumber (charge_AmountMinor request));
             ("correlation_id", JString (charge_CorrelationID request));
             ("currency", JString (charge_Currency request));
             ("idempotency_key", JString (charge_IdempotencyKey request));
             ("intent_id", JString (charge_IntentID request));
             ("merchant_order_reference", JString (charge_MerchantOrderReference request));
             ("method_reference_sha256", JString (sha256_hex methodReference));
             ("operation", JString "charge")];
      match r with
      | Err _ => mret (Refused None)
      | Ok _ => call (ECharge provider request)
      end.

Definition query (provider : string) (work : ProviderAttemptWork) : prog Answer :=
  let intent := work_Intent work in
  let request := mkQueryRequest (intent_ID intent) (intent_CreatedAt intent) (intent_AmountMinor intent)
    (intent_Currency intent) (intent_MerchantOrderReference intent)
    (intent_ProviderTransactionReference intent) (intent_CorrelationID intent) in
  r ← setRequestDigest (attempt_ID (work_Attempt work))
        [("amount_minor", JNumber (query_AmountMinor request));
         ("correlation_id", JString (query_CorrelationID request));
         ("currency", JString (query_Currency request));
         ("intent_id", JString (query_IntentID request));
         ("merchant_order_reference", JString (query_MerchantOrderReference request));
         ("operation", JString "query");
         ("provider_transaction_reference", JString (query_ProviderTransactionReference request))];
  match r with
  | Err _ => mret (Refused None)
  | Ok _ => call (EQuery provider request)
  end.

(** The result that is recorded for an answer: a failed status lookup cannot prove that an
    earlier payment failed. *)
Definition answer_result (operation : ProviderOperation) (a : Answer) : ProviderResult :=
  match a with
  | Answered r => r
  | Refused err =>
      mkProviderResult (if operation == ProviderOperationQuery then PaymentIntentStateUnknown
                        else StateForProviderError err) "" (providerErrorCode err) ∅
  end.

(** An attempt of a worker that stopped: what the provider did is not known. *)
Definition recover (s : Service) (work : ProviderAttemptWork) : prog (Result unit) :=
  and_then
    (if attempt_RequestSHA256 (work_Attempt work) == "" then
       setRequestDigest (attempt_ID (work_Attempt work))
         [("intent_id", JString (intent_ID (work_Intent work)));
          ("operation", JString (attempt_Operation (work_Attempt work)));
          ("recovered_before_external_call", JBool true)]
     else mret (Ok tt))
    (fun _ => finalize s work
       (mkProviderResult PaymentIntentStateUnknown "" "recovered_incomplete_attempt" ∅)).

Definition ProcessJob (s : Service) (job : ReconciliationJob) : prog (Result unit) :=
  let operation := if job_Reason job == ReconciliationReasonCharge then ProviderOperationCharge
                   else ProviderOperationQuery in
  now ← call ENow;
  begun ← call (EBegin (mkBeginProviderAttemptInput (job_ID job) (service_leaseOwner s) operation now));
  match begun with
  | Err e =>
      if e == ErrJobNotActionable then call (EComplete (job_ID job) (service_leaseOwner s))
      else mret (Err e)
  | Ok work =>
      if work_RecoverIncompleteAttempt work then recover s work else
      let provider := NormalizeProvider (intent_Provider (work_Intent work)) in
      if bool_decide (provider ∉ service_providers s) then
        finalize s work (mkProviderResult PaymentIntentStateFailed "" "provider_unavailable" ∅)
      else
        a ← (if operation == ProviderOperationCharge then charge s provider work else query provider work);
        finalize s work (answer_result operation a)
  end.

(** The number of jobs processed, and the error that ended the loop. *)
Fixpoint process_jobs (s : Service) (jobs : list ReconciliationJob) (processed : Z) : prog (Z * option GoError) :=
  match jobs with
  | [] => mret (processed, None)
  | job :: jobs =>
      r ← ProcessJob s job;
      match r with
      | Err e => mret (processed, Some e)
      | Ok _ => process_jobs s jobs (processed + 1)
      end
  end.

Definition RunOnce (s : Service) : prog (Z * option GoError) :=
  now ← call ENow;
  claimed ← call (EClaim now (Add now (- service_leaseDuration s)) (service_leaseOwner s) (service_batchSize s));
  match claimed with
  | Err e => mret (0, Some e)
  | Ok jobs => process_jobs s jobs 0
  end.

(** ** [HandleWebhook] *)

Inductive ServiceError :=
  | StoreError (e : GoError)
  | AdapterError (e : ProviderError).

Record WebhookResult := mkWebhookResult {
  handled_Receipt : WebhookReceipt;
  handled_Duplicate : bool;
  handled_Verified : bool
}.

Definition HandleWebhook (s : Service) (providerName : string) (header : list (string * string)) (body : string) :
    prog (option WebhookResult * option ServiceError) :=
  let providerName := NormalizeProvider providerName in
  if bool_decide (providerName ∉ service_providers s) then
    mret (None, Some (AdapterError (NewProviderError ProviderErrorInvalidRequest "provider_unavailable" false)))
  else
    receivedAt ← call ENow;
    '(event, verifyErr) ← call (EVerify providerName header body);
    let verification := if bool_decide (verifyErr = None) then "verified" else "rejected" in
    recorded ← call (ERecord (mkRecordWebhookInput providerName (sha256_hex body) verification event receivedAt));
    match recorded with
    | Err e => mret (None, Some (StoreError e))
    | Ok recorded =>
        mret (Some (mkWebhookResult (hooked_Receipt recorded) (hooked_Duplicate recorded) (verification == "verified")),
          match verifyErr with
          | None => None
          | Some (Some providerErr) => Some (AdapterError providerErr)
          | Some None => Some (AdapterError
              (NewProviderError ProviderErrorAuthentication "webhook_verification_failed" false))
          end)
    end.
End worker.

(** ** Workers at work *)

(** What the world outside the store answers at one moment; nothing is assumed of it, and
    it may answer differently every time. *)
Record Environment := mkEnvironment {
  env_now : Time;
  env_resolve : string → option string;
  env_charge : string → ChargeRequest → Answer;
  env_query : string → QueryRequest → Answer;
  env_verify : string → list (string * string) → string → WebhookEvent * option (option ProviderError)
}.

(** A charge that a provider was asked for. *)
Definition charge_call : Type := string * ChargeRequest.
Definition charges_of_effect (e : effect) : list charge_call :=
  match e with ECharge provider request => [(provider, request)] | _ => [] end.

Section execution.
Context {pg : Postgres} {dg : Digest}.

(** One effect: a transaction of the store, or an answer of the environment. *)
Definition perform (env : Environment) (e : effect) (db : Db) : answer e * Db :=
  match e with
  | ENow => (UTC (env_now env), db)
  | EClaim now stale owner limit => run (ClaimPaymentJobs now stale owner limit) db
  | EBegin in_ => run (BeginProviderAttempt None in_) db
  | ESetDigest attemptID sha256 => run (SetAttemptRequestDigest attemptID sha256) db
  | EFinalize in_ => run (FinalizeProviderAttempt None in_) db
  | EComplete jobID owner => run (CompletePaymentJob jobID owner) db
  | EResolve ciphertext => (env_resolve env ciphertext, db)
  | ECharge provider request => (env_charge env provider request, db)
  | EQuery provider request => (env_query env provider request, db)
  | EVerify provider header body => (env_verify env provider header body, db)
  | ERecord in_ => run (RecordWebhook None in_) db
  end.

(** A program run alone, with the charges it asks for. *)
Fixpoint interp {A} (env : Environment) (p : prog A) (db : Db) : A * Db * list charge_call :=
  match p with
  | Done a => (a, db, [])
  | Step e k =>
      let '(x, db1) := perform env e db in
      let '(a, db2, calls) := interp env (k x) db1 in
      (a, db2, charges_of_effect e ++ calls)
  end.

(** A database, the threads of its workers, and every charge asked for so far. *)
Record System := mkSystem {
  sys_db : Db;
  sys_threads : list (prog unit);
  sys_charges : list charge_call
}.

Definition as_thread {A} (p : prog A) : prog unit := _ ← p; mret tt.

(** The threads that services start. *)
Inductive starts : prog unit → Prop :=
  | starts_run s : starts (as_thread (RunOnce s))
  | starts_webhook s provider header body : starts (as_thread (HandleWebhook s provider header body)).

(** Any thread takes its next step, any other operation of the store runs, a thread is
    started, or one stops for good, wherever it is. *)
Inductive system_step (sys : System) : System → Prop :=
  | step_thread env i e k :
      sys_threads sys !! i = Some (Step e k) →
      system_step sys
        (mkSystem (perform env e (sys_db sys)).2
           (<[i := k (perform env e (sys_db sys)).1]> (sys_threads sys))
           (sys_charges sys ++ charges_of_effect e))
  | step_store op :
      allowed op →
      system_step sys (mkSystem (run_op (sys_db sys) op) (sys_threads sys) (sys_charges sys))
  | step_start p :
      starts p → system_step sys (mkSystem (sys_db sys) (sys_threads sys ++ [p]) (sys_charges sys))
  | step_crash i :
      system_step sys (mkSystem (sys_db sys) (delete i (sys_threads sys)) (sys_charges sys)).

(** ** What a thread may still charge *)

(** The intent whose charge a step of [EBegin] has just begun. *)
Definition begun_charge (e : effect) : answer e → option PaymentIntent :=
  match e with
  | EBegin in_ => fun r =>
      match r with
      | Ok w => if (begin_Operation in_ == ProviderOperationCharge)
                   && negb (work_RecoverIncompleteAttempt w) then Some (work_Intent w) else None
      | Err _ => None
      end
  | _ => fun _ => None
  end.

(** The call carries what the intent says, to its provider. *)
Definition call_for (i : PaymentIntent) (c : charge_call) : Prop :=
  c.1 = NormalizeProvider (intent_Provider i) ∧ charge_IntentID c.2 = intent_ID i ∧
  charge_AmountMinor c.2 = intent_AmountMinor i ∧ charge_Currency c.2 = intent_Currency i ∧
  charge_IdempotencyKey c.2 = intent_IdempotencyKey i.

(** The discipline: a charge is asked for only on the strength of a charge the thread has
    begun itself, of that intent, and at most once; [Q] holds at the end. *)
Fixpoint disciplined {A} (permit : option PaymentIntent) (p : prog A)
    (Q : option PaymentIntent → A → Prop) : Prop :=
  match p with
  | Done a => Q permit a
  | Step e k =>
      match e as e return (answer e → option PaymentIntent → Prop) → Prop with
      | ECharge provider r => fun rest =>
          ∃ i, permit = Some i ∧ call_for i (provider, r) ∧ ∀ x, rest x None
      | EBegin in_ => fun rest => ∀ x, rest x (begun_charge (EBegin in_) x)
      | _ => fun rest => ∀ x, rest x permit
      end (fun x permit => disciplined permit (k x) Q)
  end.

Lemma disciplined_bind {A B} (p : prog A) (f : A → prog B) permit Q :
  disciplined permit p (fun b a => disciplined b (f a) Q) → disciplined permit (p ≫= f) Q.
Proof.
  revert permit. induction p as [a|e k IH]; intros permit H; [exact H|].
  destruct e; simpl in *; try (intros x; apply IH; by apply H).
  destruct H as (i & -> & Hc & H). exists i. split_and!; [done..|]. intros x. apply IH, H.
Qed.

Lemma disciplined_weaken {A} (p : prog A) permit (Q Q' : option PaymentIntent → A → Prop) :
  (∀ b a, Q b a → Q' b a) → disciplined permit p Q → disciplined permit p Q'.
Proof.
  intros HQ. revert permit. induction p as [a|e k IH]; intros permit H; [by apply HQ|].
  destruct e; simpl in *; try (intros x; apply IH; by apply H).
  destruct H as (i & -> & Hc & H). exists i. split_and!; [done..|]. intros x. apply IH, H.
Qed.

(** The worker's programs keep the discipline, whatever was permitted before. *)
Definition whatever {A} (b : option PaymentIntent) (a : A) : Prop := True.

Lemma finalize_disciplined s work result permit : disciplined permit (finalize s work result) whatever.
Proof. intros now r. by destruct r. Qed.

Lemma recover_disciplined s work permit : disciplined permit (recover s work) whatever.
Proof.
  unfold recover, and_then. apply disciplined_bind.
  assert (∀ b (r : Result unit), disciplined b (match r with
    | Ok _ => finalize s work (mkProviderResult PaymentIntentStateUnknown "" "recovered_incomplete_attempt" ∅)
    | Err e => mret (Err e) end) whatever) as Hk by (intros b [|]; [apply finalize_disciplined|done]).
  case_bool_decide; [intros r|]; apply Hk.
Qed.

Lemma charge_disciplined s work :
  disciplined (Some (work_Intent work)) (charge s (NormalizeProvider (intent_Provider (work_Intent work))) work) whatever.
Proof.
  unfold charge. destruct (negb _); [by intros [|]|]. intros [reference|]; simpl; [|done].
  destruct (_ == _); [done|]. intros [|]; [|done]. exists (work_Intent work). by split_and!.
Qed.

Lemma query_disciplined provider work permit : disciplined permit (query provider work) whatever.
Proof. by intros [|]. Qed.

Lemma disciplined_begin {A} in_ (f : Result ProviderAttemptWork → prog A) permit Q :
  (∀ r, disciplined (begun_charge (EBegin in_) r) (f r) Q) → disciplined permit (call (EBegin in_) ≫= f) Q.
Proof. done. Qed.

Lemma ProcessJob_disciplined s job permit : disciplined permit (ProcessJob s job) whatever.
Proof.
  unfold ProcessJob. intros now. apply disciplined_begin. intros [work|e]; [|simpl; by destruct (e == _)].
  destruct (work_RecoverIncompleteAttempt work) eqn:Hrec; [apply recover_disciplined|]. cbv zeta.
  destruct (bool_decide (_ ∉ _)); [apply finalize_disciplined|].
  apply disciplined_bind. eapply (disciplined_weaken _ _ whatever); [intros; apply finalize_disciplined|].
  simpl. rewrite Hrec. destruct (job_Reason job == ReconciliationReasonCharge); [|apply query_disciplined].
  apply charge_disciplined.
Qed.

Lemma RunOnce_disciplined s permit : disciplined permit (RunOnce s) whatever.
Proof.
  intros now [jobs|e]; [|done]. simpl. generalize 0 permit. induction jobs as [|job jobs IH]; [done|].
  intros processed b. apply disciplined_bind.
  eapply (disciplined_weaken _ _ whatever); [|apply ProcessJob_disciplined].
  intros b' [[]|e] _; [apply IH|done].
Qed.

Lemma HandleWebhook_disciplined s provider header body permit :
  disciplined permit (HandleWebhook s provider header body) whatever.
Proof.
  unfold HandleWebhook. cbv zeta. destruct (bool_decide _); [done|]. intros now [event verifyErr] [r|e]; done.
Qed.

Lemma starts_disciplined p permit : starts p → disciplined permit p whatever.
Proof.
  intros [s|s provider header body]; apply disciplined_bind;
    eapply (disciplined_weaken _ _ whatever); try done; [apply RunOnce_disciplined|apply HandleWebhook_disciplined].
Qed.
End execution.

(** ** At most one charge per intent *)
Section at_most_once.
Context {pg : Postgres} {dg : Digest}.

#[local] Existing Instances good_RecordWebhook good_ClaimPaymentJobs good_CompletePaymentJob
  good_SetAttemptRequestDigest good_BeginProviderAttempt good_FinalizeProviderAttempt.

Lemma run_good {A} (m : M A) db : keeps good m → good db (run m db).2.
Proof. intros Hm. unfold run. destruct (m db) as [[a db']|e] eqn:E; [by eapply Hm|done]. Qed.

Lemma perform_good env e db : good db (perform env e db).2.
Proof. destruct e; cbn [perform]; try done; apply run_good; apply _. Qed.

(** The calls for an intent, and the threads that are permitted one. *)
Definition calls_of (id : string) (calls : list charge_call) : nat :=
  length (filter (fun c => charge_IntentID c.2 = id) calls).
Definition permits_of (id : string) (permits : list (option PaymentIntent)) : nat :=
  length (filter (fun b => intent_ID <$> b = Some id) permits).

(** An intent of the database that has evolved from the one of a permit, or a call. *)
Definition permitted (db : Db) (b : option PaymentIntent) : Prop :=
  ∀ i, b = Some i → ∃ j, j ∈ db_intents db ∧ intent_evolves i j.
Definition called (db : Db) (c : charge_call) : Prop := ∃ j, j ∈ db_intents db ∧ call_for j c.

Record system_ok (sys : System) : Prop := {
  so_store : StoreInv (sys_db sys);
  so_permits : ∃ permits,
    Forall2 (fun b p => disciplined b p whatever) permits (sys_threads sys) ∧
    Forall (permitted (sys_db sys)) permits ∧
    ∀ id, (calls_of id (sys_charges sys) + permits_of id permits ≤ charge_count (sys_db sys) id)%nat;
  so_calls : Forall (called (sys_db sys)) (sys_charges sys)
}.

Lemma call_for_evolves i j c : intent_evolves i j → call_for i c → call_for j c.
Proof.
  intros [Hfr _ _ _ _] (H1 & H2 & H3 & H4 & H5). unfold call_for.
  pose proof (f_equal intent_Provider Hfr) as E1. pose proof (f_equal intent_ID Hfr) as E2.
  pose proof (f_equal intent_AmountMinor Hfr) as E3. pose proof (f_equal intent_Currency Hfr) as E4.
  pose proof (f_equal intent_IdempotencyKey Hfr) as E5. unfold frozen in *. revert E1 E2 E3 E4 E5. get_upd.
  intros E1 E2 E3 E4 E5. simpl in *. split_and!; congruence.
Qed.

Lemma permitted_evolves db db' b : evolves db db' → permitted db b → permitted db' b.
Proof.
  intros Hev Hp i Hi. destruct (Hp i Hi) as (j & Hj & Hij).
  destruct (evolves_intent _ _ _ Hev Hj) as (k & Hk & Hjk). exists k. split; [done|]. by transitivity j.
Qed.
Lemma called_evolves db db' c : evolves db db' → called db c → called db' c.
Proof.
  intros Hev (j & Hj & Hc). destruct (evolves_intent _ _ _ Hev Hj) as (k & Hk & Hjk).
  exists k. split; [done|]. by eapply call_for_evolves.
Qed.

Lemma charge_count_grows db db' id : attempts_grow db db' → (charge_count db id ≤ charge_count db' id)%nat.
Proof. intros [new Hnew]. unfold charge_count. rewrite Hnew, filter_app, length_app. lia. Qed.

Lemma permits_of_insert id permits i b b' :
  permits !! i = Some b →
  (permits_of id (<[i := b']> permits) + permits_of id [b] = permits_of id permits + permits_of id [b'])%nat.
Proof.
  intros Hi. unfold permits_of. rewrite <- (take_drop_middle permits i b) at 2 by done.
  rewrite insert_take_drop by by eapply lookup_lt_Some. rewrite !filter_app, !filter_cons, !length_app.
  repeat case_decide; simpl; lia.
Qed.
Lemma permits_of_delete id permits i : (permits_of id (delete i permits) ≤ permits_of id permits)%nat.
Proof.
  unfold permits_of. destruct (permits !! i) as [b|] eqn:Hi.
  - rewrite delete_take_drop. rewrite <- (take_drop_middle permits i b) at 3 by done.
    rewrite !filter_app, filter_cons, !length_app. case_decide; simpl; lia.
  - rewrite delete_take_drop. apply lookup_ge_None in Hi. rewrite take_ge, drop_ge by lia. by rewrite app_nil_r.
Qed.

(** A charge that begins is counted, and is of an intent that is there. *)
Lemma begin_counts env in_ db i id :
  begun_charge (EBegin in_) (perform env (EBegin in_) db).1 = Some i →
  permitted (perform env (EBegin in_) db).2 (Some i) ∧
  charge_count (perform env (EBegin in_) db).2 id =
    (charge_count db id + if decide (id = intent_ID i) then 1 else 0)%nat.
Proof.
  cbn [perform]. unfold run. destruct (BeginProviderAttempt None in_ db) as [[w db']|e] eqn:E; [|done]. simpl.
  destruct (bool_decide (begin_Operation in_ = _)) eqn:Hop; [|done].
  destruct (work_RecoverIncompleteAttempt w) eqn:Hrec; [done|]. intros [= <-]. reflect_go.
  apply BeginProviderAttempt_ok in E.
  destruct E as [|job a intent intent' accountID now mref cref db1 db' Hf _ _ _ Hp Hai Hao _ _ Ha [_ Hint]]; [done|].
  apply prepare_operation_ok in Hp. rewrite bool_decide_eq_true_2 in Hp by done.
  destruct Hp as (_ & _ & _ & _ & Hid & _ & Hin & -> & _). simpl. split.
  - intros i [= <-]. exists intent'. by rewrite Hint.
  - rewrite (charge_count_snoc db (started_charge intent db) db' a id) by done. f_equal.
    unfold attempt_key. rewrite Hai, Hao, Hop, Hid. apply decide_ext. naive_solver.
Qed.

Lemma permits_of_one id b :
  permits_of id [b] = if decide (intent_ID <$> b = Some id) then 1%nat else 0%nat.
Proof. unfold permits_of. rewrite filter_cons, filter_nil. by case_decide. Qed.
Lemma calls_of_one id c : calls_of id [c] = if decide (charge_IntentID c.2 = id) then 1%nat else 0%nat.
Proof. unfold calls_of. rewrite filter_cons, filter_nil. by case_decide. Qed.

Lemma calls_of_app id l k : calls_of id (l ++ k) = (calls_of id l + calls_of id k)%nat.
Proof. unfold calls_of. by rewrite filter_app, length_app. Qed.
Lemma permits_of_app id l k : permits_of id (l ++ k) = (permits_of id l + permits_of id k)%nat.
Proof. unfold permits_of. by rewrite filter_app, length_app. Qed.

(** What a step does to the permit of its thread. *)
Lemma step_permit env e (k : answer e → prog unit) b db :
  disciplined b (Step e k) whatever → permitted db b →
  ∃ b', disciplined b' (k (perform env e db).1) whatever ∧ permitted (perform env e db).2 b' ∧
    Forall (called (perform env e db).2) (charges_of_effect e) ∧
    ∀ id, (calls_of id (charges_of_effect e) + permits_of id [b'] + charge_count db id
           ≤ permits_of id [b] + charge_count (perform env e db).2 id)%nat.
Proof.
  intros Hd Hp. pose proof (perform_good env e db) as (Hev & Hgrow & _).
  assert (∀ id, (charge_count db id ≤ charge_count (perform env e db).2 id)%nat) as Hcount
    by (intros; by apply charge_count_grows).
  destruct e; try (exists b; split; [apply Hd|]; split; [by eapply permitted_evolves|]; split; [constructor|];
    intros id; specialize (Hcount id); change (calls_of id _) with 0%nat; lia).
  - exists (begun_charge (EBegin in_) (perform env (EBegin in_) db).1). split; [apply Hd|].
    destruct (begun_charge _ _) as [i|] eqn:Hb.
    + pose proof (begin_counts env in_ db i) as Hbegin. split; [by apply (Hbegin "")|]. split; [constructor|].
      intros id. destruct (Hbegin id Hb) as [_ ->]. rewrite (permits_of_one id (Some i)).
      change (calls_of id _) with 0%nat. simpl. repeat case_decide; simplify_eq; try lia; congruence.
    + split; [by intros ? ?|]. split; [constructor|]. intros id. specialize (Hcount id).
      change (calls_of id _) with 0%nat. change (permits_of id [None]) with 0%nat. lia.
  - destruct Hd as (i & -> & Hc & Hd). exists None. split; [apply Hd|]. split; [by intros ? ?|]. split.
    + constructor; [|constructor]. destruct (Hp i eq_refl) as (j & Hj & Hij). exists j. split; [done|].
      by eapply call_for_evolves.
    + intros id. simpl. rewrite calls_of_one, (permits_of_one id (Some i)). change (permits_of id [None]) with 0%nat.
      destruct Hc as (_ & Hid & _). simpl in Hid. simpl. repeat case_decide; lia || congruence.
Qed.

Lemma system_step_ok sys sys' : system_step sys sys' → system_ok sys → system_ok sys'.
Proof.
  intros Hstep [Hst (permits & Hds & Hps & Hcnt) Hcs]. destruct Hstep as [env i e k Hi|op Hop|p Hp|i]; simpl.
  - pose proof (perform_good env e (sys_db sys)) as (Hev & Hgrow & Hgood).
    destruct (Forall2_lookup_r _ _ _ _ _ Hds Hi) as (b & Hb & Hd).
    destruct (step_permit env e k b (sys_db sys) Hd) as (b' & Hd' & Hp' & Hc' & Hn).
    { rewrite Forall_lookup in Hps. by eapply Hps. }
    constructor; simpl.
    + by apply Hgood.
    + exists (<[i := b']> permits). split; [by apply Forall2_insert|]. split.
      * apply Forall_insert; [|done]. eapply Forall_impl; [exact Hps|]. intros; by eapply permitted_evolves.
      * intros id. specialize (Hcnt id). specialize (Hn id). pose proof (permits_of_insert id permits i b b' Hb).
        rewrite calls_of_app. lia.
    + apply Forall_app. split; [|done]. eapply Forall_impl; [exact Hcs|]. intros; by eapply called_evolves.
  - assert (good (sys_db sys) (run_op (sys_db sys) op)) as (Hev & Hgrow & Hgood)
      by by apply run_op_keeps; [apply _|apply exec_good].
    constructor; simpl; [by apply Hgood| |].
    + exists permits. split; [done|]. split.
      * eapply Forall_impl; [exact Hps|]. intros; by eapply permitted_evolves.
      * intros id. specialize (Hcnt id). pose proof (charge_count_grows _ _ id Hgrow). lia.
    + eapply Forall_impl; [exact Hcs|]. intros; by eapply called_evolves.
  - constructor; simpl; [done| |done]. exists (permits ++ [None]). split_and!.
    + apply Forall2_app; [done|]. constructor; [by apply starts_disciplined|constructor].
    + apply Forall_app. split; [done|]. constructor; [by intros ? ?|constructor].
    + intros id. specialize (Hcnt id). rewrite permits_of_app.
      change (permits_of id [None]) with 0%nat. lia.
  - constructor; simpl; [done| |done]. exists (delete i permits). split_and!.
    + by apply Forall2_delete.
    + by apply Forall_delete.
    + intros id. specialize (Hcnt id). pose proof (permits_of_delete id permits i). lia.
Qed.

(** C1: However many workers and webhook handlers run, however their transactions
    interleave with each other and with every other operation of the store, wherever
    they stop, and whatever the providers answer: each payment intent is charged with a
    provider at most once, and every charge asks its own provider for exactly the
    intent's amount and currency under the intent's idempotency key. *)
Theorem charge_at_most_once db sys :
  StoreInv db → rtc system_step (mkSystem db [] []) sys →
  (∀ id, calls_of id (sys_charges sys) ≤ 1)%nat ∧ Forall (called (sys_db sys)) (sys_charges sys).
Proof.
  intros Hinv Hrun. assert (system_ok sys) as [[_ _ [_ _ Hone] _] (permits & _ & _ & Hcnt) Hcs].
  { assert (system_ok (mkSystem db [] [])) as Hok.
    { constructor; simpl; [done| |constructor]. exists []. split_and!; [constructor..|].
      intros id. unfold calls_of, permits_of. simpl. lia. }
    revert Hok. induction Hrun as [|sys1 sys2 sys3 Hs _ IH]; [done|]. intros Hok. apply IH. by eapply system_step_ok. }
  split; [|done]. intros id. specialize (Hcnt id). specialize (Hone id). lia.
Qed.
End at_most_once.

(** ** Running a thread alone *)
Section alone.
Context {pg : Postgres} {dg : Digest}.

(** What [interp] computes is a run of the system. *)
Lemma interp_steps env (p : prog unit) db threads calls a db' calls' :
  interp env p db = (a, db', calls') →
  rtc system_step (mkSystem db (p :: threads) calls) (mkSystem db' (Done a :: threads) (calls ++ calls')).
Proof.
  revert db calls calls'. induction p as [x|e k IH]; intros db calls calls' H.
  - injection H as <- <- <-. by rewrite app_nil_r.
  - simpl in H. destruct (perform env e db) as [x db1] eqn:Hp.
    destruct (interp env (k x) db1) as [[a1 db2] calls2] eqn:Hi. injection H as <- <- <-.
    eapply rtc_l; [by apply (step_thread _ env 0 e k)|]. simpl. rewrite Hp. simpl.
    rewrite app_assoc. by apply IH.
Qed.

Lemma interp_bind {A B} env (p : prog A) (f : A → prog B) db :
  interp env (p ≫= f) db =
  let '(a, db1, c1) := interp env p db in let '(b, db2, c2) := interp env (f a) db1 in (b, db2, c1 ++ c2).
Proof.
  revert db. induction p as [a|e k IH]; intros db; simpl.
  - by destruct (interp env (f a) db) as [[b db2] c2].
  - destruct (perform env e db) as [x db1]. rewrite IH.
    destruct (interp env (k x) db1) as [[a db2] c1]. destruct (interp env (f a) db2) as [[b db3] c2].
    by rewrite app_assoc.
Qed.

Lemma process_jobs_stops env s job jobs n db e db' calls :
  interp env (ProcessJob s job) db = (Err e, db', calls) →
  interp env (process_jobs s (job :: jobs) n) db = ((n, Some e), db', calls).
Proof. intros Hp. cbn [process_jobs]. rewrite interp_bind, Hp. simpl. by rewrite app_nil_r. Qed.

End alone.

(** ** Workers of the demonstration store *)
#[local] Existing Instances demo_pg demo_dg.

Definition demo_service (owner : string) : Service :=
  mkService ["paypal"] owner (30 * Second) (15 * Second) 25 {[ "paypal" := true ]}.
Definition demo_success_result : ProviderResult :=
  mkProviderResult PaymentIntentStateSucceeded "capture" "completed" ∅.
Definition demo_env (now : Time) (result : ProviderResult) : Environment :=
  mkEnvironment now (fun c => Some ("ref-" +:+ c)) (fun _ _ => Answered result) (fun _ _ => Answered result)
    (fun _ _ _ => (mkWebhookEvent "" "" "" 0 "" "" "" "", Some None)).

(** The charge of the due job succeeds: the account is credited, the provider called once. *)
Definition demo_worked : Db := Eval vm_compute in
  (interp (demo_env demo_now demo_success_result) (as_thread (RunOnce (demo_service "worker"))) demo_db).1.2.
Definition demo_calls : list charge_call := Eval vm_compute in
  (interp (demo_env demo_now demo_success_result) (as_thread (RunOnce (demo_service "worker"))) demo_db).2.
Example demo_worked_balance : balance_of demo_worked "acc" = Some 2000 ∧ length demo_calls = 1%nat.
Proof. by vm_compute. Qed.

Lemma charge_at_most_once_witness : calls_of demo_new_id demo_calls = 1%nat ∧
  Forall (called demo_worked) demo_calls.
Proof.
  split; [by vm_compute|].
  assert (rtc system_step (mkSystem demo_db [] [])
    (mkSystem demo_worked [Done tt] demo_calls)) as Hrun.
  { eapply rtc_l; [apply (step_start _ (as_thread (RunOnce (demo_service "worker")))); constructor|].
    eapply (interp_steps (demo_env demo_now demo_success_result) _ demo_db [] []). by vm_compute. }
  exact (proj2 (charge_at_most_once demo_db _ demo_store Hrun)).
Defined.

(** A lookup times out, the next one answers [requires_action]. *)
Definition demo_unknown_db : Db := Eval vm_compute in
  (run_all [OpClaimJobs demo_now demo_now "worker" 1; OpBeginAttempt None (demo_begin "worker")] demo_db)
    <| db_intents ::= fmap (fun i => if intent_ID i == demo_new_id
                                     then i <| intent_State := PaymentIntentStateUnknown |> else i) |>.
Definition demo_open_attempt : PaymentAttempt :=
  default (mkPaymentAttempt "" "" "" 0 0 None "" "" "" "" None 0) (head (db_attempts demo_unknown_db)).
Definition demo_unknown_intent : PaymentIntent :=
  demo_intent demo_new_id PaymentIntentStateUnknown None <| intent_MerchantOrderReference :=
    "rtk_00000000000040008000000000" |> <| intent_UpdatedAt := demo_now |>.

