(* ===== verification/BillingSchema.v ===== *)
(** * Schema of the billing store

    The tables of migrations 044 and 058 to 068 with their unique indexes and CHECK
    constraints, and the statements with their triggers: the financial barriers of
    handoffs (051) and closed clouds (055), and the barrier of locked billing periods
    (059).  Usage facts are never updated (058), nor are seals and drafts. *)
From S2P Require Import Prelude GoStrings GoTime BillingTypes PaymentTypes Payment Database Tables.
From S2P Require Import Keeps Accounts Protocols.

(** ** Conditions shared by the constraints *)

(** [tstzrange(a, b, '[)') && tstzrange(c, d, '[)')] of two ranges that are not empty. *)
Definition ranges_overlap (a b c d : Time) : bool := (a <? d) && (c <? b).

(** [hex.DecodeString] accepts the text. *)
Definition hex_text (s : string) : bool :=
  Nat.even (String.length s) && forallb is_hex (bytes_of (ToLower s)).
Definition otaDigest (value : string) : bool :=
  (len value =? 64) && (ToLower value == value) && hex_text value.

Definition rounding_name (m : RoundingMode) : bool := one_of m ["half_up"; "down"; "up"].

(** The tax policy of a price version and of an invoice. *)
Definition tax_policy_check (mode : TaxCalculationMode) (rate : option Z) (rounding : RoundingMode)
    (category : string) : bool :=
  ((mode == "line") && bool_decide (rate = None) && (rounding == "") && (category == ""))
  || ((mode == "invoice_total") && bool_decide (is_Some rate) && in_range 0 10000 rate
      && rounding_name rounding && not_blank category).

(** [v ~ '^(0|[1-9][0-9]{0,39})$'] *)
Definition decimal_text (s : string) : bool :=
  (s == "0") || (all_digits s && (1 <=? len s) && (len s <=? 40)
                 && negb (bool_decide (head (bytes_of s) = Some 48%N))).

Definition grant_shape (f : UsageFact) : bool :=
  match fact_OTAGrant f with
  | None => true
  | Some g => (fact_ServiceCode f == "ota")
      && (one_of (fact_MetricCode f) ["device_task"; "successful_download_gib"; "artifact_write"]
          || ((fact_MetricCode f == "artifact_storage_gib_month")
              && bool_decide (is_Some (fact_OTAStorageObject f))))
      && (0 <? grant_ProductServiceRevision g) && lower_sha256 (grant_ServiceGrantSHA256 g)
  end.
Definition object_shape (f : UsageFact) : bool :=
  match fact_OTAStorageObject f with
  | None => true
  | Some o => (fact_ServiceCode f == "ota") && (fact_MetricCode f == "artifact_storage_gib_month")
      && lower_sha256 (object_ObjectSHA256 o) && decimal_text (object_ByteMicroseconds o)
      && bool_decide (is_Some (fact_OTAGrant f))
  end.

(** Two facts on the same physical object and month. *)
Definition same_object (a b : UsageFact) : bool :=
  (fact_OrganizationID a == fact_OrganizationID b) && (fact_WindowStart a =? fact_WindowStart b)
  && (fact_ServiceCode a == "ota") && (fact_ServiceCode b == "ota")
  && (fact_MetricCode a == "artifact_storage_gib_month") && (fact_MetricCode b == "artifact_storage_gib_month")
  && match fact_OTAStorageObject a, fact_OTAStorageObject b with
     | Some x, Some y => object_ObjectSHA256 x == object_ObjectSHA256 y
     | _, _ => false
     end.

(** ** The tables *)
#[export] Instance usage_table : Table UsageRow := {|
  t_name := "billing_usage_facts"; t_rows db := bt_usage (db_billing db);
  t_put rows db := db <| db_billing ::= fun t => t <| bt_usage := rows |> |>;
  t_conflict a b := (fact_ID (urow_Fact a) == fact_ID (urow_Fact b))
    || (fact_UsageID (urow_Fact a) == fact_UsageID (urow_Fact b))
    || same_object (urow_Fact a) (urow_Fact b);
  t_check r := let f := urow_Fact r in
    not_blank (fact_ServiceCode f) && not_blank (fact_MetricCode f) && (0 <=? fact_Quantity f)
    && in_range 0 9 (Some (fact_QuantityScale f)) && not_blank (fact_Unit f)
    && (fact_WindowStart f <? fact_WindowEnd f) && not_blank (fact_Source f)
    && lower_sha256 (fact_SourceSHA256 f) && grant_shape f && object_shape f;
  t_touch now r := r |}.

Definition same_period (a b : BillingPeriod) : bool :=
  (bperiod_OrganizationID a == bperiod_OrganizationID b) && (bperiod_Currency a == bperiod_Currency b)
  && (bperiod_Start a =? bperiod_Start b) && (bperiod_End a =? bperiod_End b).

#[export] Instance billing_periods_table : Table BillingPeriod := {|
  t_name := "billing_periods"; t_rows db := bt_periods (db_billing db);
  t_put rows db := db <| db_billing ::= fun t => t <| bt_periods := rows |> |>;
  t_conflict a b := (bperiod_ID a == bperiod_ID b) || same_period a b;
  t_check p := (bperiod_Currency p == TWD) && (bperiod_Start p <? bperiod_End p)
    && one_of (bperiod_State p) ["open"; "closing"; "closed"; "incomplete"] && (0 <? bperiod_Version p);
  t_touch now p := p |}.

#[export] Instance invoices_table : Table Invoice := {|
  t_name := "billing_invoices"; t_rows db := bt_invoices (db_billing db);
  t_put rows db := db <| db_billing ::= fun t => t <| bt_invoices := rows |> |>;
  t_conflict a b := (inv_ID a == inv_ID b) || (inv_InvoiceNumber a == inv_InvoiceNumber b)
    || (inv_PeriodID a == inv_PeriodID b);
  t_check i := not_blank (inv_InvoiceNumber i) && (inv_Currency i == TWD)
    && one_of (inv_State i) ["draft"; "issued"; "settled"; "partially_settled"; "overdue"; "void"]
    && (inv_PeriodStart i <? inv_PeriodEnd i)
    && (0 <=? inv_SubtotalMinor i) && (0 <=? inv_TaxMinor i) && (0 <=? inv_TotalMinor i)
    && (inv_TotalMinor i =? inv_SubtotalMinor i + inv_TaxMinor i)
    && (0 <=? inv_AmountSettledMinor i) && (0 <=? inv_AmountDueMinor i)
    && (inv_AmountSettledMinor i + inv_AmountDueMinor i =? inv_TotalMinor i)
    && ((inv_State i != "draft") || bool_decide (inv_IssuedAt i = None)) && (0 <? inv_Version i)
    && tax_policy_check (inv_TaxMode i) (inv_InvoiceTaxRateBasisPoints i) (inv_InvoiceTaxRoundingMode i)
         (inv_InvoiceTaxCategory i);
  t_touch now i := i |}.

#[export] Instance lines_table : Table LineRow := {|
  t_name := "billing_invoice_lines"; t_rows db := bt_lines (db_billing db);
  t_put rows db := db <| db_billing ::= fun t => t <| bt_lines := rows |> |>;
  t_conflict a b := (line_ID (lrow_Line a) == line_ID (lrow_Line b))
    || ((lrow_InvoiceID a == lrow_InvoiceID b)
        && (line_PricingRateID (lrow_Line a) == line_PricingRateID (lrow_Line b))
        && (line_ProductID (lrow_Line a) == line_ProductID (lrow_Line b)));
  t_check r := let l := lrow_Line r in
    (0 <=? line_Quantity l) && in_range 0 9 (Some (line_QuantityScale l))
    && (0 <=? line_UnitPriceMinor l) && in_range 0 9 (Some (line_UnitPriceScale l))
    && (0 <=? line_SubtotalMinor l) && (0 <=? line_TaxMinor l)
    && (line_TotalMinor l =? line_SubtotalMinor l + line_TaxMinor l) && rounding_name (line_RoundingMode l);
  t_touch now r := r |}.

#[export] Instance links_table : Table SettlementLink := {|
  t_name := "invoice_settlement_links"; t_rows db := bt_links (db_billing db);
  t_put rows db := db <| db_billing ::= fun t => t <| bt_links := rows |> |>;
  t_conflict a b := (link_InvoiceID a == link_InvoiceID b)
    || both_set (link_LedgerEntryID a) (link_LedgerEntryID b);
  t_check l := one_of (link_State l) ["pending"; "posted"; "retrying"; "failed"] && (0 <=? link_AttemptCount l);
  t_touch now l := l |}.

#[export] Instance documents_table : Table DocumentRow := {|
  t_name := "billing_invoice_documents"; t_rows db := bt_documents (db_billing db);
  t_put rows db := db <| db_billing ::= fun t => t <| bt_documents := rows |> |>;
  t_conflict a b := drow_InvoiceID a == drow_InvoiceID b;
  t_check r := let d := drow_Document r in
    (document_ContentType d == "application/pdf") && (0 <? document_ByteLength d)
    && (len (drow_Bytes r) =? document_ByteLength d) && lower_sha256 (document_SHA256 d)
    && not_blank (document_RendererVersion d) && (0 <? document_InvoiceVersion d);
  t_touch now r := r |}.

Definition same_resource (a b : ActivityEvent) : bool :=
  (activity_OrganizationID a == activity_OrganizationID b)
  && (activity_ResourceType a == activity_ResourceType b)
  && both_set (activity_ResourceID a) (activity_ResourceID b).

#[export] Instance activities_table : Table ActivityEvent := {|
  t_name := "billing_activity_events"; t_rows db := bt_activities (db_billing db);
  t_put rows db := db <| db_billing ::= fun t => t <| bt_activities := rows |> |>;
  t_conflict a b := (activity_ID a == activity_ID b) || same_resource a b;
  t_check a := not_blank (activity_CustomerReference a)
    && one_of (activity_Type a) ["invoice"; "balance_adjustment"; "manual_top_up"; "automatic_top_up";
         "refund"; "chargeback"; "legacy"]
    && one_of (activity_State a) ["action_required"; "processing"; "pending_reconciliation"; "completed";
         "failed"; "unavailable"]
    && (0 <=? activity_AmountMinor a) && (activity_Currency a == TWD)
    && one_of (activity_BalanceEffect a) ["credit"; "debit"; "none"; "unknown"]
    && one_of (activity_Action a) ["none"; "update_payment_method"; "enable_auto_topup"; "contact_support"]
    && not_blank (activity_ResourceType a);
  t_touch now a := a |}.

#[export] Instance versions_table : Table PricingVersion := {|
  t_name := "pricing_plan_versions"; t_rows db := bt_versions (db_billing db);
  t_put rows db := db <| db_billing ::= fun t => t <| bt_versions := rows |> |>;
  t_conflict a b := (pricing_ID a == pricing_ID b)
    || ((pricing_PlanKey a == pricing_PlanKey b) && (pricing_Version a =? pricing_Version b))
    || ((pricing_PlanKey a == pricing_PlanKey b) && (pricing_EffectiveFrom a =? pricing_EffectiveFrom b)
        && (pricing_Status a == "active") && (pricing_Status b == "active"));
  t_check v := not_blank (pricing_PlanKey v) && (0 <? pricing_Version v) && (pricing_Currency v == TWD)
    && one_of (pricing_Status v) ["draft"; "active"; "retired"]
    && match pricing_EffectiveUntil v with Some t => pricing_EffectiveFrom v <? t | None => true end
    && tax_policy_check (pricing_TaxMode v) (pricing_InvoiceTaxRateBasisPoints v)
         (pricing_InvoiceTaxRoundingMode v) (pricing_InvoiceTaxCategory v);
  t_touch now v := v |}.

#[export] Instance rates_table : Table PricingRate := {|
  t_name := "pricing_rates"; t_rows db := bt_rates (db_billing db);
  t_put rows db := db <| db_billing ::= fun t => t <| bt_rates := rows |> |>;
  t_conflict a b := (rate_ID a == rate_ID b)
    || ((rate_PricingVersionID a == rate_PricingVersionID b) && (rate_ServiceCode a == rate_ServiceCode b)
        && (rate_MetricCode a == rate_MetricCode b) && (rate_Unit a == rate_Unit b));
  t_check r := not_blank (rate_ServiceCode r) && not_blank (rate_MetricCode r) && not_blank (rate_Description r)
    && not_blank (rate_Unit r) && (0 <=? rate_UnitPriceMinor r) && in_range 0 9 (Some (rate_UnitPriceScale r))
    && rounding_name (rate_RoundingMode r) && in_range 0 10000 (Some (rate_TaxRateBasisPoints r))
    && in_range 0 9 (rate_QuantityScale r)
    && match rate_TaxCategory r with Some c => not_blank c | None => true end;
  t_touch now r := r |}.

#[export] Instance drafts_table : Table PricingDraft := {|
  t_name := "ota_pricing_drafts"; t_rows db := bt_drafts (db_billing db);
  t_put rows db := db <| db_billing ::= fun t => t <| bt_drafts := rows |> |>;
  t_conflict a b := draft_PricingVersionID a == draft_PricingVersionID b;
  t_check d := lower_sha256 (draft_RateSetSHA256 d) && (draft_ScopeCode d == "commercial_active_product_ota");
  t_touch now d := d |}.

#[export] Instance publications_table : Table PricingPublication := {|
  t_name := "ota_pricing_publications"; t_rows db := bt_publications (db_billing db);
  t_put rows db := db <| db_billing ::= fun t => t <| bt_publications := rows |> |>;
  t_conflict a b := publication_PricingVersionID a == publication_PricingVersionID b;
  t_check p := lower_sha256 (publication_RateSetSHA256 p) && not_blank (publication_FirstReviewer p)
    && not_blank (publication_SecondReviewer p)
    && (publication_SecondReviewer p != publication_FirstReviewer p);
  t_touch now p := p |}.

Definition same_seal (a b : OTAPeriodSeal) : bool :=
  (seal_OrganizationID a == seal_OrganizationID b) && (seal_PeriodStart a =? seal_PeriodStart b)
  && (seal_PeriodEnd a =? seal_PeriodEnd b) && (seal_IssuerKind a == seal_IssuerKind b).

#[export] Instance seals_table : Table SealRow := {|
  t_name := "ota_period_seals"; t_rows db := bt_seals (db_billing db);
  t_put rows db := db <| db_billing ::= fun t => t <| bt_seals := rows |> |>;
  t_conflict a b := same_seal (srow_Seal a) (srow_Seal b)
    || (seal_SealID (srow_Seal a) == seal_SealID (srow_Seal b));
  t_check r := let s := srow_Seal r in
    negb match seal_SourceHighWater s with JNull => true | _ => false end
    && bool_decide (is_Some (seal_ProductIDs s)) && bool_decide (is_Some (seal_MetricCounts s))
    && lower_sha256 (seal_SourceSHA256 s) && lower_sha256 (srow_ContentSHA256 r)
    && (seal_PeriodStart s <? seal_PeriodEnd s)
    && (((seal_IssuerKind s == "platform_grants") && bool_decide (seal_FactSetSHA256 s = None))
        || ((seal_IssuerKind s == "ota_producer")
            && match seal_FactSetSHA256 s with Some d => lower_sha256 d | None => false end));
  t_touch now r := r |}.

(** ** Triggers *)

(** The TWD account of an organization. *)
Definition org_account (db : Db) (organizationID : string) : option string :=
  account_ID <$> find (by_organization organizationID TWD) (db_accounts db).

(** Triggers [closed_cloud_*] and [handoff_*_commit_barrier] of a table. *)
Definition financial_barrier (account : Db → option string) : M unit :=
  let fenced (f : Db → string → bool) db :=
    match account db with Some a => f db a | None => false end in
  _ ← closure_barrier (fenced closure_closed);
  handoff_barrier (fenced commit_fenced).

(** [EXISTS(... state IN ('closing','closed') AND ... && ...)] *)
Definition usage_locked (db : Db) (organizationID : string) (start end_ : Time) : bool :=
  existsb (fun p => (bperiod_OrganizationID p == organizationID)
      && one_of (bperiod_State p) ["closing"; "closed"]
      && ranges_overlap (bperiod_Start p) (bperiod_End p) start end_) (bt_periods (db_billing db)).

(** PostgreSQL refuses a text with a NUL byte. *)
Definition storable (f : UsageFact) : bool :=
  forallb (fun s => negb (has_nul s)) [fact_UsageID f; fact_OrganizationID f; fact_ProductID f;
    fact_ServiceCode f; fact_MetricCode f; fact_Unit f; fact_Source f].

(** Triggers [closed_cloud_usage], [handoff_usage_commit_barrier] and
    [usage_period_barrier], and [ON CONFLICT (usage_id) DO NOTHING]. *)
Definition insert_usage (r : UsageRow) : M UsageRow :=
  let f := urow_Fact r in
  _ ← require_that (storable f) (ErrPg "22021" "");
  _ ← financial_barrier (fun db => org_account db (fact_OrganizationID f));
  _ ← barrier "billing_usage_period_barrier" (fun db =>
        usage_locked db (fact_OrganizationID f) (fact_WindowStart f) (fact_WindowEnd f));
  insert_or_nothing (fun a b => fact_UsageID (urow_Fact a) == fact_UsageID (urow_Fact b)) r.

(** [INSERT INTO billing_periods ... ON CONFLICT ... DO UPDATE], with its triggers. *)
Definition upsert_period (p : BillingPeriod) : M BillingPeriod :=
  _ ← financial_barrier (fun db => org_account db (bperiod_OrganizationID p));
  found ← exists_row (same_period p);
  if found : bool then
    update_one (same_period p) (fun old =>
      if bperiod_State old == "closed" then old <| bperiod_UpdatedAt := bperiod_UpdatedAt p |>
      else old <| bperiod_State := "closing" |> <| bperiod_CloseErrorCode := "" |>
               <| bperiod_UpdatedAt := bperiod_UpdatedAt p |>)
  else insert_row p.

Definition update_periods_where (p : BillingPeriod → bool) (f : BillingPeriod → BillingPeriod) :
    M (list BillingPeriod) :=
  _ ← financial_barrier (fun db =>
        find p (bt_periods (db_billing db)) ≫= fun b => org_account db (bperiod_OrganizationID b));
  update_rows p f.

Definition insert_invoice (i : Invoice) : M Invoice :=
  _ ← financial_barrier (fun _ => Some (inv_AccountID i));
  insert_row i.

(** The account of a stored invoice. *)
Definition invoice_account (invoiceID : string) (db : Db) : option string :=
  inv_AccountID <$> find (fun i => inv_ID i == invoiceID) (bt_invoices (db_billing db)).

Definition update_invoice (invoiceID : string) (p : Invoice → bool) (f : Invoice → Invoice) :
    M (list Invoice) :=
  let p i := (inv_ID i == invoiceID) && p i in
  _ ← financial_barrier (fun db => if existsb p (bt_invoices (db_billing db))
                                    then invoice_account invoiceID db else None);
  update_rows p f.

(** [INSERT INTO invoice_settlement_links ... ON CONFLICT (invoice_id) DO UPDATE]:
    a ledger entry that is set stays. *)
Definition upsert_link (l : SettlementLink) : M unit :=
  _ ← financial_barrier (invoice_account (link_InvoiceID l));
  found ← exists_row (fun k => link_InvoiceID k == link_InvoiceID l);
  if found : bool then
    _ ← update_rows (fun k => link_InvoiceID k == link_InvoiceID l) (fun k =>
      mkSettlementLink (link_InvoiceID k)
        (if link_LedgerEntryID k == "" then link_LedgerEntryID l else link_LedgerEntryID k)
        "posted" (link_AttemptCount k) (link_UpdatedAt l));
    mret tt
  else _ ← insert_row l; mret tt.
