(* ===== verification/Pricing.v ===== *)
(** * Price versions: [pricing.go], [ota_pricing_draft.go], [ota_pricing_review.go]

    Drafting a price version with its rates, publishing it on the time line of its
    currency (directly, or as a reviewed OTA card), and looking up the version in
    force.  Publication is serialized by an advisory lock, so a transaction is a step;
    an instant read from the database is written back unchanged. *)
From S2P Require Import Prelude GoStrings GoTime BillingTypes Ota PaymentTypes Payment Database.
From S2P Require Import Tables Keeps Accounts Settlement Protocols BillingSchema.

Record CreatePricingVersionInput := mkCreatePricingVersionInput {
  cpv_PlanKey : string;
  cpv_Version : Z;
  cpv_Currency : Code;
  cpv_EffectiveFrom : Time;
  cpv_Rates : list PricingRate;
  cpv_TaxMode : TaxCalculationMode;
  cpv_InvoiceTaxRateBasisPoints : option Z;
  cpv_InvoiceTaxRoundingMode : RoundingMode;
  cpv_InvoiceTaxCategory : string;
  cpv_CreatedBy : string;
  cpv_Now : Time
}.

Record ReviewedOTAPublication := mkReviewedOTAPublication {
  reviewed_BaseVersionID : string;
  reviewed_RateSetSHA256 : string;
  reviewed_FirstReviewer : string;
  reviewed_SecondReviewer : string;
  reviewed_ApprovedAt : Time
}.

Record CreateOTAPricingDraftInput := mkCreateOTAPricingDraftInput {
  otadraft_BaseVersionID : string;
  otadraft_EffectiveFrom : Time;
  otadraft_CreatedBy : string;
  otadraft_CandidateRates : list PricingRate;
  otadraft_ReviewedRateSetSHA256 : string
}.

(** [mapNotFound] of the billing store. *)
Definition bmap (e : GoError) : GoError := match e with ErrNoRows => ErrBillingNotFound | _ => e end.
Definition bscan {A} (m : M A) : M A := fun db =>
  match m db with Ok r => Ok r | Err e => Err (bmap e) end.

(** The error of a computation as a value: [v, err := m]. *)
Definition attempt {A} (m : M A) : M (Result A) := fun db =>
  match m db with Ok (a, db') => Ok (Ok a, db') | Err e => Ok (Err e, db) end.

(** ** Reading *)

Definition published (v : PricingVersion) : bool := one_of (pricing_Status v) ["active"; "retired"].
Definition until_after (v : PricingVersion) (t : Time) : bool :=
  match pricing_EffectiveUntil v with None => true | Some u => t <? u end.
(** The interval of a published version covers an instant. *)
Definition in_force (code : Code) (at_ : Time) (v : PricingVersion) : bool :=
  published v && (pricing_Currency v == code) && (pricing_EffectiveFrom v <=? at_) && until_after v at_.
(** A published version that starts later. *)
Definition upcoming (code : Code) (after : Time) (v : PricingVersion) : bool :=
  (pricing_Currency v == code) && published v && (after <? pricing_EffectiveFrom v).

Definition listPricingRates (db : Db) (versionID : string) : list PricingRate :=
  by_id rate_ServiceCode (by_id rate_MetricCode (by_id rate_Unit
    (filter (fun r => rate_PricingVersionID r = versionID) (bt_rates (db_billing db))))).

Definition GetPricingVersion (id : string) : M PricingVersion :=
  v ← bscan (select (fun v => pricing_ID v == id));
  rates ← gets (fun db => listPricingRates db (pricing_ID v));
  mret (v <| pricing_Rates := rates |>).

(** One row of [LIMIT 2], or an error when there is none or a second one. *)
Definition the_version (rows : list PricingVersion) : M PricingVersion :=
  match rows with
  | [] => throw ErrPricingUnavailable
  | [v] => GetPricingVersion (pricing_ID v)
  | _ => throw ErrBillingConflict
  end.

Section pricing.
Context {pg : Postgres} {dg : Digest}.

Definition ActivePricingVersion (at_ : Time) (code : Code) : M PricingVersion :=
  rows ← gets (fun db => filter (fun v => in_force code (pg_time at_) v = true) (bt_versions (db_billing db)));
  the_version rows.

Definition UpcomingPricingVersion (after : Time) (code : Code) : M PricingVersion :=
  rows ← gets (fun db => filter (fun v => upcoming code (pg_time after) v = true) (bt_versions (db_billing db)));
  the_version rows.

(** ** Drafting *)

(** [strings.TrimSpace(category)], NULL when blank. *)
Definition nullableTaxCategory (category : string) : string := TrimSpace category.

Definition tax_policy_ok (mode : TaxCalculationMode) (rate : option Z) (rounding : RoundingMode)
    (category : string) : bool :=
  if mode == TaxModeLine then
    negb (bool_decide (is_Some rate) || (rounding != "") || (category != ""))
  else negb ((mode != TaxModeInvoiceTotal)
    || match rate with None => true | Some r => (r <? 0) || (r >? 10000) end
    || ((rounding != RoundingHalfUp) && (rounding != RoundingDown) && (rounding != RoundingUp))
    || (TrimSpace category == "")).

Definition rate_ok (rate : PricingRate) : bool :=
  negb (negb (required (rate_ServiceCode rate)) || negb (required (rate_MetricCode rate))
        || negb (required (rate_Description rate)) || negb (required (rate_Unit rate))
        || (rate_UnitPriceMinor rate <? 0) || (rate_UnitPriceScale rate <? 0)
        || (rate_UnitPriceScale rate >? 9) || (rate_TaxRateBasisPoints rate <? 0)
        || (rate_TaxRateBasisPoints rate >? 10000))
  && match rate_QuantityScale rate with None => true | Some s => negb ((s <? 0) || (s >? 9)) end
  && match rate_TaxCategory rate with None => true | Some c => TrimSpace c != "" end.

(** The rate as it is returned: category trimmed, rounding set, version and row. *)
Definition normal_rate (id versionID : string) (rate : PricingRate) : PricingRate :=
  mkPricingRate id versionID (rate_ServiceCode rate) (rate_MetricCode rate) (rate_Description rate)
    (rate_Unit rate) (rate_UnitPriceMinor rate) (rate_UnitPriceScale rate) (rate_QuantityScale rate)
    (if rate_RoundingMode rate == "" then RoundingHalfUp else rate_RoundingMode rate)
    (TrimSpace <$> rate_TaxCategory rate) (rate_TaxRateBasisPoints rate).
(** The row: the texts trimmed. *)
Definition rate_row (rate : PricingRate) : PricingRate :=
  mkPricingRate (rate_ID rate) (rate_PricingVersionID rate) (TrimSpace (rate_ServiceCode rate))
    (TrimSpace (rate_MetricCode rate)) (TrimSpace (rate_Description rate)) (TrimSpace (rate_Unit rate))
    (rate_UnitPriceMinor rate) (rate_UnitPriceScale rate) (rate_QuantityScale rate)
    (rate_RoundingMode rate) (rate_TaxCategory rate) (rate_TaxRateBasisPoints rate).

Fixpoint insert_rates (versionID : string) (rates : list PricingRate) : M (list PricingRate) :=
  match rates with
  | [] => mret []
  | rate :: rates =>
      _ ← require_that (rate_ok rate) ErrBillingConflict;
      id ← fresh;
      let rate := normal_rate id versionID rate in
      _ ← insert_row (rate_row rate);
      rest ← insert_rates versionID rates;
      mret (rate :: rest)
  end.

Definition createPricingVersionTx (in_ : CreatePricingVersionInput) (mode : TaxCalculationMode) (now : Time) :
    M (Outcome PricingVersion) :=
  id ← fresh;
  v ← insert_row (mkPricingVersion id (TrimSpace (cpv_PlanKey in_)) (cpv_Version in_) (cpv_Currency in_)
        "draft" (pg_time (UTC (cpv_EffectiveFrom in_))) None None (pg_time now) mode
        (cpv_InvoiceTaxRateBasisPoints in_) (cpv_InvoiceTaxRoundingMode in_)
        (nullableTaxCategory (cpv_InvoiceTaxCategory in_)) []);
  rates ← insert_rates id (cpv_Rates in_);
  mret (Committed (v <| pricing_Rates := rates |>)).

Definition CreatePricingVersion (in_ : CreatePricingVersionInput) : M PricingVersion :=
  _ ← require_that (negb (negb (required (cpv_PlanKey in_)) || (cpv_Version in_ <? 1)
         || negb (CanSettle (cpv_Currency in_)) || IsZero (cpv_EffectiveFrom in_)
         || negb (required (cpv_CreatedBy in_)) || bool_decide (cpv_Rates in_ = []))) ErrBillingConflict;
  now ← default_now (cpv_Now in_);
  let mode := if cpv_TaxMode in_ == "" then TaxModeLine else cpv_TaxMode in_ in
  _ ← require_that (tax_policy_ok mode (cpv_InvoiceTaxRateBasisPoints in_) (cpv_InvoiceTaxRoundingMode in_)
         (cpv_InvoiceTaxCategory in_)) ErrBillingConflict;
  withTx (createPricingVersionTx in_ mode now).

(** ** Review of a candidate card *)

Definition canonical_json (r : canonicalRate) : json_value :=
  JObject [("service_code", JString (canon_ServiceCode r)); ("metric_code", JString (canon_MetricCode r));
    ("unit", JString (canon_Unit r)); ("description", JString (canon_Description r));
    ("unit_price_minor", JNumber (canon_UnitPriceMinor r)); ("unit_price_scale", JNumber (canon_UnitPriceScale r));
    ("quantity_scale", JNumber (canon_QuantityScale r)); ("rounding_mode", JString (canon_RoundingMode r));
    ("tax_category", JString (canon_TaxCategory r)); ("tax_rate_basis_points", JNumber (canon_TaxRateBasisPoints r))].
Definition rate_set_sha256 (ordered : list canonicalRate) : string :=
  sha256_hex (json_text (JArray (canonical_json <$> ordered))).
Definition review_card (baseID : string) (base candidate : list PricingRate) : Result OTACardReview :=
  ReviewOTACandidateRates rate_set_sha256 baseID base candidate.

(** The first instant of the UTC month of [t]. *)
Definition month_start (t : Time) : Time := Date (Year t 0) (Month t 0) 1 0.

Definition ReviewOTACandidate (baseVersionID : string) (effectiveFrom : Time) (rates : list PricingRate) :
    M (Time * Time * PricingVersion * OTACardReview) :=
  _ ← require_that (negb (negb (required baseVersionID) || IsZero effectiveFrom || bool_decide (rates = [])))
        ErrBillingConflict;
  withTx (observedAt ← gets db_now;
          let cutover := UTC effectiveFrom in
          _ ← require_that (negb (negb (After cutover observedAt) || negb (Equal cutover (month_start cutover))))
                ErrBillingConflict;
          current ← ActivePricingVersion observedAt TWD;
          _ ← require_that (pricing_ID current == baseVersionID) ErrBillingConflict;
          pending ← exists_row (upcoming TWD (pg_time observedAt));
          _ ← require_that (negb pending) ErrBillingConflict;
          review ← lift (review_card (pricing_ID current) (pricing_Rates current) rates);
          mret (Committed (observedAt, cutover, current, review))).

(** ** Publication *)

Definition reviewed_scope : string := "commercial_active_product_ota".

(** The four approved rates, in the category of the review. *)
Definition standard_ota_rates : list PricingRate :=
  (fun r => mkPricingRate (rate_ID r) (rate_PricingVersionID r) (rate_ServiceCode r) (rate_MetricCode r)
     (rate_Description r) (rate_Unit r) (rate_UnitPriceMinor r) (rate_UnitPriceScale r) (rate_QuantityScale r)
     (rate_RoundingMode r) (Some "standard") (rate_TaxRateBasisPoints r)) <$> ProposedOTARates.
Definition standard_category (r : PricingRate) : bool := rate_TaxCategory r == Some "standard".

(** [CreateOTAPricingDraft]: the version and the digest of its rate set. *)
Definition createOTAPricingDraftTx (in_ : CreateOTAPricingDraftInput) : M (Outcome (PricingVersion * string)) :=
  now ← gets db_now;
  let cutover := UTC (otadraft_EffectiveFrom in_) in
  _ ← require_that (negb (negb (Equal cutover (month_start cutover)) || negb (After cutover (UTC now))))
        ErrBillingConflict;
  found ← attempt (ActivePricingVersion (UTC now) TWD);
  match found with
  | Err _ => throw ErrBillingConflict
  | Ok base =>
      _ ← require_that (negb ((pricing_ID base != otadraft_BaseVersionID in_)
             || (pricing_Version base =? maxInt64))) ErrBillingConflict;
      pending ← exists_row (upcoming TWD (pg_time now));
      _ ← require_that (negb pending) ErrBillingConflict;
      let candidate := otadraft_CandidateRates in_ in
      let digest := otadraft_ReviewedRateSetSHA256 in_ in
      _ ← require_that (if bool_decide (candidate = []) then digest == "" else TrimSpace digest != "")
            ErrBillingConflict;
      let rates := if bool_decide (candidate = []) then pricing_Rates base ++ standard_ota_rates
                   else candidate in
      _ ← require_that (forallb standard_category rates) ErrBillingConflict;
      match review_card (pricing_ID base) (pricing_Rates base) rates with
      | Err _ => throw ErrBillingConflict
      | Ok review =>
          _ ← require_that (negb ((digest != "") && (review_RateSetSHA256 review != digest))) ErrBillingConflict;
          version ← CreatePricingVersion (mkCreatePricingVersionInput (pricing_PlanKey base)
            (pricing_Version base + 1) TWD cutover rates TaxModeInvoiceTotal (Some 500) RoundingHalfUp
            "standard" (otadraft_CreatedBy in_) (UTC now));
          _ ← insert_row (mkPricingDraft (pricing_ID version) (pricing_ID base) (review_RateSetSHA256 review)
                reviewed_scope (pg_time cutover));
          mret (Committed (version, review_RateSetSHA256 review))
      end
  end.

Definition CreateOTAPricingDraft (in_ : CreateOTAPricingDraftInput) : M (PricingVersion * string) :=
  _ ← require_that (negb (negb (required (otadraft_BaseVersionID in_)) || negb (required (otadraft_CreatedBy in_))
         || IsZero (otadraft_EffectiveFrom in_))) ErrBillingConflict;
  withTx (createOTAPricingDraftTx in_).

(** The conditions on the version and its approval that need no further rows. *)
Definition approval_terms (v : PricingVersion) (rates : list PricingRate) (a : ReviewedOTAPublication)
    (now : Time) : bool :=
  negb (negb (OTAPricingState rates).1 || (pricing_Currency v != TWD)
        || (pricing_TaxMode v != TaxModeInvoiceTotal)
        || (pricing_InvoiceTaxRateBasisPoints v != Some 500)
        || (pricing_InvoiceTaxRoundingMode v != RoundingHalfUp)
        || (pricing_InvoiceTaxCategory v != "standard")
        || negb (required (reviewed_BaseVersionID a)) || negb (required (reviewed_FirstReviewer a))
        || negb (required (reviewed_SecondReviewer a))
        || (TrimSpace (reviewed_FirstReviewer a) == TrimSpace (reviewed_SecondReviewer a))
        || IsZero (reviewed_ApprovedAt a) || After (reviewed_ApprovedAt a) (UTC now)
        || negb (otaDigest (reviewed_RateSetSHA256 a)))
  && forallb standard_category rates.

(** The review of the stored draft against the card now in force. *)
Definition check_approval (v : PricingVersion) (rates : list PricingRate) (a : ReviewedOTAPublication)
    (now : Time) : M unit :=
  _ ← require_that (approval_terms v rates a now) ErrBillingConflict;
  base ← attempt (ActivePricingVersion (UTC now) (pricing_Currency v));
  match base with
  | Err _ => throw ErrBillingConflict
  | Ok base =>
      _ ← require_that (pricing_ID base == reviewed_BaseVersionID a) ErrBillingConflict;
      _ ← require_that match review_card (pricing_ID base) (pricing_Rates base) rates with
            | Ok r => review_RateSetSHA256 r == reviewed_RateSetSHA256 a
            | Err _ => false
            end ErrBillingConflict;
      draft ← attempt (select (fun d => draft_PricingVersionID d == pricing_ID v));
      require_that match draft with
        | Ok d => (draft_BaseVersionID d == reviewed_BaseVersionID a)
            && (draft_RateSetSHA256 d == reviewed_RateSetSHA256 a)
            && (draft_ScopeCode d == reviewed_scope)
            && Equal (draft_EffectiveFrom d) (pricing_EffectiveFrom v)
        | Err _ => false
        end ErrBillingConflict
  end.

(** The published versions whose interval is not over at [from]. *)
Definition not_over (code : Code) (id : string) (from : Time) (v : PricingVersion) : bool :=
  (pricing_Currency v == code) && (pricing_ID v != id) && published v && until_after v from.

(** The loop over them: at most one, still active, that starts earlier. *)
Definition predecessor (scheduled : bool) (from now : Time) (rows : list PricingVersion) :
    Result (option PricingVersion) :=
  fold_result (fun prev v =>
      if bool_decide (is_Some prev) || (pricing_Status v != "active")
         || negb (After from (pricing_EffectiveFrom v))
         || (scheduled && After (pricing_EffectiveFrom v) (UTC now))
      then Err ErrBillingConflict else Ok (Some v)) rows None.

(** [ORDER BY effective_from DESC LIMIT 1] *)
Definition last_before (code : Code) (from : Time) (versions : list PricingVersion) : option PricingVersion :=
  head (sort_stable (fun a b => pricing_EffectiveFrom b <? pricing_EffectiveFrom a)
    (filter (fun v => (pricing_Currency v == code) && published v && (pricing_EffectiveFrom v <? from) = true)
       versions)).

(** The interval chain is extended at its end: a predecessor is retired at [from],
    else the last version must end there. *)
Definition end_predecessor (v : PricingVersion) (approval : option ReviewedOTAPublication)
    (prev : option PricingVersion) : M unit :=
  let from := pricing_EffectiveFrom v in
  match prev with
  | None =>
      last ← gets (fun db => last_before (pricing_Currency v) from (bt_versions (db_billing db)));
      require_that match last with None => true | Some l => pricing_EffectiveUntil l == Some from end
        ErrBillingConflict
  | Some p =>
      _ ← require_that match approval with
            | Some a => pricing_ID p == reviewed_BaseVersionID a
            | None => true
            end ErrBillingConflict;
      invoiced ← exists_row (fun i => (inv_PricingVersionID i == pricing_ID p) && (from <=? inv_PeriodStart i));
      _ ← require_that (negb invoiced) ErrBillingConflict;
      _ ← update_rows (fun x => pricing_ID x == pricing_ID p)
            (fun x => x <| pricing_Status := "retired" |> <| pricing_EffectiveUntil := Some from |>);
      mret tt
  end.

Definition record_publication (v : PricingVersion) (a : ReviewedOTAPublication) (now : Time) : M unit :=
  _ ← insert_row (mkPricingPublication (pricing_ID v) (reviewed_BaseVersionID a) (reviewed_RateSetSHA256 a)
        (TrimSpace (reviewed_FirstReviewer a)) (TrimSpace (reviewed_SecondReviewer a))
        (pg_time (reviewed_ApprovedAt a)) (pg_time now) (pricing_EffectiveFrom v));
  mret tt.

(** The place in the calendar: a future version starts with a month, and only one may
    be pending. *)
Definition check_schedule (v : PricingVersion) (scheduled reviewed : bool) (now : Time) : M unit :=
  _ ← require_that (negb (reviewed && negb scheduled)) ErrBillingConflict;
  _ ← require_that (negb (scheduled && negb (Equal (pricing_EffectiveFrom v) (month_start (pricing_EffectiveFrom v)))))
        ErrBillingConflict;
  pending ← exists_row (upcoming (pricing_Currency v) (pg_time now));
  require_that (negb pending) ErrBillingConflict.

Definition activatePricingVersionTx (id : string) (now : Time) (approval : option ReviewedOTAPublication) :
    M (Outcome unit) :=
  v ← bscan (select (fun v => pricing_ID v == id));
  _ ← require_that (negb ((pricing_Status v != "draft") || negb (CanSettle (pricing_Currency v)))) ErrBillingConflict;
  _ ← require_that (negb (bool_decide (approval = None) && (pricing_TaxMode v == TaxModeInvoiceTotal)))
        ErrBillingConflict;
  rates ← gets (fun db => listPricingRates db id);
  let '(otaEnabled, otaComplete) := OTAPricingState rates in
  _ ← require_that otaComplete ErrBillingConflict;
  _ ← require_that (negb (bool_decide (approval = None) && otaEnabled)) ErrBillingConflict;
  _ ← match approval with Some a => check_approval v rates a now | None => mret tt end;
  let from := pricing_EffectiveFrom v in
  let scheduled := After from (UTC now) in
  _ ← check_schedule v scheduled (bool_decide (is_Some approval)) now;
  rows ← gets (fun db => filter (fun x => not_over (pricing_Currency v) id from x = true)
                           (bt_versions (db_billing db)));
  prev ← lift (predecessor scheduled from now rows);
  _ ← require_that (negb (scheduled && bool_decide (prev = None))) ErrBillingConflict;
  _ ← end_predecessor v approval prev;
  _ ← match approval with Some a => record_publication v a now | None => mret tt end;
  _ ← update_rows (fun x => (pricing_ID x == id) && (pricing_Status x == "draft"))
        (fun x => x <| pricing_Status := "active" |> <| pricing_ActivatedAt := Some (pg_time now) |>);
  mret (Committed tt).

Definition activatePricingVersion (id : string) (now : Time) (approval : option ReviewedOTAPublication) :
    M PricingVersion :=
  _ ← require_that (required id) ErrBillingConflict;
  _ ← withTx (activatePricingVersionTx id now approval);
  GetPricingVersion id.

Definition ActivatePricingVersion (id : string) (now : Time) : M PricingVersion :=
  activatePricingVersion id now None.
Definition PublishReviewedOTAPricingVersion (id : string) (now : Time) (a : ReviewedOTAPublication) :
    M PricingVersion :=
  activatePricingVersion id now (Some a).
End pricing.
