(* ===== verification/Usage.v ===== *)
(** * Usage facts and source seals: the usage half of [pricing.go], [ota_period_seals.go],
      [ota_grant_verification.go], [ota_account_eligibility.go], [privacy.go]

    Accepting a usage fact once and for ever, reading the facts of a window, the seals
    by which two sources attest a month, and what must hold before OTA usage is billed.
    [PutUsageFact] has one writing statement, whose triggers repeat its checks. *)
From S2P Require Import Prelude GoStrings GoTime BillingTypes Ota PaymentTypes Payment Database.
From S2P Require Import Tables Keeps Accounts Settlement Protocols BillingSchema Pricing.

(** The services of other programs that the store asks, when configured, and the parse of
    [pgtype.UUID]: the canonical text of a UUID. *)
Class BillingExternal := {
  pgtype_uuid : string → option string;
  VerifyOTAGrant : option (string → string → OTAGrantEvidence → bool);
  VerifyCommercialMonth : option (string → Time → Time → bool)
}.

(** ** [privacy.go] *)
Section visibility.
Context {pg : Postgres}.

(** A read by a tenant: its authority is checked under the account lock. *)
Definition tenantRead {A} (ctx : Ctx) (organizationID : string) (read : M A) : M A :=
  match ctx with
  | None => read
  | Some scope =>
      _ ← require_that (scope_OrganizationID scope == organizationID) ErrIdentityDenied;
      withTx (_ ← LockAccount ctx (scope_AccountID scope); a ← read; mret (Committed a))
  end.

(** [upper <= COALESCE(p.effective_until,'infinity')] *)
Definition ends_within (p : ResponsibilityPeriod) (upper : Time) : bool :=
  match period_EffectiveUntil p with None => true | Some t => upper <=? t end.

Definition usageVisibility (ctx : Ctx) (db : Db) (f : UsageFact) : bool :=
  match ctx with
  | None => true
  | Some scope => existsb (fun p => (period_AccountID p == scope_AccountID scope)
      && (period_OwnerUserID p == scope_UserID scope)
      && (period_EffectiveFrom p <=? fact_WindowStart f) && ends_within p (fact_WindowEnd f)) (db_periods db)
  end.

(** [recipient_snapshot->>'ownership_version' = p.ownership_version] *)
Definition invoiceVisibility (ctx : Ctx) (db : Db) (i : Invoice) : bool :=
  match ctx with
  | None => true
  | Some scope => existsb (fun p => (period_AccountID p == inv_AccountID i)
      && (period_OwnerUserID p == scope_UserID scope) && (period_AccountID p == scope_AccountID scope)
      && (profile_OwnershipVersion (inv_Recipient i) == Some (period_OwnershipVersion p))
      && (period_EffectiveFrom p <=? inv_PeriodStart i) && ends_within p (inv_PeriodEnd i)) (db_periods db)
  end.
End visibility.

(** ** Facts *)

(** [*a == *b] of two optional pieces of evidence, times compared with [Equal]. *)
Definition sameOTAGrant (a b : option OTAGrantEvidence) : bool :=
  match a, b with
  | Some a, Some b => (grant_ProductServiceRevision a =? grant_ProductServiceRevision b)
      && (grant_ServiceGrantSHA256 a == grant_ServiceGrantSHA256 b)
      && Equal (grant_AuthorizedAt a) (grant_AuthorizedAt b)
  | None, None => true
  | _, _ => false
  end.
Definition sameOTAStorageObject (a b : option OTAStorageObjectEvidence) : bool :=
  match a, b with
  | Some a, Some b => (object_ObjectSHA256 a == object_ObjectSHA256 b)
      && (object_ByteMicroseconds a == object_ByteMicroseconds b)
  | None, None => true
  | _, _ => false
  end.
Definition sameUsageFact (a b : UsageFact) : bool :=
  (fact_UsageID a == fact_UsageID b) && (fact_OrganizationID a == fact_OrganizationID b)
  && (fact_ProductID a == fact_ProductID b) && (fact_ServiceCode a == fact_ServiceCode b)
  && (fact_MetricCode a == fact_MetricCode b) && (fact_Quantity a =? fact_Quantity b)
  && (fact_QuantityScale a =? fact_QuantityScale b) && (fact_Unit a == fact_Unit b)
  && Equal (fact_WindowStart a) (fact_WindowStart b) && Equal (fact_WindowEnd a) (fact_WindowEnd b)
  && (fact_Source a == fact_Source b) && (fact_SourceSHA256 a == fact_SourceSHA256 b)
  && sameOTAGrant (fact_OTAGrant a) (fact_OTAGrant b)
  && sameOTAStorageObject (fact_OTAStorageObject a) (fact_OTAStorageObject b).

(** [new(big.Int).SetString(s, 10)] *)
Definition digits_value (s : string) : Z :=
  foldl (fun n c => 10 * n + (Z.of_N c - 48)) 0 (bytes_of s).
Definition SetString10 (s : string) : option Z :=
  let number digits := if (digits != "") && all_digits digits then Some (digits_value digits) else None in
  match bytes_of s with
  | 45%N :: rest => Z.opp <$> number (of_bytes rest)
  | 43%N :: rest => number (of_bytes rest)
  | _ => number s
  end.
(** The value of a text that is the decimal form of a number that is not negative. *)
Definition canonical_amount (s : string) : option Z :=
  match SetString10 s with
  | Some v => if (v <? 0) || (pretty v != s) then None else Some v
  | None => None
  end.

(** The calendar readings of [start] are taken in its own location, [offset] east of UTC. *)
Definition otaUTCMonth (offset : Duration) (start end_ : Time) : bool :=
  if IsZero start || IsZero end_ then false else
  let monthStart := Date (Year start offset) (Month start offset) 1 0 in
  Equal start monthStart && Equal end_ (AddDate monthStart 1 0 0).

Section usage.
Context {pg : Postgres} {dg : Digest} {bx : BillingExternal}.

(** [otaUUID]: canonical, and not the nil UUID. *)
Definition otaUUID (value : string) : Result string :=
  match pgtype_uuid value with
  | Some text => if text == "00000000-0000-0000-0000-000000000000" then Err ErrBillingConflict else Ok text
  | None => Err ErrBillingConflict
  end.

Definition usage_fields_ok (f : UsageFact) : bool :=
  negb (negb (required (fact_UsageID f)) || negb (required (fact_OrganizationID f))
    || negb (required (fact_ServiceCode f)) || negb (required (fact_MetricCode f))
    || negb (required (fact_Unit f)) || negb (required (fact_Source f))
    || negb (len (fact_SourceSHA256 f) =? 64) || (fact_Quantity f <? 0)
    || (fact_QuantityScale f <? 0) || (fact_QuantityScale f >? 9)
    || negb (After (fact_WindowEnd f) (fact_WindowStart f)))
  && hex_text (fact_SourceSHA256 f).

(** A grant belongs to a task, a download, a write, or one stored object. *)
Definition grant_ok (f : UsageFact) (g : OTAGrantEvidence) : bool :=
  negb ((fact_ServiceCode f != ServiceOTA)
    || ((fact_MetricCode f != MetricOTADeviceTask) && (fact_MetricCode f != MetricOTASuccessfulDownloadGiB)
        && (fact_MetricCode f != MetricOTAArtifactWrite)
        && ((fact_MetricCode f != MetricOTAArtifactStorageGiBMonth)
            || bool_decide (fact_OTAStorageObject f = None)))
    || (grant_ProductServiceRevision g <? 1) || negb (otaDigest (grant_ServiceGrantSHA256 g))
    || IsZero (grant_AuthorizedAt g)).
Definition object_ok (offset : Duration) (f : UsageFact) (o : OTAStorageObjectEvidence) : bool :=
  negb ((fact_ServiceCode f != ServiceOTA) || (fact_MetricCode f != MetricOTAArtifactStorageGiBMonth)
    || bool_decide (fact_OTAGrant f = None) || negb (otaDigest (object_ObjectSHA256 o))
    || (len (object_ByteMicroseconds o) >? 40)
    || bool_decide (canonical_amount (object_ByteMicroseconds o) = None)
    || negb (otaUTCMonth offset (fact_WindowStart f) (fact_WindowEnd f))).

Definition truncate_grant (g : OTAGrantEvidence) : OTAGrantEvidence :=
  mkOTAGrantEvidence (grant_ProductServiceRevision g) (grant_ServiceGrantSHA256 g)
    (databaseTime (grant_AuthorizedAt g)).

Definition with_ids (f : UsageFact) (organizationID productID : string) : UsageFact :=
  mkUsageFact (fact_ID f) (fact_UsageID f) organizationID productID (fact_ServiceCode f) (fact_MetricCode f)
    (fact_Quantity f) (fact_QuantityScale f) (fact_Unit f) (fact_WindowStart f) (fact_WindowEnd f)
    (fact_Source f) (ToLower (fact_SourceSHA256 f)) (fact_OTAGrant f) (fact_OTAStorageObject f).
Definition with_evidence (f : UsageFact) : UsageFact :=
  mkUsageFact (fact_ID f) (fact_UsageID f) (fact_OrganizationID f) (fact_ProductID f) (fact_ServiceCode f)
    (fact_MetricCode f) (fact_Quantity f) (fact_QuantityScale f) (fact_Unit f)
    (databaseTime (fact_WindowStart f)) (databaseTime (fact_WindowEnd f))
    (fact_Source f) (fact_SourceSHA256 f) (truncate_grant <$> fact_OTAGrant f) (fact_OTAStorageObject f).

(** The fact as it is stored, up to its row. *)
Definition normalize_usage (offset : Duration) (fact : UsageFact) : Result UsageFact :=
  _ ← guard_err (usage_fields_ok fact) ErrBillingConflict;
  organizationID ← otaUUID (fact_OrganizationID fact);
  productID ← (if fact_ProductID fact == "" then Ok "" else otaUUID (fact_ProductID fact));
  let fact := with_ids fact organizationID productID in
  _ ← guard_err (ValidOTAUsageFact fact) ErrBillingConflict;
  _ ← guard_err match fact_OTAGrant fact with Some g => grant_ok fact g | None => true end ErrBillingConflict;
  _ ← guard_err match fact_OTAStorageObject fact with Some o => object_ok offset fact o | None => true end
        ErrBillingConflict;
  let fact := with_evidence fact in
  _ ← guard_err (negb (IsZero (fact_WindowStart fact)
                       || negb (After (fact_WindowEnd fact) (fact_WindowStart fact)))) ErrBillingConflict;
  Ok fact.

Definition usage_row (id : string) (f : UsageFact) : UsageFact :=
  mkUsageFact id (fact_UsageID f) (fact_OrganizationID f) (fact_ProductID f) (fact_ServiceCode f)
    (fact_MetricCode f) (fact_Quantity f) (fact_QuantityScale f) (fact_Unit f)
    (pg_time (fact_WindowStart f)) (pg_time (fact_WindowEnd f)) (fact_Source f) (fact_SourceSHA256 f)
    ((fun g => mkOTAGrantEvidence (grant_ProductServiceRevision g) (grant_ServiceGrantSHA256 g)
                 (pg_time (grant_AuthorizedAt g))) <$> fact_OTAGrant f) (fact_OTAStorageObject f).

Definition getUsageFact (ctx : Ctx) (usageID : string) : M UsageFact :=
  db ← gets id;
  r ← bscan (select (fun r => (fact_UsageID (urow_Fact r) == usageID)
        && match ctx with
           | None => true
           | Some scope => (fact_OrganizationID (urow_Fact r) == scope_OrganizationID scope)
               && usageVisibility ctx db (urow_Fact r)
           end));
  mret (urow_Fact r).
Definition GetUsageFact (ctx : Ctx) (usageID : string) : M UsageFact :=
  tenantRead ctx (match ctx with Some s => scope_OrganizationID s | None => "" end) (getUsageFact ctx usageID).

(** The insertion: whether it created the row. *)
Definition store_usage (fact : UsageFact) : M bool := fun db =>
  match (id ← fresh; now ← gets db_now; insert_usage (mkUsageRow (usage_row id fact) now)) db with
  | Ok (_, db') => Ok (true, db')
  | Err ErrNoRows => Ok (false, db)
  | Err (ErrPg code constraint) =>
      if constraint == "billing_usage_period_barrier" then Err ErrInvoiceImmutable
      else Err (ErrPg code constraint)
  | Err e => Err e
  end.

(** The fact stored under the id, and whether this call created it. *)
Definition PutUsageFact (ctx : Ctx) (offset : Duration) (fact : UsageFact) : M (UsageFact * bool) :=
  fact ← lift (normalize_usage offset fact);
  stored ← try_err ErrBillingNotFound (GetUsageFact ctx (fact_UsageID fact));
  match stored with
  | Some stored =>
      _ ← require_that (sameUsageFact stored fact) ErrBillingConflict;
      mret (stored, false)
  | None =>
      locked ← gets (fun db => usage_locked db (fact_OrganizationID fact) (pg_time (fact_WindowStart fact))
                                 (pg_time (fact_WindowEnd fact)));
      _ ← require_that (negb locked) ErrInvoiceImmutable;
      created ← store_usage fact;
      stored ← GetUsageFact ctx (fact_UsageID fact);
      _ ← require_that (sameUsageFact stored fact) ErrBillingConflict;
      mret (stored, created)
  end.

(** [ORDER BY service_code, metric_code, unit, window_start, usage_id] *)
Definition by_time {R} (t : R → Time) (rows : list R) : list R := sort_stable (fun a b => t a <? t b) rows.
Definition usage_order (facts : list UsageFact) : list UsageFact :=
  by_id fact_ServiceCode (by_id fact_MetricCode (by_id fact_Unit
    (by_time fact_WindowStart (by_id fact_UsageID facts)))).

Definition in_window (organizationID : string) (start end_ : Time) (f : UsageFact) : bool :=
  (fact_OrganizationID f == organizationID) && (start <=? fact_WindowStart f) && (fact_WindowEnd f <=? end_).
Definition listUsageFacts (ctx : Ctx) (organizationID : string) (start end_ : Time) : M (list UsageFact) :=
  gets (fun db => usage_order (filter (fun f =>
    in_window organizationID (pg_time start) (pg_time end_) f && usageVisibility ctx db f = true)
    (urow_Fact <$> bt_usage (db_billing db)))).
Definition ListUsageFacts (ctx : Ctx) (organizationID : string) (start end_ : Time) : M (list UsageFact) :=
  tenantRead ctx organizationID (listUsageFacts ctx organizationID start end_).

(** ** Seals *)
Definition OTAIssuerPlatformGrants : string := "platform_grants".
Definition OTAIssuerProducer : string := "ota_producer".
Definition otaMetricCodes : list string :=
  [MetricOTADeviceTask; MetricOTASuccessfulDownloadGiB; MetricOTAArtifactStorageGiBMonth; MetricOTAArtifactWrite].

(** Sorted, canonical, and no product twice. *)
Fixpoint products_ok (prior : option string) (ids : list string) : bool :=
  match ids with
  | [] => true
  | id :: ids => (match otaUUID id with Ok c => c == id | Err _ => false end)
      && match prior with Some p => (p != id) && negb (String.ltb id p) | None => true end
      && products_ok (Some id) ids
  end.

(** What the source calls its high-water mark may not be empty. *)
Definition high_water_ok (v : json_value) : bool :=
  match v with
  | JNull => false
  | JString s => s != ""
  | JObject fields => negb (bool_decide (fields = []))
  | JArray items => negb (bool_decide (items = []))
  | _ => true
  end.

Definition count_of (counts : list (string * Z)) (metric : string) : option Z :=
  snd <$> find (fun c => c.1 == metric) counts.
Definition counts_ok (s : OTAPeriodSeal) (counts : list (string * Z)) : bool :=
  if seal_IssuerKind s == OTAIssuerPlatformGrants then
    bool_decide (counts = []) && bool_decide (seal_FactSetSHA256 s = None)
  else (length counts =? length otaMetricCodes)%nat
    && match seal_FactSetSHA256 s with Some d => otaDigest d | None => false end
    && forallb (fun m => match count_of counts m with Some n => 0 <=? n | None => false end) otaMetricCodes.

(** [json.Marshal(in)]: a map's members are in the order of their keys. *)
Definition seal_json (s : OTAPeriodSeal) : json_value :=
  JObject ([("organization_id", JString (seal_OrganizationID s)); ("period_start", JTime (seal_PeriodStart s));
    ("period_end", JTime (seal_PeriodEnd s)); ("issuer_kind", JString (seal_IssuerKind s));
    ("seal_id", JString (seal_SealID s)); ("source_high_water", seal_SourceHighWater s);
    ("product_ids", JArray (JString <$> default [] (seal_ProductIDs s)));
    ("metric_counts", JObject ((fun c => (c.1, JNumber c.2)) <$> by_id fst (default [] (seal_MetricCounts s))))]
  ++ match seal_FactSetSHA256 s with Some d => [("fact_set_sha256", JString d)] | None => [] end
  ++ [("source_sha256", JString (seal_SourceSHA256 s)); ("sealed_at", JTime (seal_SealedAt s))]).

(** [source_high_water] is the decoded value; bytes that are not one JSON value never
    become a request. *)
Definition canonicalOTAPeriodSeal (s : OTAPeriodSeal) : Result (OTAPeriodSeal * string) :=
  organizationID ← otaUUID (seal_OrganizationID s);
  sealID ← otaUUID (seal_SealID s);
  let s := s <| seal_OrganizationID := organizationID |> <| seal_SealID := sealID |>
             <| seal_PeriodStart ::= databaseTime |> <| seal_PeriodEnd ::= databaseTime |>
             <| seal_SealedAt ::= databaseTime |> in
  _ ← guard_err (negb (negb (otaUTCMonth 0 (seal_PeriodStart s) (seal_PeriodEnd s))
         || Before (seal_SealedAt s) (seal_PeriodEnd s)
         || ((seal_IssuerKind s != OTAIssuerPlatformGrants) && (seal_IssuerKind s != OTAIssuerProducer))
         || negb (otaDigest (seal_SourceSHA256 s)))) ErrBillingConflict;
  _ ← guard_err match seal_ProductIDs s with Some ids => products_ok None ids | None => false end ErrBillingConflict;
  _ ← guard_err (high_water_ok (seal_SourceHighWater s)) ErrBillingConflict;
  _ ← guard_err match seal_MetricCounts s with Some counts => counts_ok s counts | None => false end
        ErrBillingConflict;
  Ok (s, sha256_hex (json_text (seal_json s))).

Definition stored_seal (s : OTAPeriodSeal) : OTAPeriodSeal :=
  s <| seal_PeriodStart ::= pg_time |> <| seal_PeriodEnd ::= pg_time |> <| seal_SealedAt ::= pg_time |>.

Definition PutOTAPeriodSeal (input : OTAPeriodSeal) : M (OTAPeriodSeal * bool) :=
  '(seal, digest) ← lift (canonicalOTAPeriodSeal input);
  let row := mkSealRow (stored_seal seal) digest in
  inserted ← try_err ErrNoRows (insert_or_nothing t_conflict row);
  match inserted with
  | Some _ => mret (seal, true)
  | None =>
      old ← try_err ErrNoRows (select (fun r => same_seal (srow_Seal r) (stored_seal seal)));
      match old with
      | None => throw ErrBillingConflict
      | Some old =>
          _ ← require_that ((seal_SealID (srow_Seal old) == seal_SealID seal)
                            && (srow_ContentSHA256 old == digest)) ErrBillingConflict;
          mret (seal, false)
      end
  end.

(** ** What must hold before OTA usage is billed *)

(** The OTA facts inside a month, by usage id. *)
Definition ota_month_facts (db : Db) (organizationID : string) (start end_ : Time) : list UsageFact :=
  by_id fact_UsageID (filter (fun f =>
    in_window organizationID start end_ f && (fact_ServiceCode f == ServiceOTA) = true)
    (urow_Fact <$> bt_usage (db_billing db))).

(** One member of the digested array: what [Format(time.RFC3339Nano)] prints is the JSON
    form of the time. *)
Definition fact_json (f : UsageFact) : json_value :=
  JArray [JString (fact_UsageID f); JString (fact_ProductID f); JString (fact_MetricCode f);
    JNumber (fact_Quantity f); JNumber (fact_QuantityScale f); JString (fact_Unit f);
    JTime (fact_WindowStart f); JTime (fact_WindowEnd f); JString (fact_SourceSHA256 f)].
Definition fact_set_sha256 (facts : list UsageFact) : string :=
  sha256_hex ("[" +:+ String.concat "," ((fun f => json_text (fact_json f)) <$> facts) +:+ "]").

(** The row without its evidence, which the check of the seals does not read. *)
Definition bare_fact (f : UsageFact) : UsageFact :=
  mkUsageFact "" "" "" (fact_ProductID f) ServiceOTA (fact_MetricCode f) (fact_Quantity f)
    (fact_QuantityScale f) (fact_Unit f) (fact_WindowStart f) (fact_WindowEnd f) "" "" None None.
Definition metric_count (facts : list UsageFact) (metric : string) : Z :=
  Z.of_nat (length (filter (fun f => fact_MetricCode f = metric) facts)).

Definition crosses_month (organizationID : string) (start end_ : Time) (f : UsageFact) : bool :=
  (fact_OrganizationID f == organizationID) && (fact_ServiceCode f == ServiceOTA)
  && ranges_overlap (fact_WindowStart f) (fact_WindowEnd f) start end_
  && ((fact_WindowStart f <? start) || (end_ <? fact_WindowEnd f)).

Definition seal_of (db : Db) (organizationID : string) (start end_ : Time) (issuer : string) : option OTAPeriodSeal :=
  srow_Seal <$> find (fun r => let s := srow_Seal r in
    (seal_OrganizationID s == organizationID) && (seal_PeriodStart s =? start) && (seal_PeriodEnd s =? end_)
    && (seal_IssuerKind s == issuer)) (bt_seals (db_billing db)).

(** Both sources sealed the month, the facts are from their products, and they are the
    facts the producer counted and digested. *)
Definition seals_match (db : Db) (organizationID : string) (start end_ : Time) : bool :=
  match seal_of db organizationID start end_ OTAIssuerPlatformGrants,
        seal_of db organizationID start end_ OTAIssuerProducer with
  | Some platform, Some producer =>
      match seal_FactSetSHA256 producer with
      | None => false
      | Some factSHA =>
          let products := default [] (seal_ProductIDs producer) in
          let counts := default [] (seal_MetricCounts producer) in
          let facts := ota_month_facts db organizationID start end_ in
          forallb (fun p => one_of p (default [] (seal_ProductIDs platform))) products
          && negb (existsb (crosses_month organizationID start end_) (urow_Fact <$> bt_usage (db_billing db)))
          && forallb (fun f => one_of (fact_ProductID f) products && ValidOTAUsageFact (bare_fact f)) facts
          && (fact_set_sha256 facts == factSHA) && (length counts =? length otaMetricCodes)%nat
          && forallb (fun m => default 0 (count_of counts m) =? metric_count facts m) otaMetricCodes
      end
  | _, _ => false
  end.

Definition verifyOTAPeriodSeals (organizationID : string) (start end_ : Time) : M unit :=
  _ ← require_that (otaUTCMonth 0 (UTC start) (UTC end_)) ErrIncomplete;
  good ← gets (fun db => seals_match db organizationID (pg_time start) (pg_time end_));
  require_that good ErrIncomplete.

Definition VerifyOTAAccountEligibility (cloudID accountID : string) (start end_ : Time) : M unit :=
  match VerifyCommercialMonth with
  | None => throw ErrIncomplete
  | Some verify =>
      _ ← require_that (negb (negb (required cloudID) || negb (otaUTCMonth 0 (UTC start) (UTC end_)))) ErrIncomplete;
      account ← gets (fun db => find (fun a => by_organization cloudID TWD a
                    && ((accountID == "") || (account_ID a == accountID))) (db_accounts db));
      _ ← require_that match account with Some a => account_State a == AccountStateActive | None => false end
            ErrIncomplete;
      require_that (verify cloudID (UTC start) (UTC end_)) ErrIncomplete
  end.

(** *** Grants

    Facts are read back in the location of the process, which runs in UTC. *)

(** A physical object contributes once a month; contributions of a product are summed. *)
Definition object_key : Type := string * Time * string.
Definition storage_key : Type := string * string * Time.
Record storageTotal := mkStorageTotal { st_bytes : Z; st_quantity : Z; st_month : Duration }.
Record grant_state := mkGrantState {
  gs_objects : list object_key;
  gs_storage : gmap storage_key storageTotal
}.

(** The storage part of the loop, for a fact with quantity or an object. *)
Definition add_storage (st : grant_state) (f : UsageFact) : Result grant_state :=
  match fact_OTAStorageObject f with
  | None => Err ErrIncomplete
  | Some o =>
      if bool_decide (fact_OTAGrant f = None) || negb (otaUTCMonth 0 (fact_WindowStart f) (fact_WindowEnd f))
         || negb (len (object_ObjectSHA256 o) =? 64) || (len (object_ByteMicroseconds o) >? 40)
      then Err ErrIncomplete else
      match canonical_amount (object_ByteMicroseconds o) with
      | None => Err ErrIncomplete
      | Some value =>
          let obj := (fact_OrganizationID f, fact_WindowStart f, object_ObjectSHA256 o) in
          if bool_decide (obj ∈ gs_objects st) then Err ErrIncomplete else
          let key := (fact_OrganizationID f, fact_ProductID f, fact_WindowStart f) in
          let group := default (mkStorageTotal 0 0 (fact_WindowEnd f - fact_WindowStart f)) (gs_storage st !! key) in
          if (fact_Quantity f <? 0) || (fact_Quantity f >? maxInt64 - st_quantity group) then Err ErrIncomplete else
          Ok (mkGrantState (obj :: gs_objects st)
                (<[key := mkStorageTotal (st_bytes group + value) (st_quantity group + fact_Quantity f)
                            (st_month group)]> (gs_storage st)))
      end
  end.

(** A grant already verified in this call is not asked for again; the answers agree. *)
Definition grant_verified (f : UsageFact) : bool :=
  match fact_OTAGrant f, VerifyOTAGrant with
  | Some g, Some verify => verify (fact_OrganizationID f) (fact_ProductID f) g
  | _, _ => false
  end.

Definition check_grant (st : grant_state) (f : UsageFact) : Result grant_state :=
  if fact_ServiceCode f != ServiceOTA then Ok st else
  if fact_MetricCode f == MetricOTAArtifactStorageGiBMonth then
    if bool_decide (fact_OTAStorageObject f = None) && (fact_Quantity f =? 0) then Ok st else
    st ← add_storage st f;
    if grant_verified f then Ok st else Err ErrIncomplete
  else if grant_verified f then Ok st else Err ErrIncomplete.

(** Quantities are GiB-months in 10^-9, rounded half up from the byte-microseconds. *)
Definition storage_ok (g : storageTotal) : bool :=
  let denominator := (st_month g ÷ Microsecond) * 2 ^ 30 in
  if denominator <=? 0 then false else
  let gib := (st_bytes g * 1000000000 + Z.shiftr denominator 1) / denominator in
  IsInt64 gib && (gib =? st_quantity g).

Definition VerifyOTAFactGrants (facts : list UsageFact) : Result unit :=
  st ← fold_result check_grant facts (mkGrantState [] ∅);
  guard_err (forallb (fun kv => storage_ok kv.2) (map_to_list (gs_storage st))) ErrIncomplete.
End usage.
