(* ===== verification/Profiles.v ===== *)
(** * Billing profiles: [profile.go]

    The recipient of invoices: created on demand, blank when the account has a
    responsible owner who must configure it, and updated under optimistic locking.
    Definitions first, then what concurrent editors can rely on. *)
From S2P Require Import Prelude GoStrings GoTime BillingTypes PaymentTypes Payment Database.
From S2P Require Import Tables Keeps Fixtures Accounts Protocols BillingSchema Pricing.

Record PutProfileInput := mkPutProfileInput {
  putprofile_OrganizationID : string;
  putprofile_LegalName : string;
  putprofile_TaxIdentifier : string;
  putprofile_BillingAddress : string;
  putprofile_ContactEmail : string;
  putprofile_Locale : string;
  putprofile_Timezone : string;
  putprofile_DeliveryPreference : string;
  putprofile_ExpectedVersion : Z;
  putprofile_Now : Time
}.

Section profiles.
Context {pg : Postgres}.

Definition lockProfileOwner (ctx : Ctx) (organizationID : string) : M unit :=
  match ctx with
  | None => mret tt
  | Some scope =>
      _ ← require_that (scope_OrganizationID scope == organizationID) ErrIdentityDenied;
      LockAccount ctx (scope_AccountID scope)
  end.

Definition getProfileTx (ctx : Ctx) (organizationID : string) : M BillingProfile :=
  profile ← bscan (select (fun p => profile_OrganizationID p == organizationID));
  _ ← require_that match ctx with
        | None => true
        | Some scope => profile_OwnershipVersion profile == Some (scope_OwnershipVersion scope)
        end ErrIdentityUnavailable;
  mret profile.

(** The ownership version of the organization's open responsibility period. *)
Definition responsibility (db : Db) (organizationID : string) : option Z :=
  a ← find (by_organization organizationID Settlement) (db_accounts db);
  period_OwnershipVersion <$> current_period db (account_ID a).

Definition new_profile (organizationID : string) (version : option Z) (now : Time) : BillingProfile :=
  mkBillingProfile version (bool_decide (is_Some version)) organizationID
    (if bool_decide (is_Some version) then "" else organizationID) "" "" "" "zh-TW" "Asia/Taipei" "portal" 1
    now now.

Definition ensureBillingProfileTx (ctx : Ctx) (organizationID : string) (now : Time) :
    M (Outcome (BillingProfile * bool)) :=
  _ ← lockProfileOwner ctx organizationID;
  found ← try_err ErrBillingNotFound (getProfileTx ctx organizationID);
  match found with
  | Some profile => mret (Committed (profile, false))
  | None =>
      version ← gets (fun db => responsibility db organizationID);
      created ← try_err ErrNoRows (insert_or_nothing t_conflict (new_profile organizationID version (pg_time now)));
      profile ← getProfileTx ctx organizationID;
      mret (Committed (profile, bool_decide (is_Some created)))
  end.

(** The profile, and whether it was created. *)
Definition EnsureBillingProfile (ctx : Ctx) (organizationID : string) (now : Time) : M (BillingProfile * bool) :=
  _ ← require_that (required organizationID) ErrBillingConflict;
  withTx (ensureBillingProfileTx ctx organizationID (UTC now)).

Definition GetBillingProfile (ctx : Ctx) (organizationID : string) : M BillingProfile :=
  withTx (_ ← lockProfileOwner ctx organizationID;
          profile ← getProfileTx ctx organizationID;
          mret (Committed profile)).

Definition set_profile (in_ : PutProfileInput) (now : Time) (p : BillingProfile) : BillingProfile :=
  mkBillingProfile (profile_OwnershipVersion p) false (profile_OrganizationID p)
    (TrimSpace (putprofile_LegalName in_)) (TrimSpace (putprofile_TaxIdentifier in_))
    (TrimSpace (putprofile_BillingAddress in_)) (TrimSpace (putprofile_ContactEmail in_))
    (TrimSpace (putprofile_Locale in_)) (TrimSpace (putprofile_Timezone in_))
    (putprofile_DeliveryPreference in_) (profile_Version p + 1) (profile_CreatedAt p) (pg_time now).

(** The UPDATE of the expected version; none is there: a conflict, if any profile is. *)
Definition putBillingProfileTx (ctx : Ctx) (in_ : PutProfileInput) (now : Time) : M (Outcome BillingProfile) :=
  let organizationID := putprofile_OrganizationID in_ in
  _ ← lockProfileOwner ctx organizationID;
  _ ← match ctx with Some _ => _ ← getProfileTx ctx organizationID; mret tt | None => mret tt end;
  updated ← try_err ErrBillingNotFound (bscan (update_one (fun p => (profile_OrganizationID p == organizationID)
      && (profile_Version p =? putprofile_ExpectedVersion in_)) (set_profile in_ now)));
  match updated with
  | Some profile => mret (Committed profile)
  | None =>
      exists_ ← exists_row (fun p => profile_OrganizationID p == organizationID);
      throw (if exists_ : bool then ErrBillingConflict else ErrBillingNotFound)
  end.

Definition PutBillingProfile (ctx : Ctx) (in_ : PutProfileInput) : M BillingProfile :=
  _ ← require_that (negb (negb (required (putprofile_OrganizationID in_)) || negb (required (putprofile_LegalName in_))
         || negb (required (putprofile_Locale in_)) || negb (required (putprofile_Timezone in_))
         || ((putprofile_DeliveryPreference in_ != "portal")
             && (putprofile_DeliveryPreference in_ != "portal_and_email"))
         || (putprofile_ExpectedVersion in_ <? 1))) ErrBillingConflict;
  now ← default_now (putprofile_Now in_);
  withTx (putBillingProfileTx ctx in_ now).
End profiles.
