(* ===== verification/BillingInvoices.v ===== *)
(** * Invoices in the store: [invoices.go]

    Preparing the invoice of a period under the account lock (which facts, which price
    version, which recipient), reading invoices and documents, and recording that an
    invoice was settled against the balance. *)
From S2P Require Import Prelude GoStrings GoTime BillingTypes Ota Invoice PaymentTypes Payment Database.
From S2P Require Import Tables Keeps Accounts Settlement Protocols BillingSchema Pricing Usage Profiles.
From S2P Require Import Creation.

Record PrepareInvoiceInput := mkPrepareInvoiceInput {
  prep_OrganizationID : string;
  prep_AccountID : string;
  prep_Currency : Code;
  prep_PeriodStart : Time;
  prep_PeriodEnd : Time;
  prep_DueAt : Time;
  prep_Now : Time
}.

Record InvoiceFilter := mkInvoiceFilter {
  ifilter_State : InvoiceState;
  ifilter_InvoiceNumber : string;
  ifilter_PeriodStart : option Time;
  ifilter_PeriodEnd : option Time;
  ifilter_Limit : Z;
  ifilter_Offset : Z
}.
Record Page := mkPage { page_Limit : Z; page_Offset : Z; page_Total : Z }.

Section invoices.
Context {pg : Postgres} {dg : Digest} {bx : BillingExternal}.

(** ** Reading *)

Definition listInvoiceLines (db : Db) (invoiceID : string) : list InvoiceLine :=
  by_id line_ServiceCode (by_id line_MetricCode (by_id line_ID
    (lrow_Line <$> filter (fun r => lrow_InvoiceID r = invoiceID) (bt_lines (db_billing db))))).

(** [LEFT JOIN invoice_settlement_links] *)
Definition scanInvoice (db : Db) (i : Invoice) : Invoice :=
  i <| inv_SettlementLedgerID :=
    match find (fun l => link_InvoiceID l == inv_ID i) (bt_links (db_billing db)) with
    | Some l => link_LedgerEntryID l
    | None => ""
    end |>.

Definition getInvoiceDocument (ctx : Ctx) (organizationID invoiceID : string) : M DocumentRow :=
  db ← gets id;
  bscan (select (fun d => (drow_InvoiceID d == invoiceID)
    && existsb (fun i => (inv_ID i == invoiceID) && (inv_OrganizationID i == organizationID)
                         && invoiceVisibility ctx db i) (bt_invoices (db_billing db)))).
Definition GetInvoiceDocument (ctx : Ctx) (organizationID invoiceID : string) : M DocumentRow :=
  tenantRead ctx organizationID (getInvoiceDocument ctx organizationID invoiceID).

(** The invoice with its lines and the metadata of its document. *)
Definition complete_invoice (ctx : Ctx) (organizationID : string) (i : Invoice) : M Invoice :=
  db ← gets id;
  document ← try_err ErrBillingNotFound (getInvoiceDocument ctx organizationID (inv_ID i));
  mret (scanInvoice db i <| inv_Lines := listInvoiceLines db (inv_ID i) |>
                         <| inv_Document := drow_Document <$> document |>).

Definition getInvoice (ctx : Ctx) (organizationID invoiceID : string) : M Invoice :=
  db ← gets id;
  i ← bscan (select (fun i => (inv_OrganizationID i == organizationID) && (inv_ID i == invoiceID)
                              && invoiceVisibility ctx db i));
  complete_invoice ctx organizationID i.
Definition GetInvoice (ctx : Ctx) (organizationID invoiceID : string) : M Invoice :=
  tenantRead ctx organizationID (getInvoice ctx organizationID invoiceID).

Definition getInvoiceByPeriod (ctx : Ctx) (organizationID periodID : string) : M Invoice :=
  i ← bscan (select (fun i => (inv_OrganizationID i == organizationID) && (inv_PeriodID i == periodID)));
  getInvoice ctx organizationID (inv_ID i).
Definition GetInvoiceByPeriod (ctx : Ctx) (organizationID periodID : string) : M Invoice :=
  tenantRead ctx organizationID (getInvoiceByPeriod ctx organizationID periodID).

Fixpoint complete_all (ctx : Ctx) (organizationID : string) (rows : list Invoice) : M (list Invoice) :=
  match rows with
  | [] => mret []
  | i :: rows => i ← complete_invoice ctx organizationID i; rows ← complete_all ctx organizationID rows; mret (i :: rows)
  end.

(** The limit and offset of a listing. *)
Definition page_limit (limit : Z) : Z := if (limit <=? 0) || (limit >? 100) then 25 else limit.
Definition page_offset (offset : Z) : Z := if offset <? 0 then 0 else offset.
Definition page_of {A} (limit offset : Z) (rows : list A) : list A :=
  take (Z.to_nat limit) (drop (Z.to_nat offset) rows).

Definition invoice_matches (f : InvoiceFilter) (i : Invoice) : bool :=
  ((ifilter_State f == "") || (inv_State i == ifilter_State f))
  && ((TrimSpace (ifilter_InvoiceNumber f) == "") || (inv_InvoiceNumber i == TrimSpace (ifilter_InvoiceNumber f)))
  && match ifilter_PeriodStart f with Some t => pg_time t <=? inv_PeriodStart i | None => true end
  && match ifilter_PeriodEnd f with Some t => inv_PeriodEnd i <=? pg_time t | None => true end.

(** [ORDER BY created_at DESC, id DESC] *)
Definition newest_first (rows : list Invoice) : list Invoice :=
  sort_stable (fun a b => inv_CreatedAt b <? inv_CreatedAt a)
    (sort_stable (fun a b => String.ltb (inv_ID b) (inv_ID a)) rows).

Definition listInvoices (ctx : Ctx) (organizationID : string) (f : InvoiceFilter) : M (list Invoice * Page) :=
  let limit := page_limit (ifilter_Limit f) in
  let offset := page_offset (ifilter_Offset f) in
  rows ← gets (fun db => filter (fun i => (inv_OrganizationID i == organizationID)
           && invoiceVisibility ctx db i && invoice_matches f i = true) (bt_invoices (db_billing db)));
  out ← complete_all ctx organizationID (page_of limit offset (newest_first rows));
  mret (out, mkPage limit offset (Z.of_nat (length rows))).
Definition ListInvoices (ctx : Ctx) (organizationID : string) (f : InvoiceFilter) : M (list Invoice * Page) :=
  tenantRead ctx organizationID (listInvoices ctx organizationID f).

(** ** Preparing an invoice *)

(** A computation that returns [(invoice, created, err)] and whose transaction may be
    committed with the error is one of [M (Result A)]. *)

Definition markPeriodIncomplete (periodID code : string) (now : Time) : M unit :=
  _ ← update_periods_where (fun p => (bperiod_ID p == periodID) && (bperiod_State p != "closed"))
        (fun p => p <| bperiod_State := "incomplete" |> <| bperiod_CloseErrorCode := code |>
                    <| bperiod_Version ::= Z.succ |> <| bperiod_UpdatedAt := pg_time now |>);
  mret tt.

(** [_ = s.markPeriodIncomplete(...); return billing.Invoice{}, false, err]; a failing
    UPDATE would abort the transaction. *)
Definition incomplete {A} (periodID code : string) (now : Time) (e : GoError) : M (Result A) :=
  _ ← markPeriodIncomplete periodID code now; mret (Err e).

Definition closing_period (id : string) (in_ : PrepareInvoiceInput) (now : Time) : BillingPeriod :=
  mkBillingPeriod id (prep_OrganizationID in_) (prep_Currency in_) (pg_time (prep_PeriodStart in_))
    (pg_time (prep_PeriodEnd in_)) "closing" "" None None "" 1 (pg_time now) (pg_time now).

(** The evidence an OTA-priced month needs: the version of the owner at its start. *)
Definition ota_ready (in_ : PrepareInvoiceInput) (periodID : string) (complete : bool) (now : Time) : M (Result Z) :=
  if negb complete then incomplete periodID "ota_pricing_incomplete" now ErrPricingUnavailable else
  if negb (otaUTCMonth 0 (UTC (prep_PeriodStart in_)) (UTC (prep_PeriodEnd in_)))
  then incomplete periodID "ota_period_not_utc_month" now ErrIncomplete else
  owner ← gets (fun db => find (fun p => (period_AccountID p == prep_AccountID in_)
      && bool_decide (period_EffectiveUntil p = None)
      && (period_EffectiveFrom p <=? pg_time (prep_PeriodStart in_))) (db_periods db));
  match owner with
  | None => incomplete periodID "ota_ownership_month_incomplete" now ErrIncomplete
  | Some owner =>
      eligible ← attempt (VerifyOTAAccountEligibility (prep_OrganizationID in_) (prep_AccountID in_)
                   (prep_PeriodStart in_) (prep_PeriodEnd in_));
      match eligible with
      | Err _ => incomplete periodID "ota_account_eligibility_unverified" now ErrIncomplete
      | Ok _ =>
          sealed ← attempt (verifyOTAPeriodSeals (prep_OrganizationID in_) (prep_PeriodStart in_) (prep_PeriodEnd in_));
          match sealed with
          | Err e => if e == ErrIncomplete then incomplete periodID "ota_source_incomplete" now e else mret (Err e)
          | Ok _ => mret (Ok (period_OwnershipVersion owner))
          end
      end
  end.

(** The facts to bill; [owner] is set when the month is OTA-priced and sealed. *)
Definition facts_to_bill (ctx : Ctx) (in_ : PrepareInvoiceInput) (periodID : string) (rates : list PricingRate)
    (owner : option Z) (now : Time) : M (Result (list UsageFact)) :=
  facts ← ListUsageFacts ctx (prep_OrganizationID in_) (prep_PeriodStart in_) (prep_PeriodEnd in_);
  match BillableUsageFacts facts rates with
  | Err e => incomplete periodID "ota_pricing_incomplete" now e
  | Ok billable =>
      match (if bool_decide (is_Some owner) then VerifyOTAFactGrants billable else Ok tt) with
      | Err e => incomplete periodID "ota_grant_unverified" now e
      | Ok _ =>
          if bool_decide (billable = [])
             && negb (bool_decide (is_Some owner) && forallb (fun r => rate_ServiceCode r == ServiceOTA) rates)
          then incomplete periodID "usage_missing" now ErrIncomplete
          else mret (Ok billable)
      end
  end.

(** The recipient. *)
Definition invoice_recipient (ctx : Ctx) (in_ : PrepareInvoiceInput) (periodID : string) (owner : option Z)
    (now : Time) : M (Result BillingProfile) :=
  found ← attempt (EnsureBillingProfile ctx (prep_OrganizationID in_) now);
  match found with
  | Err e => incomplete periodID "billing_profile_missing" now e
  | Ok (profile, _) =>
      if bool_decide (is_Some owner) && (profile_OwnershipVersion profile != owner)
      then incomplete periodID "ota_ownership_profile_mismatch" now ErrIncomplete else
      if profile_RequiresConfiguration profile
      then incomplete periodID "billing_profile_configuration_required" now ErrProfileConfigurationRequired
      else mret (Ok profile)
  end.

Definition draft_header (in_ : PrepareInvoiceInput) (periodID : string) (pricing : PricingVersion)
    (recipient : BillingProfile) (now : Time) : Invoice :=
  mkInvoice "" "" (prep_OrganizationID in_) (prep_AccountID in_) periodID (pricing_ID pricing)
    (pricing_TaxMode pricing) (pricing_InvoiceTaxRateBasisPoints pricing)
    (pricing_InvoiceTaxRoundingMode pricing) (pricing_InvoiceTaxCategory pricing) (prep_Currency in_) ""
    (UTC (prep_PeriodStart in_)) (UTC (prep_PeriodEnd in_)) 0 0 0 0 0 recipient [] None "" "" None None None 1
    (UTC now) (UTC now).

(** [fmt.Sprintf("INV-%04d-%06d", year, sequence)] *)
Definition invoice_number (year sequence : Z) : string :=
  "INV-" +:+ padded 4 year +:+ "-" +:+ padded 6 sequence.

(** [nextval('billing_invoice_number_seq')]; a rolled back attempt leaves a gap. *)
Definition next_invoice_number : M Z := fun db =>
  let n := bt_invoice_seq (db_billing db) + 1 in
  Ok (n, db <| db_billing ::= fun t => t <| bt_invoice_seq := n |> |>).

(** The row of an issued invoice. *)
Definition invoice_row (id : string) (i : Invoice) (now : Time) : Invoice :=
  i <| inv_ID := id |> <| inv_Lines := [] |> <| inv_Document := None |> <| inv_SettlementLedgerID := "" |>
    <| inv_PeriodStart ::= pg_time |> <| inv_PeriodEnd ::= pg_time |>
    <| inv_AmountSettledMinor := 0 |> <| inv_AmountDueMinor := inv_TotalMinor i |>
    <| inv_InvoiceTaxCategory ::= nullableTaxCategory |>
    <| inv_IssuedAt ::= fmap pg_time |> <| inv_DueAt ::= fmap pg_time |>
    <| inv_CreatedAt := pg_time now |> <| inv_UpdatedAt := pg_time now |>.

Fixpoint insert_lines (invoiceID : string) (lines : list InvoiceLine) : M (list InvoiceLine) :=
  match lines with
  | [] => mret []
  | line :: lines =>
      id ← fresh;
      let line := line <| line_ID := id |> in
      _ ← insert_row (mkLineRow invoiceID line);
      rest ← insert_lines invoiceID lines;
      mret (line :: rest)
  end.

Definition close_period (periodID pricingID : string) (now : Time) : M unit :=
  _ ← update_periods_where (fun p => bperiod_ID p == periodID)
        (fun p => p <| bperiod_State := "closed" |> <| bperiod_PricingVersionID := pricingID |>
                    <| bperiod_UsageLockedAt := Some (pg_time now) |> <| bperiod_ClosedAt := Some (pg_time now) |>
                    <| bperiod_CloseErrorCode := "" |> <| bperiod_Version ::= Z.succ |>
                    <| bperiod_UpdatedAt := pg_time now |>);
  mret tt.

(** The last part of [prepareInvoice], in a savepoint of its own: issue, store, close. *)
Definition issue_and_close (ctx : Ctx) (in_ : PrepareInvoiceInput) (periodID : string) (draft : Invoice)
    (dueAt now : Time) : M (Invoice * bool) :=
  existing ← gets (fun db => find (fun i => inv_PeriodID i == periodID) (bt_invoices (db_billing db)));
  match existing with
  | Some i => i ← GetInvoice ctx (prep_OrganizationID in_) (inv_ID i); mret (i, false)
  | None =>
      sequence ← next_invoice_number;
      issued ← lift (IssueInvoice draft (invoice_number (Year (UTC now) 0) sequence) now dueAt);
      id ← fresh;
      _ ← insert_invoice (invoice_row id issued now);
      lines ← insert_lines id (inv_Lines issued);
      _ ← close_period periodID (inv_PricingVersionID draft) now;
      mret (issued <| inv_ID := id |> <| inv_Lines := lines |>, true)
  end.

(** On an error the function returns it, and what was marked stays. *)
Definition bindR {A B} (m : M (Result A)) (f : A → M (Result B)) : M (Result B) :=
  r ← m; match r with Ok a => f a | Err e => mret (Err e) end.

Definition prepareInvoice (ctx : Ctx) (in_ : PrepareInvoiceInput) : M (Result (Invoice * bool)) :=
  now ← default_now (prep_Now in_);
  let dueAt := if IsZero (prep_DueAt in_) then AddDate now 0 14 0 else prep_DueAt in_ in
  id ← fresh;
  period ← upsert_period (closing_period id in_ now);
  let periodID := bperiod_ID period in
  existing ← try_err ErrBillingNotFound (GetInvoiceByPeriod ctx (prep_OrganizationID in_) periodID);
  match existing with
  | Some invoice => mret (Ok (invoice, false))
  | None =>
      if bperiod_State period == "closed" then mret (Err ErrIncomplete) else
      priced ← attempt (ActivePricingVersion (prep_PeriodStart in_) (prep_Currency in_));
      match priced with
      | Err e => incomplete periodID "pricing_unavailable" now e
      | Ok pricing =>
          let rates := pricing_Rates pricing in
          let '(enabled, complete) := OTAPricingState rates in
          bindR (if enabled : bool then bindR (ota_ready in_ periodID complete now) (fun v => mret (Ok (Some v)))
                 else mret (Ok None)) (fun owner =>
          bindR (facts_to_bill ctx in_ periodID rates owner now) (fun billable =>
          bindR (invoice_recipient ctx in_ periodID owner now) (fun recipient =>
          match BuildDraftInvoice (draft_header in_ periodID pricing recipient now) billable rates with
          | Err e => incomplete periodID "invoice_calculation_invalid" now e
          | Ok draft =>
              r ← issue_and_close ctx in_ periodID draft dueAt now;
              mret (Ok r)
          end)))
      end
  end.

(** The errors whose diagnostic period is committed; any other rolls back. *)
Definition retains_diagnostics (e : GoError) : bool :=
  (e == ErrPricingUnavailable) || (e == ErrIncomplete) || (e == ErrProfileConfigurationRequired).

Definition prepareInvoiceTx (ctx : Ctx) (in_ : PrepareInvoiceInput) : M (Outcome (Result (Invoice * bool))) :=
  _ ← bscan (select (fun a => (account_ID a == prep_AccountID in_)
        && (account_OrganizationID a == prep_OrganizationID in_) && (account_Currency a == prep_Currency in_)));
  r ← prepareInvoice ctx in_;
  match r with
  | Ok r => mret (Committed (Ok r))
  | Err e => if retains_diagnostics e then mret (Committed (Err e)) else throw e
  end.

Definition PrepareInvoice (ctx : Ctx) (in_ : PrepareInvoiceInput) : M (Result (Invoice * bool)) :=
  _ ← require_that (negb (negb (required (prep_OrganizationID in_)) || negb (required (prep_AccountID in_))
         || negb (CanSettle (prep_Currency in_)) || negb (After (prep_PeriodEnd in_) (prep_PeriodStart in_))))
        ErrBillingConflict;
  withTx (prepareInvoiceTx ctx in_).

(** ** Documents and settlement *)

(** [WHERE ... state <> 'draft' ON CONFLICT (invoice_id) DO NOTHING]: one document for ever. *)
Definition PutInvoiceDocument (ctx : Ctx) (organizationID invoiceID : string) (document : InvoiceDocument)
    (data : string) : M unit :=
  _ ← require_that (negb ((document_ContentType document != "application/pdf")
         || negb (len data =? document_ByteLength document) || negb (len (document_SHA256 document) =? 64)
         || (document_InvoiceVersion document <? 1) || (len data =? 0))) ErrBillingConflict;
  eligible ← exists_row (fun i => (inv_ID i == invoiceID) && (inv_OrganizationID i == organizationID)
                                  && (inv_State i != InvoiceStateDraft));
  let row := mkDocumentRow invoiceID (mkInvoiceDocument (document_ContentType document)
    (document_ByteLength document) (document_SHA256 document) (document_RendererVersion document)
    (document_InvoiceVersion document) (pg_time (document_GeneratedAt document))) data in
  inserted ← (if eligible : bool then try_err ErrNoRows (insert_or_nothing t_conflict row) else mret None);
  match inserted with
  | Some _ => mret tt
  | None =>
      existing ← GetInvoiceDocument ctx organizationID invoiceID;
      require_that (document_SHA256 (drow_Document existing) == document_SHA256 document) ErrInvoiceImmutable
  end.

Definition settled_activity (id organizationID invoiceID : string) (total : Z) (code : Code) (now : Time) :
    ActivityEvent :=
  mkActivityEvent id organizationID ("invoice-" +:+ invoiceID) "invoice" "completed" total code "debit"
    "none" "billing.invoice.settled" "invoice" invoiceID false None now now.

(** [INSERT INTO billing_activity_events ... ON CONFLICT ... DO UPDATE] *)
Definition upsert_activity (a : ActivityEvent) : M unit :=
  found ← exists_row (same_resource a);
  if found : bool then
    _ ← update_rows (same_resource a) (fun old => mkActivityEvent (activity_ID old) (activity_OrganizationID old)
          (activity_CustomerReference old) (activity_Type old) "completed" (activity_AmountMinor a)
          (activity_Currency old) "debit" (activity_Action old) (activity_MessageKey a)
          (activity_ResourceType old) (activity_ResourceID old) (activity_RetryScheduled old)
          (activity_NextRetryAt old) (activity_OccurredAt old) (activity_UpdatedAt a));
    mret tt
  else _ ← insert_row a; mret tt.

Definition settle_row (now : Time) (i : Invoice) : Invoice :=
  i <| inv_State := InvoiceStateSettled |> <| inv_AmountSettledMinor := inv_TotalMinor i |>
    <| inv_AmountDueMinor := 0 |> <| inv_SettledAt := Some now |> <| inv_Version ::= Z.succ |>
    <| inv_UpdatedAt := now |>.

Definition recordInvoiceSettlementTx (organizationID invoiceID ledgerEntryID : string) (now : Time) :
    M (Outcome unit) :=
  i ← bscan (select (fun i => (inv_ID i == invoiceID) && (inv_OrganizationID i == organizationID)));
  _ ← require_that (CanSettle (inv_Currency i)) ErrBillingConflict;
  _ ← upsert_link (mkSettlementLink invoiceID ledgerEntryID "posted" 1 (pg_time now));
  _ ← update_invoice invoiceID (fun i => one_of (inv_State i) ["issued"; "partially_settled"; "settled"])
        (settle_row (pg_time now));
  id ← fresh;
  _ ← upsert_activity (settled_activity id organizationID invoiceID (inv_TotalMinor i) (inv_Currency i) (pg_time now));
  mret (Committed tt).

Definition RecordInvoiceSettlement (ctx : Ctx) (organizationID invoiceID ledgerEntryID : string) (now : Time) :
    M Invoice :=
  _ ← withTx (recordInvoiceSettlementTx organizationID invoiceID ledgerEntryID (UTC now));
  GetInvoice ctx organizationID invoiceID.
End invoices.
