(* ===== verification/Activity.v ===== *)
(** * The activity feed: [activity.go]

    What a customer sees of invoices and payments: the stored events and the projection
    of payment intents, filtered, ordered, summarized and paged, and one activity with
    its steps.  A ledger entry's responsibility period is kept by a trigger that the
    store model leaves out, so its visibility is a parameter. *)
From S2P Require Import Prelude GoStrings GoTime BillingTypes PaymentTypes Payment Database Tables.
From S2P Require Import Keeps Accounts Settlement BillingSchema Pricing Usage BillingInvoices.

Definition ActivityState := string.
Definition ActivityActionRequired : ActivityState := "action_required".
Definition ActivityProcessing : ActivityState := "processing".
Definition ActivityPendingReconciliation : ActivityState := "pending_reconciliation".
Definition ActivityCompleted : ActivityState := "completed".
Definition ActivityFailed : ActivityState := "failed".
Definition ActivityUnavailable : ActivityState := "unavailable".

Record ActivityStep := mkActivityStep {
  step_Kind : string;
  step_State : string;
  step_OccurredAt : Time;
  step_CustomerReference : string;
  step_MessageKey : string
}.

Record Activity := mkActivity {
  act_ID : string;
  act_CustomerReference : string;
  act_Type : string;
  act_State : ActivityState;
  act_Currency : Code;
  act_AmountMinor : Z;
  act_BalanceEffect : string;
  act_Action : string;
  act_MessageKey : string;
  act_RetryScheduled : bool;
  act_NextRetryAt : option Time;
  act_PaymentMethodLabel : string;
  act_OccurredAt : Time;
  act_UpdatedAt : Time;
  act_Steps : list ActivityStep
}.
#[export] Instance Activity_eta : Eta Activity := fun a => {|
  act_ID := act_ID a; act_CustomerReference := act_CustomerReference a; act_Type := act_Type a;
  act_State := act_State a; act_Currency := act_Currency a; act_AmountMinor := act_AmountMinor a;
  act_BalanceEffect := act_BalanceEffect a; act_Action := act_Action a; act_MessageKey := act_MessageKey a;
  act_RetryScheduled := act_RetryScheduled a; act_NextRetryAt := act_NextRetryAt a;
  act_PaymentMethodLabel := act_PaymentMethodLabel a; act_OccurredAt := act_OccurredAt a;
  act_UpdatedAt := act_UpdatedAt a; act_Steps := act_Steps a |}.

Record ActivityFilter := mkActivityFilter {
  afilter_State : ActivityState;
  afilter_Type : string;
  afilter_Reference : string;
  afilter_Limit : Z;
  afilter_Offset : Z
}.
Record ActivitySummary := mkActivitySummary {
  summary_ActionRequired : Z;
  summary_Processing : Z;
  summary_Completed : Z
}.
Record ActivityPage := mkActivityPage {
  apage_Activities : list Activity;
  apage_Summary : ActivitySummary;
  apage_Page : Page
}.

(** ** Stored events *)
Definition scanStoredActivity (e : ActivityEvent) : Activity :=
  mkActivity (activity_ID e) (activity_CustomerReference e) (activity_Type e) (activity_State e)
    (activity_Currency e) (activity_AmountMinor e) (activity_BalanceEffect e) (activity_Action e)
    (activity_MessageKey e) (activity_RetryScheduled e) (activity_NextRetryAt e) ""
    (activity_OccurredAt e) (activity_UpdatedAt e) [].

(** ** Payments *)

(** A row of [paymentActivitySelect]. *)
Record PaymentRow := mkPaymentRow {
  prow_intent : PaymentIntent;
  prow_brand : string;
  prow_lastFour : string;
  prow_policyEnabled : bool;
  prow_failures : Z
}.

Definition upper_byte (a : N) : N := if N.leb 97 a && N.leb a 122 then (a - 32)%N else a.
(** [strings.ToUpper] of an ASCII text. *)
Definition ToUpper (s : string) : string := of_bytes (upper_byte <$> bytes_of s).

Definition method_label (brand lastFour : string) : string :=
  if brand == "" then "" else ToUpper brand +:+ (if len lastFour =? 4 then " •••• " +:+ lastFour else "").

(** State, balance effect, action and retry of a payment, by the state of its intent. *)
Definition payment_outcome (auto policyEnabled : bool) (failures : Z) (state : string) :
    ActivityState * string * string * bool :=
  if state == "succeeded" then (ActivityCompleted, "credit", "none", false)
  else if one_of state ["failed"; "canceled"] then
    if auto && (negb policyEnabled || (failures >=? 3))
    then (ActivityActionRequired, "none", "update_payment_method", false)
    else (ActivityFailed, "none", "none", false)
  else if state == "requires_action" then (ActivityActionRequired, "none", "update_payment_method", false)
  else if state == "unknown" then (ActivityPendingReconciliation, "unknown", "none", true)
  else if one_of state ["created"; "processing"; "authorized"] then (ActivityProcessing, "unknown", "none", false)
  else (ActivityUnavailable, "unknown", "none", false).

Definition scanPaymentActivity (r : PaymentRow) : Activity :=
  let i := prow_intent r in
  let auto := intent_Reason i == "auto_top_up" in
  let '(state, effect, action, retry) :=
    payment_outcome auto (prow_policyEnabled r) (prow_failures r) (intent_State i) in
  mkActivity (intent_ID i) (intent_CorrelationID i) (if auto then "automatic_top_up" else "manual_top_up") state
    (intent_Currency i) (intent_AmountMinor i) effect action ("billing.payment." +:+ intent_State i) retry None
    (method_label (prow_brand r) (prow_lastFour r)) (intent_CreatedAt i) (intent_UpdatedAt i) [].

(** ** The feed *)

Definition activity_matches (f : ActivityFilter) (a : Activity) : bool :=
  ((afilter_State f == "") || (act_State a == afilter_State f))
  && ((afilter_Type f == "") || (act_Type a == afilter_Type f))
  && ((TrimSpace (afilter_Reference f) == "") || (act_CustomerReference a == TrimSpace (afilter_Reference f))).

(** Latest first; of the same instant, the greater id first. *)
Definition activity_before (a b : Activity) : bool :=
  if Equal (act_OccurredAt a) (act_OccurredAt b) then String.ltb (act_ID b) (act_ID a)
  else After (act_OccurredAt a) (act_OccurredAt b).

Definition count_states (states : list ActivityState) (activities : list Activity) : Z :=
  Z.of_nat (length (filter (fun a => one_of (act_State a) states = true) activities)).
Definition summarize (activities : list Activity) : ActivitySummary :=
  mkActivitySummary (count_states [ActivityActionRequired] activities)
    (count_states [ActivityProcessing; ActivityPendingReconciliation] activities)
    (count_states [ActivityCompleted] activities).

(** [activities[start:end]] after the clamping of both indices. *)
Definition activity_slice (limit offset : Z) (activities : list Activity) : list Activity :=
  let total := Z.of_nat (length activities) in
  let start := if offset >? total then total else offset in
  let end_ := if start + limit >? total then total else start + limit in
  take (Z.to_nat (end_ - start)) (drop (Z.to_nat start) activities).

Definition activity_page (f : ActivityFilter) (activities : list Activity) : ActivityPage :=
  let limit := page_limit (afilter_Limit f) in
  let offset := page_offset (afilter_Offset f) in
  let activities := sort_stable activity_before (filter (fun a => activity_matches f a = true) activities) in
  mkActivityPage (activity_slice limit offset activities) (summarize activities)
    (mkPage limit offset (Z.of_nat (length activities))).

Section activity.
Context {pg : Postgres} {bx : BillingExternal}.
Variable ledger_visible : Scope → Db → string → bool.

Definition intent_visible (ctx : Ctx) (db : Db) (organizationID : string) (i : PaymentIntent) : bool :=
  existsb (fun a => (account_ID a == intent_AccountID i) && (account_OrganizationID a == organizationID))
    (db_accounts db)
  && periodVisibility ctx (db_intent_periods db) db (intent_ID i) (intent_AccountID i) false.

Definition storedActivityVisibility (ctx : Ctx) (db : Db) (e : ActivityEvent) : bool :=
  match ctx with
  | None => true
  | Some scope =>
      ((activity_ResourceType e == "invoice")
       && existsb (fun i => (inv_ID i == activity_ResourceID e)
            && (inv_OrganizationID i == activity_OrganizationID e) && invoiceVisibility ctx db i)
            (bt_invoices (db_billing db)))
      || ((activity_ResourceType e == "payment_intent")
          && existsb (fun i => (intent_ID i == activity_ResourceID e)
               && intent_visible ctx db (activity_OrganizationID e) i) (db_intents db))
      || ((activity_ResourceType e == "balance_ledger") && ledger_visible scope db (activity_ResourceID e))
  end.

(** The card of a payment and its policy, as far as the caller may see them. *)
Definition payment_row (ctx : Ctx) (db : Db) (i : PaymentIntent) : PaymentRow :=
  let seen current methodID :=
    periodVisibility ctx (db_method_periods db) db methodID (intent_AccountID i) current in
  let method := find (fun m => (method_ID (mrow_method m) == intent_PaymentMethodID i)
                               && seen false (method_ID (mrow_method m))) (db_methods db) in
  let policy := find (fun p => (policy_AccountID p == intent_AccountID i)
                               && seen true (policy_PaymentMethodID p)) (db_policies db) in
  let card m := mrow_method m in
  mkPaymentRow i
    match method with
    | Some m => if method_CardBrand (card m) == "" then method_Provider (card m) else method_CardBrand (card m)
    | None => ""
    end
    match method with Some m => method_LastFour (card m) | None => "" end
    match policy with Some p => policy_Enabled p | None => false end
    match policy with Some p => policy_ConsecutiveFailureCount p | None => 0 end.

Definition listStoredActivities (ctx : Ctx) (db : Db) (organizationID : string) : list Activity :=
  scanStoredActivity <$> sort_stable (fun a b => activity_OccurredAt b <? activity_OccurredAt a)
    (filter (fun e => (activity_OrganizationID e == organizationID) && storedActivityVisibility ctx db e = true)
       (bt_activities (db_billing db))).
Definition listPaymentActivities (ctx : Ctx) (db : Db) (organizationID : string) : list Activity :=
  (fun i => scanPaymentActivity (payment_row ctx db i)) <$>
    sort_stable (fun a b => intent_CreatedAt b <? intent_CreatedAt a)
      (filter (fun i => intent_visible ctx db organizationID i = true) (db_intents db)).

Definition ListActivities (ctx : Ctx) (organizationID : string) (f : ActivityFilter) : M ActivityPage :=
  tenantRead ctx organizationID (gets (fun db =>
    activity_page f (listStoredActivities ctx db organizationID ++ listPaymentActivities ctx db organizationID))).

(** ** One activity *)

Definition earlier (next : option Time) (t : Time) : bool :=
  match next with None => true | Some n => Before t n end.

Definition attempt_step (a : PaymentAttempt) : ActivityStep :=
  mkActivityStep "payment_attempt" (attempt_NormalizedResult a)
    (default (attempt_StartedAt a) (attempt_CompletedAt a)) ("attempt-" +:+ attempt_ID a)
    ("billing.payment_attempt." +:+ attempt_NormalizedResult a).
Definition add_attempt (act : Activity) (a : PaymentAttempt) : Activity :=
  let act := act <| act_Steps ::= fun steps => steps ++ [attempt_step a] |> in
  match attempt_NextReconciliationAt a with
  | Some next => if earlier (act_NextRetryAt act) next then act <| act_NextRetryAt := Some (UTC next) |> else act
  | None => act
  end.

(** [ORDER BY attempt_number, created_at] *)
Definition intent_attempts (db : Db) (intentID : string) : list PaymentAttempt :=
  sort_stable (fun a b => attempt_AttemptNumber a <? attempt_AttemptNumber b)
    (sort_stable (fun a b => attempt_CreatedAt a <? attempt_CreatedAt b)
       (filter (fun a => attempt_IntentID a = intentID) (db_attempts db))).
(** [ORDER BY updated_at DESC LIMIT 1] *)
Definition latest_job (db : Db) (intentID : string) : option ReconciliationJob :=
  head (sort_stable (fun a b => job_UpdatedAt b <? job_UpdatedAt a)
    (filter (fun j => job_IntentID j = intentID) (db_jobs db))).
Definition intent_credit (db : Db) (i : PaymentIntent) : option LedgerEntry :=
  head (sort_stable (fun a b => entry_CreatedAt b <? entry_CreatedAt a)
    (filter (fun e => (entry_AccountID e == intent_AccountID i) && (entry_IdempotencyScope e == "payment_intent")
                      && (entry_IdempotencyKey e == intent_ID i) = true) (db_entries db))).

Definition balance_step (act : Activity) (entry : option LedgerEntry) : list ActivityStep :=
  match entry with
  | Some e => [mkActivityStep "balance_ledger" (entry_Direction e) (entry_CreatedAt e)
                 ("ledger-" +:+ entry_ID e) ("billing.balance." +:+ entry_Direction e)]
  | None =>
      if (act_State act == ActivityFailed) || (act_State act == ActivityActionRequired)
      then [mkActivityStep "balance_ledger" "none" (act_UpdatedAt act) (act_CustomerReference act)
              "billing.balance.unchanged"]
      else []
  end.

Definition payment_activity (ctx : Ctx) (db : Db) (i : PaymentIntent) : Activity :=
  let act := scanPaymentActivity (payment_row ctx db i) in
  let act := act <| act_Steps := [mkActivityStep "payment_intent" "created" (act_OccurredAt act)
                    (act_CustomerReference act) "billing.payment_intent.created"] |> in
  let act := foldl add_attempt act (intent_attempts db (intent_ID i)) in
  let act := act <| act_Steps ::= fun steps => steps ++
      match latest_job db (intent_ID i) with
      | Some j => [mkActivityStep "reconciliation" (job_Status j) (job_UpdatedAt j)
                     ("reconciliation-" +:+ job_ID j) ("billing.reconciliation." +:+ job_Status j)]
      | None => []
      end |> in
  act <| act_Steps ::= fun steps => steps ++ balance_step act (intent_credit db i) |>.

Definition getPaymentActivity (ctx : Ctx) (organizationID intentID : string) : M Activity :=
  db ← gets id;
  i ← bscan (select (fun i => (intent_ID i == intentID) && intent_visible ctx db organizationID i));
  mret (payment_activity ctx db i).

Definition getStoredActivity (ctx : Ctx) (organizationID activityID : string) : M ActivityEvent :=
  db ← gets id;
  bscan (select (fun e => (activity_OrganizationID e == organizationID) && (activity_ID e == activityID)
                          && storedActivityVisibility ctx db e)).

Definition invoice_steps (act : Activity) (i : Invoice) : list ActivityStep :=
  mkActivityStep "invoice" "issued" (default 0 (inv_IssuedAt i)) (inv_InvoiceNumber i) "billing.invoice.issued"
  :: (if inv_SettlementLedgerID i == "" then [] else
      [mkActivityStep "balance_ledger" "debit" (act_UpdatedAt act) ("ledger-" +:+ inv_SettlementLedgerID i)
         "billing.balance.debited"]).

Definition getActivity (ctx : Ctx) (organizationID activityID : string) : M Activity :=
  payment ← try_err ErrBillingNotFound (getPaymentActivity ctx organizationID activityID);
  match payment with
  | Some act => mret act
  | None =>
      e ← getStoredActivity ctx organizationID activityID;
      let act := scanStoredActivity e in
      if act_Type act == "invoice" then
        i ← bscan (select (fun i => (inv_OrganizationID i == organizationID)
                                    && (inv_ID i == activity_ResourceID e)));
        db ← gets id;
        mret (act <| act_Steps ::= fun steps => steps ++ invoice_steps act (scanInvoice db i) |>)
      else mret act
  end.
Definition GetActivity (ctx : Ctx) (organizationID activityID : string) : M Activity :=
  tenantRead ctx organizationID (getActivity ctx organizationID activityID).
End activity.
