(* ===== verification/Document.v ===== *)
(** * Documents: [internal/billingdocument]

    The PDF of an invoice, byte by byte, and the text helpers of the top-up statement.
    A Go string is the list of its bytes; [\[\]rune] decodes UTF-8.  The drawing of the
    statement is the work of a PDF library and is not modelled. *)
From S2P Require Import Prelude GoStrings GoTime BillingTypes Money Database Creation.

(** ** Runes *)
Definition cont (b : N) : bool := (128 <=? b)%N && (b <=? 191)%N.
Definition within (lo hi b : N) : bool := (lo <=? b)%N && (b <=? hi)%N.
Definition RuneError : N := 65533.

(** [\[\]rune(s)]: a byte that starts no valid encoding is one [RuneError]. *)
Fixpoint decode_runes (l : list N) : list N :=
  match l with
  | [] => []
  | a :: l1 =>
      if (a <? 128)%N then a :: decode_runes l1 else
      match l1 with
      | b :: l2 =>
          if within 194 223 a && cont b then ((a - 192) * 64 + (b - 128))%N :: decode_runes l2 else
          match l2 with
          | c :: l3 =>
              if ((N.eqb a 224 && within 160 191 b) || (within 225 236 a && cont b)
                  || (N.eqb a 237 && within 128 159 b) || (within 238 239 a && cont b)) && cont c
              then ((a - 224) * 4096 + (b - 128) * 64 + (c - 128))%N :: decode_runes l3 else
              match l3 with
              | d :: l4 =>
                  if ((N.eqb a 240 && within 144 191 b) || (within 241 243 a && cont b)
                      || (N.eqb a 244 && within 128 143 b)) && cont c && cont d
                  then ((a - 240) * 262144 + (b - 128) * 4096 + (c - 128) * 64 + (d - 128))%N :: decode_runes l4
                  else RuneError :: decode_runes l1
              | [] => RuneError :: decode_runes l1
              end
          | [] => RuneError :: decode_runes l1
          end
      | [] => RuneError :: decode_runes l1
      end
  end.
Definition runes (s : string) : list N := decode_runes (bytes_of s).

(** [string(runes)] *)
Definition encode_rune (r : N) : list N :=
  if (r <? 128)%N then [r]
  else if (r <? 2048)%N then [192 + r / 64; 128 + r mod 64]%N
  else if within 55296 57343 r || (1114111 <? r)%N then [239; 191; 189]%N
  else if (r <? 65536)%N then [224 + r / 4096; 128 + r / 64 mod 64; 128 + r mod 64]%N
  else [240 + r / 262144; 128 + r / 4096 mod 64; 128 + r / 64 mod 64; 128 + r mod 64]%N.
Definition of_runes (l : list N) : string := of_bytes (l ≫= encode_rune).

(** [utf16.Encode] *)
Definition utf16_units (r : N) : list N :=
  if within 55296 57343 r || (1114111 <? r)%N then [RuneError]
  else if (r <? 65536)%N then [r]
  else let r := (r - 65536)%N in [55296 + r / 1024 mod 1024; 56320 + r mod 1024]%N.

(** [hex.EncodeToString] in capitals. *)
Definition hex_digit (n : N) : N := if (n <? 10)%N then (48 + n)%N else (55 + n)%N.
Definition hex_byte (b : N) : list N := [hex_digit (b / 16); hex_digit (b mod 16)].
Definition utf16Hex (value : string) : string :=
  let units := runes value ≫= utf16_units in
  of_bytes (([254; 255]%N ++ (units ≫= fun u => [u / 256; u mod 256]%N)) ≫= hex_byte).

(** ** Text of amounts *)
Definition truncate (value : string) (max : nat) : string :=
  let rs := runes (TrimSpace value) in
  if (length rs <=? max)%nat then of_runes rs else of_runes (take (max - 1) rs) +:+ "…".

Definition str_drop (n : nat) (s : string) : string := String.substring n (String.length s - n) s.
(** [%0*d]: the width counts the sign. *)
Definition padded_int (n : nat) (z : Z) : string :=
  if z <? 0 then "-" +:+ padded (n - 1) (- z) else padded n z.
Definition formatScaled (value scale : Z) : string :=
  if scale <=? 0 then pretty value else
  let text := padded_int (Z.to_nat (scale + 1)) value in
  let cut := (String.length text - Z.to_nat scale)%nat in
  str_take cut text +:+ "." +:+ str_drop cut text.
Definition formatMoney (value : Z) (currency : Code) : string := currency +:+ " " +:+ pretty value.

(** [t.Format("2006-01-02")] *)
Definition format_date (t : Time) : string :=
  padded 4 (Year t 0) +:+ "-" +:+ padded 2 (Month t 0) +:+ "-" +:+ padded 2 (MonthDay t 0).

(** ** The invoice *)
Definition RendererVersion : string := "rtk-billing-pdf-v1".

Definition writeText (x y size : Z) (value : string) : string :=
  "BT /F1 " +:+ pretty size +:+ " Tf " +:+ pretty x +:+ " " +:+ pretty y +:+ " Td <" +:+ utf16Hex value
  +:+ "> Tj ET" +:+ newline.

Definition line_label (invoice : Invoice) (line : InvoiceLine) : string :=
  truncate (line_Description line) 24 +:+ " / " +:+ line_MetricCode line +:+ " / "
  +:+ formatScaled (line_Quantity line) (line_QuantityScale line) +:+ " " +:+ line_Unit line +:+ " / "
  +:+ formatMoney (line_TotalMinor line) (inv_Currency invoice).

(** The loop over the lines, from the height [y], until the page is full. *)
Fixpoint write_lines (invoice : Invoice) (y : Z) (lines : list InvoiceLine) : string :=
  match lines with
  | [] => ""
  | line :: lines =>
      let y' := y - 19 in
      writeText 50 y 10 (line_label invoice line)
      +:+ (if y' <? 150 then writeText 50 y' 9 "其餘品項請參閱入口網站 JSON/CSV 明細"
           else write_lines invoice y' lines)
  end.

Definition line_before (a b : InvoiceLine) : bool :=
  if line_ServiceCode a == line_ServiceCode b then String.ltb (line_MetricCode a) (line_MetricCode b)
  else String.ltb (line_ServiceCode a) (line_ServiceCode b).

Definition page_content (invoice : Invoice) : string :=
  let code := inv_Currency invoice in
  writeText 50 790 18 "RTK Cloud 帳務發票"
  +:+ writeText 50 760 14 ("發票編號：" +:+ inv_InvoiceNumber invoice)
  +:+ writeText 50 738 11 ("計費期間：" +:+ format_date (inv_PeriodStart invoice) +:+ " ~ "
        +:+ format_date (inv_PeriodEnd invoice))
  +:+ writeText 50 718 11 ("收件人：" +:+ truncate (profile_LegalName (inv_Recipient invoice)) 48)
  +:+ writeText 50 688 11 ("服務 / 計量 / 用量 / 金額 (" +:+ code +:+ ")")
  +:+ write_lines invoice 666 (sort_stable line_before (inv_Lines invoice))
  +:+ writeText 330 122 11 ("小計：" +:+ formatMoney (inv_SubtotalMinor invoice) code)
  +:+ writeText 330 101 11 ("稅額：" +:+ formatMoney (inv_TaxMinor invoice) code)
  +:+ writeText 330 78 14 ("總計：" +:+ formatMoney (inv_TotalMinor invoice) code)
  +:+ writeText 50 48 8 "本文件為不可變更的帳務快照。付款加值與發票餘額結算為不同交易。".

Definition pdf_objects (content : string) : list string :=
  ["<< /Type /Catalog /Pages 2 0 R >>";
   "<< /Type /Pages /Kids [3 0 R] /Count 1 >>";
   "<< /Type /Page /Parent 2 0 R /MediaBox [0 0 595 842] /Resources << /Font << /F1 4 0 R >> >> /Contents 6 0 R >>";
   "<< /Type /Font /Subtype /Type0 /BaseFont /MSung-Light /Encoding /UniCNS-UCS2-H /DescendantFonts [5 0 R] >>";
   "<< /Type /Font /Subtype /CIDFontType0 /BaseFont /MSung-Light /CIDSystemInfo << /Registry (Adobe) /Ordering (CNS1) /Supplement 7 >> >>";
   "<< /Length " +:+ pretty (len content) +:+ " >>" +:+ newline +:+ "stream" +:+ newline +:+ content +:+ newline
     +:+ "endstream"].

Definition pdf_header : string :=
  "%PDF-1.7" +:+ newline +:+ "%" +:+ of_bytes [226; 227; 207; 211]%N +:+ newline.
Definition pdf_object (i : nat) (object : string) : string :=
  pretty (Z.of_nat i) +:+ " 0 obj" +:+ newline +:+ object +:+ newline +:+ "endobj" +:+ newline.

(** The objects appended one by one, with the offset at which each begins. *)
Fixpoint write_objects (pdf : string) (i : nat) (objects : list string) : string * list Z :=
  match objects with
  | [] => (pdf, [])
  | object :: objects =>
      let '(out, offsets) := write_objects (pdf +:+ pdf_object i object) (S i) objects in
      (out, len pdf :: offsets)
  end.

Definition xref_entry (offset : Z) : string := padded 10 offset +:+ " 00000 n " +:+ newline.
Definition pdf_bytes (objects : list string) : string :=
  let '(body, offsets) := write_objects pdf_header 1 objects in
  let xref := len body in
  let count := pretty (Z.of_nat (length objects + 1)) in
  body +:+ "xref" +:+ newline +:+ "0 " +:+ count +:+ newline +:+ "0000000000 65535 f " +:+ newline
  +:+ String.concat "" (xref_entry <$> offsets)
  +:+ "trailer" +:+ newline +:+ "<< /Size " +:+ count +:+ " /Root 1 0 R >>" +:+ newline
  +:+ "startxref" +:+ newline +:+ pretty xref +:+ newline +:+ "%%EOF" +:+ newline.

Definition RenderInvoice `{!Digest} (invoice : Invoice) (generatedAt : Time) : Result (string * InvoiceDocument) :=
  if (inv_State invoice == InvoiceStateDraft) || (inv_InvoiceNumber invoice == "")
     || bool_decide (inv_IssuedAt invoice = None)
  then Err ErrInvalidInvoice else
  _ ← ValidateInvoiceTotals invoice;
  let data := pdf_bytes (pdf_objects (page_content invoice)) in
  Ok (data, mkInvoiceDocument "application/pdf" (len data) (sha256_hex data) RendererVersion
              (inv_Version invoice) (UTC generatedAt)).

(** ** Text of the top-up statement *)
Definition fitPDF (value : string) (max : nat) : string :=
  let value := TrimSpace value in
  let rs := runes value in
  if (length rs <=? max)%nat then value else of_runes (take (max - 3) rs) +:+ "...".

Definition providerLabel (provider : string) : string :=
  if ToLower provider == "paypal" then "PayPal"
  else if ToLower provider == "newebpay" then "NewebPay"
  else fitPDF provider 20.

(** [digits\[:i\] + "," + digits\[i:\]] for [i := len(digits) - 3; i > 0; i -= 3] *)
Fixpoint group_digits (fuel : nat) (i : Z) (digits : string) : string :=
  match fuel with
  | O => digits
  | S fuel =>
      if i <=? 0 then digits
      else group_digits fuel (i - 3) (str_take (Z.to_nat i) digits +:+ "," +:+ str_drop (Z.to_nat i) digits)
  end.
Definition topUpMoney (amount : Z) (currency : Code) : string :=
  let digits := pretty amount in
  currency +:+ " " +:+ group_digits (String.length digits) (len digits - 3) digits.
