(* ===== verification/BillingService.v ===== *)
(** * Closing a billing period: [internal/billingservice/service.go]

    One call per period that prepares the invoice, debits the balance, records the
    settlement and stores the document.  Every step is a transaction of its own, so the
    service can stop between any two of them, and others can run in between. *)
From S2P Require Import Prelude GoStrings GoTime BillingTypes Invoice PaymentTypes Payment Database.
From S2P Require Import Tables Keeps Accounts Ledger BillingSchema Usage BillingInvoices Document.

Record ClosePeriodInput := mkClosePeriodInput {
  close_OrganizationID : string;
  close_PeriodStart : Time;
  close_PeriodEnd : Time;
  close_DueAt : Time;
  close_RequestID : string
}.

Record ClosePeriodResult := mkClosePeriodResult {
  closed_Invoice : Invoice;
  closed_PaymentIntentID : string;
  closed_Duplicate : bool
}.

Section service.
Context {pg : Postgres} {dg : Digest} {bx : BillingExternal}.
(** [options.ActorID], "account-manager-billing" when unset. *)
Variable actorID : string.

(** The request whose idempotency key is the invoice. *)
Definition invoice_debit (account : CommercialAccount) (invoice : Invoice) (requestID : string) (now : Time) :
    PostLedgerEntryInput :=
  mkPostLedgerEntryInput (account_ID account) LedgerDirectionDebit (inv_TotalMinor invoice)
    (account_Currency account) LedgerReasonInvoiceDebit "billing_invoice" (inv_ID invoice) "invoice"
    (inv_ID invoice) "service" actorID requestID now.

Definition prepare_input (account : CommercialAccount) (in_ : ClosePeriodInput) (now : Time) : PrepareInvoiceInput :=
  mkPrepareInvoiceInput (close_OrganizationID in_) (account_ID account) (account_Currency account)
    (UTC (close_PeriodStart in_)) (UTC (close_PeriodEnd in_)) (close_DueAt in_) now.

(** *** Steps

    A call of the service is a tree: a transaction of one of the stores, and what follows
    on its result. *)
Inductive service (A : Type) :=
  | Return (r : Result A)
  | Call {X : Type} (m : M X) (k : Result X → service A).
#[global] Arguments Return {_} _.
#[global] Arguments Call {_ _} _ _.

(** [if err != nil { return ClosePeriodResult{}, err }] *)
Definition call_then {X A} (m : M X) (f : X → service A) : service A :=
  Call m (fun r => match r with Ok x => f x | Err e => Return (Err e) end).

(** The entry that pays for the invoice, the top-up it triggered, and whether it was there. *)
Definition debit_step {A} (ctx : Ctx) (account : CommercialAccount) (invoice : Invoice) (in_ : ClosePeriodInput)
    (now : Time) (k : string → string → bool → service A) : service A :=
  if (inv_TotalMinor invoice >? 0) && (inv_SettlementLedgerID invoice == "") then
    call_then (PostLedgerEntry ctx (invoice_debit account invoice (close_RequestID in_) now)) (fun result =>
    k (entry_ID (posted_Entry result))
      (match posted_Intent result with Some i => intent_ID i | None => "" end) (posted_Duplicate result))
  else k (inv_SettlementLedgerID invoice) "" false.

Definition settle_step {A} (ctx : Ctx) (in_ : ClosePeriodInput) (invoice : Invoice) (ledgerID : string) (now : Time)
    (k : Invoice → service A) : service A :=
  if (inv_State invoice != InvoiceStateSettled)
     || ((inv_SettlementLedgerID invoice == "") && (ledgerID != ""))
  then call_then (RecordInvoiceSettlement ctx (close_OrganizationID in_) (inv_ID invoice) ledgerID now) k
  else k invoice.

Definition document_step {A} (ctx : Ctx) (in_ : ClosePeriodInput) (invoice : Invoice) (now : Time)
    (k : Invoice → service A) : service A :=
  Call (GetInvoiceDocument ctx (close_OrganizationID in_) (inv_ID invoice)) (fun stored =>
  match stored with
  | Ok _ => k invoice
  | Err ErrBillingNotFound =>
      match RenderInvoice invoice now with
      | Err e => Return (Err e)
      | Ok (data, document) =>
          call_then (PutInvoiceDocument ctx (close_OrganizationID in_) (inv_ID invoice) document data) (fun _ =>
          k (invoice <| inv_Document := Some document |>))
      end
  | Err e => Return (Err e)
  end).

(** [s.now()] is read once, before the first step; the error of the preparation may come
    with a committed diagnosis. *)
Definition ClosePeriod (ctx : Ctx) (now : Time) (in_ : ClosePeriodInput) : service ClosePeriodResult :=
  if (close_OrganizationID in_ == "") || negb (After (close_PeriodEnd in_) (close_PeriodStart in_))
  then Return (Err ErrBillingConflict) else
  let now := UTC now in
  call_then (GetCommercialAccountByOrganization ctx (close_OrganizationID in_) Settlement) (fun account =>
  if negb (CanSettle (account_Currency account)) then Return (Err ErrInvalidCurrency) else
  call_then (PrepareInvoice ctx (prepare_input account in_ now)) (fun prepared =>
  match prepared with
  | Err e => Return (Err e)
  | Ok (invoice, created) =>
      if inv_Currency invoice != account_Currency account then Return (Err ErrInvalidInvoice) else
      debit_step ctx account invoice in_ now (fun ledgerID intentID posted =>
      settle_step ctx in_ invoice ledgerID now (fun invoice =>
      document_step ctx in_ invoice now (fun invoice =>
      Return (Ok (mkClosePeriodResult invoice intentID (negb created || posted))))))
  end)).

(** A call that nothing interrupts. *)
Fixpoint serve {A} (p : service A) (db : Db) : Result A * Db :=
  match p with
  | Return r => (r, db)
  | Call m k => let (r, db) := run m db in serve (k r) db
  end.
End service.
