(* ===== verification/PriceTimeline.v ===== *)
(** * The time line of prices

    Publishing extends the intervals of a currency at their end and nowhere else: the
    published versions never overlap and leave no gap, so that from the first one on
    exactly one version is in force at every instant, for ever. *)
From S2P Require Import Prelude GoStrings GoTime BillingTypes Ota PaymentTypes Payment Database.
From S2P Require Import Tables Keeps Accounts Settlement Protocols BillingSchema Pricing.

Implicit Types (v w : PricingVersion) (vs : list PricingVersion).

(** [v] is over when [w] starts. *)
Definition over_before v w : Prop :=
  ∃ u, pricing_EffectiveUntil v = Some u ∧ u ≤ pricing_EffectiveFrom w.

Record PriceInv (vs : list PricingVersion) : Prop := {
  pri_ids : NoDup (pricing_ID <$> vs);
  pri_draft : ∀ v, v ∈ vs → published v = false → pricing_EffectiveUntil v = None;
  pri_shape : ∀ v, v ∈ vs → published v = true →
    match pricing_EffectiveUntil v with
    | None => pricing_Status v = "active"
    | Some u => pricing_Status v = "retired" ∧ pricing_EffectiveFrom v < u
    end;
  pri_disjoint : ∀ v w, v ∈ vs → w ∈ vs → published v = true → published w = true →
    pricing_Currency v = pricing_Currency w → pricing_ID v ≠ pricing_ID w → over_before v w ∨ over_before w v;
  pri_follow : ∀ v u, v ∈ vs → published v = true → pricing_EffectiveUntil v = Some u →
    ∃ w, w ∈ vs ∧ published w = true ∧ pricing_Currency w = pricing_Currency v ∧ pricing_EffectiveFrom w = u
}.

(** ** What publishing does *)

Definition retire (id : string) (from : Time) v : PricingVersion :=
  if pricing_ID v == id then v <| pricing_Status := "retired" |> <| pricing_EffectiveUntil := Some from |> else v.
Definition activate (id : string) (now : Time) v : PricingVersion :=
  if (pricing_ID v == id) && (pricing_Status v == "draft")
  then v <| pricing_Status := "active" |> <| pricing_ActivatedAt := Some now |> else v.
Definition retire_prev (prev : option PricingVersion) (from : Time) vs : list PricingVersion :=
  match prev with Some p => retire (pricing_ID p) from <$> vs | None => vs end.

(** The draft [v] is published after [prev], with whatever [prev] has been invoiced for
    before its end. *)
Record publishes (vs : list PricingVersion) (invoices : list Invoice) v (prev : option PricingVersion) : Prop := {
  pub_draft : v ∈ vs ∧ pricing_Status v = "draft" ∧ CanSettle (pricing_Currency v) = true;
  pub_rows : match prev with
             | None => ∀ x, x ∈ vs → not_over (pricing_Currency v) (pricing_ID v) (pricing_EffectiveFrom v) x = false
             | Some p => p ∈ vs ∧ pricing_Status p = "active" ∧ pricing_Currency p = pricing_Currency v ∧
                 pricing_ID p ≠ pricing_ID v ∧ pricing_EffectiveFrom p < pricing_EffectiveFrom v ∧
                 until_after p (pricing_EffectiveFrom v) = true ∧
                 (∀ x, x ∈ vs → not_over (pricing_Currency v) (pricing_ID v) (pricing_EffectiveFrom v) x = true → x = p) ∧
                 (∀ i, i ∈ invoices → inv_PricingVersionID i = pricing_ID p →
                    inv_PeriodStart i < pricing_EffectiveFrom v)
             end;
  pub_last : prev = None →
    match last_before (pricing_Currency v) (pricing_EffectiveFrom v) vs with
    | Some l => pricing_EffectiveUntil l = Some (pricing_EffectiveFrom v)
    | None => True
    end
}.

Lemma published_status v : published v = true ↔ pricing_Status v = "active" ∨ pricing_Status v = "retired".
Proof. unfold published, one_of. simpl. rewrite !orb_true_iff, !bool_decide_eq_true. naive_solver. Qed.

Lemma not_over_true code id from x :
  not_over code id from x = true ↔
  pricing_Currency x = code ∧ pricing_ID x ≠ id ∧ published x = true ∧ until_after x from = true.
Proof. unfold not_over. rewrite !andb_true_iff, negb_true_iff, bool_decide_eq_true, bool_decide_eq_false. tauto. Qed.

Lemma until_after_false v t : until_after v t = false ↔ ∃ u, pricing_EffectiveUntil v = Some u ∧ u ≤ t.
Proof.
  unfold until_after. destruct (pricing_EffectiveUntil v) as [u|]; [|naive_solver].
  rewrite Z.ltb_ge. naive_solver.
Qed.

(** The loop over the versions that are not over: none, or one that is still open. *)
Lemma predecessor_ok scheduled from now rows prev :
  predecessor scheduled from now rows = Ok prev →
  match prev with
  | None => rows = []
  | Some p => rows = [p] ∧ pricing_Status p = "active" ∧ pricing_EffectiveFrom p < from
  end.
Proof.
  unfold predecessor. intros H.
  assert (∀ rows p, fold_result (fun prev v =>
      if bool_decide (is_Some prev) || (pricing_Status v != "active")
         || negb (After from (pricing_EffectiveFrom v))
         || (scheduled && After (pricing_EffectiveFrom v) (UTC now))
      then Err ErrBillingConflict else Ok (Some v)) rows (Some p) = Ok prev → rows = [] ∧ prev = Some p) as Hone.
  { intros [|x r] p; simpl; [naive_solver|done]. }
  destruct rows as [|x rows]; simpl in H; [by injection H as <-|].
  apply result_bind_ok in H as (s & Hs & H). destruct (_ || _) eqn:E; [done|]. injection Hs as <-.
  apply Hone in H as [-> ->]. rewrite !orb_false_iff in E. destruct E as [[E1 E2] _].
  apply negb_false_iff, bool_decide_eq_true in E1. apply negb_false_iff, Z.ltb_lt in E2. done.
Qed.

Lemma select_in {R} `{!Table R} (p : R → bool) db r db' :
  select p db = Ok (r, db') → r ∈ t_rows db ∧ p r = true ∧ db' = db.
Proof. intros [Hf ->]%select_ok. apply find_some_iff in Hf as [? ?]. done. Qed.

Lemma bscan_ok {A} (m : M A) db a db' : bscan m db = Ok (a, db') ↔ m db = Ok (a, db').
Proof. unfold bscan. destruct (m db); naive_solver. Qed.
Lemma attempt_ok {A} (m : M A) db r db' :
  attempt m db = Ok (r, db') ↔ (∃ a, r = Ok a ∧ m db = Ok (a, db')) ∨ (∃ e, r = Err e ∧ db' = db ∧ m db = Err e).
Proof. unfold attempt. destruct (m db) as [[a db1]|e]; naive_solver. Qed.

(** A computation that only reads. *)
Class reads {A} (m : M A) : Prop := reads_db : ∀ db a db', m db = Ok (a, db') → db' = db.
#[export] Instance reads_bind {A B} (m : M A) (f : A → M B) : reads m → (∀ a, reads (f a)) → reads (m ≫= f).
Proof. intros Hm Hf db b db' (a & db1 & H1 & H2)%bind_ok. rewrite (Hf _ _ _ _ H2). by apply Hm in H1. Qed.
#[export] Instance reads_ret {A} (a : A) : reads (mret a : M A).
Proof. by intros ??? [_ ?]%ret_ok. Qed.
#[export] Instance reads_gets {A} (f : Db → A) : reads (gets f).
Proof. by intros ??? [_ ?]%gets_ok. Qed.
#[export] Instance reads_lift {A} (r : Result A) : reads (lift r).
Proof. by intros ??? [_ ?]%lift_ok. Qed.
#[export] Instance reads_throw {A} e : reads (throw e : M A).
Proof. by intros ???. Qed.
#[export] Instance reads_require b e : reads (require_that b e).
Proof. by intros ??? [_ ?]%require_ok. Qed.
#[export] Instance reads_select {R} `{!Table R} (p : R → bool) : reads (select p).
Proof. by intros ??? [_ ?]%select_ok. Qed.
#[export] Instance reads_exists {R} `{!Table R} (p : R → bool) : reads (exists_row p).
Proof. unfold exists_row. apply _. Qed.
#[export] Instance reads_bscan {A} (m : M A) : reads m → reads (bscan m).
Proof. intros Hm ??? H%(proj1 (bscan_ok _ _ _ _)). by eapply Hm. Qed.
#[export] Instance reads_scan {A} (m : M A) : reads m → reads (scan m).
Proof. intros Hm ??? H%(proj1 (scan_ok _ _ _ _)). by eapply Hm. Qed.
#[export] Instance reads_attempt {A} (m : M A) : reads m → reads (attempt m).
Proof. intros Hm ??? [(a & _ & H)|(e & _ & -> & _)]%attempt_ok; [by eapply Hm|done]. Qed.
#[export] Instance reads_try {A} e (m : M A) : reads m → reads (try_err e m).
Proof. intros Hm ??? [(a & _ & H)|(_ & -> & _)]%try_err_ok; [by eapply Hm|done]. Qed.
#[export] Instance reads_withTx {A} (m : M (Outcome A)) : reads m → reads (withTx m).
Proof. intros Hm ??? [H|[-> _]]%withTx_ok; [by eapply Hm|done]. Qed.

(** [reads] of a concrete computation: through its binds and branches. *)
Ltac reads := repeat first
  [ apply _ | match goal with |- reads (_ ≫= _) => apply reads_bind; [|intros ?] end
  | case_match | progress cbv beta zeta ].

#[export] Instance reads_GetPricingVersion id : reads (GetPricingVersion id).
Proof. unfold GetPricingVersion. reads. Qed.
#[export] Instance reads_ActivePricingVersion `{!Postgres} at_ code : reads (ActivePricingVersion at_ code).
Proof. unfold ActivePricingVersion, the_version. reads. Qed.
Lemma reads_check_approval `{!Postgres, !Digest} v rates a now : reads (check_approval v rates a now).
Proof. unfold check_approval. reads. Qed.
Lemma reads_check_schedule `{!Postgres} v s r now : reads (check_schedule v s r now).
Proof. unfold check_schedule. reads. Qed.

Section publication.
Context {pg : Postgres} {dg : Digest}.

(** The tables of the billing store other than prices and publications. *)
Definition other_billing (t : BillingTables) : BillingTables :=
  t <| bt_versions := [] |> <| bt_publications := [] |>.

(** The end of the predecessor. *)
Lemma end_predecessor_ok v approval prev db u db' :
  end_predecessor v approval prev db = Ok (u, db') →
  bt_versions (db_billing db') = retire_prev prev (pricing_EffectiveFrom v) (bt_versions (db_billing db)) ∧
  other_billing (db_billing db') = other_billing (db_billing db) ∧
  match prev with
  | None => match last_before (pricing_Currency v) (pricing_EffectiveFrom v) (bt_versions (db_billing db)) with
            | Some l => pricing_EffectiveUntil l = Some (pricing_EffectiveFrom v)
            | None => True
            end
  | Some p => ∀ i, i ∈ bt_invoices (db_billing db) → inv_PricingVersionID i = pricing_ID p →
                inv_PeriodStart i < pricing_EffectiveFrom v
  end.
Proof.
  intros H. destruct prev as [p|]; simpl in H.
  - apply bind_ok in H as (? & db1 & [_ ->]%require_ok & H).
    apply bind_ok in H as (b & db1 & Hb & H). unfold exists_row in Hb. apply gets_ok in Hb as [-> ->].
    apply bind_ok in H as (? & db1 & [Hno ->]%require_ok & H).
    apply bind_ok in H as (? & db1 & Hup & [_ ->]%ret_ok). apply update_rows_ok in Hup as (_ & _ & _ & ->).
    split_and!; [done..|]. intros i Hi Hid. apply negb_true_iff in Hno. rewrite existsb_false in Hno.
    specialize (Hno i Hi). rewrite bool_decide_eq_true_2 in Hno by done. by apply Z.leb_gt in Hno.
  - apply bind_ok in H as (l & db1 & [-> ->]%gets_ok & [Hl ->]%require_ok).
    split_and!; [done..|]. destruct (last_before _ _ _); [by apply bool_decide_eq_true in Hl|done].
Qed.

Lemma activatePricingVersionTx_ok id now approval db u db' :
  activatePricingVersionTx id now approval db = Ok (Committed u, db') →
  ∃ v prev, pricing_ID v = id ∧
    publishes (bt_versions (db_billing db)) (bt_invoices (db_billing db)) v prev ∧
    bt_versions (db_billing db') = activate id (pg_time now) <$>
      retire_prev prev (pricing_EffectiveFrom v) (bt_versions (db_billing db)) ∧
    other_billing (db_billing db') = other_billing (db_billing db).
Proof.
  intros H. unfold activatePricingVersionTx in H.
  apply bind_ok in H as (v & db1 & Hv & H). apply (proj1 (bscan_ok _ _ _ _)), select_in in Hv as (Hin & Hid & ->).
  apply bool_decide_eq_true in Hid.
  apply bind_ok in H as (? & db1 & [Hst ->]%require_ok & H).
  apply bind_ok in H as (? & db1 & [_ ->]%require_ok & H).
  apply bind_ok in H as (rates & db1 & [-> ->]%gets_ok & H).
  destruct (OTAPricingState _) as [en co].
  apply bind_ok in H as (? & db1 & [_ ->]%require_ok & H).
  apply bind_ok in H as (? & db1 & [_ ->]%require_ok & H).
  apply bind_ok in H as (? & db1 & Happ & H).
  assert (db1 = db) as ->.
  { destruct approval; [by apply reads_check_approval in Happ|by apply ret_ok in Happ as [_ ->]]. }
  apply bind_ok in H as (? & db1 & Hsch%reads_check_schedule & H). subst db1.
  apply bind_ok in H as (rows & db1 & [-> ->]%gets_ok & H).
  apply bind_ok in H as (prev & db1 & [Hprev ->]%lift_ok & H). apply predecessor_ok in Hprev.
  apply bind_ok in H as (? & db1 & [_ ->]%require_ok & H).
  apply bind_ok in H as (? & db1 & (Hvs & Hoth & Hend)%end_predecessor_ok & H).
  apply bind_ok in H as (? & db2 & Hpub & H).
  apply bind_ok in H as (ups & db3 & Hup & H). apply ret_ok in H as [_ ->].
  apply update_rows_ok in Hup as (_ & _ & _ & ->).
  assert (bt_versions (db_billing db2) = bt_versions (db_billing db1) ∧
    other_billing (db_billing db2) = other_billing (db_billing db1)) as [Hv2 Ho2].
  { destruct approval as [a|]; [|apply ret_ok in Hpub as [_ ->]; done].
    unfold record_publication in Hpub. apply bind_ok in Hpub as (? & db3 & Hins & [_ ->]%ret_ok).
    apply insert_row_ok in Hins as (_ & _ & _ & ->). done. }
  apply negb_true_iff, orb_false_iff in Hst as [Hd Hset].
  apply negb_false_iff, bool_decide_eq_true in Hd. apply negb_false_iff in Hset.
  exists v, prev. split; [done|]. split; [|split].
  - constructor; [done| |].
    + destruct prev as [p|].
      * destruct Hprev as (Hrows & Hact & Hlt).
        assert (∀ w, w ∈ bt_versions (db_billing db) →
          not_over (pricing_Currency v) id (pricing_EffectiveFrom v) w = true → w = p) as Hp.
        { intros w Hw How. apply list_elem_of_singleton. rewrite <- Hrows. by apply list_elem_of_filter. }
        assert (p ∈ filter (fun x => not_over (pricing_Currency v) id (pricing_EffectiveFrom v) x = true)
            (bt_versions (db_billing db))) as [Hpo Hpi]%list_elem_of_filter by (rewrite Hrows; by left).
        apply not_over_true in Hpo as (Hc & Hne & _ & Hu). rewrite <- Hid in Hne.
        do 6 (split; [done|]). split; [|exact Hend].
        by rewrite Hid.
      * intros w Hw. rewrite Hid. apply not_true_iff_false. intros Ho.
        assert (w ∈ filter (fun x => not_over (pricing_Currency v) id (pricing_EffectiveFrom v) x = true)
            (bt_versions (db_billing db))) as Hf by by apply list_elem_of_filter.
        rewrite Hprev in Hf. by apply elem_of_nil in Hf.
    + intros ->. exact Hend.
  - change (bt_versions (db_billing (t_put ?r db2))) with r. rewrite <- Hvs, <- Hv2. done.
  - rewrite <- Hoth, <- Ho2. done.
Qed.
End publication.

(** ** The invariant *)

(** Publication as a map over the rows: the draft becomes active, its predecessor ends
    where it starts, every other version stays as it is. *)
Section publish.
Context (vs : list PricingVersion) (invoices : list Invoice) (v : PricingVersion) (prev : option PricingVersion) (now : Time).
Context (Hinv : PriceInv vs) (Hpub : publishes vs invoices v prev).
Let from := pricing_EffectiveFrom v.

Definition after_publication (x : PricingVersion) : PricingVersion :=
  activate (pricing_ID v) now match prev with Some p => retire (pricing_ID p) from x | None => x end.

Lemma after_publication_key x :
  pricing_ID (after_publication x) = pricing_ID x ∧ pricing_Currency (after_publication x) = pricing_Currency x ∧
  pricing_EffectiveFrom (after_publication x) = pricing_EffectiveFrom x.
Proof using Type. clear Hinv Hpub. unfold after_publication, activate, retire. destruct prev; repeat case_match; done. Qed.

Lemma publish_draft : v ∈ vs ∧ pricing_Status v = "draft" ∧ published v = false ∧ pricing_EffectiveUntil v = None.
Proof.
  destruct (pub_draft _ _ _ _ Hpub) as (Hv & Hd & _).
  assert (published v = false) as Hp by (unfold published, one_of; by rewrite Hd).
  split_and!; [done..|]. by apply (pri_draft _ Hinv).
Qed.

Lemma publish_prev p : prev = Some p →
  p ∈ vs ∧ published p = true ∧ pricing_EffectiveUntil p = None ∧ pricing_Currency p = pricing_Currency v ∧
  pricing_EffectiveFrom p < from ∧ pricing_ID p ≠ pricing_ID v.
Proof.
  intros Hp. pose proof (pub_rows _ _ _ _ Hpub) as Hrows. rewrite Hp in Hrows.
  destruct Hrows as (Hin & Hact & Hc & Hne & Hlt & _).
  assert (published p = true) as Hpp by (apply published_status; auto).
  pose proof (pri_shape _ Hinv p Hin Hpp) as Hs. split_and!; try done.
  destruct (pricing_EffectiveUntil p); [|done]. destruct Hs as [Hs _]. congruence.
Qed.

Lemma after_publication_cases x : x ∈ vs →
  (x = v ∧ pricing_Status (after_publication x) = "active" ∧ pricing_EffectiveUntil (after_publication x) = None) ∨
  (prev = Some x ∧ pricing_Status (after_publication x) = "retired" ∧
     pricing_EffectiveUntil (after_publication x) = Some from) ∨
  (x ≠ v ∧ prev ≠ Some x ∧ after_publication x = x).
Proof.
  intros Hx. destruct publish_draft as (Hv & Hd & _ & Hu).
  assert (∀ y, y ∈ vs → pricing_ID x = pricing_ID y → x = y) as Hsame.
  { intros y Hy. apply (NoDup_fmap_inj_elem pricing_ID vs); [apply Hinv|done..]. }
  pose proof publish_prev as Hpp. unfold after_publication, activate, retire.
  destruct (decide (pricing_ID x = pricing_ID v)) as [He|Hne].
  - apply Hsame in He as ->; [|done]. left. split; [done|]. destruct prev as [p|] eqn:Ep.
    + destruct (Hpp p) as (_ & _ & _ & _ & _ & Hpv); [done|].
      rewrite (bool_decide_eq_false_2 (pricing_ID v = pricing_ID p)) by congruence.
      by rewrite !bool_decide_eq_true_2.
    + by rewrite !bool_decide_eq_true_2.
  - right. destruct prev as [p|] eqn:Ep.
    + destruct (Hpp p) as (Hp & _); [done|].
      destruct (decide (pricing_ID x = pricing_ID p)) as [He|Hne'].
      * pose proof (Hsame p Hp He) as ->. left. rewrite (bool_decide_eq_true_2 (pricing_ID p = pricing_ID p)) by done. simpl.
        by rewrite (bool_decide_eq_false_2 (pricing_ID p = pricing_ID v)).
      * right. rewrite (bool_decide_eq_false_2 (pricing_ID x = pricing_ID p)) by done.
        rewrite bool_decide_eq_false_2 by done. naive_solver.
    + right. rewrite bool_decide_eq_false_2 by done. naive_solver.
Qed.

(** Whoever had an end keeps it, and so does every order between two versions. *)
Lemma after_publication_ended x u : x ∈ vs → pricing_EffectiveUntil x = Some u → after_publication x = x.
Proof.
  intros Hx Hu. destruct publish_draft as (_ & _ & _ & Hd).
  destruct (after_publication_cases x Hx) as [(-> & _)|[(Hp & _)|(_ & _ & ?)]]; [congruence| |done].
  destruct (publish_prev x Hp) as (_ & _ & ? & _). congruence.
Qed.

Lemma over_before_publication x y : x ∈ vs → over_before x y → over_before (after_publication x) (after_publication y).
Proof.
  intros Hx (u & Hu & Hle). rewrite (after_publication_ended x u) by done.
  exists u. split; [done|]. by destruct (after_publication_key y) as (_ & _ & ->).
Qed.

(** The published versions of the currency are over when the draft starts. *)
Lemma over_before_draft x : x ∈ vs → published x = true → pricing_Currency x = pricing_Currency v →
  over_before (after_publication x) v.
Proof.
  intros Hx Hp Hc. destruct publish_draft as (_ & _ & Hdp & _).
  destruct (after_publication_cases x Hx) as [(-> & _)|[(_ & _ & Hu)|(Hne & Hprev & ->)]]; [congruence|by exists from|].
  apply until_after_false, not_true_iff_false. intros Hu.
  assert (not_over (pricing_Currency v) (pricing_ID v) from x = true) as Ho.
  { apply not_over_true. split_and!; try done. intros He. apply Hne.
    apply (NoDup_fmap_inj_elem pricing_ID vs); [apply Hinv|done|apply publish_draft|done]. }
  pose proof (pub_rows _ _ _ _ Hpub) as Hrows. destruct prev as [p|].
  - destruct Hrows as (_ & _ & _ & _ & _ & _ & Hall & _). apply Hprev. f_equal. symmetry. by apply Hall.
  - specialize (Hrows x Hx). unfold from in Ho. congruence.
Qed.

Lemma published_before x : x ∈ vs → published (after_publication x) = true → x = v ∨ published x = true.
Proof.
  intros Hx Hp. destruct (after_publication_cases x Hx) as [(-> & _)|[(Hpr & _)|(_ & _ & He)]].
  - by left.
  - right. by apply publish_prev.
  - right. by rewrite <- He.
Qed.

Lemma published_after x : x ∈ vs → published x = true → published (after_publication x) = true.
Proof.
  intros Hx Hp. apply published_status. destruct (after_publication_cases x Hx) as [(_ & -> & _)|[(_ & -> & _)|(_ & _ & ->)]];
    [by left|by right|by apply published_status].
Qed.

Lemma publish_PriceInv : PriceInv (after_publication <$> vs).
Proof.
  destruct publish_draft as (Hv & Hdr & Hdp & Hdu). split.
  - replace (pricing_ID <$> (after_publication <$> vs)) with (pricing_ID <$> vs); [apply Hinv|].
    rewrite <- list_fmap_compose. apply list_fmap_ext. intros i x _. symmetry. apply after_publication_key.
  - intros ? (x & -> & Hx)%list_elem_of_fmap Hp.
    destruct (after_publication_cases x Hx) as [(-> & Hs & Hu)|[(_ & Hs & _)|(_ & _ & He)]]; [done| |].
    + apply not_true_iff_false in Hp. destruct Hp. apply published_status. by right.
    + rewrite He in Hp |- *. by apply (pri_draft _ Hinv).
  - intros ? (x & -> & Hx)%list_elem_of_fmap Hp.
    destruct (after_publication_cases x Hx) as [(-> & Hs & ->)|[(Hpr & Hs & ->)|(_ & _ & He)]]; [done| |].
    + split; [done|]. destruct (after_publication_key x) as (_ & _ & ->). by apply publish_prev in Hpr as (_ & _ & _ & _ & ? & _).
    + rewrite He in Hp |- *. by apply (pri_shape _ Hinv).
  - intros ? ? (x & -> & Hx)%list_elem_of_fmap (y & -> & Hy)%list_elem_of_fmap Hpx Hpy.
    destruct (after_publication_key x) as (-> & -> & _), (after_publication_key y) as (-> & -> & _).
    intros Hc Hne. apply published_before in Hpx, Hpy; [|done..].
    assert (∀ z, over_before (after_publication z) v → over_before (after_publication z) (after_publication v)) as Hk.
    { intros z (u & Hu & Hle). exists u. split; [done|]. by destruct (after_publication_key v) as (_ & _ & ->). }
    destruct Hpx as [->|Hpx], Hpy as [->|Hpy]; [done| | |].
    + right. by apply Hk, over_before_draft.
    + left. by apply Hk, over_before_draft.
    + destruct (pri_disjoint _ Hinv x y) as [?|?]; try done; [left|right]; by apply over_before_publication.
  - intros ? u (x & -> & Hx)%list_elem_of_fmap Hp Hu.
    destruct (after_publication_key x) as (_ & -> & _).
    destruct (after_publication_cases x Hx) as [(-> & _ & He)|[(Hpr & _ & He)|(_ & _ & He)]]; [congruence| |].
    + rewrite He in Hu. injection Hu as <-. exists (after_publication v).
      destruct (after_publication_key v) as (_ & -> & ->). split_and!; [by apply list_elem_of_fmap_2| | |done].
      * apply published_status. destruct (after_publication_cases v Hv) as [(_ & ? & _)|[(Hpv & _)|(? & _)]]; [by left| |done].
        by apply publish_prev in Hpv as (_ & ? & _); congruence.
      * symmetry. by apply publish_prev in Hpr as (_ & _ & _ & ? & _).
    + rewrite He in Hp, Hu. destruct (pri_follow _ Hinv x u) as (w & Hw & Hwp & Hc & Hf); [done..|].
      exists (after_publication w). destruct (after_publication_key w) as (_ & -> & ->).
      split_and!; [by apply list_elem_of_fmap_2|by apply published_after|done|done].
Qed.
End publish.

(** ** The version in force *)
Section in_force.
Context (vs : list PricingVersion) (Hinv : PriceInv vs) (code : Code) (t : Time).

Lemma in_force_ok v : in_force code t v = true ↔
  published v = true ∧ pricing_Currency v = code ∧ pricing_EffectiveFrom v ≤ t ∧ until_after v t = true.
Proof using Type. unfold in_force. rewrite !andb_true_iff, bool_decide_eq_true, Z.leb_le. tauto. Qed.

Lemma in_force_unique v w : v ∈ vs → w ∈ vs → in_force code t v = true → in_force code t w = true → v = w.
Proof.
  intros Hv Hw (Hpv & Hcv & Hfv & Huv)%in_force_ok (Hpw & Hcw & Hfw & Huw)%in_force_ok.
  apply (NoDup_fmap_inj_elem pricing_ID vs); [apply Hinv|done..|].
  destruct (decide (pricing_ID v = pricing_ID w)) as [|Hne]; [done|exfalso].
  assert (∀ x y, pricing_EffectiveFrom y ≤ t → until_after x t = true → ¬ over_before x y) as Hno.
  { intros x y Hy Hx (u & Hu & Hle). unfold until_after in Hx. rewrite Hu in Hx. apply Z.ltb_lt in Hx. lia. }
  destruct (pri_disjoint _ Hinv v w) as [H|H]; try done; [by rewrite Hcv|by apply (Hno v w)|by apply (Hno w v)].
Qed.

Lemma latest (l : list PricingVersion) v : v ∈ l →
  ∃ m, m ∈ l ∧ ∀ x, x ∈ l → pricing_EffectiveFrom x ≤ pricing_EffectiveFrom m.
Proof using Type.
  revert v. induction l as [|a l IH]; intros v Hv; [by apply elem_of_nil in Hv|].
  destruct l as [|b l].
  - exists a. split; [by left|]. intros x ->%list_elem_of_singleton. done.
  - destruct (IH b) as (m & Hm & Hmax); [by left|].
    destruct (Z.le_ge_cases (pricing_EffectiveFrom a) (pricing_EffectiveFrom m)).
    + exists m. split; [by right|]. intros x [->|Hx]%elem_of_cons; [done|auto].
    + exists a. split; [by left|]. intros x [->|Hx]%elem_of_cons; [done|]. specialize (Hmax x Hx). lia.
Qed.

(** From the first published version on there is always one. *)
Lemma in_force_exists v : v ∈ vs → published v = true → pricing_Currency v = code → pricing_EffectiveFrom v ≤ t →
  ∃ w, w ∈ vs ∧ in_force code t w = true.
Proof.
  intros Hv Hp Hc Hf.
  destruct (latest (filter (fun x => published x = true ∧ pricing_Currency x = code ∧ pricing_EffectiveFrom x ≤ t) vs) v)
    as (w & ((Hpw & Hcw & Hfw) & Hw)%list_elem_of_filter & Hmax); [by apply list_elem_of_filter|].
  exists w. split; [done|]. apply in_force_ok. split_and!; [done..|].
  apply not_false_iff_true. intros (u & Hu & Hle)%until_after_false.
  destruct (pri_follow _ Hinv w u) as (x & Hx & Hpx & Hcx & Hfx); [done..|].
  pose proof (pri_shape _ Hinv w Hw Hpw) as Hs. rewrite Hu in Hs. destruct Hs as [_ Hlt].
  assert (pricing_EffectiveFrom x ≤ pricing_EffectiveFrom w) as Hc'.
  { apply Hmax, list_elem_of_filter. split_and!; [done|congruence|lia|done]. }
  lia.
Qed.

Lemma all_equal_singleton (l : list PricingVersion) v : NoDup l → v ∈ l → (∀ x, x ∈ l → x = v) → l = [v].
Proof using Type.
  intros Hn Hv Hall. destruct l as [|a l]; [by apply elem_of_nil in Hv|].
  assert (a = v) as -> by (apply Hall; by left). destruct l as [|b l]; [done|]. exfalso.
  assert (b = v) as -> by (apply Hall; right; by left). apply NoDup_cons in Hn as [Hn _]. apply Hn. by left.
Qed.

Lemma in_force_filter w : w ∈ vs → in_force code t w = true → filter (fun x => in_force code t x = true) vs = [w].
Proof.
  intros Hw Hf. apply all_equal_singleton.
  - apply NoDup_filter. eapply NoDup_fmap_1, Hinv.
  - by apply list_elem_of_filter.
  - intros x [Hx Hin]%list_elem_of_filter. by apply in_force_unique.
Qed.
End in_force.
