(* ===== verification/BillingOps.v ===== *)
(** * The operations of the billing store

    The writing operations of the billing store and of the payment store as one type,
    and any sequence of them.  A usage fact enters, a period is closed and a document is
    stored by internal callers, whose context carries no tenant; only the profile is
    also written for a tenant. *)
From S2P Require Import Prelude GoStrings GoTime BillingTypes PaymentTypes Payment Database.
From S2P Require Import Tables Keeps Accounts Ledger Credits Setups Handoff Protocols Settlement HandoffCommit.
From S2P Require Import Closure Preflight Creation Operations Responsibility HandoffSteps Handover ClosureSteps.
From S2P Require Import BillingSchema Pricing Usage Profiles BillingInvoices.

Inductive billing_operation :=
  | BPayment (op : operation)
  | BUsage (offset : Duration) (fact : UsageFact)
  | BSeal (input : OTAPeriodSeal)
  | BDraftPrices (in_ : CreatePricingVersionInput)
  | BDraftOTA (in_ : CreateOTAPricingDraftInput)
  | BActivate (id : string) (now : Time)
  | BPublish (id : string) (now : Time) (approval : ReviewedOTAPublication)
  | BEnsureProfile (ctx : Ctx) (organizationID : string) (now : Time)
  | BPutProfile (ctx : Ctx) (in_ : PutProfileInput)
  | BPrepare (in_ : PrepareInvoiceInput)
  | BSettle (organizationID invoiceID ledgerEntryID : string) (now : Time)
  | BDocument (organizationID invoiceID : string) (document : InvoiceDocument) (data : string).

Section billing_operations.
Context {pg : Postgres} {dg : Digest} {bx : BillingExternal}.

Definition exec_billing (op : billing_operation) : M unit :=
  match op with
  | BPayment op => exec op
  | BUsage offset fact => ignore (PutUsageFact None offset fact)
  | BSeal input => ignore (PutOTAPeriodSeal input)
  | BDraftPrices in_ => ignore (CreatePricingVersion in_)
  | BDraftOTA in_ => ignore (CreateOTAPricingDraft in_)
  | BActivate id now => ignore (ActivatePricingVersion id now)
  | BPublish id now approval => ignore (PublishReviewedOTAPricingVersion id now approval)
  | BEnsureProfile ctx organizationID now => ignore (EnsureBillingProfile ctx organizationID now)
  | BPutProfile ctx in_ => ignore (PutBillingProfile ctx in_)
  | BPrepare in_ => ignore (PrepareInvoice None in_)
  | BSettle organizationID invoiceID ledgerEntryID now =>
      ignore (RecordInvoiceSettlement None organizationID invoiceID ledgerEntryID now)
  | BDocument organizationID invoiceID document data =>
      PutInvoiceDocument None organizationID invoiceID document data
  end.

Definition run_billing (db : Db) (op : billing_operation) : Db := (run (exec_billing op) db).2.

End billing_operations.

(** ** Payment operations leave the billing tables alone *)
Definition same_billing (db db' : Db) : Prop := db_billing db' = db_billing db.
#[export] Instance same_billing_preorder : PreOrder same_billing.
Proof. unfold same_billing. split; [done|]. intros x y z. congruence. Qed.
#[export] Instance same_billing_frame : Frame same_billing.
Proof. split; [apply _|done..]. Qed.
#[export] Hint Extern 1 (Skips same_billing _) => by intros ?? : typeclass_instances.
#[export] Instance same_billing_apart : Apart same_billing.
Proof. split; try apply _; done. Qed.

Section frames.
Context {pg : Postgres} {dg : Digest}.
Lemma exec_same_billing op : keeps same_billing (exec op).
Proof.
  destruct (on_handoff op || on_closure op) eqn:Hop.
  - destruct op; try done; cbn [exec]; try apply keeps_ignore; try apply _.
  - destruct (on_creation op) eqn:Hr; [|destruct op; try done; by apply (exec_apart _)].
    destruct op; try done; cbn [exec]; try apply keeps_ignore; try apply _.
    apply keeps_BootstrapBrandCloud; try apply _.
Qed.
End frames.


(** ** The tables behind an invoice *)
Record BillingCore := mkBillingCore {
  bc_usage : list UsageFact;
  bc_periods : list BillingPeriod;
  bc_invoices : list Invoice;
  bc_lines : list LineRow;
  bc_versions : list PricingVersion;
  bc_rates : list PricingRate
}.
#[export] Instance BillingCore_eta : Eta BillingCore := fun c => {|
  bc_usage := bc_usage c; bc_periods := bc_periods c; bc_invoices := bc_invoices c;
  bc_lines := bc_lines c; bc_versions := bc_versions c; bc_rates := bc_rates c |}.
Definition core (db : Db) : BillingCore :=
  let t := db_billing db in
  mkBillingCore (urow_Fact <$> bt_usage t) (bt_periods t) (bt_invoices t) (bt_lines t) (bt_versions t) (bt_rates t).

(** The tables the calculation of an invoice does not read. *)
Definition same_core (db db' : Db) : Prop := core db' = core db.
#[export] Instance same_core_preorder : PreOrder same_core.
Proof. unfold same_core. split; [done|]. intros x y z. congruence. Qed.
#[export] Instance same_core_frame : Frame same_core.
Proof. split; [apply _|done..]. Qed.
#[export] Hint Extern 1 (Skips same_core _) => by intros ?? : typeclass_instances.
#[export] Instance same_core_apart : Apart same_core.
Proof. split; try apply _; done. Qed.
