(* ===== verification/BillingFixtures.v ===== *)
(** * A concrete billing run

    The store of [Fixtures] takes a price list and two usage facts, closes the first 100
    seconds of time, settles the invoice and stores its document. *)
From S2P Require Import Prelude GoStrings GoTime BillingTypes PaymentTypes Payment Database Tables Fixtures.
From S2P Require Import Accounts Operations BillingSchema Pricing Usage Profiles BillingInvoices BillingOps.

#[export] Instance demo_bx : BillingExternal := {|
  pgtype_uuid s := Some s; VerifyOTAGrant := None; VerifyCommercialMonth := None |}.
#[local] Existing Instances demo_pg demo_dg.

Definition demo_rate : PricingRate :=
  mkPricingRate "" "" "api" "requests" "API requests" "request" 3 1 None RoundingHalfUp None 500.
Definition demo_prices (version : Z) (from : Time) : CreatePricingVersionInput :=
  mkCreatePricingVersionInput "standard" version TWD from [demo_rate] "" None "" "" "operator" demo_now.
Definition demo_version : string := Eval vm_compute in pg_uuid 0.

Definition demo_fact (id : string) (start : Time) (quantity : Z) : UsageFact :=
  mkUsageFact "" id "org" "device" "api" "requests" quantity 0 "request" start (start + 10 * Second) "gateway"
    demo_digest None None.
Definition demo_window : PrepareInvoiceInput :=
  mkPrepareInvoiceInput "org" "acc" TWD (1 * Second) (100 * Second) 0 demo_now.
Definition demo_profile_input : PutProfileInput :=
  mkPutProfileInput "org" "Org Ltd" "" "1 Road" "billing@org" "en" "UTC" "portal" 1 demo_now.

Definition demo_priced_ops : list billing_operation :=
  [BDraftPrices (demo_prices 1 Second); BActivate demo_version demo_now].
Definition demo_usage_ops : list billing_operation := demo_priced_ops ++
  [BUsage 0 (demo_fact "u1" (20 * Second) 100); BUsage 0 (demo_fact "u2" (40 * Second) 50);
   BUsage 0 (demo_fact "u3" (95 * Second) 7);
   BEnsureProfile None "org" demo_now; BPutProfile None demo_profile_input].
Definition demo_billing_ops : list billing_operation := demo_usage_ops ++ [BPrepare demo_window].

Definition demo_usage_db : Db := Eval vm_compute in foldl run_billing demo_db demo_usage_ops.
Definition demo_billed_db : Db := Eval vm_compute in foldl run_billing demo_db demo_billing_ops.

Example demo_invoiced :
  (fun i => (inv_State i, inv_TotalMinor i)) <$> bt_invoices (db_billing demo_billed_db) = [("issued", 47)] ∧
  (line_UsageFactRefs ∘ lrow_Line) <$> bt_lines (db_billing demo_billed_db) = [["u1"; "u2"]].
Proof. by vm_compute. Qed.
