(* ===== verification/BillingSteps.v ===== *)
(** * The steps of the billing store

    What each operation writes to the tables behind an invoice, as an inductive step
    relation on those tables.  Every operation is such a step. *)
From S2P Require Import Prelude GoStrings GoTime BillingTypes Money Ota Invoice PaymentTypes Payment Database.
From S2P Require Import Tables Keeps Accounts Settlement Protocols Operations BillingSchema Pricing Usage.
From S2P Require Import Profiles BillingInvoices PriceTimeline BillingOps.

(** ** Periods *)
Definition period_key (p : BillingPeriod) :=
  (bperiod_ID p, (bperiod_OrganizationID p, bperiod_Currency p, bperiod_Start p, bperiod_End p)).
Definition is_closed (p : BillingPeriod) : Prop := bperiod_State p = "closed".

Inductive period_move (ps : list BillingPeriod) : list BillingPeriod → Prop :=
  | move_update f :
      (∀ p, period_key (f p) = period_key p) → (∀ p, is_closed p → is_closed (f p)) →
      period_move ps (f <$> ps)
  | move_insert p : (∀ q, q ∈ ps → t_conflict q p = false) → period_move ps (ps ++ [p]).

(** ** Invoices *)

(** The facts and the rates an invoice is made of, as the store lists them. *)
Definition window_facts (c : BillingCore) (organizationID : string) (start end_ : Time) : list UsageFact :=
  usage_order (filter (fun f => in_window organizationID start end_ f = true) (bc_usage c)).
Definition rates_of (c : BillingCore) (versionID : string) : list PricingRate :=
  by_id rate_ServiceCode (by_id rate_MetricCode (by_id rate_Unit
    (filter (fun r => rate_PricingVersionID r = versionID) (bc_rates c)))).
Definition lines_of (c : BillingCore) (invoiceID : string) : list InvoiceLine :=
  lrow_Line <$> filter (fun r => lrow_InvoiceID r = invoiceID) (bc_lines c).

(** The facts the price version of the invoice bills. *)
Definition billed_facts (c : BillingCore) (i : Invoice) : list UsageFact :=
  billable_selection (negb (bool_decide (ota_rates (rates_of c (inv_PricingVersionID i)) = [])))
    (window_facts c (inv_OrganizationID i) (inv_PeriodStart i) (inv_PeriodEnd i)).

(** The lines bill exactly the facts, each line all facts of one rate and product, at
    that rate, and they add up to the invoice. *)
Record bills (rates : list PricingRate) (facts : list UsageFact) (i : Invoice) (lines : list InvoiceLine) : Prop := {
  bills_refs : concat (line_UsageFactRefs <$> lines) ≡ₚ fact_UsageID <$> facts;
  bills_lines : Forall (line_bills rates facts) lines;
  bills_total : Reconciled (i <| inv_Lines := lines |>)
}.

Definition period_of (ps : list BillingPeriod) (i : Invoice) (p : BillingPeriod) : Prop :=
  p ∈ ps ∧ is_closed p ∧
  period_key p = (inv_PeriodID i, (inv_OrganizationID i, inv_Currency i, inv_PeriodStart i, inv_PeriodEnd i)).
Definition price_of (vs : list PricingVersion) (i : Invoice) (v : PricingVersion) : Prop :=
  v ∈ vs ∧ pricing_ID v = inv_PricingVersionID i ∧ in_force (inv_Currency i) (inv_PeriodStart i) v = true.

(** An invoice row is settled: for its whole total, or nothing of it. *)
Definition settlement_state (i : Invoice) : Prop :=
  (inv_State i = InvoiceStateIssued ∧ inv_AmountSettledMinor i = 0) ∨
  (inv_State i = InvoiceStateSettled ∧ inv_AmountSettledMinor i = inv_TotalMinor i).

(** A new invoice [i] of the tables [c]. *)
Record invoiced (c : BillingCore) (i : Invoice) (lines : list InvoiceLine) : Prop := {
  iv_new : ∀ j, j ∈ bc_invoices c → t_conflict j i = false;
  iv_price : ∃ v, price_of (bc_versions c) i v;
  iv_period : ∃ p, period_of (bc_periods c) i p;
  iv_state : inv_State i = InvoiceStateIssued ∧ inv_AmountSettledMinor i = 0;
  iv_bills : Forall nul_free (bc_usage c) →
    bills (rates_of c (inv_PricingVersionID i)) (billed_facts c i) i lines
}.

(** ** Steps *)
Definition set_periods (ps : list BillingPeriod) (c : BillingCore) : BillingCore := c <| bc_periods := ps |>.

Definition add_lines (ls : list LineRow) (c : BillingCore) : BillingCore := c <| bc_lines ::= fun l => l ++ ls |>.
Definition add_invoice (i : Invoice) (c : BillingCore) : BillingCore := c <| bc_invoices ::= fun l => l ++ [i] |>.

(** Every step but the settlement of an invoice. *)
Inductive calm_step (c c' : BillingCore) : Prop :=
  | cs_none : c' = c → calm_step c c'
  | cs_usage r :
      (∀ p, p ∈ bc_periods c → bperiod_OrganizationID p = fact_OrganizationID r → is_closed p →
         ranges_overlap (bperiod_Start p) (bperiod_End p) (fact_WindowStart r) (fact_WindowEnd r) = false) →
      nul_free r → fact_WindowStart r < fact_WindowEnd r →
      (∀ g, g ∈ bc_usage c → fact_UsageID g ≠ fact_UsageID r) →
      c' = c <| bc_usage ::= fun l => l ++ [r] |> → calm_step c c'
  | cs_periods ps : rtc period_move (bc_periods c) ps → c' = set_periods ps c → calm_step c c'
  | cs_invoice ps i lines :
      rtc period_move (bc_periods c) ps → invoiced (set_periods ps c) i lines →
      c' = add_lines (mkLineRow (inv_ID i) <$> lines) (add_invoice i (set_periods ps c)) → calm_step c c'
  | cs_draft v rates :
      pricing_Status v = "draft" → pricing_EffectiveUntil v = None →
      (∀ w, w ∈ bc_versions c → pricing_ID w ≠ pricing_ID v) →
      Forall (fun r => rate_PricingVersionID r = pricing_ID v) rates →
      c' = c <| bc_versions ::= fun l => l ++ [v] |> <| bc_rates ::= fun l => l ++ rates |> → calm_step c c'
  | cs_publish v prev now :
      publishes (bc_versions c) (bc_invoices c) v prev →
      c' = c <| bc_versions ::= fmap (after_publication v prev now) |> → calm_step c c'.

Inductive core_step (c c' : BillingCore) : Prop :=
  | cs_calm : calm_step c c' → core_step c c'
  | cs_settle id now :
      c' = c <| bc_invoices ::= fmap (fun i =>
        if (inv_ID i == id) && one_of (inv_State i) ["issued"; "partially_settled"; "settled"]
        then settle_row now i else i) |> → core_step c c'.

(** ** The periods move *)
Definition periods_move (db db' : Db) : Prop :=
  core db' = set_periods (bt_periods (db_billing db')) (core db) ∧
  rtc period_move (bt_periods (db_billing db)) (bt_periods (db_billing db')).

#[export] Instance periods_move_preorder : PreOrder periods_move.
Proof.
  split; [by split|]. intros x y z [E1 M1] [E2 M2]. split; [by rewrite E2, E1|by etransitivity].
Qed.
#[export] Instance periods_move_frame : Frame periods_move.
Proof. split; [apply _|by split..]. Qed.
#[export] Hint Extern 1 (Skips periods_move _) => by intros ??; split : typeclass_instances.

Section moves.
Context {pg : Postgres} {dg : Digest} {bx : BillingExternal}.

Lemma keeps_moves (R : relation Db) {A} (m : M A) : (∀ x y, same_core x y → R x y) → keeps same_core m → keeps R m.
Proof. intros HR Hm db a db' H. by eapply HR, Hm. Qed.

Lemma keeps_reads (R : relation Db) `{!PreOrder R} {A} (m : M A) : reads m → keeps R m.
Proof. intros Hm. apply keeps_pure; [apply _|]. apply Hm. Qed.
Lemma keeps_attempt (R : relation Db) `{!PreOrder R} {A} (m : M A) : keeps R m → keeps R (attempt m).
Proof. intros Hm db r db' [(a & _ & H)|(e & _ & -> & _)]%attempt_ok; [by eapply Hm|done]. Qed.
Lemma keeps_bscan (R : relation Db) {A} (m : M A) : keeps R m → keeps R (bscan m).
Proof. intros Hm db a db' H%(proj1 (bscan_ok _ _ _ _)). by eapply Hm. Qed.
Lemma keeps_bindR (R : relation Db) `{!PreOrder R} {A B} (m : M (Result A)) (f : A → M (Result B)) :
  keeps R m → (∀ a, keeps R (f a)) → keeps R (bindR m f).
Proof. intros Hm Hf. unfold bindR. apply keeps_bind; [apply _|done|]. intros [a|e]; [apply Hf|apply _]. Qed.

(** An UPDATE of periods that leaves their keys alone and closed ones closed. *)
Class KeepsPeriod (p : BillingPeriod → bool) (f : BillingPeriod → BillingPeriod) := keeps_period :
  ∀ q, p q = true → period_key (f q) = period_key q ∧ (is_closed q → is_closed (f q)).

Lemma barrier_reads account : reads (financial_barrier account).
Proof.
  unfold financial_barrier, closure_barrier, handoff_barrier. intros db u db' H.
  by apply bind_ok in H as (? & db1 & [_ ->]%barrier_ok & [_ ->]%barrier_ok).
Qed.

Lemma update_rows_moves p f db rows db' `{!KeepsPeriod p f} :
  update_rows p f db = Ok (rows, db') → periods_move db db'.
Proof.
  intros (_ & _ & _ & ->)%update_rows_ok. split; [done|]. apply rtc_once. cbn [t_touch billing_periods_table].
  change (bt_periods (db_billing (t_put ?r db))) with r. apply move_update; intros q; case_match eqn:E; try done;
    by apply keeps_period.
Qed.

Lemma keeps_update_periods_where p f `{!KeepsPeriod p f} : keeps periods_move (update_periods_where p f).
Proof.
  intros db rows db' H. unfold update_periods_where in H.
  apply bind_ok in H as (? & db1 & ->%barrier_reads & H). by eapply update_rows_moves.
Qed.

#[local] Instance keeps_markPeriodIncomplete id code now : keeps periods_move (markPeriodIncomplete id code now).
Proof.
  unfold markPeriodIncomplete. apply keeps_bind; [apply _| |intros; apply _].
  apply keeps_update_periods_where. intros q Hq. split; [done|]. reflect_go. done.
Qed.
#[local] Instance keeps_incomplete {A} id code now e : keeps periods_move (incomplete (A := A) id code now e).
Proof. unfold incomplete. apply keeps_bind; [apply _|apply _|intros; apply _]. Qed.

Lemma keeps_upsert_period p : keeps periods_move (upsert_period p).
Proof.
  unfold upsert_period. apply keeps_bind; [apply _|apply keeps_reads; [apply _|apply barrier_reads]|intros _].
  apply keeps_bind; [apply _|apply _|]. intros [].
  - intros db q db' [rest H]%update_one_ok. eapply update_rows_moves; [|done].
    intros r _. split; [by case_match|]. intros Hr. by rewrite bool_decide_eq_true_2.
  - intros db q db' (-> & _ & Hno & ->)%insert_row_ok. split; [done|]. by apply rtc_once, move_insert.
Qed.

Lemma upsert_period_ok p db q db' :
  upsert_period p db = Ok (q, db') →
  q ∈ bt_periods (db_billing db') ∧ (period_key q).2 = (period_key p).2.
Proof.
  unfold upsert_period. intros (? & db1 & ->%barrier_reads & H)%bind_ok.
  apply bind_ok in H as (b & db1 & [-> ->]%gets_ok & H). destruct (existsb _ _).
  - apply update_one_ok in H as (rest & H). apply update_rows_ok in H as (Hr & _ & _ & ->).
    destruct (filter _ _) as [|o l] eqn:Hf; [done|]. simpl in Hr. injection Hr as -> _.
    assert (o ∈ o :: l) as Ho by left. rewrite <- Hf in Ho. apply list_elem_of_filter in Ho as [Hs Ho].
    split.
    + change (bt_periods (db_billing (t_put ?r db))) with r. apply list_elem_of_fmap. exists o. by rewrite Hs.
    + unfold same_period in Hs. reflect_go. unfold period_key. case_match; simpl; congruence.
  - apply insert_row_ok in H as (-> & _ & _ & ->). split; [|done].
    change (bt_periods (db_billing (t_put ?r db))) with r. apply elem_of_app. right. by left.
Qed.
End moves.

(** ** Preparing an invoice *)
Section prepare.
Context {pg : Postgres} {dg : Digest} {bx : BillingExternal}.
#[local] Existing Instances keeps_markPeriodIncomplete keeps_incomplete.

Lemma keeps_EnsureBillingProfile (R : relation Db) `{!Frame R, !Skips R BillingProfile, !Touches R} ctx organizationID now :
  keeps R (EnsureBillingProfile ctx organizationID now).
Proof.
  unfold EnsureBillingProfile, ensureBillingProfileTx, lockProfileOwner, getProfileTx. keeps;
  try (apply keeps_bscan); keeps.
Qed.

#[local] Instance reads_eligibility organizationID accountID start end_ :
  reads (VerifyOTAAccountEligibility organizationID accountID start end_).
Proof. unfold VerifyOTAAccountEligibility. reads. Qed.
#[local] Instance reads_seals organizationID start end_ : reads (verifyOTAPeriodSeals organizationID start end_).
Proof. unfold verifyOTAPeriodSeals. reads. Qed.

Lemma keeps_ota_ready in_ id complete now : keeps periods_move (ota_ready in_ id complete now).
Proof.
  unfold ota_ready. destruct (negb complete); [apply _|]. destruct (negb _); [apply _|].
  apply keeps_bind; [apply _|apply _|]. intros [owner|]; [|apply _].
  apply keeps_bind; [apply _|apply keeps_reads; apply _|]. intros [u|e]; [|apply _].
  apply keeps_bind; [apply _|apply keeps_reads; apply _|].
  intros [u'|e]; [apply _|]. case_match; apply _.
Qed.

Lemma incomplete_err {A} id code now e db (a : A) db' : ¬ incomplete id code now e db = Ok (Ok a, db').
Proof. unfold incomplete. by intros (? & ? & _ & [? _]%ret_ok)%bind_ok. Qed.

Lemma ota_ready_ok in_ id complete now db v db' :
  ota_ready in_ id complete now db = Ok (Ok v, db') → db' = db.
Proof.
  pose proof (@incomplete_err Z) as Hno. unfold ota_ready. destruct (negb complete); [by intros ?%Hno|].
  destruct (negb _); [by intros ?%Hno|]. intros (owner & db1 & [-> ->]%gets_ok & H)%bind_ok. destruct (find _ _) as [owner|]; [|by apply Hno in H].
  apply bind_ok in H as (r & db1 & Hr & H).
  assert (db1 = db) as ->.
  { revert Hr. apply reads_db. }
  destruct r as [u|e]; [|by apply Hno in H]. apply bind_ok in H as (r & db1 & Hs & H).
  assert (db1 = db) as ->. { revert Hs. apply reads_db. }
  destruct r as [u'|e]; [by apply ret_ok in H as [_ ->]|]. destruct (e == _); [by apply Hno in H|].
  by apply ret_ok in H as [? _].
Qed.

Lemma listUsageFacts_ok organizationID start end_ db facts db' :
  ListUsageFacts None organizationID start end_ db = Ok (facts, db') →
  facts = window_facts (core db) organizationID (pg_time start) (pg_time end_) ∧ db' = db.
Proof.
  intros [-> ->]%gets_ok. split; [|done]. unfold window_facts. f_equal. apply filter_ext_in.
  intros f _. by rewrite andb_true_r.
Qed.

Lemma keeps_facts_to_bill in_ id rates owner now : keeps periods_move (facts_to_bill None in_ id rates owner now).
Proof.
  unfold facts_to_bill. apply keeps_bind; [apply _|apply keeps_gets, _|]. intros facts.
  repeat case_match; apply _.
Qed.

Lemma facts_to_bill_ok in_ id rates owner now db billable db' :
  facts_to_bill None in_ id rates owner now db = Ok (Ok billable, db') →
  db' = db ∧ BillableUsageFacts (window_facts (core db) (prep_OrganizationID in_) (pg_time (prep_PeriodStart in_))
                (pg_time (prep_PeriodEnd in_))) rates = Ok billable.
Proof.
  pose proof (@incomplete_err (list UsageFact)) as Hno. unfold facts_to_bill.
  intros (facts & db1 & (-> & ->)%listUsageFacts_ok & H)%bind_ok.
  destruct (BillableUsageFacts _ _) as [b|e]; [|by apply Hno in H]. revert H.
  destruct (if bool_decide _ then _ else _); [|by intros ?%Hno].
  destruct (_ && _); [by intros ?%Hno|]. intros H. by apply ret_ok in H as [[= ->] ->].
Qed.

Lemma keeps_invoice_recipient in_ id owner now : keeps periods_move (invoice_recipient None in_ id owner now).
Proof.
  unfold invoice_recipient. apply keeps_bind; [apply _|apply keeps_attempt, keeps_EnsureBillingProfile; apply _|].
  intros [[profile created]|e]; repeat case_match; apply _.
Qed.

Lemma invoice_recipient_ok in_ id owner now db profile db' :
  invoice_recipient None in_ id owner now db = Ok (Ok profile, db') → same_core db db'.
Proof.
  pose proof (@incomplete_err BillingProfile) as Hno. unfold invoice_recipient.
  intros (r & db1 & Hr & H)%bind_ok.
  assert (same_core db db1) as Hs.
  { revert Hr. apply keeps_attempt; [apply _|]. apply keeps_EnsureBillingProfile; apply _. }
  destruct r as [[p created]|e]; [|by apply Hno in H]. revert H.
  case_match; [by intros ?%Hno|]. case_match; [by intros ?%Hno|]. by intros [_ ->]%ret_ok.
Qed.
End prepare.

(** The period an invoice was asked for. *)
Definition span (i : Invoice) := (inv_OrganizationID i, inv_Currency i, inv_PeriodStart i, inv_PeriodEnd i).
Definition request_span `{!Postgres} (in_ : PrepareInvoiceInput) :=
  (prep_OrganizationID in_, prep_Currency in_, pg_time (prep_PeriodStart in_), pg_time (prep_PeriodEnd in_)).
Definition period_for `{!Postgres} (in_ : PrepareInvoiceInput) (ps : list BillingPeriod) (p : BillingPeriod) : Prop :=
  p ∈ ps ∧ (period_key p).2 = request_span in_.

(** ** Storing an invoice *)

(** A stored line has an identifier of its own. *)
Definition same_line (l l' : InvoiceLine) : Prop := ∃ id, l' = l <| line_ID := id |>.

Lemma same_line_fmap {A} (f : InvoiceLine → A) lines lines' :
  (∀ l id, f (l <| line_ID := id |>) = f l) → Forall2 same_line lines lines' → f <$> lines' = f <$> lines.
Proof. intros Hf. induction 1 as [|l l' lines lines' [id ->] _ IH]; [done|]. by rewrite !fmap_cons, Hf, IH. Qed.

Lemma same_line_Forall (P : InvoiceLine → Prop) lines lines' :
  (∀ l id, P l → P (l <| line_ID := id |>)) → Forall2 same_line lines lines' → Forall P lines → Forall P lines'.
Proof. intros Hf. induction 1 as [|l l' lines lines' [id ->] _ IH]; inversion 1; subst; constructor; auto. Qed.

Lemma sum_by_same {A} (f : A → Z) (l k : list A) : f <$> l = f <$> k → sum_by f l = sum_by f k.
Proof.
  revert k. induction l as [|a l IH]; intros [|b k]; try done. rewrite !fmap_cons. intros [= Hab Hlk]. unfold sum_by. simpl. rewrite Hab. f_equal. by apply IH.
Qed.

Lemma total_category mode rate rounding category :
  tax_policy_check mode rate rounding category = true → mode = TaxModeInvoiceTotal → category ≠ "".
Proof.
  unfold tax_policy_check. intros H -> ->. rewrite andb_false_r in H. by rewrite orb_false_r in H.
Qed.

Section store.
Context {pg : Postgres} {dg : Digest} {bx : BillingExternal}.

(** The fields of the row. *)
Lemma invoice_row_fields id i now lines :
  let row := invoice_row id i now <| inv_Lines := lines |> in
  invoice_identity row = ((inv_OrganizationID i, inv_AccountID i, inv_PeriodID i, inv_PricingVersionID i),
    (inv_Currency i, pg_time (inv_PeriodStart i), pg_time (inv_PeriodEnd i)), "") ∧
  (inv_TaxMode row, inv_InvoiceTaxRateBasisPoints row, inv_InvoiceTaxRoundingMode row, inv_InvoiceTaxCategory row) =
    (inv_TaxMode i, inv_InvoiceTaxRateBasisPoints i, inv_InvoiceTaxRoundingMode i,
     nullableTaxCategory (inv_InvoiceTaxCategory i)) ∧
  (inv_Lines row, inv_SubtotalMinor row, inv_TaxMinor row, inv_TotalMinor row) =
    (lines, inv_SubtotalMinor i, inv_TaxMinor i, inv_TotalMinor i) ∧
  (inv_AmountSettledMinor row, inv_AmountDueMinor row) = (0, inv_TotalMinor i) ∧
  (inv_ID row, inv_State row) = (id, inv_State i).
Proof. destruct i. by split_and!. Qed.

Lemma check_tax row lines : t_check row = true → let row := row <| inv_Lines := lines |> in
  tax_policy_check (inv_TaxMode row) (inv_InvoiceTaxRateBasisPoints row) (inv_InvoiceTaxRoundingMode row)
    (inv_InvoiceTaxCategory row) = true.
Proof. cbn [t_check invoices_table]. rewrite !andb_true_iff. intros [_ Hck]. by destruct row. Qed.

(** The row of an issued invoice, with its stored lines, adds up like the invoice. *)
Lemma stored_reconciled id issued now lines' :
  Reconciled issued → Forall2 same_line (inv_Lines issued) lines' → t_check (invoice_row id issued now) = true →
  Reconciled (invoice_row id issued now <| inv_Lines := lines' |>).
Proof.
  intros [Hl Hs Ht Htot H64 Hset Hdue Hsum Hpol] Hlines Hck.
  apply (check_tax _ lines') in Hck. revert Hck.
  destruct (invoice_row_fields id issued now lines') as (_ & Ep & Et & Es & _).
  remember (invoice_row id issued now <| inv_Lines := lines' |>) as row eqn:Hrow. clear Hrow.
  injection Ep as Em Eb Er Ec. rewrite Em, Eb, Er, Ec. intros Hck. injection Et as El Eu Ex Eo. injection Es as Ea Ed.
  constructor; rewrite ?El, ?Eu, ?Ex, ?Eo, ?Ea, ?Ed; try done; try lia.
  - eapply same_line_Forall; [|done..]. by intros l x.
  - rewrite Hs. apply sum_by_same. symmetry. by apply same_line_fmap.
  - rewrite Ht. apply sum_by_same. symmetry. by apply same_line_fmap.
  - unfold Money.tax_policy_ok in *. rewrite Em, Eb, Er, Ec, Eu, Ex. case_bool_decide as Hm.
    + destruct Hpol as (bp & ? & ? & ? & ?). exists bp. do 2 (split; [done|]). split; [|done]. by eapply total_category.
    + destruct Hpol as (? & ? & ? & Hc). do 3 (split; [done|]). by rewrite Hc.
Qed.

Lemma add_lines_nil c : add_lines [] c = c.
Proof. destruct c. unfold add_lines, upd. simpl. by rewrite app_nil_r. Qed.
Lemma add_lines_app l k c : add_lines k (add_lines l c) = add_lines (l ++ k) c.
Proof. destruct c. unfold add_lines, upd. simpl. by rewrite app_assoc. Qed.

Lemma insert_lines_ok id lines db lines' db' :
  insert_lines id lines db = Ok (lines', db') →
  Forall2 same_line lines lines' ∧
  core db' = add_lines (mkLineRow id <$> lines') (core db).
Proof.
  revert db lines' db'. induction lines as [|line lines IH]; intros db lines' db'; simpl.
  { intros [-> ->]%ret_ok. split; [constructor|]. by rewrite add_lines_nil. }
  intros (x & db1 & [-> ->]%fresh_ok & H)%bind_ok. cbv zeta in H.
  apply bind_ok in H as (r & db2 & (_ & _ & _ & ->)%insert_row_ok & H).
  apply bind_ok in H as (rest & db3 & (Hrest & Hc)%IH & [-> ->]%ret_ok).
  split; [constructor; [by eexists|done]|]. rewrite Hc. change (core (t_put ?r ?d)) with (add_lines [mkLineRow id (line <| line_ID := pg_uuid (db_serial db) |>)] (core db)).
  by rewrite add_lines_app.
Qed.

Lemma reads_getInvoice organizationID id : reads (GetInvoice None organizationID id).
Proof.
  unfold GetInvoice, tenantRead, getInvoice, complete_invoice, getInvoiceDocument. reads.
Qed.

Lemma close_period_ok id pricingID now db u db' :
  close_period id pricingID now db = Ok (u, db') →
  periods_move db db' ∧
  ∀ p, p ∈ bt_periods (db_billing db) → bperiod_ID p = id →
    ∃ p', p' ∈ bt_periods (db_billing db') ∧ period_key p' = period_key p ∧ is_closed p'.
Proof.
  unfold close_period. intros (rows & db1 & H & [_ ->]%ret_ok)%bind_ok. split.
  { revert H. by apply keeps_update_periods_where. }
  unfold update_periods_where in H. apply bind_ok in H as (? & db2 & ->%barrier_reads & H).
  apply update_rows_ok in H as (_ & _ & _ & ->). intros p Hp Hid.
  change (bt_periods (db_billing (t_put ?r db))) with r.
  eexists. split; [apply list_elem_of_fmap; exists p; split; [done|exact Hp]|]. by rewrite Hid, bool_decide_eq_true_2.
Qed.

(** What [issue_and_close] has stored. *)
Record issues (draft : Invoice) (now : Time) (c c' : BillingCore) (id : string) (issued : Invoice)
    (lines : list InvoiceLine) : Prop := {
  is_issued : ∃ number dueAt, IssueInvoice draft number now dueAt = Ok issued;
  is_lines : Forall2 same_line (inv_Lines issued) lines;
  is_check : t_check (invoice_row id issued now) = true;
  is_new : ∀ j, j ∈ bc_invoices c → t_conflict j (invoice_row id issued now) = false;
  is_core : ∃ ps, rtc period_move (bc_periods c) ps ∧
    (∀ p, p ∈ bc_periods c → bperiod_ID p = inv_PeriodID draft →
       ∃ p', p' ∈ ps ∧ period_key p' = period_key p ∧ is_closed p') ∧
    c' = add_lines (mkLineRow id <$> lines) (add_invoice (invoice_row id issued now) (set_periods ps c))
}.

Lemma issue_and_close_ok in_ draft dueAt now db i created db' :
  issue_and_close None in_ (inv_PeriodID draft) draft dueAt now db = Ok ((i, created), db') →
  if (created : bool) then ∃ id issued lines, issues draft now (core db) (core db') id issued lines ∧
    i = issued <| inv_ID := id |> <| inv_Lines := lines |>
  else ∃ j, j ∈ bc_invoices (core db) ∧ inv_PeriodID j = inv_PeriodID draft ∧
    GetInvoice None (prep_OrganizationID in_) (inv_ID j) db = Ok (i, db) ∧ db' = db.
Proof.
  unfold issue_and_close. intros (existing & db1 & [-> ->]%gets_ok & H)%bind_ok.
  destruct (find _ _) as [j|] eqn:Hf.
  { apply find_some_iff in Hf as [Hj Hp]. reflect_go.
    apply bind_ok in H as (y & db1 & Hg & [[= -> ->] ->]%ret_ok). pose proof (reads_getInvoice _ _ _ _ _ Hg) as ->.
    by exists j. }
  apply bind_ok in H as (n & db1 & [= _ <-] & H). apply bind_ok in H as (issued & db1 & [Hissue ->]%lift_ok & H).
  apply bind_ok in H as (id & db1 & [-> ->]%fresh_ok & H). revert H. generalize (pg_uuid (db_serial
    (db <| db_billing ::= fun t => t <| bt_invoice_seq := bt_invoice_seq (db_billing db) + 1 |> |>))). intros id H.
  apply bind_ok in H as (row & db1 & Hins & H). unfold insert_invoice in Hins.
  apply bind_ok in Hins as (? & db2 & ->%barrier_reads & (_ & Hck & Hno & ->)%insert_row_ok).
  apply bind_ok in H as (lines & db2 & (Hlines & Hc2)%insert_lines_ok & H).
  apply bind_ok in H as (u & db3 & ([Hc3 Hm] & Hclosed)%close_period_ok & [[= -> ->] ->]%ret_ok).
  exists id, issued, lines. split; [|done]. constructor; [by eexists _, _|done..|].
  exists (bt_periods (db_billing db3)). assert (bt_periods (db_billing db2) = bt_periods (db_billing db)) as Hp.
  { change (bc_periods (core db2) = bc_periods (core db)). by rewrite Hc2. }
  rewrite Hp in Hm, Hclosed. split_and!; [done..|]. by rewrite Hc3, Hc2.
Qed.
End store.

(** ** Every operation is a step *)

Lemma moves_step db db' : periods_move db db' → calm_step (core db) (core db').
Proof. intros [Hc Hm]. by eapply cs_periods. Qed.

Lemma same_step db db' : same_core db db' → calm_step (core db) (core db').
Proof. apply cs_none. Qed.

Lemma usage_order_Permutation facts : usage_order facts ≡ₚ facts.
Proof. unfold usage_order, by_time, by_id. by rewrite !sort_stable_Permutation. Qed.

Lemma billable_selection_idemp b facts :
  billable_selection b (billable_selection b facts) = billable_selection b facts.
Proof. unfold billable_selection. rewrite list_filter_filter. apply filter_ext_in. intros. tauto. Qed.

Lemma billable_nul_free b facts : Forall nul_free facts → Forall nul_free (billable_selection b facts).
Proof. rewrite !Forall_forall. intros H f [_ Hf]%list_elem_of_filter. auto. Qed.

Section prepare_step.
Context {pg : Postgres} {dg : Digest} {bx : BillingExternal}.

Lemma bindR_ok {A B} (m : M (Result A)) (f : A → M (Result B)) db r db' :
  bindR m f db = Ok (r, db') →
  (∃ a db1, m db = Ok (Ok a, db1) ∧ f a db1 = Ok (r, db')) ∨ (∃ e, r = Err e ∧ m db = Ok (Err e, db')).
Proof.
  unfold bindR. intros ([a|e] & db1 & Hm & H)%bind_ok; [left; eauto|right].
  apply ret_ok in H as [-> ->]. eauto.
Qed.

Lemma ActivePricingVersion_ok at_ code db v db' :
  ActivePricingVersion at_ code db = Ok (v, db') →
  (∃ w, w ∈ bt_versions (db_billing db) ∧ in_force code (pg_time at_) w = true ∧ pricing_ID w = pricing_ID v) ∧
  pricing_Rates v = rates_of (core db) (pricing_ID v) ∧ db' = db.
Proof.
  intros H. pose proof (reads_db _ _ _ H) as ->. unfold ActivePricingVersion in H.
  apply bind_ok in H as (rows & db1 & [-> ->]%gets_ok & H). destruct (filter _ _) as [|w [|? ?]] eqn:Hf; try done.
  assert (w ∈ [w]) as Hw by left. rewrite <- Hf in Hw. apply list_elem_of_filter in Hw as [Hw Hin]. simpl in H.
  unfold GetPricingVersion in H. apply bind_ok in H as (x & db1 & Hx & H).
  apply (proj1 (bscan_ok _ _ _ _)), select_in in Hx as (_ & Hx & ->). reflect_go.
  apply bind_ok in H as (rates & db1 & [-> ->]%gets_ok & [-> _]%ret_ok). get_upd.
  split; [|done]. by exists w.
Qed.

(** The facts and the price of a draft are those of its period. *)
Lemma issues_invoiced in_ (c : BillingCore) ps period pricing recipient now billable draft id issued lines :
  BillableUsageFacts (window_facts c (prep_OrganizationID in_) (pg_time (prep_PeriodStart in_))
     (pg_time (prep_PeriodEnd in_))) (pricing_Rates pricing) = Ok billable →
  pricing_Rates pricing = rates_of c (pricing_ID pricing) →
  (∃ w, w ∈ bc_versions c ∧ in_force (prep_Currency in_) (pg_time (prep_PeriodStart in_)) w = true ∧
        pricing_ID w = pricing_ID pricing) →
  BuildDraftInvoice (draft_header in_ (bperiod_ID period) pricing recipient now) billable (pricing_Rates pricing)
    = Ok draft →
  period_for in_ (bc_periods c) period →
  (∀ p, p ∈ bc_periods c → bperiod_ID p = inv_PeriodID draft →
     ∃ p', p' ∈ ps ∧ period_key p' = period_key p ∧ is_closed p') →
  (∃ number dueAt, IssueInvoice draft number now dueAt = Ok issued) →
  Forall2 same_line (inv_Lines issued) lines → t_check (invoice_row id issued now) = true →
  (∀ j, j ∈ bc_invoices c → t_conflict j (invoice_row id issued now) = false) →
  invoiced (set_periods ps c) (invoice_row id issued now) lines ∧
  span (invoice_row id issued now) = request_span in_ ∧ inv_SettlementLedgerID issued = "".
Proof.
  intros Hbill Hrates (w & Hw & Hforce & Hwid) Hdraft [Hper Hkey] Hclosed (number & dueAt & Hissue) Hlines Hck Hno.
  pose proof (IssueInvoice_identity _ _ _ _ _ Hissue) as Hid.
  apply IssueInvoice_inv in Hissue as (_ & Hst & _ & Hch & Hrec & _).
  pose proof (stored_reconciled id issued now lines Hrec Hlines Hck) as Hrec'.
  apply BuildDraftInvoice_identity in Hdraft as Hid'.
  destruct (invoice_row_fields id issued now []) as (Hrow & _).
  assert (inv_SettlementLedgerID issued = "") as Hledger by (rewrite Hid' in Hid; by injection Hid).
  assert (invoice_identity (invoice_row id issued now) = ((prep_OrganizationID in_, prep_AccountID in_, bperiod_ID period,
    pricing_ID pricing), (prep_Currency in_, pg_time (prep_PeriodStart in_), pg_time (prep_PeriodEnd in_)), "")) as Hident.
  { change (invoice_identity (invoice_row id issued now)) with
      (invoice_identity (invoice_row id issued now <| inv_Lines := [] |>)). rewrite Hrow.
    rewrite Hid' in Hid. injection Hid as -> -> -> -> -> -> -> _. done. }
  assert (inv_PeriodID draft = bperiod_ID period) as Hpid by (by injection Hid').
  assert (inv_State (invoice_row id issued now) = InvoiceStateIssued ∧
    inv_AmountSettledMinor (invoice_row id issued now) = 0) as Hstate.
  { by split. }
  generalize dependent (invoice_row id issued now). intros row _ Hno Hrec' _ Hident Hstate.
  injection Hident as Ho Ha Hp Hv Hcur Hs He _.
  split; [|split; [unfold span, request_span; by rewrite Ho, Hcur, Hs, He|done]]. constructor; [exact Hno| | |exact Hstate|].
  - exists w. split_and!; [done|by rewrite Hv|by rewrite Hcur, Hs].
  - destruct (Hclosed period) as (p' & Hp' & Hk & Hc); [done..|]. exists p'. split_and!; [done..|].
    rewrite Hk, Hp, Ho, Hcur, Hs, He. fold (request_span in_). by rewrite <- Hkey.
  - intros Hnul. change (bc_usage (set_periods ps c)) with (bc_usage c) in Hnul.
    apply BillableUsageFacts_ok in Hbill as (_ & _ & Hbill).
    assert (billed_facts (set_periods ps c) row = billable) as Hbf.
    { unfold billed_facts. rewrite Hv, Ho, Hs, He. change (rates_of (set_periods ps c)) with (rates_of c).
      by rewrite <- Hrates, Hbill. }
    rewrite Hbf, Hv. change (rates_of (set_periods ps c)) with (rates_of c). rewrite <- Hrates.
    apply BuildDraftInvoice_complete in Hdraft as (Hrefs & Hl & _).
    + rewrite Hbill, billable_selection_idemp, <- Hbill in Hrefs, Hl. injection Hch as Hlines' _ _ _ _ _.
      rewrite <- Hlines' in Hrefs, Hl. constructor; [| |done].
      * rewrite (same_line_fmap line_UsageFactRefs (inv_Lines issued)); [done|done|done].
      * eapply same_line_Forall; [|done..]. done.
    + rewrite Hbill. apply billable_nul_free. unfold window_facts.
      rewrite Forall_forall in *. intros f Hf. rewrite usage_order_Permutation in Hf.
      apply list_elem_of_filter in Hf as [_ Hf]. auto.
Qed.

(** How preparing an invoice ends: with a diagnosis at most, with the invoice that the
    period has, or with a new one. *)
Inductive prepares (in_ : PrepareInvoiceInput) (db db' : Db) : Result (Invoice * bool) → Prop :=
  | prepares_error e : periods_move db db' → prepares in_ db db' (Err e)
  | prepares_found i period j :
      periods_move db db' → period_for in_ (bc_periods (core db')) period →
      j ∈ bc_invoices (core db') → inv_PeriodID j = bperiod_ID period →
      GetInvoice None (prep_OrganizationID in_) (inv_ID j) db' = Ok (i, db') →
      prepares in_ db db' (Ok (i, false))
  | prepares_new ps id issued lines now :
      rtc period_move (bc_periods (core db)) ps →
      invoiced (set_periods ps (core db)) (invoice_row id issued now) lines →
      span (invoice_row id issued now) = request_span in_ → inv_SettlementLedgerID issued = "" →
      core db' = add_lines (mkLineRow id <$> lines) (add_invoice (invoice_row id issued now) (set_periods ps (core db))) →
      prepares in_ db db' (Ok (issued <| inv_ID := id |> <| inv_Lines := lines |>, true)).

Lemma prepareInvoice_ok in_ db r db' :
  prepareInvoice None in_ db = Ok (r, db') → prepares in_ db db' r.
Proof.
  unfold prepareInvoice. intros (now & db1 & [-> ->]%default_now_ok & H)%bind_ok. cbv zeta in H.
  remember (if IsZero (prep_Now in_) then UTC (db_clock db) else UTC (prep_Now in_)) as now eqn:Hnow. clear Hnow.
  apply bind_ok in H as (id & db1 & [-> ->]%fresh_ok & H).
  remember (db <| db_serial ::= S |>) as db1 eqn:Hdb1. assert (periods_move db db1) as Hc1.
  { rewrite Hdb1. apply frame_serial. }
  clear Hdb1.
  apply bind_ok in H as (period & db2 & Hup & H).
  apply upsert_period_ok in Hup as Hper. destruct Hper as [Hper Hkey]. apply keeps_upsert_period in Hup.
  assert (periods_move db db2) as Hup' by by etrans. clear Hc1 Hup. rename Hup' into Hup.
  apply bind_ok in H as (existing & db3 & He & H). assert (period_for in_ (bc_periods (core db2)) period) as Hfor by done.
  apply try_err_ok in He as [(invoice & -> & He)|(-> & -> & _)].
  { apply ret_ok in H as [-> ->]. unfold GetInvoiceByPeriod, tenantRead, getInvoiceByPeriod in He.
    apply bind_ok in He as (j & db4 & Hj & He). apply (proj1 (bscan_ok _ _ _ _)), select_in in Hj as (Hj & Hjp & ->).
    pose proof (reads_getInvoice _ _ _ _ _ He) as ->. reflect_go. by eapply prepares_found. }
  destruct (bperiod_State period == "closed"); [apply ret_ok in H as [-> ->]; by apply prepares_error|].
  apply bind_ok in H as (priced & db3 & Hpr & H).
  apply attempt_ok in Hpr as [(pricing & -> & Hpr)|(e & -> & -> & _)].
  2: { unfold incomplete in H. apply bind_ok in H as (? & db4 & Hm & [-> ->]%ret_ok). apply prepares_error.
       etrans; [exact Hup|]. revert Hm. apply keeps_markPeriodIncomplete. }
  apply ActivePricingVersion_ok in Hpr as (Hprice & Hrates & ->).
  destruct (OTAPricingState (pricing_Rates pricing)) as [enabled complete].
  apply bindR_ok in H as [(owner & db3 & Ho & H)|(e & -> & Ho)].
  2: { apply prepares_error. etrans; [exact Hup|]. revert Ho. destruct enabled; [|by intros [_ ->]%ret_ok].
       intros Ho. apply bindR_ok in Ho as [(? & ? & _ & [? _]%ret_ok)|(? & _ & Ho)]; [done|].
       by apply keeps_ota_ready in Ho. }
  assert (db3 = db2) as ->.
  { destruct enabled; [|by apply ret_ok in Ho as [_ ->]].
    apply bindR_ok in Ho as [(v & db4 & ->%ota_ready_ok & [_ ->]%ret_ok)|(? & [=] & _)]. done. }
  apply bindR_ok in H as [(billable & db3 & (-> & Hbill)%facts_to_bill_ok & H)|(e & -> & Hb)].
  2: { apply prepares_error. etrans; [exact Hup|]. by apply keeps_facts_to_bill in Hb. }
  apply bindR_ok in H as [(recipient & db3 & Hr & H)|(e & -> & Hr)].
  2: { apply prepares_error. etrans; [exact Hup|]. by apply keeps_invoice_recipient in Hr. }
  apply invoice_recipient_ok in Hr as Hc3.
  destruct (BuildDraftInvoice _ _ _) as [draft|e] eqn:Hdraft.
  2: { unfold incomplete in H. apply bind_ok in H as (? & db4 & Hm & [-> ->]%ret_ok). apply prepares_error.
       etrans; [exact Hup|]. etrans; [by apply keeps_invoice_recipient in Hr|].
       revert Hm. apply keeps_markPeriodIncomplete. }
  apply bind_ok in H as ([i created] & db4 & H & [-> ->]%ret_ok).
  apply BuildDraftInvoice_identity in Hdraft as Hid. assert (bperiod_ID period = inv_PeriodID draft) as Hpid by by injection Hid.
  rewrite Hpid in H. apply issue_and_close_ok in H. destruct created.
  2: { destruct H as (j & Hj & Hjp & Hget & ->). apply (prepares_found _ _ _ _ period j); [|by rewrite Hc3|done|..].
       - etrans; [exact Hup|]. by apply keeps_invoice_recipient in Hr.
       - by rewrite Hjp.
       - exact Hget. }
  destruct H as (iid & issued & lines & [Hissue Hlines Hck Hno (ps & Hm & Hclosed & Hc)] & ->).
  unfold same_core in Hc3. rewrite Hc3 in *.
  assert (invoiced (set_periods ps (core db2)) (invoice_row iid issued now) lines ∧
    span (invoice_row iid issued now) = request_span in_ ∧ inv_SettlementLedgerID issued = "") as (Hinv & Hspan & Hled)
    by by eapply issues_invoiced.
  destruct Hup as [Hc2 Hm2]. rewrite Hc2 in Hinv, Hc.
  eapply (prepares_new _ _ _ ps iid issued lines now); [|exact Hinv|done|done|exact Hc].
  etrans; [exact Hm2|]. rewrite Hc2 in Hm. exact Hm.
Qed.

Lemma prepares_step in_ db db' r : prepares in_ db db' r → calm_step (core db) (core db').
Proof.
  intros [e Hm|i period j Hm _ _ _ _|ps id issued lines now Hm Hinv _ _ Hc]; [by apply moves_step..|by eapply cs_invoice].
Qed.
End prepare_step.

Section operations_step.
Context {pg : Postgres} {dg : Digest} {bx : BillingExternal}.

Lemma PrepareInvoice_ok in_ db r db' :
  PrepareInvoice None in_ db = Ok (r, db') → prepares in_ db db' r ∨ ∃ e, r = Err e ∧ db' = db.
Proof.
  unfold PrepareInvoice. intros (? & db1 & [_ ->]%require_ok & H)%bind_ok.
  apply withTx_ok in H as [H|[-> (db1 & H)]]; unfold prepareInvoiceTx in H;
    apply bind_ok in H as (a & db2 & Ha & H); apply (proj1 (bscan_ok _ _ _ _)), select_ok in Ha as [_ ->];
    apply bind_ok in H as (r' & db2 & Hp & H); (destruct r' as [?|e]; [|destruct (retains_diagnostics e)]);
    try (apply ret_ok in H as [H ->]); try done.
  - injection H as ->. left. by apply prepareInvoice_ok in Hp.
  - injection H as ->. left. by apply prepareInvoice_ok in Hp.
Qed.

Lemma PrepareInvoice_step in_ db r db' :
  PrepareInvoice None in_ db = Ok (r, db') → calm_step (core db) (core db').
Proof. intros [H|(e & _ & ->)]%PrepareInvoice_ok; [by eapply prepares_step|by apply cs_none]. Qed.

Lemma storable_nul_free f : storable f = true → nul_free f.
Proof.
  unfold storable. simpl. rewrite !andb_true_iff, !negb_true_iff. intros (_ & _ & Hp & Hs & Hm & Hu & _).
  exact (conj Hs (conj Hm (conj Hu Hp))).
Qed.

Lemma insert_usage_step r db r' db' : insert_usage r db = Ok (r', db') → calm_step (core db) (core db').
Proof.
  unfold insert_usage. cbv zeta. intros (? & db1 & [Hs ->]%require_ok & H)%bind_ok.
  apply bind_ok in H as (? & db1 & ->%barrier_reads & H). apply bind_ok in H as (? & db1 & [Hl ->]%barrier_ok & H).
  apply insert_or_nothing_ok in H as (-> & Hck & Hno & ->)%insert_row_ok.
  apply (cs_usage _ _ (urow_Fact r)).
  - intros p Hp Ho Hc. unfold usage_locked in Hl. rewrite existsb_false in Hl. specialize (Hl p Hp).
    rewrite (bool_decide_eq_true_2 _ Ho) in Hl. unfold one_of in Hl. rewrite Hc in Hl. exact Hl.
  - by apply storable_nul_free.
  - cbn [t_check usage_table] in Hck. rewrite !andb_true_iff in Hck. destruct_and!. by apply Z.ltb_lt.
  - intros g (q & -> & Hq)%list_elem_of_fmap Heq. specialize (Hno q Hq). cbn [t_conflict usage_table] in Hno.
    rewrite (bool_decide_eq_true_2 _ Heq), orb_true_r in Hno. done.
  - unfold core. change (bt_usage (db_billing (t_put ?r db))) with r. by rewrite fmap_app.
Qed.

Lemma reads_GetUsageFact id : reads (GetUsageFact None id).
Proof. unfold GetUsageFact, tenantRead, getUsageFact. reads. Qed.

Lemma PutUsageFact_step offset fact db r db' :
  PutUsageFact None offset fact db = Ok (r, db') → calm_step (core db) (core db').
Proof.
  unfold PutUsageFact. intros (f & db1 & [_ ->]%lift_ok & H)%bind_ok.
  apply bind_ok in H as (stored & db1 & Hg & H). apply (reads_try _ _ (reads_GetUsageFact _)) in Hg as ->.
  destruct stored.
  { apply bind_ok in H as (? & ? & [_ ->]%require_ok & [_ ->]%ret_ok). by apply cs_none. }
  apply bind_ok in H as (l & db1 & [-> ->]%gets_ok & H). apply bind_ok in H as (? & db1 & [_ ->]%require_ok & H).
  apply bind_ok in H as (created & db1 & Hst & H). apply bind_ok in H as (s & db2 & ->%reads_GetUsageFact & H).
  apply bind_ok in H as (? & ? & [_ ->]%require_ok & [_ ->]%ret_ok). unfold store_usage in Hst.
  match type of Hst with context [mbind ?g ?m ?d] => destruct (mbind g m d) as [[row db2]|e] eqn:E end.
  - injection Hst as _ ->. apply bind_ok in E as (id & db3 & [-> ->]%fresh_ok & E).
    apply bind_ok in E as (now & db3 & [-> ->]%gets_ok & E). by apply insert_usage_step in E.
  - destruct e; try done; [|by case_match]. injection Hst as _ ->. by apply cs_none.
Qed.

(** *** Prices *)
Definition add_rates (rs : list PricingRate) (c : BillingCore) : BillingCore := c <| bc_rates ::= fun l => l ++ rs |>.

Lemma insert_rates_ok id rates db out db' :
  insert_rates id rates db = Ok (out, db') →
  ∃ rs, Forall (fun r => rate_PricingVersionID r = id) rs ∧ core db' = add_rates rs (core db).
Proof.
  revert db out db'. induction rates as [|rate rates IH]; intros db out db'; simpl.
  { intros [_ ->]%ret_ok. exists []. split; [done|]. unfold add_rates, upd, core. simpl. by rewrite app_nil_r. }
  intros (? & db1 & [_ ->]%require_ok & H)%bind_ok. apply bind_ok in H as (rid & db1 & [-> ->]%fresh_ok & H). cbv zeta in H.
  apply bind_ok in H as (r & db2 & (_ & _ & _ & ->)%insert_row_ok & H).
  apply bind_ok in H as (rest & db3 & (rs & Hrs & Hc)%IH & [_ ->]%ret_ok).
  exists (rate_row (normal_rate (pg_uuid (db_serial db)) id rate) :: rs). split; [by constructor|]. rewrite Hc.
  unfold add_rates, upd, core. simpl. by rewrite <- app_assoc.
Qed.

Lemma CreatePricingVersion_step in_ db v db' :
  CreatePricingVersion in_ db = Ok (v, db') → calm_step (core db) (core db').
Proof.
  unfold CreatePricingVersion. intros (? & db1 & [_ ->]%require_ok & H)%bind_ok.
  apply bind_ok in H as (now & db1 & [_ ->]%default_now_ok & H). cbv zeta in H.
  apply bind_ok in H as (? & db1 & [_ ->]%require_ok & H).
  apply withTx_ok in H as [H|[-> _]]; [|by apply cs_none]. unfold createPricingVersionTx in H.
  apply bind_ok in H as (id & db1 & [-> ->]%fresh_ok & H).
  apply bind_ok in H as (w & db1 & (-> & _ & Hno & ->)%insert_row_ok & H).
  apply bind_ok in H as (rs & db1 & (rows & Hrows & Hc)%insert_rates_ok & [_ ->]%ret_ok).
  match type of Hc with context [_ ++ [?v]] => apply (cs_draft _ _ v rows) end;
    [done|done| |exact Hrows|by rewrite Hc].
  intros y Hy Heq. specialize (Hno y Hy). cbn [t_conflict versions_table] in Hno.
  by rewrite (bool_decide_eq_true_2 _ Heq) in Hno.
Qed.

Lemma CreateOTAPricingDraft_step in_ db v db' :
  CreateOTAPricingDraft in_ db = Ok (v, db') → calm_step (core db) (core db').
Proof.
  unfold CreateOTAPricingDraft. intros (? & db1 & [_ ->]%require_ok & H)%bind_ok.
  apply withTx_ok in H as [H|[-> _]]; [|by apply cs_none]. unfold createOTAPricingDraftTx in H.
  apply bind_ok in H as (now & db1 & [-> ->]%gets_ok & H). cbv zeta in H.
  apply bind_ok in H as (? & db1 & [_ ->]%require_ok & H).
  apply bind_ok in H as (found & db1 & Hf & H). apply (reads_attempt _ (reads_ActivePricingVersion _ _)) in Hf as ->.
  destruct found as [base|e]; [|done].
  apply bind_ok in H as (? & db1 & [_ ->]%require_ok & H). apply bind_ok in H as (pend & db1 & [-> ->]%gets_ok & H).
  apply bind_ok in H as (? & db1 & [_ ->]%require_ok & H). apply bind_ok in H as (? & db1 & [_ ->]%require_ok & H).
  apply bind_ok in H as (? & db1 & [_ ->]%require_ok & H). destruct (review_card _ _ _) as [review|e]; [|done].
  apply bind_ok in H as (? & db1 & [_ ->]%require_ok & H).
  apply bind_ok in H as (version & db1 & Hv & H). apply CreatePricingVersion_step in Hv.
  by apply bind_ok in H as (d & db2 & (_ & _ & _ & ->)%insert_row_ok & [_ ->]%ret_ok).
Qed.

Lemma activate_step id now approval db v db' :
  activatePricingVersion id now approval db = Ok (v, db') → calm_step (core db) (core db').
Proof.
  unfold activatePricingVersion. intros (? & db1 & [_ ->]%require_ok & H)%bind_ok.
  apply bind_ok in H as (u & db1 & H & ->%reads_GetPricingVersion).
  apply withTx_ok in H as [H|[-> _]]; [|by apply cs_none].
  apply activatePricingVersionTx_ok in H as (w & prev & <- & Hpub & Hvs & Hother).
  apply (cs_publish _ _ w prev (pg_time now)); [done|].
  assert (bt_versions (db_billing db1) = after_publication w prev (pg_time now) <$> bt_versions (db_billing db)) as Hvs'.
  { rewrite Hvs. unfold retire_prev, after_publication. destruct prev; [by rewrite <- list_fmap_compose|done]. }
  unfold core. rewrite Hvs'. unfold upd. simpl. unfold other_billing, upd in Hother. simpl in Hother.
  injection Hother as -> -> -> -> _ _ _ -> _ _ _. done.
Qed.

(** *** Settlement *)
Lemma RecordInvoiceSettlement_step organizationID id ledgerID now db i db' :
  RecordInvoiceSettlement None organizationID id ledgerID now db = Ok (i, db') → core_step (core db) (core db').
Proof.
  unfold RecordInvoiceSettlement. intros (u & db1 & H & ->%reads_getInvoice)%bind_ok.
  apply withTx_ok in H as [H|[-> _]]; [|by apply cs_calm, cs_none]. unfold recordInvoiceSettlementTx in H.
  apply bind_ok in H as (row & db2 & Hr & H). apply (proj1 (bscan_ok _ _ _ _)), select_ok in Hr as [_ ->].
  apply bind_ok in H as (? & db2 & [_ ->]%require_ok & H).
  apply bind_ok in H as (? & db2 & Hl & H).
  assert (same_core db db2) as Hs.
  { revert Hl. unfold upsert_link. apply keeps_bind; [apply _|apply keeps_reads; [apply _|apply barrier_reads]|]. keeps. }
  rewrite <- Hs. apply bind_ok in H as (rows & db3 & Hu & H). unfold update_invoice in Hu. cbv zeta in Hu.
  apply bind_ok in Hu as (? & db4 & ->%barrier_reads & (_ & _ & _ & ->)%update_rows_ok).
  apply bind_ok in H as (aid & db4 & [-> ->]%fresh_ok & H). apply bind_ok in H as (? & db5 & Ha & [_ ->]%ret_ok).
  apply (cs_settle _ _ id (pg_time (UTC now))).
  match type of Ha with _ ?d = _ => assert (same_core d db5) as -> end.
  { revert Ha. match goal with |- ?m ?d = _ → _ => assert (keeps same_core m) as Hk end.
    { unfold upsert_activity. keeps. } apply Hk. }
  done.
Qed.

(** Every operation of either store is a step. *)
Lemma exec_billing_calm op db u db' :
  (∀ a b c d, op ≠ BSettle a b c d) → exec_billing op db = Ok (u, db') → calm_step (core db) (core db').
Proof.
  intros Hop.
  assert (∀ {A} (m : M A), keeps same_core m → ignore m db = Ok (u, db') → calm_step (core db) (core db')) as Hsame.
  { intros A m Hm H. apply same_step. exact (keeps_ignore same_core m Hm db u db' H). }
  assert (∀ {A} (m : M A), ignore m db = Ok (u, db') → ∃ a, m db = Ok (a, db')) as Hign.
  { unfold ignore. intros A m (a & db1 & ? & [_ ->]%ret_ok)%bind_ok. by exists a. }
  destruct op; cbn [exec_billing].
  - intros H%exec_same_billing. apply cs_none. unfold core. by rewrite H.
  - by intros [a H%PutUsageFact_step]%Hign.
  - apply Hsame. unfold PutOTAPeriodSeal. keeps.
  - by intros [a H%CreatePricingVersion_step]%Hign.
  - by intros [a H%CreateOTAPricingDraft_step]%Hign.
  - by intros [a H%activate_step]%Hign.
  - by intros [a H%activate_step]%Hign.
  - apply Hsame, keeps_EnsureBillingProfile; apply _.
  - apply Hsame. unfold PutBillingProfile, putBillingProfileTx, lockProfileOwner, getProfileTx.
    keeps; try apply keeps_bscan; keeps.
  - by intros [a H%PrepareInvoice_step]%Hign.
  - by destruct (Hop organizationID invoiceID ledgerEntryID now).
  - intros H. apply same_step. revert H. unfold PutInvoiceDocument, GetInvoiceDocument, tenantRead, getInvoiceDocument.
    match goal with |- ?m db = _ → _ => assert (keeps same_core m) as Hk end.
    { keeps; try apply keeps_bscan; keeps. } apply Hk.
Qed.

Lemma exec_billing_step op db u db' : exec_billing op db = Ok (u, db') → core_step (core db) (core db').
Proof.
  destruct op eqn:E; try (rewrite <- E; intros H; apply cs_calm; revert H; apply exec_billing_calm; by subst).
  cbn [exec_billing]. unfold ignore. intros (i & db1 & H%RecordInvoiceSettlement_step & [_ ->]%ret_ok)%bind_ok. done.
Qed.
End operations_step.
