(* ===== verification/BillingSafety.v ===== *)
(** * What every invoice stands for

    The invariant of the tables behind an invoice, and that every operation keeps it:
    an invoice is of a closed period, at the price version in force at the start of the
    period, for exactly the usage of the period that the store holds, and it adds up. *)
From S2P Require Import Prelude GoStrings GoTime BillingTypes Money Ota Invoice PaymentTypes Payment Database.
From S2P Require Import Tables Keeps Accounts Settlement Protocols Operations BillingSchema Pricing Usage.
From S2P Require Import Profiles BillingInvoices PriceTimeline BillingOps BillingSteps BillingFixtures Fixtures.

Record stands (c : BillingCore) (i : Invoice) : Prop := {
  sd_period : ∃ p, period_of (bc_periods c) i p;
  sd_price : ∃ v, price_of (bc_versions c) i v;
  sd_state : settlement_state i;
  sd_bills : bills (rates_of c (inv_PricingVersionID i)) (billed_facts c i) i (lines_of c (inv_ID i))
}.

Record BillingInv (c : BillingCore) : Prop := {
  bi_usage : NoDup (fact_UsageID <$> bc_usage c);
  bi_nul : Forall nul_free (bc_usage c);
  bi_windows : Forall (fun f => fact_WindowStart f < fact_WindowEnd f) (bc_usage c);
  bi_period_ids : NoDup (bperiod_ID <$> bc_periods c);
  bi_periods : NoDup ((fun p => (period_key p).2) <$> bc_periods c);
  bi_invoice_ids : NoDup (inv_ID <$> bc_invoices c);
  bi_invoice_periods : NoDup (inv_PeriodID <$> bc_invoices c);
  bi_lines : ∀ r, r ∈ bc_lines c → lrow_InvoiceID r ∈ inv_ID <$> bc_invoices c;
  bi_rates : ∀ r, r ∈ bc_rates c → rate_PricingVersionID r ∈ pricing_ID <$> bc_versions c;
  bi_prices : PriceInv (bc_versions c);
  bi_stands : ∀ i, i ∈ bc_invoices c → stands c i
}.

(** Nothing is there yet. *)
Definition empty_core (c : BillingCore) : Prop := c = mkBillingCore [] [] [] [] [] [].

Lemma PriceInv_nil : PriceInv [].
Proof. constructor; [constructor|..]; intros ? **; set_solver. Qed.

Lemma empty_BillingInv c : empty_core c → BillingInv c.
Proof. intros ->. constructor; simpl; try constructor; try apply PriceInv_nil; intros; set_solver. Qed.

(** An invoice stands as long as its facts, rates and lines stay. *)
Lemma stands_same c c' i :
  (∀ p, period_of (bc_periods c) i p → ∃ p', period_of (bc_periods c') i p') →
  (∀ v, price_of (bc_versions c) i v → ∃ v', price_of (bc_versions c') i v') →
  (∀ p, period_of (bc_periods c) i p →
     window_facts c' (inv_OrganizationID i) (inv_PeriodStart i) (inv_PeriodEnd i) =
     window_facts c (inv_OrganizationID i) (inv_PeriodStart i) (inv_PeriodEnd i)) →
  (∀ v, price_of (bc_versions c) i v → rates_of c' (inv_PricingVersionID i) = rates_of c (inv_PricingVersionID i)) →
  lines_of c' (inv_ID i) = lines_of c (inv_ID i) → stands c i → stands c' i.
Proof.
  intros Hp Hv Hw Hr Hl [(p & Hip) (v & Hiv) Hs Hb]. constructor; [by eapply Hp|by eapply Hv|done|].
  unfold billed_facts in *. rewrite (Hw p), (Hr v), Hl by done. done.
Qed.

(** ** Periods *)
Lemma period_move_of ps ps' i p : period_move ps ps' → period_of ps i p → ∃ p', period_of ps' i p'.
Proof.
  intros [f Hf Hc|q Hq] (Hin & Hcl & Hk).
  - exists (f p). split_and!; [by apply list_elem_of_fmap_2|by apply Hc|by rewrite Hf].
  - exists p. split_and!; [apply elem_of_app; by left|done..].
Qed.

Lemma periods_move_of ps ps' i p : rtc period_move ps ps' → period_of ps i p → ∃ p', period_of ps' i p'.
Proof.
  intros Hm. revert p. induction Hm as [|ps ps1 ps' H _ IH]; intros p Hp; [by exists p|].
  destruct (period_move_of _ _ _ _ H Hp) as [p' Hp']. by eapply IH.
Qed.

Definition distinct_periods (ps : list BillingPeriod) : Prop :=
  NoDup (bperiod_ID <$> ps) ∧ NoDup ((fun p => (period_key p).2) <$> ps).

Lemma fmap_same {A B} (g : A → A) (f : A → B) (l : list A) : (∀ x, f (g x) = f x) → f <$> (g <$> l) = f <$> l.
Proof. intros H. rewrite <- list_fmap_compose. apply list_fmap_ext. intros i x _. apply H. Qed.

Lemma periods_move_distinct ps ps' : rtc period_move ps ps' → distinct_periods ps → distinct_periods ps'.
Proof.
  induction 1 as [|ps ps1 ps' H _ IH]; [done|]. intros [Hi Hk]. apply IH. destruct H as [f Hf _|q Hq].
  - split; rewrite fmap_same; [done| |done|]; intros p; specialize (Hf p); [by injection Hf|by rewrite Hf].
  - split; rewrite fmap_app; apply NoDup_app; (split; [done|split; [|apply NoDup_singleton]]);
      intros k (r & -> & Hr)%list_elem_of_fmap Heq%list_elem_of_singleton; specialize (Hq r Hr);
      cbn [t_conflict billing_periods_table] in Hq; apply orb_false_iff in Hq as [Hid Hs].
    + by rewrite (bool_decide_eq_true_2 _ Heq) in Hid.
    + unfold same_period in Hs. injection Heq as Ho Hc Ha He.
      rewrite !bool_decide_eq_true_2 in Hs by done. rewrite Ha, He, !Z.eqb_refl in Hs. done.
Qed.

(** ** Each step keeps the invariant *)
Lemma NoDup_snoc {A} (l : list A) x : NoDup l → x ∉ l → NoDup (l ++ [x]).
Proof. intros Hl Hx. apply NoDup_app. split; [done|]. split; [set_solver|apply NoDup_singleton]. Qed.

Lemma filter_snoc_false {A} (P : A → Prop) `{∀ x, Decision (P x)} (l : list A) x : ¬ P x → filter P (l ++ [x]) = filter P l.
Proof. intros Hx. by rewrite filter_app, filter_cons_False, filter_nil, app_nil_r. Qed.

Lemma filter_app_none {A} (P : A → Prop) `{∀ x, Decision (P x)} (l k : list A) :
  (∀ x, x ∈ k → ¬ P x) → filter P (l ++ k) = filter P l.
Proof.
  intros Hk. rewrite filter_app. destruct (filter P k) as [|x k'] eqn:E; [by rewrite app_nil_r|].
  assert (x ∈ x :: k') as Hx by left. rewrite <- E in Hx. apply list_elem_of_filter in Hx as [Hp Hx]. by apply Hk in Hx.
Qed.

(** A closed window takes no new fact. *)
Lemma usage_outside r i p :
  (bperiod_OrganizationID p = fact_OrganizationID r → is_closed p →
    ranges_overlap (bperiod_Start p) (bperiod_End p) (fact_WindowStart r) (fact_WindowEnd r) = false) →
  fact_WindowStart r < fact_WindowEnd r → is_closed p →
  period_key p = (inv_PeriodID i, (inv_OrganizationID i, inv_Currency i, inv_PeriodStart i, inv_PeriodEnd i)) →
  in_window (inv_OrganizationID i) (inv_PeriodStart i) (inv_PeriodEnd i) r ≠ true.
Proof.
  intros Hno Hw Hc [= _ Ho _ Hs He] Hin. unfold in_window in Hin. rewrite !andb_true_iff, !Z.leb_le in Hin.
  destruct Hin as [[Hor Hlo] Hhi]. reflect_go. rewrite Ho, Hs, He in Hno. unfold ranges_overlap in Hno.
  assert ((inv_PeriodStart i <? fact_WindowEnd r) && (fact_WindowStart r <? inv_PeriodEnd i) = true) as E.
  { rewrite andb_true_iff, !Z.ltb_lt. lia. }
  rewrite E in Hno. by discriminate Hno.
Qed.

Definition add_usage (r : UsageFact) (c : BillingCore) : BillingCore := c <| bc_usage ::= fun l => l ++ [r] |>.

Lemma window_usage c r i p :
  (∀ p, p ∈ bc_periods c → bperiod_OrganizationID p = fact_OrganizationID r → is_closed p →
     ranges_overlap (bperiod_Start p) (bperiod_End p) (fact_WindowStart r) (fact_WindowEnd r) = false) →
  fact_WindowStart r < fact_WindowEnd r → period_of (bc_periods c) i p →
  window_facts (add_usage r c) (inv_OrganizationID i) (inv_PeriodStart i) (inv_PeriodEnd i) =
  window_facts c (inv_OrganizationID i) (inv_PeriodStart i) (inv_PeriodEnd i).
Proof.
  intros Hno Hw (Hp & Hc & Hk). unfold window_facts, add_usage. get_upd. f_equal. apply filter_snoc_false.
  eapply usage_outside; [|done..]. by apply Hno.
Qed.

(** Rates of a new version, lines of a new invoice. *)
Lemma rates_add c rates id id' :
  Forall (fun r => rate_PricingVersionID r = id) rates → id' ≠ id → rates_of (add_rates rates c) id' = rates_of c id'.
Proof.
  intros Hr Hne. rewrite Forall_forall in Hr. unfold rates_of, add_rates. get_upd. rewrite filter_app_none; [done|].
  intros r Hin Heq. apply Hne. by rewrite <- Heq, <- (Hr r Hin).
Qed.
Lemma lines_add c id id' (lines : list InvoiceLine) :
  id' ≠ id → lines_of (add_lines (mkLineRow id <$> lines) c) id' = lines_of c id'.
Proof.
  intros Hne. unfold lines_of, add_lines. get_upd. rewrite filter_app_none; [done|].
  intros r (l & -> & _)%list_elem_of_fmap Heq. by apply Hne.
Qed.

Lemma step_usage c r :
  BillingInv c →
  (∀ p, p ∈ bc_periods c → bperiod_OrganizationID p = fact_OrganizationID r → is_closed p →
     ranges_overlap (bperiod_Start p) (bperiod_End p) (fact_WindowStart r) (fact_WindowEnd r) = false) →
  nul_free r → fact_WindowStart r < fact_WindowEnd r → (∀ g, g ∈ bc_usage c → fact_UsageID g ≠ fact_UsageID r) →
  BillingInv (add_usage r c).
Proof.
  intros [] Hno Hnul Hw Hnew. constructor; unfold add_usage; get_upd; try done.
  - rewrite fmap_app. apply NoDup_snoc; [done|]. intros (g & Heq & Hg)%list_elem_of_fmap. by eapply Hnew.
  - by apply Forall_app_2; [|constructor].
  - by apply Forall_app_2; [|constructor].
  - intros i Hi. eapply stands_same; [..|by apply bi_stands0]; get_upd; try done; [by eexists..|].
    intros p Hp. by eapply window_usage.
Qed.

Lemma step_periods c ps : BillingInv c → rtc period_move (bc_periods c) ps → BillingInv (set_periods ps c).
Proof.
  intros [] Hm. destruct (periods_move_distinct _ _ Hm) as [Hi Hk]; [done|].
  constructor; unfold set_periods; get_upd; try done.
  intros i Hin. eapply stands_same; [..|by apply bi_stands0]; get_upd; try done; [|by eexists].
  intros p. by apply periods_move_of.
Qed.

Lemma settle_row_identity now i :
  invoice_identity (settle_row now i) = invoice_identity i ∧ inv_ID (settle_row now i) = inv_ID i.
Proof. by destruct i. Qed.

Lemma settle_row_bills now rates facts i lines : bills rates facts i lines → bills rates facts (settle_row now i) lines.
Proof.
  intros [Hr Hl [? ? ? ? ? ? ? ? Hp]]. constructor; [done..|]. destruct i. constructor; try done; simpl in *; lia.
Qed.

Lemma stands_settle c now (p : Invoice → bool) i :
  stands c i → stands (c <| bc_invoices ::= fmap (fun i => if p i then settle_row now i else i) |>)
    (if p i : bool then settle_row now i else i).
Proof.
  intros [Hp Hv Hs Hb]. destruct (p i).
  2: { by constructor. }
  constructor.
  - destruct Hp as [q Hq]. exists q. by destruct i.
  - destruct Hv as [q Hq]. exists q. by destruct i.
  - right. by destruct i.
  - apply settle_row_bills. by destruct i.
Qed.

Lemma step_settle c now (p : Invoice → bool) : BillingInv c →
  BillingInv (c <| bc_invoices ::= fmap (fun i => if (p i : bool) then settle_row now i else i) |>).
Proof.
  intros []. assert (∀ i, inv_ID (if p i then settle_row now i else i) = inv_ID i ∧
    inv_PeriodID (if p i then settle_row now i else i) = inv_PeriodID i) as Hk.
  { intros i. by destruct (p i), i. }
  constructor; get_upd; try done.
  - rewrite fmap_same; [done|]. intros i. apply Hk.
  - rewrite fmap_same; [done|]. intros i. apply Hk.
  - intros r Hr. rewrite fmap_same; [by apply bi_lines0|]. intros i. apply Hk.
  - intros ? (i & -> & Hi)%list_elem_of_fmap. by apply stands_settle, bi_stands0.
Qed.

Lemma PriceInv_draft vs v :
  PriceInv vs → pricing_Status v = "draft" → pricing_EffectiveUntil v = None →
  (∀ w, w ∈ vs → pricing_ID w ≠ pricing_ID v) → PriceInv (vs ++ [v]).
Proof.
  intros [Hid Hdr Hsh Hdis Hfol] Hst Hu Hnew.
  assert (published v = false) as Hp by (unfold published, one_of; by rewrite Hst).
  assert (∀ w, w ∈ vs ++ [v] → published w = true → w ∈ vs) as Hin.
  { intros w [Hw| ->%list_elem_of_singleton]%elem_of_app Hpw; [done|congruence]. }
  constructor.
  - rewrite fmap_app. apply NoDup_snoc; [done|]. intros (w & Heq & Hw)%list_elem_of_fmap. by eapply Hnew.
  - intros w [Hw| ->%list_elem_of_singleton]%elem_of_app Hpw; [by apply Hdr|done].
  - intros w Hw Hpw. by apply Hsh; [apply Hin|].
  - intros x y Hx Hy Hpx Hpy. by apply Hdis; [apply Hin|apply Hin|..].
  - intros x u Hx Hpx Hxu. destruct (Hfol x u) as (w & Hw & ?); [by apply Hin|done..|].
    exists w. split; [apply elem_of_app; by left|done].
Qed.

Lemma step_draft c v rates :
  BillingInv c → pricing_Status v = "draft" → pricing_EffectiveUntil v = None →
  (∀ w, w ∈ bc_versions c → pricing_ID w ≠ pricing_ID v) →
  Forall (fun r => rate_PricingVersionID r = pricing_ID v) rates →
  BillingInv (c <| bc_versions ::= fun l => l ++ [v] |> <| bc_rates ::= fun l => l ++ rates |>).
Proof.
  intros [] Hst Hu Hnew Hrates. rewrite Forall_forall in Hrates. constructor; get_upd; try done.
  - intros r [Hr|Hr]%elem_of_app; rewrite fmap_app, elem_of_app; [left; by apply bi_rates0|right].
    rewrite (Hrates r Hr). apply list_elem_of_fmap_2. by left.
  - by apply PriceInv_draft.
  - intros i Hi. eapply stands_same; [..|by apply bi_stands0]; get_upd; try done; [by eexists| |].
    + intros w (Hw & ?). exists w. split; [apply elem_of_app; by left|done].
    + intros w (Hw & Hid & _). trans (rates_of (add_rates rates c) (inv_PricingVersionID i)); [done|].
      apply (rates_add _ _ (pricing_ID v)); [by apply Forall_forall|]. rewrite <- Hid. by apply Hnew.
Qed.

Lemma step_publish c v prev now :
  BillingInv c → publishes (bc_versions c) (bc_invoices c) v prev →
  BillingInv (c <| bc_versions ::= fmap (after_publication v prev now) |>).
Proof.
  intros [] Hpub. constructor; get_upd; try done.
  - intros r Hr. rewrite fmap_same; [by apply bi_rates0|]. intros w. by destruct (after_publication_key v prev now w).
  - by eapply publish_PriceInv.
  - intros i Hi. eapply stands_same; [..|by apply bi_stands0]; get_upd; try done; [by eexists|].
    intros w (Hw & Hid & Hf). exists (after_publication v prev now w).
    destruct (after_publication_key v prev now w) as (Ei & Ec & Ef).
    split_and!; [by apply list_elem_of_fmap_2|by rewrite Ei|]. unfold in_force in *. rewrite !andb_true_iff in *.
    destruct Hf as [[[Hp Hc] Hs] Hu]. rewrite Ec, Ef. split; [split; [split; [|done]|done]|].
    + by eapply published_after.
    + destruct (after_publication_cases (bc_versions c) (bc_invoices c) v prev now) with w
        as [(-> & _)|[(-> & _ & Hu')|(_ & _ & ->)]]; try done.
      * by destruct (publish_draft (bc_versions c) (bc_invoices c) v prev) as (_ & _ & ? & _); [..|congruence].
      * unfold until_after. rewrite Hu'. apply Z.ltb_lt.
        pose proof (pub_rows _ _ _ _ Hpub) as Hrows. simpl in Hrows. by eapply Hrows.
Qed.

Lemma lrow_of id (lines : list InvoiceLine) : lrow_Line <$> filter (fun r => lrow_InvoiceID r = id) (mkLineRow id <$> lines) = lines.
Proof. induction lines as [|l lines IH]; [done|]. rewrite fmap_cons, filter_cons_True, fmap_cons by done. by rewrite IH. Qed.

Lemma step_invoice c i lines :
  BillingInv c → invoiced c i lines → BillingInv (add_lines (mkLineRow (inv_ID i) <$> lines) (add_invoice i c)).
Proof.
  intros [] [Hnew Hprice Hper [Hst Hset] Hb].
  assert (∀ j, j ∈ bc_invoices c → inv_ID j ≠ inv_ID i ∧ inv_PeriodID j ≠ inv_PeriodID i) as Hdiff.
  { intros j Hj. specialize (Hnew j Hj). cbn [t_conflict invoices_table] in Hnew. rewrite !orb_false_iff in Hnew.
    destruct Hnew as [[H1 _] H2]. by split; [eapply bool_decide_eq_false|eapply bool_decide_eq_false]. }
  assert (∀ r, r ∈ bc_lines c → lrow_InvoiceID r ≠ inv_ID i) as Hfree.
  { intros r Hr Heq. apply bi_lines0, list_elem_of_fmap in Hr as (j & Hj & Hin). rewrite Heq in Hj.
    by destruct (Hdiff j Hin). }
  constructor; unfold add_lines, add_invoice; get_upd; try done.
  - rewrite fmap_app. apply NoDup_snoc; [done|]. intros (j & Heq & Hj)%list_elem_of_fmap. by destruct (Hdiff j Hj).
  - rewrite fmap_app. apply NoDup_snoc; [done|]. intros (j & Heq & Hj)%list_elem_of_fmap. by destruct (Hdiff j Hj).
  - intros r [Hr|(l & -> & _)%list_elem_of_fmap]%elem_of_app; rewrite fmap_app, elem_of_app.
    + left. by apply bi_lines0.
    + right. by left.
  - intros j [Hj| ->%list_elem_of_singleton]%elem_of_app.
    + eapply stands_same; [..|by apply bi_stands0]; get_upd; try done; [by eexists..|].
      apply (lines_add (add_invoice i c)). by apply Hdiff.
    + constructor; get_upd; [done..|by left|]. unfold lines_of. get_upd.
      rewrite filter_app. replace (filter _ (bc_lines c)) with (@nil LineRow).
      * simpl. rewrite lrow_of. by apply Hb.
      * rewrite <- (app_nil_l (bc_lines c)). by rewrite filter_app_none.
Qed.

Lemma core_step_inv c c' : core_step c c' → BillingInv c → BillingInv c'.
Proof.
  intros [[->|r ? ? ? ? ->|ps Hm ->|ps i lines Hm Hi ->|v rates ? ? ? ? ->|v prev now Hp ->]|id now ->] Hinv.
  - done.
  - by apply step_usage.
  - by apply step_periods.
  - apply step_invoice; [by apply step_periods|done].
  - by apply step_draft.
  - by apply step_publish.
  - by apply (step_settle c now (fun i => (inv_ID i == id) && one_of (inv_State i) _)).
Qed.

(** ** Runs *)
Section runs.
Context {pg : Postgres} {dg : Digest} {bx : BillingExternal}.

Definition run_billing_all (ops : list billing_operation) (db : Db) : Db := foldl run_billing db ops.

Lemma run_billing_step op db : core_step (core db) (core (run_billing db op)).
Proof.
  unfold run_billing, run. destruct (exec_billing op db) as [[u db']|e] eqn:E; [|by apply cs_calm, cs_none].
  by apply exec_billing_step in E.
Qed.

Lemma run_billing_rtc ops db : rtc core_step (core db) (core (run_billing_all ops db)).
Proof.
  revert db. induction ops as [|op ops IH]; intros db; [done|].
  eapply rtc_l; [apply run_billing_step|apply (IH (run_billing db op))].
Qed.

Lemma rtc_inv c c' : rtc core_step c c' → BillingInv c → BillingInv c'.
Proof. induction 1; eauto using core_step_inv. Qed.

Lemma run_billing_inv ops db : BillingInv (core db) → BillingInv (core (run_billing_all ops db)).
Proof. apply rtc_inv, run_billing_rtc. Qed.

Lemma same_span_same_invoice c i j :
  BillingInv c → i ∈ bc_invoices c → j ∈ bc_invoices c →
  (inv_OrganizationID i, inv_Currency i, inv_PeriodStart i, inv_PeriodEnd i) =
    (inv_OrganizationID j, inv_Currency j, inv_PeriodStart j, inv_PeriodEnd j) → i = j.
Proof.
  intros Hinv Hi Hj Hs. destruct (sd_period c i (bi_stands c Hinv i Hi)) as (p & Hp & _ & Hkp).
  destruct (sd_period c j (bi_stands c Hinv j Hj)) as (q & Hq & _ & Hkq).
  assert (p = q) as ->.
  { apply (NoDup_fmap_inj_elem (fun p => (period_key p).2) (bc_periods c)); [apply Hinv|done..|].
    by rewrite Hkp, Hkq, <- Hs. }
  apply (NoDup_fmap_inj_elem inv_PeriodID (bc_invoices c)); [apply Hinv|done..|].
  rewrite Hkp in Hkq. by injection Hkq.
Qed.

End runs.

#[local] Existing Instances demo_pg demo_dg.
Definition demo_invoice : Invoice := Eval vm_compute in
  match bt_invoices (db_billing demo_billed_db) with [i] => i | _ => draft_header demo_window "" (mkPricingVersion
    "" "" 0 "" "" 0 None None 0 "" None "" "" []) (new_profile "" None 0) 0 end.

