(* ===== verification/Debits.v ===== *)
(** * Invoice debits in the ledger

    Only the billing service posts under the scope [billing_invoice]: the operations of
    the payment store append entries of other scopes. *)
From S2P Require Import Prelude GoStrings GoTime BillingTypes PaymentTypes Payment Database Tables.
From S2P Require Import Keeps Accounts Ledger AutoTopUp Intents Credits Jobs Attempts Webhooks Customer Reversals.
From S2P Require Import Setups Handoff Protocols Settlement HandoffCommit Closure Preflight Creation Operations.
From S2P Require Import Responsibility HandoffSteps Handover ClosureSteps.

Definition invoice_scope : string := "billing_invoice".
Definition is_debit (e : LedgerEntry) : Prop := entry_IdempotencyScope e = invoice_scope.

(** Entries are appended, none of them an invoice debit. *)
Definition no_debits (db db' : Db) : Prop :=
  ∃ new, db_entries db' = db_entries db ++ new ∧ Forall (fun e => ¬ is_debit e) new.

#[export] Instance no_debits_preorder : PreOrder no_debits.
Proof.
  split; [intros db; exists []; by rewrite app_nil_r|]. intros x y z (n1 & H1 & F1) (n2 & H2 & F2).
  exists (n1 ++ n2). split; [by rewrite H2, H1, app_assoc|by apply Forall_app].
Qed.
Lemma no_debits_same db db' : db_entries db' = db_entries db → no_debits db db'.
Proof. intros H. exists []. split; [by rewrite app_nil_r|constructor]. Qed.
#[export] Instance no_debits_frame : Frame no_debits.
Proof. split; [apply _|intros; by apply no_debits_same..]. Qed.
#[export] Hint Extern 1 (Skips no_debits _) => (intros ??; by apply no_debits_same) : typeclass_instances.

#[export] Instance no_debits_account : KeepsAccount no_debits.
Proof. intros accountID f Hf db a db' (old & _ & _ & _ & ->)%update_account_ok. by apply no_debits_same. Qed.
#[export] Instance no_debits_touch : Touches no_debits.
Proof.
  intros accountID db u db' H. unfold touch_billing_authority_guard in H.
  apply bind_ok in H as (rows & db1 & (_ & _ & _ & ->)%update_rows_ok & [_ ->]%ret_ok). by apply no_debits_same.
Qed.
#[export] Instance no_debits_nearly : NearlyApart no_debits.
Proof.
  split; try apply _. intros. by apply no_debits_same.
Qed.

Section debits.
Context {pg : Postgres} {dg : Digest}.

Lemma insertLedgerEntryTx_no_debits account in_ :
  TrimSpace (post_IdempotencyScope in_) ≠ invoice_scope → keeps no_debits (insertLedgerEntryTx account in_).
Proof.
  intros Hs db [e a] db' (b & cur & _ & _ & _ & _ & -> & _ & _ & _ & ->)%insertLedgerEntryTx_ok.
  eexists [_]. split; [done|]. by constructor.
Qed.

Lemma reversal_scope_other provider : TrimSpace ("provider_reversal/" +:+ provider) ≠ invoice_scope.
Proof.
  remember ("provider_reversal/" +:+ provider) as s eqn:Hs.
  assert (∃ l, bytes_of s = 112%N :: l) as [l Hl] by (subst s; by eexists).
  destruct (TrimSpace_prefix s 112%N l Hl) as [k ->]; [done|]. by destruct k.
Qed.

#[export] Instance no_debits_payments : KeepsPaymentEntries no_debits.
Proof.
  split; intros; apply insertLedgerEntryTx_no_debits; [by vm_compute|apply reversal_scope_other].
Qed.

(** No caller of the payment store posts under the scope of the billing service. *)
Definition not_debit (op : operation) : Prop :=
  match op with OpPost _ in_ => TrimSpace (post_IdempotencyScope in_) ≠ invoice_scope | _ => True end.

Lemma exec_no_debits op : not_debit op → keeps no_debits (exec op).
Proof.
  intros Hop. destruct (on_handoff op || on_closure op) eqn:Hp.
  - destruct op; try done; cbn [exec]; try apply keeps_ignore; try apply _.
  - destruct (on_creation op) eqn:Hr.
    + destruct op; try done; cbn [exec]; try apply keeps_ignore; try apply _.
      apply keeps_BootstrapBrandCloud; try apply _.
    + apply orb_false_iff in Hp as [H1 H2]. apply exec_nearly; try done; try apply _.
      intros ctx in_ account now ->. by apply insertLedgerEntryTx_no_debits.
Qed.
End debits.
