(* ===== verification/BillingHistory.v ===== *)
(** * What stays in the billing store

    Invoices are final, usage is never rewritten, a price in force stays findable: what
    later operations cannot change. *)
From S2P Require Import Prelude GoStrings GoTime BillingTypes Money Ota Invoice PaymentTypes Payment Database.
From S2P Require Import Tables Keeps Fixtures Accounts Settlement Protocols Operations BillingSchema Pricing Usage.
From S2P Require Import Profiles BillingInvoices PriceTimeline BillingOps BillingSteps BillingFixtures BillingSafety.

(** What is final of an invoice. *)
Definition final (i : Invoice) :=
  (inv_ID i, inv_InvoiceNumber i, invoice_identity i, inv_Recipient i,
   (inv_TaxMode i, inv_InvoiceTaxRateBasisPoints i, inv_InvoiceTaxRoundingMode i, inv_InvoiceTaxCategory i),
   (inv_SubtotalMinor i, inv_TaxMinor i, inv_TotalMinor i), (inv_IssuedAt i, inv_DueAt i, inv_CreatedAt i)).

Record lasts (c c' : BillingCore) (i i' : Invoice) : Prop := {
  la_in : i' ∈ bc_invoices c';
  la_final : final i' = final i;
  la_lines : lines_of c' (inv_ID i) = lines_of c (inv_ID i);
  la_facts : billed_facts c' i = billed_facts c i;
  la_settled : inv_State i = InvoiceStateSettled → inv_State i' = InvoiceStateSettled
}.

Lemma final_id i j : final i = final j → inv_ID i = inv_ID j ∧ invoice_identity i = invoice_identity j.
Proof. unfold final, invoice_identity. intros H. injection H. intros. split; congruence. Qed.

Lemma lasts_refl c i : i ∈ bc_invoices c → lasts c c i i.
Proof. by constructor. Qed.

Lemma lasts_trans c c1 c' i i1 i' : lasts c c1 i i1 → lasts c1 c' i1 i' → lasts c c' i i'.
Proof.
  intros [H1 H2 H3 H4 H5] [G1 G2 G3 G4 G5]. apply final_id in H2 as Hid. destruct Hid as [Hid Hident].
  rewrite Hid in G3. constructor; [done|congruence|congruence| |auto].
  rewrite <- H4. unfold billed_facts in *. injection Hident as Ho _ _ Hv _ Hs He _. by rewrite Ho, Hv, Hs, He in G4.
Qed.

Lemma core_step_lasts c c' i :
  core_step c c' → BillingInv c → i ∈ bc_invoices c → ∃ i', lasts c c' i i'.
Proof.
  intros Hstep Hinv Hi. destruct (bi_stands c Hinv i Hi) as [(p & Hp) (v & Hv) _ _].
  destruct Hstep as [[->|r Hno ? Hw ? ->|ps Hm ->|ps j lines Hm Hj ->|w rates ? ? Hnew Hr ->|w prev now Hpub ->]|id now ->].
  - exists i. by apply lasts_refl.
  - exists i. constructor; try done. unfold billed_facts. f_equal. by eapply (window_usage c r i p).
  - exists i. by constructor.
  - exists i. assert (inv_ID i ≠ inv_ID j) as Hne.
    { pose proof (iv_new _ _ _ Hj i Hi) as Hc. cbn [t_conflict invoices_table] in Hc. rewrite !orb_false_iff in Hc.
      by destruct Hc as [[?%bool_decide_eq_false _] _]. }
    constructor; try done; [unfold add_lines, add_invoice; get_upd; apply elem_of_app; by left|].
    by rewrite (lines_add (add_invoice j (set_periods ps c))).
  - exists i. constructor; try done. unfold billed_facts.
    replace (rates_of (c <| bc_versions ::= _ |> <| bc_rates ::= _ |>) (inv_PricingVersionID i)) with
      (rates_of c (inv_PricingVersionID i)); [done|]. symmetry.
    trans (rates_of (add_rates rates c) (inv_PricingVersionID i)); [done|].
    apply (rates_add _ _ (pricing_ID w)); [done|]. destruct Hv as (Hv & <- & _). by apply Hnew.
  - exists i. by constructor.
  - eexists (if _ : bool then settle_row now i else i).
    constructor; get_upd; [apply list_elem_of_fmap; exists i; split; [reflexivity|done]| |done|done|];
      case_match; try done; by destruct i.
Qed.

Lemma core_steps_last c c' i :
  rtc core_step c c' → BillingInv c → i ∈ bc_invoices c → ∃ i', lasts c c' i i'.
Proof.
  intros Hr. revert i. induction Hr as [c|c c1 c' Hs _ IH]; intros i Hinv Hi; [exists i; by apply lasts_refl|].
  destruct (core_step_lasts _ _ _ Hs Hinv Hi) as (i1 & H1).
  destruct (IH i1) as (i' & H2); [by eapply core_step_inv|apply H1|]. exists i'. by eapply lasts_trans.
Qed.

(** Usage facts are only added. *)
Lemma core_step_usage c c' : core_step c c' → bc_usage c `prefix_of` bc_usage c'.
Proof. intros [[->|r ? ? ? ? ->|ps Hm ->|ps i lines Hm Hi ->|v rates ? ? ? ? ->|v prev now Hp ->]|id now ->]; try done. by eexists. Qed.
Lemma core_steps_usage c c' : rtc core_step c c' → bc_usage c `prefix_of` bc_usage c'.
Proof. induction 1 as [|? ? ? H _ IH]; [done|]. etrans; [by eapply core_step_usage|done]. Qed.

(** ** Reading an invoice *)

(** What is read is a stored row with its lines, its document and its ledger entry. *)
Definition shows (db : Db) (i row : Invoice) : Prop :=
  row ∈ bt_invoices (db_billing db) ∧
  ∃ document, i = scanInvoice db row <| inv_Lines := listInvoiceLines db (inv_ID row) |> <| inv_Document := document |>.

Lemma shows_fields db i row : shows db i row →
  (inv_ID i, span i, inv_TotalMinor i, inv_State i, inv_AccountID i, inv_PricingVersionID i) =
  (inv_ID row, span row, inv_TotalMinor row, inv_State row, inv_AccountID row, inv_PricingVersionID row).
Proof. intros (_ & d & ->). unfold span. by destruct row. Qed.

Section reading.
Context {pg : Postgres} {dg : Digest} {bx : BillingExternal}.

Lemma GetInvoice_ok organizationID id db i db' :
  GetInvoice None organizationID id db = Ok (i, db') →
  db' = db ∧ ∃ row, shows db i row ∧ inv_ID row = id ∧ inv_OrganizationID row = organizationID.
Proof.
  intros H. split; [by eapply reads_getInvoice|]. unfold GetInvoice, tenantRead, getInvoice in H.
  apply bind_ok in H as (d & db1 & [-> ->]%gets_ok & H). apply bind_ok in H as (row & db1 & Hrow & H).
  apply (proj1 (bscan_ok _ _ _ _)), select_in in Hrow as (Hin & Hp & ->). reflect_go.
  unfold complete_invoice in H. apply bind_ok in H as (d & db1 & [-> ->]%gets_ok & H).
  apply bind_ok in H as (doc & db1 & Hdoc & [-> ->]%ret_ok).
  assert (db1 = db) as ->.
  { revert Hdoc. apply reads_try. unfold getInvoiceDocument. reads. }
  exists row. split; [|done]. split; [done|]. eexists. reflexivity.
Qed.

(** ** Asking again *)
Lemma same_period_same_invoice c i j :
  BillingInv c → i ∈ bc_invoices c → j ∈ bc_invoices c → inv_PeriodID i = inv_PeriodID j → i = j.
Proof. intros Hinv Hi Hj. by apply (NoDup_fmap_inj_elem inv_PeriodID (bc_invoices c)); [apply Hinv|..]. Qed.

Lemma same_invoice_id c i j : BillingInv c → i ∈ bc_invoices c → j ∈ bc_invoices c → inv_ID i = inv_ID j → i = j.
Proof. intros Hinv Hi Hj. by apply (NoDup_fmap_inj_elem inv_ID (bc_invoices c)); [apply Hinv|..]. Qed.

(** The invoice of a period of the request is the one asked for. *)
Lemma period_for_span c in_ period j :
  BillingInv c → period_for in_ (bc_periods c) period → j ∈ bc_invoices c → inv_PeriodID j = bperiod_ID period →
  span j = request_span in_.
Proof.
  intros Hinv [Hp Hk] Hj Heq. destruct (sd_period c j (bi_stands c Hinv j Hj)) as (q & Hq & _ & Hkq).
  assert (q = period) as ->.
  { apply (NoDup_fmap_inj_elem bperiod_ID (bc_periods c)); [apply Hinv|done..|]. injection Hkq as ->. done. }
  rewrite <- Hk, Hkq. done.
Qed.

(** What is returned is the stored invoice of the requested period. *)
Definition returned (i row : Invoice) : Prop :=
  (inv_ID i, inv_Currency i, inv_TotalMinor i, inv_State i) = (inv_ID row, inv_Currency row, inv_TotalMinor row, inv_State row).

Lemma PrepareInvoice_result in_ db i created db' :
  BillingInv (core db) → PrepareInvoice None in_ db = Ok (Ok (i, created), db') →
  BillingInv (core db') ∧ ∃ row, row ∈ bc_invoices (core db') ∧ span row = request_span in_ ∧ returned i row ∧
    bc_invoices (core db') = bc_invoices (core db) ++ (if created : bool then [row] else []) ∧
    (inv_SettlementLedgerID i = "" ∨ shows db' i row).
Proof.
  intros Hinv H. pose proof (cs_calm _ _ (PrepareInvoice_step _ _ _ _ H)) as Hstep. pose proof (core_step_inv _ _ Hstep Hinv) as Hinv'.
  split; [done|]. apply PrepareInvoice_ok in H as [H|(e & [=] & _)]. inversion H as [|i' period j Hm Hfor Hj Hjp Hget|
    ps id issued lines now Hm Hnew Hspan Hled Hc]; subst.
  - apply GetInvoice_ok in Hget as (_ & row & Hshow & Hid & _).
    assert (row = j) as -> by (apply (same_invoice_id (core db')); [done|apply Hshow|done..]).
    exists j. split; [done|]. split; [by eapply period_for_span|]. split; [|split; [|by right]].
    + pose proof (shows_fields _ _ _ Hshow) as Hf. unfold returned.
      injection Hf as -> _ -> _ _ -> -> _ _. done.
    + destruct Hm as [-> _]. by rewrite app_nil_r.
  - exists (invoice_row id issued now). rewrite Hc.
    split; [unfold add_lines, add_invoice; get_upd; apply elem_of_app; right; by left|].
    split; [done|]. split; [|split; [done|left]]; by destruct issued.
Qed.
End reading.

(** ** The theorems *)
Section theorems.
Context {pg : Postgres} {dg : Digest} {bx : BillingExternal}.

(** C10: An invoice is final: whatever runs after it was issued, it stays in the store with
    its number, recipient, period, price version, tax policy, amounts and lines, the usage
    it bills stays the same, and once settled it stays settled. *)
Theorem invoices_final db before after i :
  empty_core (core db) →
  let now := run_billing_all before db in
  i ∈ bc_invoices (core now) → ∃ i', lasts (core now) (core (run_billing_all after now)) i i'.
Proof.
  intros Hempty now Hi. apply core_steps_last; [apply run_billing_rtc| |done].
  by apply run_billing_inv, empty_BillingInv.
Qed.


Lemma find_ext {A} (p q : A → bool) (l : list A) : (∀ x, p x = q x) → find p l = find q l.
Proof. intros H. induction l as [|x l IH]; [done|]. simpl. by rewrite H, IH. Qed.

Lemma GetUsageFact_run id db :
  try_err ErrBillingNotFound (GetUsageFact None id) db =
  Ok (urow_Fact <$> find (fun r => fact_UsageID (urow_Fact r) == id) (bt_usage (db_billing db)), db).
Proof.
  unfold GetUsageFact, tenantRead, getUsageFact, try_err, bscan, select. cbn -[find].
  unfold mbind, M_bind. cbn -[find].
  replace (find (fun r => (fact_UsageID (urow_Fact r) == id) && true) (bt_usage (db_billing db))) with
    (find (fun r => fact_UsageID (urow_Fact r) == id) (bt_usage (db_billing db))).
  2: { apply find_ext. intros r. by rewrite andb_true_r. }
  by destruct (find _ _).
Qed.

Lemma GetUsageFact_find id db f db' :
  GetUsageFact None id db = Ok (f, db') →
  ∃ r, find (fun r => fact_UsageID (urow_Fact r) == id) (bt_usage (db_billing db)) = Some r ∧ f = urow_Fact r.
Proof.
  intros H. pose proof (GetUsageFact_run id db) as Hr. unfold try_err in Hr. rewrite H in Hr.
  destruct (find _ _) as [r|]; [|done]. injection Hr as -> _. by exists r.
Qed.

Lemma store_usage_ok f db created db' :
  store_usage f db = Ok (created, db') →
  (∃ r, created = true ∧ bt_usage (db_billing db') = bt_usage (db_billing db) ++ [r] ∧
        core db' = add_usage (urow_Fact r) (core db)) ∨
  (created = false ∧ db' = db).
Proof.
  unfold store_usage.
  match goal with |- context [mbind ?g ?m ?d] => destruct (mbind g m d) as [[row db2]|e] eqn:E end.
  - intros [= <- <-]. left. apply bind_ok in E as (id & db3 & [-> ->]%fresh_ok & E).
    apply bind_ok in E as (now & db3 & [-> ->]%gets_ok & E). unfold insert_usage in E. cbv zeta in E.
    apply bind_ok in E as (? & db1 & [_ ->]%require_ok & E). apply bind_ok in E as (? & db1 & ->%barrier_reads & E).
    apply bind_ok in E as (? & db1 & [_ ->]%barrier_ok & E).
    apply insert_or_nothing_ok in E as (_ & _ & _ & ->)%insert_row_ok. eexists. split; [done|]. split; [done|].
    unfold core, add_usage. change (bt_usage (db_billing (t_put ?r ?d))) with r. by rewrite fmap_app.
  - destruct e; try done; [|by case_match]. intros [= <- <-]. by right.
Qed.


Lemma GetPricingVersion_run v db : v ∈ bc_versions (core db) →
  ∃ w, GetPricingVersion (pricing_ID v) db = Ok (w, db) ∧ pricing_ID w = pricing_ID v ∧
       pricing_Rates w = rates_of (core db) (pricing_ID v).
Proof.
  intros Hv. unfold GetPricingVersion, bscan, select.
  destruct (find (fun x => pricing_ID x == pricing_ID v) (t_rows db)) as [w|] eqn:Hf.
  - apply find_some_iff in Hf as Hid. destruct Hid as [_ Hid]. reflect_go. unfold mbind, M_bind. cbn [t_rows] in *.
    rewrite Hf. eexists. split; [reflexivity|]. get_upd. by rewrite Hid.
  - exfalso. apply find_none_iff with (x := v) in Hf; [|exact Hv]. by rewrite bool_decide_eq_true_2 in Hf.
Qed.

(** C19: The time line of prices: from the start of the first published version of a
    currency on, at every instant exactly one version is in force, and it is the one that
    is found with its rates; before that none is, and the answer says so.  No run of
    operations makes two versions overlap or leaves a gap between them. *)
Theorem price_timeline db ops t code :
  empty_core (core db) →
  let now := run_billing_all ops db in
  (∃ v, v ∈ bc_versions (core now) ∧ in_force code (pg_time t) v = true ∧
     (∀ w, w ∈ bc_versions (core now) → in_force code (pg_time t) w = true → w = v) ∧
     ∃ found, ActivePricingVersion t code now = Ok (found, now) ∧ pricing_ID found = pricing_ID v ∧
       pricing_Rates found = rates_of (core now) (pricing_ID v)) ∨
  ((∀ v, v ∈ bc_versions (core now) → published v = true → pricing_Currency v = code →
      pg_time t < pricing_EffectiveFrom v) ∧
   ActivePricingVersion t code now = Err ErrPricingUnavailable).
Proof.
  intros Hempty now. assert (PriceInv (bc_versions (core now))) as Hinv by by apply bi_prices, run_billing_inv, empty_BillingInv.
  unfold ActivePricingVersion. rewrite (bind_run _ _ now _ now) by done.
  change (bt_versions (db_billing now)) with (bc_versions (core now)).
  destruct (filter (fun v => in_force code (pg_time t) v = true) (bc_versions (core now))) as [|v l] eqn:Hf.
  - right. split; [|done]. intros v Hv Hp Hc. apply Z.nle_gt. intros Hle.
    destruct (in_force_exists _ Hinv code (pg_time t) v) as (w & Hw & Hfw); [done..|].
    rewrite (in_force_filter _ Hinv code (pg_time t) w) in Hf by done. done.
  - left. assert (v ∈ v :: l) as Hv by left. rewrite <- Hf in Hv. apply list_elem_of_filter in Hv as [Hfv Hv].
    rewrite (in_force_filter _ Hinv code (pg_time t) v) in Hf by done. injection Hf as <-.
    exists v. split_and!; [done..| |].
    + intros w Hw Hfw. by apply (in_force_unique _ Hinv code (pg_time t)).
    + simpl. destruct (GetPricingVersion_run v now Hv) as (w & Hw & Hid & Hr). by exists w.
Qed.
End theorems.

(** ** At the demonstration store *)
#[local] Existing Instances demo_pg demo_dg.

Lemma demo_run : run_billing_all demo_billing_ops demo_db = demo_billed_db.
Proof. by vm_compute. Qed.

Definition demo_later_ops : list billing_operation :=
  [BUsage 0 (demo_fact "u4" (50 * Second) 1); BSettle "org" (inv_ID demo_invoice) "" demo_now;
   BDraftPrices (demo_prices 2 Second); BPrepare demo_window].

Lemma invoices_final_witness :
  ∃ i', lasts (core demo_billed_db) (core (run_billing_all demo_later_ops demo_billed_db)) demo_invoice i'.
Proof.
  pose proof (invoices_final demo_db demo_billing_ops demo_later_ops demo_invoice) as H. cbv zeta in H.
  rewrite demo_run in H. apply H; [by vm_compute|vm_compute; left].
Defined.

Definition demo_again : Result (Result (Invoice * bool) * Db) := Eval vm_compute in PrepareInvoice None demo_window demo_billed_db.
Definition demo_again_invoice : Invoice := Eval vm_compute in
  match demo_again with Ok (Ok (i, _), _) => i | _ => demo_invoice end.
Definition demo_again_db : Db := Eval vm_compute in match demo_again with Ok (_, db) => db | _ => demo_billed_db end.



Lemma price_timeline_witness : ∃ v, v ∈ bc_versions (core demo_billed_db) ∧
  in_force TWD (2 * Second) v = true.
Proof.
  pose proof (price_timeline demo_db demo_billing_ops (2 * Second) TWD) as H. cbv zeta in H. rewrite demo_run in H.
  destruct H as [(v & Hv & Hf & _)|[_ H]]; [by vm_compute|by exists v|by vm_compute in H].
Defined.
