(* ===== verification/BillingFrames.v ===== *)
(** * What the billing operations leave alone

    A relation that ignores the billing tables is kept by every billing operation: the
    ledger, the accounts, and (but for settlement) the links between invoices and ledger
    entries; documents are only added. *)
From S2P Require Import Prelude GoStrings GoTime BillingTypes Invoice PaymentTypes Payment Database.
From S2P Require Import Tables Keeps Accounts Ledger Credits Setups Handoff Protocols Settlement HandoffCommit.
From S2P Require Import Closure Preflight Creation Operations Responsibility HandoffSteps Handover ClosureSteps.
From S2P Require Import BillingSchema Pricing Usage Profiles BillingInvoices PriceTimeline BillingOps BillingSteps.
From S2P Require Import Debits.

Class BillingApart (R : relation Db) := {
  ba_frame :: Frame R;
  ba_touch :: Touches R;
  ba_usage :: Skips R UsageRow;
  ba_periods :: Skips R BillingPeriod;
  ba_invoices :: Skips R Invoice;
  ba_lines :: Skips R LineRow;
  ba_documents : ∀ d target, keeps R (insert_or_nothing (R := DocumentRow) target d);
  ba_versions :: Skips R PricingVersion;
  ba_rates :: Skips R PricingRate;
  ba_drafts :: Skips R PricingDraft;
  ba_publications :: Skips R PricingPublication;
  ba_seals :: Skips R SealRow;
  ba_profiles :: Skips R BillingProfile;
  ba_number : keeps R next_invoice_number
}.

(** [keeps] through the combinators of the billing store. *)
Ltac bkeeps :=
  repeat first
    [ progress keeps
    | apply keeps_attempt; [apply _|] | apply keeps_bscan | apply keeps_bindR; [apply _| |intros ?]
    | match goal with |- keeps _ (match ?x with _ => _ end _) => destruct x end ].

Section frames.
Context {pg : Postgres} {dg : Digest} {bx : BillingExternal}.
Context (R : relation Db) `{!BillingApart R}.

#[local] Existing Instances ba_documents ba_number keeps_EnsureBillingProfile keeps_attempt keeps_bscan keeps_bindR.
#[local] Instance keeps_financial_barrier account : keeps R (financial_barrier account).
Proof. apply keeps_reads; [apply _|apply barrier_reads]. Qed.
#[local] Instance keeps_update_periods_apart p f : keeps R (update_periods_where p f).
Proof. unfold update_periods_where. keeps. Qed.
#[local] Instance keeps_upsert_apart p : keeps R (upsert_period p).
Proof. unfold upsert_period. keeps. Qed.
#[local] Instance keeps_incomplete_apart {A} id code now e : keeps R (incomplete (A := A) id code now e).
Proof. unfold incomplete, markPeriodIncomplete. keeps. Qed.
#[local] Instance keeps_read_invoice organizationID id : keeps R (GetInvoice None organizationID id).
Proof. apply keeps_reads; [apply _|apply reads_getInvoice]. Qed.
#[local] Instance keeps_insert_lines id lines : keeps R (insert_lines id lines).
Proof. induction lines; simpl; keeps. Qed.
#[local] Instance keeps_active at_ code : keeps R (ActivePricingVersion at_ code).
Proof. apply keeps_reads; apply _. Qed.

#[local] Existing Instances reads_eligibility reads_seals keeps_reads.
#[local] Instance keeps_ota_ready_apart in_ id complete now : keeps R (ota_ready in_ id complete now).
Proof. unfold ota_ready. bkeeps. Qed.

Lemma keeps_apart_prepare in_ : keeps R (PrepareInvoice None in_).
Proof.
  unfold PrepareInvoice, prepareInvoiceTx, prepareInvoice, GetInvoiceByPeriod, getInvoiceByPeriod, tenantRead,
    issue_and_close, insert_invoice, close_period, facts_to_bill, ListUsageFacts, listUsageFacts, tenantRead,
    invoice_recipient.
  bkeeps.
Qed.

Lemma keeps_apart_usage offset fact : keeps R (PutUsageFact None offset fact).
Proof.
  intros db [stored created] db' H. unfold PutUsageFact in H.
  apply bind_ok in H as (f & db1 & [_ ->]%lift_ok & H).
  apply bind_ok in H as (old & db1 & Hg & H). apply (reads_try _ _ (reads_GetUsageFact _)) in Hg as ->.
  destruct old.
  { apply bind_ok in H as (? & ? & [_ ->]%require_ok & [_ ->]%ret_ok). done. }
  apply bind_ok in H as (l & db1 & [-> ->]%gets_ok & H). apply bind_ok in H as (? & db1 & [_ ->]%require_ok & H).
  apply bind_ok in H as (cr & db1 & Hst & H). apply bind_ok in H as (s & db2 & ->%reads_GetUsageFact & H).
  apply bind_ok in H as (? & ? & [_ ->]%require_ok & [_ ->]%ret_ok). unfold store_usage in Hst.
  match type of Hst with context [mbind ?g ?m ?d] => destruct (mbind g m d) as [[row db2]|e] eqn:E end.
  - injection Hst as _ ->. revert E. match goal with |- ?m ?d = _ → _ => assert (keeps R m) as Hk end.
    { unfold insert_usage. bkeeps. } apply Hk.
  - destruct e; try done; [|by case_match]. by injection Hst as _ ->.
Qed.

#[local] Instance keeps_insert_rates id rates : keeps R (insert_rates id rates).
Proof. induction rates; simpl; bkeeps. Qed.
#[local] Instance keeps_apart_prices in_ : keeps R (CreatePricingVersion in_).
Proof. unfold CreatePricingVersion, createPricingVersionTx. bkeeps. Qed.
Lemma keeps_apart_draft in_ : keeps R (CreateOTAPricingDraft in_).
Proof. unfold CreateOTAPricingDraft, createOTAPricingDraftTx. bkeeps. Qed.
Lemma keeps_apart_activate id now approval : keeps R (activatePricingVersion id now approval).
Proof.
  unfold activatePricingVersion, activatePricingVersionTx, check_approval, check_schedule, end_predecessor,
    record_publication. bkeeps.
Qed.
Lemma keeps_apart_profile ctx in_ : keeps R (PutBillingProfile ctx in_).
Proof. unfold PutBillingProfile, putBillingProfileTx, lockProfileOwner, getProfileTx. bkeeps. Qed.
Lemma keeps_apart_seal input : keeps R (PutOTAPeriodSeal input).
Proof. unfold PutOTAPeriodSeal. bkeeps. Qed.
Lemma keeps_apart_document organizationID id document data : keeps R (PutInvoiceDocument None organizationID id document data).
Proof. unfold PutInvoiceDocument, GetInvoiceDocument, tenantRead, getInvoiceDocument. bkeeps. Qed.

(** The operations of the billing store but settlement. *)
Definition quiet_billing (op : billing_operation) : Prop :=
  match op with BPayment _ | BSettle _ _ _ _ => False | _ => True end.

Lemma exec_billing_apart op : quiet_billing op → keeps R (exec_billing op).
Proof.
  destruct op; try done; intros _; cbn [exec_billing]; try (apply keeps_ignore; [apply _|]).
  - apply keeps_apart_usage.
  - apply keeps_apart_seal.
  - apply keeps_apart_prices.
  - apply keeps_apart_draft.
  - apply keeps_apart_activate.
  - apply keeps_apart_activate.
  - apply _.
  - apply keeps_apart_profile.
  - apply keeps_apart_prepare.
  - apply keeps_apart_document.
Qed.
End frames.
