(* ===== verification/Closing.v ===== *)
(** * Closing periods, whatever happens in between

    Any number of calls of [ClosePeriod], interleaved at their transactions with each
    other and with every other operation of both stores, and stopped anywhere: each
    invoice is debited at most once, for exactly its total, and a call that reports
    success has left its invoice settled, paid and with a document. *)
From S2P Require Import Prelude GoStrings GoTime BillingTypes Money Ota Invoice PaymentTypes Payment Database.
From S2P Require Import Tables Keeps Fixtures Accounts Ledger Credits Setups Handoff Protocols Settlement HandoffCommit.
From S2P Require Import Closure Preflight Creation Operations Responsibility HandoffSteps Handover ClosureSteps.
From S2P Require Import BillingSchema Pricing Usage Profiles BillingInvoices Document BillingService PriceTimeline.
From S2P Require Import BillingOps BillingFixtures BillingSteps BillingSafety Debits BillingHistory BillingFrames.

(** ** Debits *)

Definition org_account_id (db : Db) (organizationID : string) : option string :=
  account_ID <$> find (by_organization organizationID Settlement) (db_accounts db).

(** [e] is the debit of the stored invoice [i]. *)
Record debit_of (db : Db) (i : Invoice) (e : LedgerEntry) : Prop := {
  do_scope : is_debit e;
  do_key : entry_IdempotencyKey e = TrimSpace (inv_ID i);
  do_account : org_account_id db (inv_OrganizationID i) = Some (entry_AccountID e);
  do_direction : entry_Direction e = LedgerDirectionDebit;
  do_amount : entry_AmountMinor e = inv_TotalMinor i;
  do_currency : entry_Currency e = inv_Currency i
}.

#[export] Instance is_debit_dec e : Decision (is_debit e).
Proof. unfold is_debit. apply _. Defined.
Definition debit_key (e : LedgerEntry) : string * string := (entry_AccountID e, entry_IdempotencyKey e).

Record DebitInv (db : Db) : Prop := {
  di_debits : ∀ e, e ∈ db_entries db → is_debit e → ∃ i, i ∈ bc_invoices (core db) ∧ debit_of db i e;
  di_once : NoDup (debit_key <$> filter is_debit (db_entries db));
  di_links : ∀ l, l ∈ bt_links (db_billing db) → link_LedgerEntryID l ≠ "" →
    ∃ i e, i ∈ bc_invoices (core db) ∧ inv_ID i = link_InvoiceID l ∧ e ∈ db_entries db ∧
      entry_ID e = link_LedgerEntryID l ∧ debit_of db i e;
  di_paid : ∀ i, i ∈ bc_invoices (core db) → inv_State i = InvoiceStateSettled → 0 < inv_TotalMinor i →
    ∃ e, e ∈ db_entries db ∧ debit_of db i e
}.
Record ClosingInv (db : Db) : Prop := { ci_core : BillingInv (core db); ci_debits : DebitInv db }.

(** ** What stays *)
Record later (db db' : Db) : Prop := {
  lt_core : rtc core_step (core db) (core db');
  lt_accounts : accounts_stay db db';
  lt_entries : db_entries db `prefix_of` db_entries db';
  lt_documents : bt_documents (db_billing db) `prefix_of` bt_documents (db_billing db')
}.
#[export] Instance later_preorder : PreOrder later.
Proof.
  split; [intros db; by split|]. intros x y z [A1 A2 A3 A4] [B1 B2 B3 B4].
  split; [by etrans|by transitivity y|by etrans|by etrans].
Qed.

Lemma later_same_account db db' org a : accounts_stay db db' → org_account_id db org = Some a → org_account_id db' org = Some a.
Proof.
  unfold org_account_id. intros Hs Ha. destruct (find _ (db_accounts db)) as [acc|] eqn:Hf; [|done].
  destruct (find_account_stays db db' org acc) as (acc' & -> & Hid); [done..|]. simpl in *. by rewrite Hid.
Qed.

Lemma prefix_elem {A} (l k : list A) x : l `prefix_of` k → x ∈ l → x ∈ k.
Proof. intros [z ->] Hx. apply elem_of_app. by left. Qed.

Lemma final_fields i j : final i = final j → inv_ID i = inv_ID j ∧ span i = span j ∧ inv_TotalMinor i = inv_TotalMinor j.
Proof. unfold final, invoice_identity, span. intros H. injection H. intros. split_and!; congruence. Qed.

Lemma debit_of_stays db db' i i' e : accounts_stay db db' → final i' = final i → debit_of db i e → debit_of db' i' e.
Proof.
  intros Hs (Hid & Hsp & Ht)%final_fields [H1 H2 H3 H4 H5 H6]. injection Hsp as Ho Hc _ _.
  constructor; rewrite ?Hid, ?Ho, ?Ht, ?Hc; try done. by eapply later_same_account.
Qed.

Lemma later_invoice db db' i : later db db' → BillingInv (core db) → i ∈ bc_invoices (core db) →
  ∃ i', lasts (core db) (core db') i i'.
Proof. intros [Hc _ _ _]. by apply core_steps_last. Qed.

(** ** Operations that are no settlement *)
Record quiet (db db' : Db) : Prop := {
  qu_core : calm_step (core db) (core db');
  qu_entries : no_debits db db';
  qu_accounts : accounts_stay db db';
  qu_links : bt_links (db_billing db') = bt_links (db_billing db);
  qu_documents : bt_documents (db_billing db) `prefix_of` bt_documents (db_billing db')
}.

Lemma quiet_later db db' : quiet db db' → later db db'.
Proof. intros [Hc (n & Hn & _) Ha _ Hd]. split; [by apply rtc_once, cs_calm|done|by exists n|done]. Qed.

(** A calm step keeps the invoices and adds open ones. *)
Lemma calm_invoices c c' : calm_step c c' →
  (∀ i, i ∈ bc_invoices c → i ∈ bc_invoices c') ∧
  (∀ i, i ∈ bc_invoices c' → i ∈ bc_invoices c ∨ inv_State i = InvoiceStateIssued).
Proof.
  intros [->|r ? ? ? ? ->|ps Hm ->|ps i lines Hm Hi ->|v rates ? ? ? ? ->|v prev now Hp ->]; try (split; auto; fail).
  split; intros j Hj; unfold add_lines, add_invoice in *; get_upd; [apply elem_of_app; by left|].
  apply elem_of_app in Hj as [Hj| ->%list_elem_of_singleton]; [by left|right; apply Hi].
Qed.

Lemma no_debits_filter db db' : no_debits db db' → filter is_debit (db_entries db') = filter is_debit (db_entries db).
Proof.
  intros (n & -> & Hn). apply filter_app_none. intros e He. rewrite Forall_forall in Hn. by apply Hn.
Qed.
Lemma no_debits_elem db db' e : no_debits db db' → is_debit e → e ∈ db_entries db' ↔ e ∈ db_entries db.
Proof.
  intros Hd He. pose proof (no_debits_filter _ _ Hd) as Hf.
  assert (e ∈ filter is_debit (db_entries db') ↔ e ∈ filter is_debit (db_entries db)) as H by by rewrite Hf.
  rewrite !list_elem_of_filter in H. tauto.
Qed.

Lemma quiet_inv db db' : quiet db db' → ClosingInv db → ClosingInv db'.
Proof.
  intros Hq [Hcore [H1 H2 H3 H4]]. destruct Hq as [Hc He Ha Hl _]. destruct (calm_invoices _ _ Hc) as [Hin Hback].
  assert (∀ i e, debit_of db i e → debit_of db' i e) as Hstay by (intros i e; by apply debit_of_stays).
  split; [by eapply core_step_inv, Hcore; apply cs_calm|]. constructor.
  - intros e Hine Hd. apply (no_debits_elem _ _ _ He Hd) in Hine. destruct (H1 e Hine Hd) as (i & ? & ?).
    exists i. auto.
  - by rewrite (no_debits_filter _ _ He).
  - intros l. rewrite Hl. intros Hli Hne. destruct (H3 l Hli Hne) as (i & e & ? & ? & ? & ? & Hd).
    exists i, e. split_and!; auto. by apply (no_debits_elem _ _ _ He); [apply Hd|].
  - intros i Hi Hs Ht. destruct (Hback i Hi) as [Hi'|Hst]; [|by rewrite Hst in Hs].
    destruct (H4 i Hi' Hs Ht) as (e & ? & Hd). exists e. split; [|auto].
    by apply (no_debits_elem _ _ _ He); [apply Hd|].
Qed.

(** ** The operations elsewhere *)
#[export] Instance accounts_stay_billing : BillingApart accounts_stay.
Proof. split; try apply _. intros db n db' [= _ <-]. apply (reflexivity (R := prefix)). Qed.
#[export] Instance no_debits_billing : BillingApart no_debits.
Proof. split; try apply _. intros db n db' [= _ <-]. by apply no_debits_same. Qed.

Definition same_links (db db' : Db) : Prop := bt_links (db_billing db') = bt_links (db_billing db).
#[export] Instance same_links_preorder : PreOrder same_links.
Proof. unfold same_links. split; [done|]. intros x y z. congruence. Qed.
#[export] Instance same_links_frame : Frame same_links.
Proof. split; [apply _|done..]. Qed.
#[export] Hint Extern 1 (Skips same_links _) => by intros ?? : typeclass_instances.
#[export] Instance same_links_billing : BillingApart same_links.
Proof. split; try apply _. by intros db n db' [= _ <-]. Qed.

Definition documents_grow (db db' : Db) : Prop := bt_documents (db_billing db) `prefix_of` bt_documents (db_billing db').
#[export] Instance documents_grow_preorder : PreOrder documents_grow.
Proof. split; [intros db; apply (reflexivity (R := prefix))|]. intros x y z. apply (transitivity (R := prefix)). Qed.
#[export] Instance documents_grow_frame : Frame documents_grow.
Proof. split; [apply _|intros; apply (reflexivity (R := prefix))..]. Qed.
#[export] Hint Extern 1 (Skips documents_grow _) => intros ??; apply (reflexivity (R := prefix)) : typeclass_instances.
#[export] Instance documents_grow_billing : BillingApart documents_grow.
Proof.
  split; try apply _.
  - intros d target db r db' (-> & _ & _ & ->)%insert_or_nothing_ok%insert_row_ok. unfold documents_grow.
    change (bt_documents (db_billing (t_put ?l db))) with l. by eexists.
  - intros db n db' [= _ <-]. apply (reflexivity (R := prefix)).
Qed.

Section operations.
Context {pg : Postgres} {dg : Digest} {bx : BillingExternal}.

(** What others may do: everything but post invoice debits and record settlements. *)
Definition elsewhere (op : billing_operation) : Prop :=
  match op with BPayment op => not_debit op | BSettle _ _ _ _ => False | _ => True end.

Lemma exec_quiet op db u db' : elsewhere op → exec_billing op db = Ok (u, db') → quiet db db'.
Proof.
  intros Hop H. assert (calm_step (core db) (core db')) as Hc.
  { eapply exec_billing_calm; [|exact H]. by intros a b c d ->. }
  destruct op as [p| | | | | | | | | | |] eqn:E.
  1: { cbn [exec_billing] in H. pose proof (exec_same_billing p _ _ _ H) as Hb. unfold same_billing in Hb.
       split; [done|by eapply exec_no_debits|by eapply exec_accounts_stay|by rewrite Hb|by rewrite Hb]. }
  all: try done.
  all: split; [done|eapply (exec_billing_apart no_debits)|eapply (exec_billing_apart accounts_stay)
    |eapply (exec_billing_apart same_links)|eapply (exec_billing_apart documents_grow)]; try exact H; done.
Qed.

(** Both relations of one run. *)
Definition proceeds (db db' : Db) : Prop := later db db' ∧ (ClosingInv db → ClosingInv db').
#[export] Instance proceeds_preorder : PreOrder proceeds.
Proof. split; [intros db; split; [done|auto]|]. intros x y z [L1 I1] [L2 I2]. split; [by etrans|auto]. Qed.

Lemma quiet_proceeds db db' : quiet db db' → proceeds db db'.
Proof. intros Hq. split; [by apply quiet_later|by apply quiet_inv]. Qed.

Lemma run_elsewhere op db : elsewhere op → proceeds db (run_billing db op).
Proof.
  intros Hop. unfold run_billing, run. destruct (exec_billing op db) as [[u db']|e] eqn:E; [|done].
  by eapply quiet_proceeds, exec_quiet.
Qed.

Lemma PrepareInvoice_proceeds in_ db r db' : PrepareInvoice None in_ db = Ok (r, db') → proceeds db db'.
Proof.
  intros H. apply quiet_proceeds. apply (exec_quiet (BPrepare in_) db tt); [done|]. cbn [exec_billing]. unfold ignore.
  by rewrite (bind_run _ _ _ _ _ H).
Qed.

Lemma PutInvoiceDocument_proceeds org id document data db u db' :
  PutInvoiceDocument None org id document data db = Ok (u, db') → proceeds db db'.
Proof. intros H. apply quiet_proceeds. by apply (exec_quiet (BDocument org id document data) db u). Qed.

(** ** The debit *)
Variable actorID : string.

(** The figures of an invoice that a debit repeats. *)
Definition bill (i : Invoice) := (inv_ID i, inv_Currency i, inv_TotalMinor i).

Lemma same_request_debit e account i requestID now row db :
  org_account_id db (inv_OrganizationID row) = Some (account_ID account) → bill i = bill row →
  inv_Currency i = account_Currency account →
  sameLedgerRequest e (invoice_debit actorID account i requestID now) = true → debit_of db row e.
Proof.
  intros Ha Hret Hcur Hs. injection Hret as Hid Hc Ht. unfold sameLedgerRequest, invoice_debit in Hs. reflect_go.
  cbn [post_AccountID post_Direction post_AmountMinor post_Currency post_Reason post_IdempotencyScope
    post_IdempotencyKey post_ExternalType post_ExternalID post_ActorType post_ActorID] in *.
  constructor; try congruence. unfold is_debit. match goal with H : entry_IdempotencyScope e = _ |- _ => rewrite H end.
  by vm_compute.
Qed.
(** A debit is appended. *)
Lemma debit_appended db db' row e :
  same_billing db db' → accounts_stay db db' → db_entries db' = db_entries db ++ [e] →
  row ∈ bc_invoices (core db) → debit_of db' row e →
  (∀ e', e' ∈ db_entries db → is_debit e' → debit_key e' ≠ debit_key e) → proceeds db db'.
Proof.
  intros Hb Hacc He Hrow Hd Hnew. unfold same_billing in Hb.
  assert (core db' = core db) as Hc by (unfold core; by rewrite Hb).
  assert (∀ i e, debit_of db i e → debit_of db' i e) as Hstay by (intros i e'; by apply debit_of_stays).
  assert (∀ e', e' ∈ db_entries db → e' ∈ db_entries db') as Hin by (intros; rewrite He; apply elem_of_app; by left).
  split. { split; [by rewrite Hc|done|rewrite He; by eexists|by rewrite Hb]. }
  intros [Hcore [H1 H2 H3 H4]]. split; [by rewrite Hc|]. constructor; rewrite ?Hc, ?Hb.
  - rewrite He. intros e' [Hin'| ->%list_elem_of_singleton]%elem_of_app Hde; [|by exists row].
    destruct (H1 e' Hin' Hde) as (i & ? & ?). exists i. auto.
  - rewrite He, filter_app, filter_cons_True, filter_nil, fmap_app by apply Hd. apply NoDup_snoc; [done|].
    intros (e' & Heq & [Hde Hin']%list_elem_of_filter)%list_elem_of_fmap. by apply (Hnew e').
  - intros l Hl Hne. destruct (H3 l Hl Hne) as (i & e' & ? & ? & ? & ? & ?). exists i, e'. split_and!; auto.
  - intros i Hi Hs Ht. destruct (H4 i Hi Hs Ht) as (e' & ? & ?). exists e'. auto.
Qed.

Lemma posted_entry ctx in_ db r db' : PostLedgerEntry ctx in_ db = Ok (r, db') →
  posted_Entry r ∈ db_entries db' ∧ sameLedgerRequest (posted_Entry r) in_ = true ∧
  (db' = db ∨ db_entries db' = db_entries db ++ [posted_Entry r] ∧ ∀ e, e ∈ db_entries db → same_key in_ e = false).
Proof.
  intros (_ & _ & now & [H|H]%postLedgerEntryTx_ok)%PostLedgerEntry_ok.
  - destruct H as (-> & _ & Hf & Hs). split; [by eapply find_some_iff|]. split; [exact Hs|by left].
  - pose proof (posted_new_entry _ _ _ _ H) as (id & b & Hentry & He & _). destruct H as (_ & Hnone & _).
    split; [rewrite He; apply elem_of_app; right; by left|]. split; [|right].
    { rewrite Hentry. by apply (sameLedgerRequest_new id (with_now now in_) b). }
    split; [done|]. intros e Hin. by apply (proj1 (find_none_iff _ _) Hnone e).
Qed.

Lemma invoice_debit_proceeds account i row requestID now db r db' :
  row ∈ bc_invoices (core db) → bill i = bill row → inv_Currency i = account_Currency account →
  org_account_id db (inv_OrganizationID row) = Some (account_ID account) →
  PostLedgerEntry None (invoice_debit actorID account i requestID now) db = Ok (r, db') →
  proceeds db db' ∧ posted_Entry r ∈ db_entries db' ∧ debit_of db' row (posted_Entry r).
Proof.
  intros Hrow Hret Hcur Hacc H. set (in_ := invoice_debit actorID account i requestID now) in *.
  assert (exec (OpPost None in_) db = Ok (tt, db')) as Hex by (cbn [exec]; unfold ignore; by rewrite (bind_run _ _ _ _ _ H)).
  pose proof (exec_accounts_stay _ _ _ _ Hex) as Hstay. pose proof (exec_same_billing _ _ _ _ Hex) as Hb.
  destruct (posted_entry _ _ _ _ _ H) as (Hin & Hs & Hnew).
  assert (debit_of db' row (posted_Entry r)) as Hd.
  { eapply same_request_debit; [by eapply later_same_account|done..]. }
  split; [|done]. destruct Hnew as [->|[He Hno]]; [done|]. eapply debit_appended; [done..|].
  intros e He' Hde Hkey. specialize (Hno e He'). injection Hkey as Ha Hk. destruct Hd as [Hsc _ _ _ _ _].
  enough (same_key in_ e = true) by congruence.
  unfold same_key. unfold sameLedgerRequest in Hs. unfold is_debit in *. reflect_go.
  rewrite !andb_true_iff, !bool_decide_eq_true. split_and!; congruence.
Qed.
(** ** The settlement *)
Definition same_closing (db db' : Db) : Prop :=
  core db' = core db ∧ db_entries db' = db_entries db ∧ db_accounts db' = db_accounts db ∧
  bt_links (db_billing db') = bt_links (db_billing db) ∧ bt_documents (db_billing db') = bt_documents (db_billing db).
#[local] Instance same_closing_preorder : PreOrder same_closing.
Proof.
  unfold same_closing. split; [done|]. intros x y z (? & ? & ? & ? & ?) (? & ? & ? & ? & ?). split_and!; congruence.
Qed.

Definition set_link (id ledgerID : string) (now : Time) (l : SettlementLink) : SettlementLink :=
  mkSettlementLink (link_InvoiceID l) (if link_LedgerEntryID l == "" then ledgerID else link_LedgerEntryID l) "posted"
    (link_AttemptCount l) now.

(** The rows of a settlement. *)
Record settles (id ledgerID : string) (now : Time) (db db' : Db) : Prop := {
  se_core : core db' = core db <| bc_invoices ::= fmap (fun i =>
    if (inv_ID i == id) && one_of (inv_State i) ["issued"; "partially_settled"; "settled"] then settle_row now i else i) |>;
  se_entries : db_entries db' = db_entries db;
  se_accounts : db_accounts db' = db_accounts db;
  se_documents : bt_documents (db_billing db') = bt_documents (db_billing db);
  se_links : bt_links (db_billing db') =
    if existsb (fun l => link_InvoiceID l == id) (bt_links (db_billing db))
    then (fun l => if link_InvoiceID l == id then set_link id ledgerID now l else l) <$> bt_links (db_billing db)
    else bt_links (db_billing db) ++ [mkSettlementLink id ledgerID "posted" 1 now]
}.

Lemma upsert_activity_same a db u db' : upsert_activity a db = Ok (u, db') → same_closing db db'.
Proof.
  unfold upsert_activity. intros (b & db1 & [-> ->]%gets_ok & H)%bind_ok. destruct (existsb _ _).
  - by apply bind_ok in H as (? & db1 & (_ & _ & _ & ->)%update_rows_ok & [_ ->]%ret_ok).
  - by apply bind_ok in H as (? & db1 & (_ & _ & _ & ->)%insert_row_ok & [_ ->]%ret_ok).
Qed.

Lemma RecordInvoiceSettlement_settles organizationID id ledgerID now db i db' :
  RecordInvoiceSettlement None organizationID id ledgerID now db = Ok (i, db') →
  settles id ledgerID (pg_time (UTC now)) db db' ∧
  ∃ row, shows db' i row ∧ inv_ID row = id ∧ inv_OrganizationID row = organizationID.
Proof.
  unfold RecordInvoiceSettlement. intros (u & db1 & H & Hg)%bind_ok.
  apply GetInvoice_ok in Hg as [-> Hshow]. split; [|done]. clear Hshow.
  assert (recordInvoiceSettlementTx organizationID id ledgerID (UTC now) db = Ok (Committed u, db1)) as H1.
  { apply withTx_ok in H as [H|[-> [db2 H]]]; [done|]. exfalso. unfold recordInvoiceSettlementTx in H.
    repeat (apply bind_ok in H as (? & ? & _ & H)). by apply ret_ok in H as [[=] _]. }
  clear H. unfold recordInvoiceSettlementTx in H1.
  apply bind_ok in H1 as (row & db2 & Hr & H). apply (proj1 (bscan_ok _ _ _ _)), select_ok in Hr as [_ ->].
  apply bind_ok in H as (? & db2 & [_ ->]%require_ok & H).
  apply bind_ok in H as (? & db2 & Hl & H).
  apply bind_ok in H as (rows & db3 & Hu & H). unfold update_invoice in Hu. cbv zeta in Hu.
  apply bind_ok in Hu as (? & db4 & ->%barrier_reads & (_ & _ & _ & ->)%update_rows_ok).
  apply bind_ok in H as (aid & db4 & [-> ->]%fresh_ok & H). apply bind_ok in H as (? & db5 & Ha & [_ ->]%ret_ok).
  apply upsert_activity_same in Ha as (Hc & He & Hac & Hli & Hd).
  unfold upsert_link in Hl. apply bind_ok in Hl as (? & db6 & ->%barrier_reads & Hl).
  apply bind_ok in Hl as (b & db6 & [-> ->]%gets_ok & Hl).
  destruct (existsb _ _) eqn:Hex in Hl.
  - apply bind_ok in Hl as (? & db6 & (_ & _ & _ & ->)%update_rows_ok & [_ ->]%ret_ok).
    split; [by rewrite Hc|by rewrite He|by rewrite Hac|by rewrite Hd|]. rewrite Hli.
    cbn [t_rows links_table link_InvoiceID] in Hex. by rewrite Hex.
  - apply bind_ok in Hl as (? & db6 & (_ & _ & _ & ->)%insert_row_ok & [_ ->]%ret_ok).
    split; [by rewrite Hc|by rewrite He|by rewrite Hac|by rewrite Hd|]. rewrite Hli.
    cbn [t_rows links_table link_InvoiceID] in Hex. by rewrite Hex.
Qed.
Definition settle_if (id : string) (now : Time) (i : Invoice) : Invoice :=
  if (inv_ID i == id) && one_of (inv_State i) ["issued"; "partially_settled"; "settled"] then settle_row now i else i.
Lemma settle_if_final id now i : final (settle_if id now i) = final i.
Proof. unfold settle_if. case_match; [|done]. by destruct i. Qed.

Lemma settle_if_state id now i :
  inv_State (settle_if id now i) = InvoiceStateSettled → inv_State i = InvoiceStateSettled ∨ inv_ID i = id.
Proof. unfold settle_if. case_match eqn:E; [|by left]. intros _. right. by reflect_go. Qed.

Lemma settle_if_settles c now i :
  BillingInv c → i ∈ bc_invoices c → inv_State (settle_if (inv_ID i) now i) = InvoiceStateSettled.
Proof.
  intros Hinv Hi. unfold settle_if. rewrite bool_decide_eq_true_2 by done.
  destruct (sd_state c i (bi_stands c Hinv i Hi)) as [[Hs _]|[Hs _]]; rewrite Hs; by destruct i.
Qed.

Lemma settle_if_total id now i : inv_TotalMinor (settle_if id now i) = inv_TotalMinor i.
Proof. pose proof (settle_if_final id now i) as (_ & _ & H)%final_fields. done. Qed.

Lemma settles_later id ledgerID now db db' : settles id ledgerID now db db' → later db db'.
Proof.
  intros [Hc He Ha Hd _]. split.
  - apply rtc_once. by eapply cs_settle.
  - unfold accounts_stay, account_ids. rewrite Ha. apply (reflexivity (R := prefix)).
  - by rewrite He.
  - by rewrite Hd.
Qed.

Lemma settles_inv id ledgerID now db db' row :
  settles id ledgerID now db db' → row ∈ bc_invoices (core db) → inv_ID row = id →
  (0 < inv_TotalMinor row → ∃ e, e ∈ db_entries db ∧ debit_of db row e) →
  (ledgerID = "" ∨ ∃ e, e ∈ db_entries db ∧ entry_ID e = ledgerID ∧ debit_of db row e) →
  ClosingInv db → ClosingInv db'.
Proof.
  intros Hs Hrow Hid Hpaid Hled [Hcore [H1 H2 H3 H4]].
  pose proof (settles_later _ _ _ _ _ Hs) as Hl. destruct Hs as [Hc He Ha Hd Hli].
  assert (bc_invoices (core db') = settle_if id now <$> bc_invoices (core db)) as Hinv by by rewrite Hc.
  assert (∀ i e, debit_of db i e → debit_of db' (settle_if id now i) e) as Hstay.
  { intros i e. apply debit_of_stays; [apply Hl|apply settle_if_final]. }
  assert (∀ i, i ∈ bc_invoices (core db) → settle_if id now i ∈ bc_invoices (core db')) as Hin.
  { intros i Hi. rewrite Hinv. by apply list_elem_of_fmap_2. }
  assert (∀ i, inv_ID (settle_if id now i) = inv_ID i) as Hids.
  { intros i. by destruct (final_fields _ _ (settle_if_final id now i)). }
  split; [eapply rtc_inv, Hcore; apply Hl|]. constructor; rewrite ?He; try done.
  - intros e Hie Hde. destruct (H1 e Hie Hde) as (i & ? & ?). exists (settle_if id now i). auto.
  - assert (∀ l, l ∈ bt_links (db_billing db) → link_LedgerEntryID l ≠ "" → ∃ i e, i ∈ bc_invoices (core db') ∧
      inv_ID i = link_InvoiceID l ∧ e ∈ db_entries db ∧ entry_ID e = link_LedgerEntryID l ∧ debit_of db' i e) as Hold.
    { intros l Hil Hne. destruct (H3 l Hil Hne) as (i & e & ? & ? & ? & ? & ?).
      exists (settle_if id now i), e. rewrite Hids. split_and!; auto. }
    assert (ledgerID ≠ "" → ∃ i e, i ∈ bc_invoices (core db') ∧ inv_ID i = id ∧ e ∈ db_entries db ∧
      entry_ID e = ledgerID ∧ debit_of db' i e) as Hnew.
    { intros Hne. destruct Hled as [?|(e & ? & ? & ?)]; [done|].
      exists (settle_if id now row), e. rewrite Hids. split_and!; auto. }
    intros l. rewrite Hli. case_match.
    + intros (k & -> & Hk)%list_elem_of_fmap. case_match eqn:E; [|by apply Hold]. simpl.
      case_match eqn:E2; [|by apply Hold]. reflect_go. rewrite E. done.
    + intros [Hil| ->%list_elem_of_singleton]%elem_of_app; [by apply Hold|done].
  - intros i. rewrite Hinv. intros (j & -> & Hj)%list_elem_of_fmap Hst Ht. rewrite settle_if_total in Ht.
    apply settle_if_state in Hst as [Hst|Hst].
    + destruct (H4 j Hj Hst Ht) as (e & ? & ?). exists e. auto.
    + assert (j = row) as -> by (apply (same_invoice_id (core db)); [done..|by rewrite Hst]).
      destruct (Hpaid Ht) as (e & ? & ?). exists e. auto.
Qed.
End operations.
