(* ===== verification/ClosePeriods.v ===== *)
(** * Calls of [ClosePeriod], interleaved

    Any number of calls of [ClosePeriod], interleaved at their transactions with each
    other and with every other operation of both stores, and stopped anywhere: each
    invoice is debited at most once, for exactly its total, and a call that reports
    success has left its invoice settled, paid and with a document. *)
From S2P Require Import Prelude GoStrings GoTime BillingTypes Money Ota Invoice PaymentTypes Payment Database.
From S2P Require Import Tables Keeps Fixtures Accounts Ledger Credits Setups Handoff Protocols Settlement HandoffCommit.
From S2P Require Import Closure Preflight Creation Operations Responsibility HandoffSteps Handover ClosureSteps.
From S2P Require Import BillingSchema Pricing Usage Profiles BillingInvoices Document BillingService PriceTimeline.
From S2P Require Import BillingOps BillingFixtures BillingSteps BillingSafety Debits BillingHistory BillingFrames Closing.

Section calls.
Context {pg : Postgres} {dg : Digest} {bx : BillingExternal}.

(** ** What a successful call leaves behind *)

(** The invoice that was asked for. *)
Definition close_span (in_ : ClosePeriodInput) :=
  (close_OrganizationID in_, Settlement, pg_time (UTC (close_PeriodStart in_)), pg_time (UTC (close_PeriodEnd in_))).

Record asked (in_ : ClosePeriodInput) (db : Db) (i row : Invoice) : Prop := {
  as_row : row ∈ bc_invoices (core db);
  as_span : span row = close_span in_;
  as_bill : bill i = bill row;
  as_state : inv_State i = InvoiceStateSettled → inv_State row = InvoiceStateSettled
}.

(** The ledger entry of an invoice, if it has one. *)
Definition paid_by (db : Db) (row : Invoice) (ledgerID : string) : Prop :=
  (0 < inv_TotalMinor row → ∃ e, e ∈ db_entries db ∧ debit_of db row e) ∧
  (ledgerID = "" ∨ ∃ e, e ∈ db_entries db ∧ entry_ID e = ledgerID ∧ debit_of db row e).

Record settled_row (in_ : ClosePeriodInput) (db : Db) (i row : Invoice) : Prop := {
  sr_asked : asked in_ db i row;
  sr_state : inv_State row = InvoiceStateSettled;
  sr_paid : 0 < inv_TotalMinor row → ∃ e, e ∈ db_entries db ∧ debit_of db row e
}.

Definition has_document (db : Db) (id : string) : Prop :=
  ∃ d, d ∈ bt_documents (db_billing db) ∧ drow_InvoiceID d = id.

Definition closed_up (in_ : ClosePeriodInput) (db : Db) (r : ClosePeriodResult) : Prop :=
  ∃ row, settled_row in_ db (closed_Invoice r) row ∧ has_document db (inv_ID row).

(** ** What stays *)
Lemma asked_later in_ db db' i row :
  ClosingInv db → later db db' → asked in_ db i row → ∃ row', asked in_ db' i row' ∧ final row' = final row ∧
    (inv_State row = InvoiceStateSettled → inv_State row' = InvoiceStateSettled).
Proof.
  intros [Hinv _] Hl [Hrow Hspan Hbill Hst]. destruct (later_invoice _ _ _ Hl Hinv Hrow) as (row' & [Hin Hf _ _ Hs]).
  pose proof (final_fields _ _ Hf) as (Hid & Hsp & Ht). exists row'. split; [|done].
  split; [done|by rewrite Hsp| |auto]. rewrite Hbill. unfold bill. unfold span in Hsp. injection Hsp as _ Hc _ _. congruence.
Qed.

Lemma debit_later db db' row row' (P : LedgerEntry → Prop) :
  later db db' → final row' = final row → (∃ e, e ∈ db_entries db ∧ P e ∧ debit_of db row e) →
  ∃ e, e ∈ db_entries db' ∧ P e ∧ debit_of db' row' e.
Proof.
  intros [_ Ha He _] Hf (e & Hin & HP & Hd). exists e. split_and!; [by eapply prefix_elem|done|by eapply debit_of_stays].
Qed.
Lemma paid_later db db' row row' ledgerID :
  later db db' → final row' = final row → paid_by db row ledgerID → paid_by db' row' ledgerID.
Proof.
  intros Hl Hf [Hp Hled]. pose proof (final_fields _ _ Hf) as (_ & _ & Ht). split.
  - rewrite Ht. intros (e & ? & ?)%Hp. destruct (debit_later db db' row row' (fun _ => True)) as (e' & ? & _ & ?); eauto.
  - destruct Hled as [?|He]; [by left|right]. by eapply (debit_later db db' row row').
Qed.

Lemma settled_row_later in_ db db' i row :
  ClosingInv db → later db db' → settled_row in_ db i row → ∃ row', settled_row in_ db' i row' ∧ inv_ID row' = inv_ID row.
Proof.
  intros Hinv Hl [Has Hst Hp]. destruct (asked_later _ _ _ _ _ Hinv Hl Has) as (row' & Has' & Hf & Hst').
  pose proof (final_fields _ _ Hf) as (Hid & _ & _). exists row'. split; [|done]. split; [done|auto|].
  by apply (paid_later _ _ _ _ "" Hl Hf); split; [|left].
Qed.

Lemma has_document_later db db' id : later db db' → has_document db id → has_document db' id.
Proof. intros [_ _ _ Hd] (d & Hin & Hid). exists d. split; [by eapply prefix_elem|done]. Qed.

Lemma closed_up_later in_ db db' r : ClosingInv db → later db db' → closed_up in_ db r → closed_up in_ db' r.
Proof.
  intros Hinv Hl (row & Hr & Hd). destruct (settled_row_later _ _ _ _ _ Hinv Hl Hr) as (row' & Hr' & Hid).
  exists row'. split; [done|]. rewrite Hid. by eapply has_document_later.
Qed.

(** ** Calls on course

    Whatever has happened by the time of its next transaction, a call keeps the
    invariant and stays on course; and if it returns a result, it has closed up. *)
Fixpoint on_course (in_ : ClosePeriodInput) (p : service ClosePeriodResult) (db : Db) : Prop :=
  match p with
  | Return (Ok r) => closed_up in_ db r
  | Return (Err _) => True
  | Call m k => ∀ db1, later db db1 → ClosingInv db1 →
      let r := run m db1 in proceeds db1 r.2 ∧ on_course in_ (k r.1) r.2
  end.

Lemma on_course_later in_ p db db' : ClosingInv db → later db db' → on_course in_ p db → on_course in_ p db'.
Proof.
  intros Hinv Hl. destruct p as [[r|e]|X m k]; simpl; [by apply closed_up_later|done|].
  intros H db1 Hl1 Hinv1. apply H; [by etrans|done].
Qed.

Lemma on_course_call {X} in_ (m : M X) k db :
  (∀ db1 a db2, later db db1 → ClosingInv db1 → m db1 = Ok (a, db2) →
     proceeds db1 db2 ∧ (ClosingInv db2 → on_course in_ (k (Ok a)) db2)) →
  (∀ db1 e, later db db1 → ClosingInv db1 → m db1 = Err e → on_course in_ (k (Err e)) db1) →
  on_course in_ (Call m k) db.
Proof.
  intros Hok Herr db1 Hl Hinv. unfold run. destruct (m db1) as [[a db2]|e] eqn:E; simpl.
  - destruct (Hok db1 a db2 Hl Hinv E) as [[Hl' Hinv'] Hk]. split; [by split|auto].
  - split; [done|]. by eapply Herr.
Qed.

Lemma on_course_then {X} in_ (m : M X) f db :
  (∀ db1 a db2, later db db1 → ClosingInv db1 → m db1 = Ok (a, db2) →
     proceeds db1 db2 ∧ (ClosingInv db2 → on_course in_ (f a) db2)) →
  on_course in_ (call_then m f) db.
Proof. intros Hok. by apply on_course_call. Qed.

(** ** The steps of a call *)
Lemma GetInvoiceDocument_ok organizationID id db d db' :
  GetInvoiceDocument None organizationID id db = Ok (d, db') →
  db' = db ∧ d ∈ bt_documents (db_billing db) ∧ drow_InvoiceID d = id.
Proof.
  unfold GetInvoiceDocument, tenantRead, getInvoiceDocument. intros (x & db1 & [-> ->]%gets_ok & H)%bind_ok.
  apply (proj1 (bscan_ok _ _ _ _)), select_in in H as (Hin & Hp & ->). by reflect_go.
Qed.

Lemma PutInvoiceDocument_stored organizationID id document data db u db' :
  PutInvoiceDocument None organizationID id document data db = Ok (u, db') → has_document db' id.
Proof.
  unfold PutInvoiceDocument. intros (? & db1 & [_ ->]%require_ok & H)%bind_ok.
  apply bind_ok in H as (b & db1 & [-> ->]%gets_ok & H). apply bind_ok in H as (inserted & db1 & Hi & H).
  destruct inserted as [row|].
  - apply ret_ok in H as [_ ->]. destruct (existsb _ _); [|by apply ret_ok in Hi as [[=] _]].
    apply try_err_ok in Hi as [(a & [= <-] & Hi)|([=] & _)].
    apply insert_or_nothing_ok, insert_row_ok in Hi as (-> & _ & _ & ->).
    eexists (mkDocumentRow id _ _). split; [|done]. change (bt_documents (db_billing (t_put ?l db))) with l.
    apply elem_of_app. right. by left.
  - apply bind_ok in H as (d & db2 & (-> & Hd & Hid)%GetInvoiceDocument_ok & [_ ->]%require_ok). by exists d.
Qed.

Definition step_ok (in_ : ClosePeriodInput) (k : Invoice → service ClosePeriodResult) (P : Db → Invoice → Prop) : Prop :=
  ∀ db i, ClosingInv db → P db i → on_course in_ (k i) db.

Lemma document_step_on_course in_ i now k db :
  ClosingInv db → (∃ row, settled_row in_ db i row) →
  step_ok in_ k (fun db i => ∃ row, settled_row in_ db i row ∧ has_document db (inv_ID row)) →
  on_course in_ (document_step None in_ i now k) db.
Proof.
  intros Hinv (row & Hr) Hk. unfold document_step. apply on_course_call.
  - intros db1 d db2 Hl Hinv1 (-> & Hd & Hid)%GetInvoiceDocument_ok. split; [done|]. intros _. apply Hk; [done|].
    destruct (settled_row_later _ _ _ _ _ Hinv Hl Hr) as (row' & Hr' & Heq). exists row'. split; [done|].
    exists d. split; [done|]. rewrite Hid, Heq. destruct Hr as [[_ _ Hb _] _ _]. by injection Hb.
  - intros db1 e Hl Hinv1 _. destruct e; try done. destruct (RenderInvoice i now) as [[data document]|e]; [|done].
    apply on_course_then. intros db2 u db3 Hl2 Hinv2 Hp. apply PutInvoiceDocument_stored in Hp as Hd.
    apply PutInvoiceDocument_proceeds in Hp. split; [done|]. intros Hinv3. apply Hk; [done|].
    assert (later db db3) as Hl3 by (etrans; [done|]; etrans; [done|]; apply Hp).
    destruct (settled_row_later _ _ _ _ _ Hinv Hl3 Hr) as (row' & [[H1 H2 H3 H4] H5 H6] & Heq).
    exists row'. split; [|by rewrite Heq; destruct Hr as [[_ _ Hb _] _ _]; injection Hb as <- _ _].
    split; [|done..]. split; [done..| |by destruct i]. rewrite <- H3. by destruct i.
Qed.

Lemma settle_step_on_course in_ i ledgerID now k db :
  ClosingInv db → (∃ row, asked in_ db i row ∧ paid_by db row ledgerID) →
  step_ok in_ k (fun db i => ∃ row, settled_row in_ db i row) →
  on_course in_ (settle_step None in_ i ledgerID now k) db.
Proof.
  intros Hinv (row & Has & Hp) Hk. unfold settle_step. destruct (_ || _) eqn:Hc.
  - apply on_course_then. intros db1 j db2 Hl Hinv1 H.
    destruct (asked_later _ _ _ _ _ Hinv Hl Has) as (row1 & Has1 & Hf & _).
    destruct (paid_later _ _ _ _ _ Hl Hf Hp) as [Hp1 Hled1].
    apply RecordInvoiceSettlement_settles in H as (Hs & row2 & Hshow & Hid2 & _).
    assert (inv_ID row1 = inv_ID i) as Hid1 by (destruct Has1 as [_ _ Hb _]; by injection Hb).
    assert (ClosingInv db2) as Hinv2 by by (eapply settles_inv; [done|apply Has1|..]).
    pose proof (settles_later _ _ _ _ _ Hs) as Hl2. split; [done|]. intros _. apply Hk; [done|].
    assert (row2 = settle_if (inv_ID i) (pg_time (UTC now)) row1) as ->.
    { destruct Hs as [Hcore _ _ _ _]. apply (same_invoice_id (core db2)); [apply Hinv2|apply Hshow| |].
      - rewrite Hcore. apply list_elem_of_fmap. exists row1. split; [done|apply Has1].
      - rewrite Hid2, <- Hid1. by destruct (final_fields _ _ (settle_if_final (inv_ID row1) (pg_time (UTC now)) row1)). }
    pose proof (final_fields _ _ (settle_if_final (inv_ID i) (pg_time (UTC now)) row1)) as (_ & Hsp & Ht).
    assert (inv_State (settle_if (inv_ID i) (pg_time (UTC now)) row1) = InvoiceStateSettled) as Hst.
    { rewrite <- Hid1. eapply settle_if_settles; [apply Hinv1|apply Has1]. }
    exists (settle_if (inv_ID i) (pg_time (UTC now)) row1). split; [|done|].
    + pose proof (shows_fields _ _ _ Hshow) as Hfs. split; [apply Hshow|by rewrite Hsp; apply Has1| |by rewrite Hst].
      injection Hfs as ? _ Hcur _ _ ? _ _ _. unfold bill. congruence.
    + rewrite Ht. intros (e & ? & ?)%Hp1. exists e. split; [by destruct Hs as [_ -> _ _ _]|].
      eapply debit_of_stays; [apply Hl2|apply settle_if_final|done].
  - apply orb_false_iff in Hc as [Hc _]. apply Hk; [done|]. exists row. split; [done| |apply Hp].
    apply Has. by reflect_go.
Qed.
(** An invoice that shows a ledger entry is paid by it. *)
Lemma shown_ledger db i row : ClosingInv db → shows db i row → inv_SettlementLedgerID i ≠ "" →
  ∃ e, e ∈ db_entries db ∧ entry_ID e = inv_SettlementLedgerID i ∧ debit_of db row e.
Proof.
  intros [Hcore [_ _ H3 _]] (Hrow & d & Heq).
  assert (inv_SettlementLedgerID i = match find (fun l => link_InvoiceID l == inv_ID row) (bt_links (db_billing db)) with
    Some l => link_LedgerEntryID l | None => "" end) as -> by (rewrite Heq; by destruct row).
  destruct (find _ _) as [l|] eqn:Hf; [|done]. intros Hne. apply find_some_iff in Hf as [Hin Hid]. reflect_go.
  destruct (H3 l Hin Hne) as (j & e & Hj & Hjid & ? & ? & ?).
  assert (j = row) as -> by (apply (same_invoice_id (core db)); [done..|congruence]). by exists e.
Qed.

Variable actorID : string.

Lemma debit_step_on_course in_ account i now k db :
  ClosingInv db → (∃ row, asked in_ db i row ∧ (inv_SettlementLedgerID i = "" ∨ shows db i row)) →
  inv_Currency i = account_Currency account →
  org_account_id db (close_OrganizationID in_) = Some (account_ID account) →
  (∀ db' ledgerID intentID posted, ClosingInv db' → (∃ row, asked in_ db' i row ∧ paid_by db' row ledgerID) →
     on_course in_ (k ledgerID intentID posted) db') →
  on_course in_ (debit_step actorID None account i in_ now k) db.
Proof.
  intros Hinv (row & Has & Hled) Hcur Hacc Hk. unfold debit_step. destruct (_ && _) eqn:Hc.
  - apply on_course_then. intros db1 r db2 Hl Hinv1 H.
    destruct (asked_later _ _ _ _ _ Hinv Hl Has) as (row1 & Has1 & Hf & _).
    assert (inv_OrganizationID row1 = close_OrganizationID in_) as Horg by (destruct Has1 as [_ Hs _ _]; by injection Hs).
    assert (org_account_id db1 (inv_OrganizationID row1) = Some (account_ID account)) as Hacc1.
    { rewrite Horg. eapply later_same_account; [apply Hl|done]. }
    destruct (invoice_debit_proceeds _ _ _ row1 _ _ _ _ _ (as_row _ _ _ _ Has1) (as_bill _ _ _ _ Has1) Hcur Hacc1 H)
      as (Hp & He & Hd).
    split; [done|]. intros Hinv2. apply Hk; [done|].
    destruct (asked_later _ _ _ _ _ Hinv1 (proj1 Hp) Has1) as (row2 & Has2 & Hf2 & _). exists row2. split; [done|].
    assert (debit_of db2 row2 (posted_Entry r)) as Hd2 by (by eapply debit_of_stays).
    split; [intros _|right]; by exists (posted_Entry r).
  - apply Hk; [done|]. exists row. split; [done|].
    destruct (decide (inv_SettlementLedgerID i = "")) as [Hi|Hi].
    + rewrite Hi in Hc |- *. rewrite bool_decide_eq_true_2, andb_true_r in Hc by done. split; [|by left].
      destruct Has as [_ _ Hb _]. injection Hb as _ _ Ht. rewrite <- Ht. rewrite Z.gtb_ltb in Hc. apply Z.ltb_ge in Hc. lia.
    + destruct Hled as [?|Hled]; [done|]. destruct (shown_ledger _ _ _ Hinv Hled Hi) as (e & ? & ? & ?).
      split; [intros _|right]; by exists e.
Qed.

Lemma GetCommercialAccountByOrganization_ok organizationID db a db' :
  GetCommercialAccountByOrganization None organizationID Settlement db = Ok (a, db') →
  db' = db ∧ org_account_id db organizationID = Some (account_ID a) ∧ account_Currency a = Settlement.
Proof.
  unfold GetCommercialAccountByOrganization. intros (? & db1 & [_ ->]%require_ok & H)%bind_ok.
  apply scan_ok, select_ok in H as [Hf ->]. split; [done|]. unfold org_account_id. cbn [t_rows accounts_table] in Hf.
  rewrite Hf. split; [done|]. apply find_some_iff in Hf as [_ Hp]. unfold by_organization in Hp. by reflect_go.
Qed.

Lemma ClosePeriod_on_course in_ now db : ClosingInv db → on_course in_ (ClosePeriod actorID None now in_) db.
Proof.
  intros Hinv. unfold ClosePeriod. destruct (_ || _); [done|]. apply on_course_then.
  intros db1 account db2 Hl1 Hinv1 (-> & Hacc & Hcur)%GetCommercialAccountByOrganization_ok. split; [done|intros _].
  destruct (negb (CanSettle _)); [done|]. apply on_course_then. intros db2 prepared db3 Hl2 Hinv2 H.
  apply PrepareInvoice_proceeds in H as Hp. split; [done|intros Hinv3].
  destruct prepared as [[i created]|e]; [|done].
  apply PrepareInvoice_result in H as (_ & row & Hrow & Hspan & Hret & _ & Hled); [|apply Hinv2].
  destruct (_ != _) eqn:Hc; [done|]. apply negb_false_iff in Hc. reflect_go.
  apply debit_step_on_course; [done| |done|..].
  - exists row. split; [|done]. injection Hret as ? ? ? Hst. split; [done| |unfold bill; congruence|by rewrite Hst].
    rewrite Hspan. unfold request_span, prepare_input, close_span. cbn. by rewrite Hcur.
  - eapply later_same_account; [|done]. etrans; [apply Hl2|apply Hp].
  - intros db4 ledgerID intentID posted Hinv4 Hpaid. apply settle_step_on_course; [done..|].
    intros db5 j Hinv5 Hset. apply document_step_on_course; [done..|].
    intros db6 k Hinv6 Hdone. apply Hdone.
Qed.
End calls.

(** ** The system *)
Record call := mkCall { call_in : ClosePeriodInput; call_rest : service ClosePeriodResult }.
Record system := mkSystem {
  sys_db : Db;
  sys_calls : list call;
  sys_results : list (ClosePeriodInput * ClosePeriodResult)
}.

Section system.
Context {pg : Postgres} {dg : Digest} {bx : BillingExternal}.

(** An operation elsewhere, the start of a call, its next transaction, its result; or its
    end without one, by an error or because the process stopped. *)
Inductive system_step (s : system) : system → Prop :=
  | ss_operation op :
      elsewhere op → system_step s (mkSystem (run_billing (sys_db s) op) (sys_calls s) (sys_results s))
  | ss_start actorID in_ now :
      system_step s (mkSystem (sys_db s) (sys_calls s ++ [mkCall in_ (ClosePeriod actorID None now in_)]) (sys_results s))
  | ss_transaction l c r X (m : M X) k :
      sys_calls s = l ++ c :: r → call_rest c = Call m k →
      system_step s (mkSystem (run m (sys_db s)).2 (l ++ mkCall (call_in c) (k (run m (sys_db s)).1) :: r) (sys_results s))
  | ss_return l c r res :
      sys_calls s = l ++ c :: r → call_rest c = Return (Ok res) →
      system_step s (mkSystem (sys_db s) (l ++ r) ((call_in c, res) :: sys_results s))
  | ss_stop l c r :
      sys_calls s = l ++ c :: r → system_step s (mkSystem (sys_db s) (l ++ r) (sys_results s)).

Record SystemInv (s : system) : Prop := {
  si_db : ClosingInv (sys_db s);
  si_calls : Forall (fun c => on_course (call_in c) (call_rest c) (sys_db s)) (sys_calls s);
  si_results : Forall (fun p => closed_up p.1 (sys_db s) p.2) (sys_results s)
}.

Lemma SystemInv_proceeds db db' cs rs :
  proceeds db db' → SystemInv (mkSystem db cs rs) → SystemInv (mkSystem db' cs rs).
Proof.
  intros [Hl Hi] [Hinv Hc Hr]. split; simpl in *; [auto|..].
  - eapply Forall_impl; [exact Hc|]. intros c. by apply on_course_later.
  - eapply Forall_impl; [exact Hr|]. intros p. by apply closed_up_later.
Qed.

Lemma system_step_inv s s' : system_step s s' → SystemInv s → SystemInv s'.
Proof.
  intros Hs Hinv. destruct Hs as [op Hop|actorID in_ now|l c r X m k Hcs Hc|l c r res Hcs Hc|l c r Hcs].
  - apply (SystemInv_proceeds (sys_db s)); [by apply run_elsewhere|by destruct s].
  - destruct Hinv as [Hdb Hcalls Hres]. split; simpl; [done| |done]. apply Forall_app. split; [done|].
    constructor; [by apply ClosePeriod_on_course|constructor].
  - destruct Hinv as [Hdb Hcalls Hres]. rewrite Hcs in Hcalls.
    apply Forall_app in Hcalls as [Hl [Hon Hr]%Forall_cons]. rewrite Hc in Hon.
    destruct (Hon (sys_db s)) as [Hp Hk]; [done..|].
    destruct (SystemInv_proceeds (sys_db s) (run m (sys_db s)).2 (l ++ r) (sys_results s)) as [H1 H2 H3]; [done| |].
    { split; [done| |done]. by apply Forall_app. }
    split; simpl in *; [done| |done]. apply Forall_app in H2 as [? ?]. apply Forall_app. split; [done|]. by constructor.
  - destruct Hinv as [Hdb Hcalls Hres]. rewrite Hcs in Hcalls.
    apply Forall_app in Hcalls as [Hl [Hon Hr]%Forall_cons]. rewrite Hc in Hon.
    split; simpl; [done|by apply Forall_app|by constructor].
  - destruct Hinv as [Hdb Hcalls Hres]. rewrite Hcs in Hcalls. apply Forall_app in Hcalls as [Hl [_ Hr]%Forall_cons].
    split; simpl; [done|by apply Forall_app|done].
Qed.

(** A store without invoices and debits. *)
Record no_invoices (db : Db) : Prop := {
  ni_core : empty_core (core db);
  ni_debits : filter is_debit (db_entries db) = [];
  ni_links : bt_links (db_billing db) = []
}.

Lemma no_invoices_inv db : no_invoices db → ClosingInv db.
Proof.
  intros [Hc Hd Hl]. assert (bc_invoices (core db) = []) as Hi by (unfold empty_core in Hc; by rewrite Hc).
  split; [by apply empty_BillingInv|]. constructor; rewrite ?Hl, ?Hd, ?Hi.
  - intros e Hin Hde. assert (e ∈ filter is_debit (db_entries db)) as H by by apply list_elem_of_filter.
    rewrite Hd in H. by apply elem_of_nil in H.
  - constructor.
  - by intros l ?%elem_of_nil.
  - by intros i ?%elem_of_nil.
Qed.

Lemma system_inv db s : no_invoices db → rtc system_step (mkSystem db [] []) s → SystemInv s.
Proof.
  intros Hdb Hs. assert (SystemInv (mkSystem db [] [])) as H0 by (split; [by apply no_invoices_inv|constructor..]).
  induction Hs as [|s1 s2 s3 Hstep _ IH]; [done|]. by eapply IH, system_step_inv.
Qed.

(** Uninterrupted calls, and operations in sequence. *)
Lemma serve_runs in_ (p : service ClosePeriodResult) db r db' rs :
  serve p db = (Ok r, db') → rtc system_step (mkSystem db [mkCall in_ p] rs) (mkSystem db' [] ((in_, r) :: rs)).
Proof.
  revert db. induction p as [[res|e]|X m k IH]; intros db H; simpl in H; [|done|].
  - injection H as [= -> ->]. apply rtc_once. by apply (ss_return (mkSystem db' [mkCall in_ (Return (Ok r))] rs) [] (mkCall in_ (Return (Ok r))) []).
  - destruct (run m db) as [x db1] eqn:E. eapply rtc_l; [|by apply (IH x db1)].
    pose proof (ss_transaction (mkSystem db [mkCall in_ (Call m k)] rs) [] (mkCall in_ (Call m k)) [] X m k eq_refl eq_refl) as Hs.
    simpl in Hs. by rewrite E in Hs.
Qed.
Lemma operations_run ops db cs rs : Forall elsewhere ops →
  rtc system_step (mkSystem db cs rs) (mkSystem (run_billing_all ops db) cs rs).
Proof.
  intros Hops. revert db. induction Hops as [|op ops Hop _ IH]; intros db; [done|].
  eapply rtc_l; [by apply ss_operation|apply IH].
Qed.

(** C12: A call of [ClosePeriod] that returns a result has closed the period up, and it stays
    so: its invoice is the one of the period, it is settled, its debit is in the ledger
    unless its total is zero, and its document is stored. *)
Theorem ClosePeriod_closes db s in_ r :
  no_invoices db → rtc system_step (mkSystem db [] []) s → (in_, r) ∈ sys_results s → closed_up in_ (sys_db s) r.
Proof.
  intros Hdb Hs Hr. pose proof (si_results _ (system_inv db s Hdb Hs)) as H. rewrite Forall_forall in H.
  by apply (H (in_, r)).
Qed.
End system.

(** ** At the demonstration store *)
#[local] Existing Instances demo_pg demo_dg.

Definition demo_close : ClosePeriodInput := mkClosePeriodInput "org" (1 * Second) (100 * Second) 0 "request".
Definition demo_closing : Result ClosePeriodResult * Db := Eval vm_compute in
  serve (ClosePeriod "billing" None demo_now demo_close) demo_usage_db.
Definition demo_result : ClosePeriodResult := Eval vm_compute in
  match demo_closing.1 with Ok r => r | Err _ => mkClosePeriodResult demo_invoice "" false end.
Definition demo_closed_db : Db := Eval vm_compute in demo_closing.2.
Definition demo_debit_entry : option LedgerEntry := Eval vm_compute in last (db_entries demo_closed_db).

Lemma demo_closing_runs : rtc system_step (mkSystem demo_db [] []) (mkSystem demo_closed_db [] [(demo_close, demo_result)]).
Proof.
  etrans; [apply (operations_run demo_usage_ops); repeat constructor|].
  eapply rtc_l; [apply (ss_start _ "billing" demo_close demo_now)|]. simpl. apply serve_runs. by vm_compute.
Qed.
Lemma demo_no_invoices : no_invoices demo_db.
Proof. by vm_compute. Qed.


Lemma ClosePeriod_closes_witness : closed_up demo_close demo_closed_db demo_result ∧ closed_Duplicate demo_result = false.
Proof.
  split; [|done]. apply (ClosePeriod_closes demo_db _ demo_close demo_result demo_no_invoices demo_closing_runs). left.
Defined.
